(** * ACER replay buffer, Retrace targets and trust-region projection

    A shallow embedding of [baselines/acer/buffer.py] and of the numeric
    core of [baselines/acer/acer_simple.py] ([q_retrace] and the
    trust-region adjustment of [Model.__init__]), and of the rollout
    runner of [baselines/acer/acer_simple.py] ([Runner.update_obs] and
    [Runner.run]).

    - Python integers are [Z]; [//] and [%] are [Z.div] and [Z.modulo]
      (both floor towards minus infinity, like Python's), with the
      [ZeroDivisionError] written out.
    - A numpy array is a shape and its row-major contents.  Contents are
      integers: [uint8] frames, [int32] actions, booleans as 0/1 and the
      0/1 keep masks of [decode]; [float32] rewards and probabilities are
      only copied by the buffer, never computed with.  Conversions between
      dtypes are not modelled.
    - Exceptions are the name of the class that is raised.
    - The buffer object and the arrays it owns live in a store; arrays are
      addressed by location, [np.empty] and [np.zeros] allocate.
    - TensorFlow tensors of [q_retrace] and of the projection are lists of
      exact rationals ([Qc]); rounding of [float32] is not modelled.
    - The stack of frames of the runner lives in a store of its own: an
      update in place writes the array at its location, [np.roll] allocates,
      and the views of [np.split] read their array when they are read.  The
      environments and the model are transitions on an abstract world. *)

From Stdlib Require Import String ZArith List Lia Bool Arith.
From Stdlib Require Import QArith Qcanon.
Import ListNotations.

Open Scope Z_scope.

(** ** Results and exceptions *)

Definition exn := string.

Inductive result (A : Type) : Type :=
| Ok (a : A)
| Raise (e : exn).
Arguments Ok {A} a.
Arguments Raise {A} e.

Definition AssertionError : exn := "AssertionError"%string.
Definition IndexError : exn := "IndexError"%string.
Definition ValueError : exn := "ValueError"%string.
Definition ZeroDivisionError : exn := "ZeroDivisionError"%string.
Definition AttributeError : exn := "AttributeError"%string.
Definition TypeError : exn := "TypeError"%string.

Definition rbind {A B} (r : result A) (k : A -> result B) : result B :=
  match r with
  | Ok a => k a
  | Raise e => Raise e
  end.

Declare Scope result_scope.
Delimit Scope result_scope with res.
Notation "x <- c ;; k" := (rbind c (fun x => k))
  (at level 61, c at next level, right associativity) : result_scope.

(** ** numpy arrays *)

Module Np.

Record ndarray : Type := mk_ndarray { shape : list nat; data : list Z }.

(** Number of elements of an array of shape [sh]. *)
Definition numel (sh : list nat) : nat := fold_right Nat.mul 1%nat sh.

(** [data[lo:hi]] on a flat list. *)
Definition segment (lo hi : nat) (l : list Z) : list Z :=
  firstn (hi - lo) (skipn lo l).

(** An array whose contents fill its shape. *)
Definition well_formed (a : ndarray) : Prop :=
  length (data a) = numel (shape a).

(** Row-major position of a multi-index, and back. *)
Fixpoint ravel (sh idx : list nat) : nat :=
  match sh, idx with
  | n :: sh', i :: idx' => (i * numel sh' + ravel sh' idx')%nat
  | _, _ => 0%nat
  end.

Fixpoint unravel (sh : list nat) (k : nat) : list nat :=
  match sh with
  | [] => []
  | n :: sh' => (k / numel sh')%nat :: unravel sh' (k mod numel sh')%nat
  end.

(** The array of shape [sh] whose element at multi-index [j] is [f j]. *)
Definition tabulate (sh : list nat) (f : list nat -> Z) : ndarray :=
  mk_ndarray sh (map (fun k => f (unravel sh k)) (seq 0 (numel sh))).

Definition at_index (a : ndarray) (idx : list nat) : Z :=
  nth (ravel (shape a) idx) (data a) 0.

(** A Python list of integers used as a shape. *)
Definition as_shape (sh : list Z) : result (list nat) :=
  if forallb (fun n => 0 <=? n) sh then Ok (map Z.to_nat sh)
  else Raise ValueError.

(** [np.zeros(sh)]. *)
Definition zeros (sh : list Z) : result ndarray :=
  (s <- as_shape sh ;; Ok (mk_ndarray s (repeat 0 (numel s))))%res.

(** [np.empty(sh)]: the cells hold whatever was in memory, [junk]. *)
Definition empty (junk : Z) (sh : list Z) : result ndarray :=
  (s <- as_shape sh ;; Ok (mk_ndarray s (repeat junk (numel s))))%res.

(** [np.reshape(a, sh)] with an explicit shape (no [-1]). *)
Definition reshape (a : ndarray) (sh : list Z) : result ndarray :=
  (s <- as_shape sh ;;
   if (numel s =? numel (shape a))%nat then Ok (mk_ndarray s (data a))
   else Raise ValueError)%res.

(** [a.transpose(perm)]: axis [d] of the result is axis [perm[d]] of [a]. *)
Definition src_index (perm j : list nat) : list nat :=
  map (fun m => hd 0%nat (map snd (filter (fun pd => (fst pd =? m)%nat)
                                          (combine perm j))))
      (seq 0 (length perm)).

Definition is_perm (perm : list nat) : bool :=
  forallb (fun m => existsb (Nat.eqb m) perm) (seq 0 (length perm)).

Definition transpose (a : ndarray) (perm : list nat) : result ndarray :=
  if ((length perm =? length (shape a))%nat && is_perm perm)%bool then
    Ok (tabulate (map (fun m => nth m (shape a) 0%nat) perm)
                 (fun j => at_index a (src_index perm j)))
  else Raise ValueError.

(** [a.swapaxes(1, 0)]. *)
Definition swapaxes10 (a : ndarray) : result ndarray :=
  match shape a with
  | _ :: _ :: rest =>
      transpose a (1%nat :: 0%nat :: seq 2 (length rest))
  | _ => Raise ValueError
  end.

(** Python index normalisation on an axis of length [n]: negative
    indices count from the end. *)
Definition norm_index (n : nat) (i : Z) : result nat :=
  if (0 <=? i) && (i <? Z.of_nat n) then Ok (Z.to_nat i)
  else if (- Z.of_nat n <=? i) && (i <? 0) then Ok (Z.to_nat (Z.of_nat n + i))
  else Raise IndexError.

(** Python slice bound normalisation: negative bounds count from the
    end, and every bound is clamped to [0, n]. *)
Definition norm_bound (n : nat) (i : Z) : nat :=
  if i <? 0 then Z.to_nat (Z.max 0 (Z.of_nat n + i))
  else Nat.min n (Z.to_nat i).

(** Broadcasting [a] to the shape [sh] (same rank, or [a] of lower rank):
    an axis of length 1 is repeated. *)
Fixpoint pad_ones (k : nat) (sh : list nat) : list nat :=
  match k with
  | O => sh
  | S k' => 1%nat :: pad_ones k' sh
  end.

Fixpoint can_broadcast (src dst : list nat) : bool :=
  match src, dst with
  | [], [] => true
  | s :: src', d :: dst' =>
      ((s =? d)%nat || (s =? 1)%nat) && can_broadcast src' dst'
  | _, _ => false
  end.

Definition clip_index (sh idx : list nat) : list nat :=
  map (fun ni => if (fst ni =? 1)%nat then 0%nat else snd ni) (combine sh idx).

Definition broadcast_to (a : ndarray) (sh : list nat) : result ndarray :=
  let src := pad_ones (length sh - length (shape a)) (shape a) in
  if can_broadcast src sh then
    Ok (tabulate sh (fun j => nth (ravel src (clip_index src j)) (data a) 0))
  else Raise ValueError.

(** The value of an assignment [target[...] = v]: [v] is broadcast to the
    shape of the target; leading axes of length 1 that [v] has in excess
    are dropped first. *)
Fixpoint drop_ones (k : nat) (sh : list nat) : list nat :=
  match k, sh with
  | S k', 1%nat :: sh' => drop_ones k' sh'
  | _, _ => sh
  end.

Definition assign_value (v : ndarray) (target : list nat) : result ndarray :=
  broadcast_to
    (mk_ndarray (drop_ones (length (shape v) - length target) (shape v))
                (data v))
    target.

(** The shape two operands broadcast to. *)
Fixpoint broadcast_shapes (s1 s2 : list nat) : option (list nat) :=
  match s1, s2 with
  | [], [] => Some []
  | n1 :: s1', n2 :: s2' =>
      match broadcast_shapes s1' s2' with
      | Some r =>
          if (n1 =? n2)%nat then Some (n1 :: r)
          else if (n1 =? 1)%nat then Some (n2 :: r)
          else if (n2 =? 1)%nat then Some (n1 :: r)
          else None
      | None => None
      end
  | _, _ => None
  end.

(** [a * b], elementwise with broadcasting. *)
Definition multiply (a b : ndarray) : result ndarray :=
  let r := Nat.max (length (shape a)) (length (shape b)) in
  let sa := pad_ones (r - length (shape a)) (shape a) in
  let sb := pad_ones (r - length (shape b)) (shape b) in
  match broadcast_shapes sa sb with
  | Some sh =>
      (a' <- broadcast_to a sh ;;
       b' <- broadcast_to b sh ;;
       Ok (mk_ndarray sh (map (fun xy => fst xy * snd xy)
                              (combine (data a') (data b')))))%res
  | None => Raise ValueError
  end.

(** [1.0 - a]. *)
Definition one_minus (a : ndarray) : ndarray :=
  mk_ndarray (shape a) (map (fun d => 1 - d) (data a)).

(** [a[lo:hi]] along axis 0, bounds already normalised. *)
Definition slice0 (a : ndarray) (lo hi : nat) : result ndarray :=
  match shape a with
  | n :: rest =>
      let st := numel rest in
      Ok (mk_ndarray ((hi - lo)%nat :: rest)
                     (segment (lo * st) (hi * st) (data a)))
  | [] => Raise IndexError
  end.

(** [a[start:]] and [a[:stop]] with Python's bounds. *)
Definition slice_from (a : ndarray) (start : Z) : result ndarray :=
  match shape a with
  | n :: _ => slice0 a (norm_bound n start) n
  | [] => Raise IndexError
  end.

Definition slice_to (a : ndarray) (stop : Z) : result ndarray :=
  match shape a with
  | n :: _ => slice0 a 0 (norm_bound n stop)
  | [] => Raise IndexError
  end.

(** [a[lo:hi] = v] along axis 0 (bounds normalised), [v] broadcast. *)
Definition set_slice0 (a : ndarray) (lo hi : nat) (v : ndarray)
  : result ndarray :=
  match shape a with
  | n :: rest =>
      let st := numel rest in
      (v' <- assign_value v ((hi - lo)%nat :: rest) ;;
       Ok (mk_ndarray (shape a)
             (firstn (lo * st) (data a) ++ data v'
              ++ skipn (Nat.max lo hi * st) (data a))))%res
  | [] => Raise IndexError
  end.

Definition set_slice_from (a : ndarray) (start : Z) (v : ndarray)
  : result ndarray :=
  match shape a with
  | n :: _ => set_slice0 a (norm_bound n start) n v
  | [] => Raise IndexError
  end.

Definition set_slice_to (a : ndarray) (stop : Z) (v : ndarray)
  : result ndarray :=
  match shape a with
  | n :: _ => set_slice0 a 0 (norm_bound n stop) v
  | [] => Raise IndexError
  end.

(** A Python scalar as a 0-dimensional array. *)
Definition scalar (x : Z) : ndarray := mk_ndarray [] [x].

(** [a[i]] and [a[i] = v] along axis 0, with a Python index. *)
Definition getitem (a : ndarray) (i : Z) : result ndarray :=
  match shape a with
  | n :: rest =>
      (k <- norm_index n i ;;
       Ok (mk_ndarray rest
             (segment (k * numel rest) (S k * numel rest) (data a))))%res
  | [] => Raise IndexError
  end.

Definition setitem (a : ndarray) (i : Z) (v : ndarray) : result ndarray :=
  match shape a with
  | n :: rest =>
      (k <- norm_index n i ;;
       v' <- assign_value v rest ;;
       Ok (mk_ndarray (shape a)
             (firstn (k * numel rest) (data a) ++ data v'
              ++ skipn (S k * numel rest) (data a))))%res
  | [] => Raise IndexError
  end.

(** [a[i, j]]. *)
Definition getitem2 (a : ndarray) (i j : Z) : result ndarray :=
  (r <- getitem a i ;; getitem r j)%res.

(** [a[i, start:] = v]. *)
Definition set_row_from (a : ndarray) (i start : Z) (v : ndarray)
  : result ndarray :=
  (row <- getitem a i ;;
   row' <- set_slice_from row start v ;;
   setitem a i row')%res.

(** [a[:, start:]]. *)
Definition slice1_from (a : ndarray) (start : Z) : result ndarray :=
  match shape a with
  | n :: m :: rest =>
      let lo := norm_bound m start in
      let st := numel rest in
      Ok (mk_ndarray (n :: (m - lo)%nat :: rest)
            (flat_map (fun r => segment ((r * m + lo) * st)
                                        ((r * m + m) * st) (data a))
                      (seq 0 n)))
  | _ => Raise IndexError
  end.

End Np.

(** ** The replay buffer of [acer/buffer.py] *)

Module ReplayBuffer.

Import Np.

Definition loc := nat.

(** What [Buffer.__init__] reads of its environment: [env.num_envs] and
    [env.observation_space.shape], a triple. *)
Record Env : Type := mk_Env {
  num_envs : Z;
  observation_space_shape : Z * Z * Z
}.

(** The attributes of a [Buffer] object.  An array attribute is [None] or
    the location of the array it refers to. *)
Record Buffer : Type := mk_Buffer {
  n_env : Z;
  n_steps : Z;
  height : Z;
  width : Z;
  n_channels : Z;
  n_stack : Z;
  n_batch : Z;
  size : Z;
  enc_obs : option loc;
  actions : option loc;
  rewards : option loc;
  mus : option loc;
  dones : option loc;
  masks : option loc;
  next_idx : Z;
  num_in_buffer : Z
}.

(** The store: the buffer object and the arrays allocated so far. *)
Record state : Type := mk_state { self : Buffer; heap : list ndarray }.

(** Computations that read and write the store and may raise. *)
Definition M (A : Type) : Type := state -> result A * state.

Definition ret {A} (a : A) : M A := fun s => (Ok a, s).

Definition raise {A} (e : exn) : M A := fun s => (Raise e, s).

Definition bind {A B} (m : M A) (k : A -> M B) : M B :=
  fun s =>
    match m s with
    | (Ok a, s') => k a s'
    | (Raise e, s') => (Raise e, s')
    end.

Definition lift {A} (r : result A) : M A := fun s => (r, s).

Declare Scope m_scope.
Delimit Scope m_scope with M.
Notation "x <- c ;; k" := (bind c (fun x => k))
  (at level 61, c at next level, right associativity) : m_scope.
Notation "c ;;; k" := (bind c (fun _ => k))
  (at level 61, right associativity) : m_scope.

Definition get_self : M Buffer := fun s => (Ok (self s), s).

Definition set_self (b : Buffer) : M unit :=
  fun s => (Ok tt, mk_state b (heap s)).

(** A new array object. *)
Definition alloc (a : ndarray) : M loc :=
  fun s => (Ok (length (heap s)), mk_state (self s) (heap s ++ [a])).

Definition load (l : loc) : M ndarray :=
  fun s =>
    match nth_error (heap s) l with
    | Some a => (Ok a, s)
    | None => (Raise TypeError, s)
    end.

Fixpoint update {A} (l : list A) (i : nat) (x : A) : list A :=
  match l, i with
  | [], _ => []
  | _ :: l', O => x :: l'
  | y :: l', S i' => y :: update l' i' x
  end.

(** In-place change of the array at [l]. *)
Definition store (l : loc) (a : ndarray) : M unit :=
  fun s => (Ok tt, mk_state (self s) (update (heap s) l a)).

(** Assignments to the attributes of [self]. *)
Definition with_enc_obs (b : Buffer) (v : option loc) : Buffer :=
  mk_Buffer (n_env b) (n_steps b) (height b) (width b) (n_channels b)
    (n_stack b) (n_batch b) (size b) v (actions b) (rewards b) (mus b)
    (dones b) (masks b) (next_idx b) (num_in_buffer b).

Definition with_actions (b : Buffer) (v : option loc) : Buffer :=
  mk_Buffer (n_env b) (n_steps b) (height b) (width b) (n_channels b)
    (n_stack b) (n_batch b) (size b) (enc_obs b) v (rewards b) (mus b)
    (dones b) (masks b) (next_idx b) (num_in_buffer b).

Definition with_rewards (b : Buffer) (v : option loc) : Buffer :=
  mk_Buffer (n_env b) (n_steps b) (height b) (width b) (n_channels b)
    (n_stack b) (n_batch b) (size b) (enc_obs b) (actions b) v (mus b)
    (dones b) (masks b) (next_idx b) (num_in_buffer b).

Definition with_mus (b : Buffer) (v : option loc) : Buffer :=
  mk_Buffer (n_env b) (n_steps b) (height b) (width b) (n_channels b)
    (n_stack b) (n_batch b) (size b) (enc_obs b) (actions b) (rewards b) v
    (dones b) (masks b) (next_idx b) (num_in_buffer b).

Definition with_dones (b : Buffer) (v : option loc) : Buffer :=
  mk_Buffer (n_env b) (n_steps b) (height b) (width b) (n_channels b)
    (n_stack b) (n_batch b) (size b) (enc_obs b) (actions b) (rewards b)
    (mus b) v (masks b) (next_idx b) (num_in_buffer b).

Definition with_masks (b : Buffer) (v : option loc) : Buffer :=
  mk_Buffer (n_env b) (n_steps b) (height b) (width b) (n_channels b)
    (n_stack b) (n_batch b) (size b) (enc_obs b) (actions b) (rewards b)
    (mus b) (dones b) v (next_idx b) (num_in_buffer b).

Definition with_next_idx (b : Buffer) (v : Z) : Buffer :=
  mk_Buffer (n_env b) (n_steps b) (height b) (width b) (n_channels b)
    (n_stack b) (n_batch b) (size b) (enc_obs b) (actions b) (rewards b)
    (mus b) (dones b) (masks b) v (num_in_buffer b).

Definition with_num_in_buffer (b : Buffer) (v : Z) : Buffer :=
  mk_Buffer (n_env b) (n_steps b) (height b) (width b) (n_channels b)
    (n_stack b) (n_batch b) (size b) (enc_obs b) (actions b) (rewards b)
    (mus b) (dones b) (masks b) (next_idx b) v.

(** [for i in range(n): body(i)]. *)
Fixpoint for_from {S} (i : Z) (count : nat) (body : Z -> S -> result S)
  (s : S) : result S :=
  match count with
  | O => Ok s
  | Datatypes.S c => (s' <- body i s ;; for_from (i + 1) c body s')%res
  end.

Definition for_range {S} (n : Z) (body : Z -> S -> result S) (s : S)
  : result S :=
  for_from 0 (Z.to_nat n) body s.

Fixpoint for_from_m (i : Z) (count : nat) (body : Z -> M unit) : M unit :=
  match count with
  | O => ret tt
  | Datatypes.S c => (body i ;;; for_from_m (i + 1) c body)%M
  end.

Definition for_range_m (n : Z) (body : Z -> M unit) : M unit :=
  for_from_m 0 (Z.to_nat n) body.

(** [l[i]] on a one-dimensional integer array. *)
Definition index (l : list Z) (i : Z) : result Z :=
  (k <- norm_index (length l) i ;; Ok (nth k l 0))%res.

(** [np.arange(n)]. *)
Definition arange (n : Z) : list Z := map Z.of_nat (seq 0 (Z.to_nat n)).

(** [Buffer.__init__(self, env, n_steps, n_stack, size)]. *)
Definition init (env : Env) (n_steps n_stack size : Z) : result Buffer :=
  let n_env := num_envs env in
  let '(height, width, n_channels) := observation_space_shape env in
  let n_batch := n_env * n_steps in
  if n_steps =? 0 then Raise ZeroDivisionError
  else
    Ok (mk_Buffer n_env n_steps height width n_channels n_stack n_batch
          (size / n_steps) None None None None None None 0 0).

(** [Buffer.has_atleast(self, frames)]. *)
Definition has_atleast (b : Buffer) (frames : Z) : result bool :=
  if n_steps b =? 0 then Raise ZeroDivisionError
  else Ok (num_in_buffer b >=? frames / n_steps b).

(** [Buffer.can_sample(self)]. *)
Definition can_sample (b : Buffer) : bool := num_in_buffer b >? 0.

Section WithMemory.

(** The content of uninitialised memory, as [np.empty] returns it. *)
Variable junk : Z.

(** [Buffer.decode(self, enc_obs, dones)].  The arrays it creates are
    local to the call; the state of the loop is [(obs, x_var, y_var)]. *)
Definition decode_step (i : Z) (s : ndarray * ndarray * ndarray)
  : result (ndarray * ndarray * ndarray) :=
  let '(obs, x_var, y_var) := s in
  (obs <- set_row_from obs (- (i + 1)) i x_var ;;
   x <- slice_to x_var (-1) ;;
   x_var <- multiply x y_var ;;
   y_var <- slice_from y_var 1 ;;
   Ok (obs, x_var, y_var))%res.

Definition decode (b : Buffer) (enc_obs' dones' : ndarray) : result ndarray :=
  let n_stack := n_stack b in
  let n_env := n_env b in
  let n_steps := n_steps b in
  let height := height b in
  let width := width b in
  let n_channels := n_channels b in
  (y_var <- empty junk [n_steps + n_stack - 1; n_env; 1; 1; 1] ;;
   obs <- zeros [n_stack; n_steps + n_stack; n_env; height; width; n_channels] ;;
   x <- reshape enc_obs' [n_env; n_steps + n_stack; height; width; n_channels] ;;
   x_var <- swapaxes10 x ;;
   k <- reshape (one_minus dones') [n_env; n_steps; 1; 1; 1] ;;
   keep <- swapaxes10 k ;;
   y_var <- set_slice_from y_var 3 keep ;;
   y_var <- set_slice_to y_var 3 (scalar 1) ;;
   s <- for_range n_stack decode_step (obs, x_var, y_var) ;;
   let '(obs, _, _) := s in
   o <- slice1_from obs 3 ;;
   t <- transpose o [2; 1; 3; 4; 0; 5]%nat ;;
   reshape t [n_env; n_steps + 1; height; width; n_stack * n_channels])%res.

(** [np.empty(sh)] as a new object of the store. *)
Definition np_empty (sh : list Z) : M loc :=
  (a <- lift (empty junk sh) ;; alloc a)%M.

(** [target[i] = v] where [target] is an attribute of [self]. *)
Definition setitem_at (target : option loc) (i : Z) (v : ndarray) : M unit :=
  match target with
  | None => raise TypeError
  | Some l =>
      (a <- load l ;;
       a' <- lift (setitem a i v) ;;
       store l a')%M
  end.

Definition shape_list (a : ndarray) : list Z := map Z.of_nat (shape a).

(** [Buffer.put(self, enc_obs, actions, rewards, mus, dones, masks)],
    in two parts: the allocation of the storage, done by the first call,
    and the writes into the slot [next_idx]. *)
Definition put_allocate (enc_obs' actions' rewards' mus' dones' masks' : ndarray)
  : M unit :=
  (b <- get_self ;;
   l <- np_empty (size b :: shape_list enc_obs') ;;
   b <- get_self ;; set_self (with_enc_obs b (Some l)) ;;;
   l <- np_empty (size b :: shape_list actions') ;;
   b <- get_self ;; set_self (with_actions b (Some l)) ;;;
   l <- np_empty (size b :: shape_list rewards') ;;
   b <- get_self ;; set_self (with_rewards b (Some l)) ;;;
   l <- np_empty (size b :: shape_list mus') ;;
   b <- get_self ;; set_self (with_mus b (Some l)) ;;;
   l <- np_empty (size b :: shape_list dones') ;;
   b <- get_self ;; set_self (with_dones b (Some l)) ;;;
   l <- np_empty (size b :: shape_list masks') ;;
   b <- get_self ;; set_self (with_masks b (Some l)))%M.

Definition put_write (enc_obs' actions' rewards' mus' dones' masks' : ndarray)
  : M unit :=
  (b <- get_self ;;
   setitem_at (enc_obs b) (next_idx b) enc_obs' ;;;
   setitem_at (actions b) (next_idx b) actions' ;;;
   setitem_at (rewards b) (next_idx b) rewards' ;;;
   setitem_at (mus b) (next_idx b) mus' ;;;
   setitem_at (dones b) (next_idx b) dones' ;;;
   setitem_at (masks b) (next_idx b) masks' ;;;
   (if size b =? 0 then raise ZeroDivisionError
    else set_self (with_next_idx b ((next_idx b + 1) mod size b))) ;;;
   b <- get_self ;;
   set_self (with_num_in_buffer b (Z.min (size b) (num_in_buffer b + 1))))%M.

Definition put (enc_obs' actions' rewards' mus' dones' masks' : ndarray)
  : M unit :=
  (b <- get_self ;;
   match enc_obs b with
   | None => put_allocate enc_obs' actions' rewards' mus' dones' masks'
   | Some _ => ret tt
   end ;;;
   put_write enc_obs' actions' rewards' mus' dones' masks')%M.

(** [Buffer.take(self, arr, idx, envx)]; [take_body] is one round of its
    loop, [out[i] = arr[idx[i], envx[i]]]. *)
Definition take_body (idx envx : list Z) (arr out : loc) (i : Z) : M unit :=
  (ii <- lift (index idx i) ;;
   ee <- lift (index envx i) ;;
   a <- load arr ;;
   v <- lift (getitem2 a ii ee) ;;
   o <- load out ;;
   o' <- lift (setitem o i v) ;;
   store out o')%M.

Definition take (arr : option loc) (idx envx : list Z) : M loc :=
  (b <- get_self ;;
   let n_env := n_env b in
   l <- match arr with
        | Some l => ret l
        | None => raise AttributeError
        end ;;
   a <- load l ;;
   out <- np_empty (n_env :: skipn 2 (shape_list a)) ;;
   for_range_m n_env (take_body idx envx l out) ;;;
   ret out)%M.

(** [self.decode(enc_obs, dones)] on two arrays of the store; the result
    is a new array. *)
Definition decode_m (enc_obs' dones' : loc) : M loc :=
  (b <- get_self ;;
   e <- load enc_obs' ;;
   d <- load dones' ;;
   r <- lift (decode b e d) ;;
   alloc r)%M.

(** [Buffer.get(self)].  [draw] is what
    [np.random.randint(0, self.num_in_buffer, n_env)] returns. *)
Definition get (draw : list Z)
  : M (loc * loc * loc * loc * loc * loc) :=
  (b <- get_self ;;
   let n_env := n_env b in
   (if can_sample b then ret tt else raise AssertionError) ;;;
   let idx := draw in
   let envx := arange n_env in
   dones' <- take (dones b) idx envx ;;
   enc_obs' <- take (enc_obs b) idx envx ;;
   obs <- decode_m enc_obs' dones' ;;
   actions' <- take (actions b) idx envx ;;
   rewards' <- take (rewards b) idx envx ;;
   mus' <- take (mus b) idx envx ;;
   masks' <- take (masks b) idx envx ;;
   ret (obs, actions', rewards', mus', dones', masks'))%M.

End WithMemory.

(** A new [Buffer] in an empty store. *)
Definition new_buffer (env : Env) (n_steps n_stack size : Z) : result state :=
  (b <- init env n_steps n_stack size ;; Ok (mk_state b []))%res.

(** One rollout batch, the six arguments of [put]. *)
Record Batch : Type := mk_Batch {
  batch_enc_obs : ndarray;
  batch_actions : ndarray;
  batch_rewards : ndarray;
  batch_mus : ndarray;
  batch_dones : ndarray;
  batch_masks : ndarray
}.

Definition put_batch (junk : Z) (bt : Batch) : M unit :=
  put junk (batch_enc_obs bt) (batch_actions bt) (batch_rewards bt)
      (batch_mus bt) (batch_dones bt) (batch_masks bt).

(** One call of [put] for each batch of [bts], in order. *)
Fixpoint put_all (junk : Z) (bts : list Batch) : M unit :=
  match bts with
  | [] => ret tt
  | bt :: bts' => (put_batch junk bt ;;; put_all junk bts')%M
  end.

(** Slot [j] of the storage, as a batch. *)
Definition slot_of (st : state) (field : Buffer -> option loc) (j : Z)
  : result ndarray :=
  match field (self st) with
  | Some l =>
      match nth_error (heap st) l with
      | Some a => getitem a j
      | None => Raise TypeError
      end
  | None => Raise TypeError
  end.

Definition slot (st : state) (j : Z) : result Batch :=
  (e <- slot_of st enc_obs j ;;
   a <- slot_of st actions j ;;
   r <- slot_of st rewards j ;;
   m <- slot_of st mus j ;;
   d <- slot_of st dones j ;;
   k <- slot_of st masks j ;;
   Ok (mk_Batch e a r m d k))%res.

(** The batches the buffer holds, oldest first: the [num_in_buffer] slots
    that end just before [next_idx], in circular order. *)
Definition logical_content (st : state) : list (result Batch) :=
  let b := self st in
  map (fun i => slot st ((next_idx b - num_in_buffer b + i) mod size b))
      (arange (num_in_buffer b)).

(** The shapes of the six arrays of a batch, and the batches [put]
    receives: arrays that fill their shapes. *)
Definition batch_shapes (bt : Batch) : list (list nat) :=
  [shape (batch_enc_obs bt); shape (batch_actions bt);
   shape (batch_rewards bt); shape (batch_mus bt);
   shape (batch_dones bt); shape (batch_masks bt)].

Definition batch_well_formed (bt : Batch) : Prop :=
  well_formed (batch_enc_obs bt) /\ well_formed (batch_actions bt) /\
  well_formed (batch_rewards bt) /\ well_formed (batch_mus bt) /\
  well_formed (batch_dones bt) /\ well_formed (batch_masks bt).

(** The store of a buffer that allocated its storage in an empty store:
    six arrays of [size] slots, one slot of each having the shapes [shs]. *)
Definition owns (st : state) (shs : list (list nat)) : Prop :=
  exists a0 a1 a2 a3 a4 a5,
    heap st = [a0; a1; a2; a3; a4; a5] /\
    enc_obs (self st) = Some 0%nat /\ actions (self st) = Some 1%nat /\
    rewards (self st) = Some 2%nat /\ mus (self st) = Some 3%nat /\
    dones (self st) = Some 4%nat /\ masks (self st) = Some 5%nat /\
    map shape [a0; a1; a2; a3; a4; a5] =
      map (cons (Z.to_nat (size (self st)))) shs /\
    Forall well_formed [a0; a1; a2; a3; a4; a5].

(** The state of a buffer of [n] slots after the batches [bts] were put,
    in this order: batch number [m] sits in slot [m mod n] until it is
    overwritten [n] calls later. *)
Definition ring_inv (st : state) (n : Z) (shs : list (list nat))
  (bts : list Batch) : Prop :=
  owns st shs /\ size (self st) = n /\
  next_idx (self st) = Z.of_nat (length bts) mod n /\
  num_in_buffer (self st) = Z.min n (Z.of_nat (length bts)) /\
  forall m bt, nth_error bts m = Some bt ->
               Z.of_nat (length bts) <= Z.of_nat m + n ->
               slot st (Z.of_nat m mod n) = Ok bt.

(** The batches [put] is given: arrays that fill their shapes, of the
    same shapes [shs] from one batch to the next. *)
Definition uniform (shs : list (list nat)) (bts : list Batch) : Prop :=
  Forall (fun bt => batch_well_formed bt /\ batch_shapes bt = shs) bts.

(** Frame specifications.  [triple n P m Q]: run from a store that
    satisfies [P] and has at least [n] arrays, [m] leaves the buffer object
    and the first [n] arrays as they are, never removes an array, and its
    result satisfies [Q] in the store it ends in. *)
Definition triple {A} (n : nat) (P : state -> Prop) (m : M A)
  (Q : A -> state -> Prop) : Prop :=
  forall s r s',
    P s -> (n <= length (heap s))%nat -> m s = (r, s') ->
    self s' = self s /\
    firstn n (heap s') = firstn n (heap s) /\
    (length (heap s) <= length (heap s'))%nat /\
    forall a, r = Ok a -> Q a s'.

(** Assertions that only depend on how many arrays the store has, and
    computations that do not change the store. *)
Definition stable (P : state -> Prop) : Prop :=
  forall s s', P s -> (length (heap s) <= length (heap s'))%nat -> P s'.

Definition reads_only {A} (m : M A) : Prop :=
  forall s r s', m s = (r, s') -> s' = s.

(** The storage of a buffer that received rollout batches of the
    documented shapes: slots of [n_steps + n_stack] frames and [n_steps]
    termination flags for each environment; the other four arrays hold one
    entry for each slot and environment. *)
Definition stored (st : state) (field : Buffer -> option loc)
  (rest : list nat) : Prop :=
  exists l a,
    field (self st) = Some l /\ nth_error (heap st) l = Some a /\
    shape a = Z.to_nat (size (self st)) :: Z.to_nat (n_env (self st)) :: rest.

Definition holds_rollouts (st : state) : Prop :=
  let b := self st in
  0 <= n_env b /\ 0 <= n_steps b /\
  0 <= height b /\ 0 <= width b /\ 0 <= n_channels b /\
  0 <= num_in_buffer b <= size b /\
  stored st enc_obs
    [Z.to_nat (n_steps b + n_stack b); Z.to_nat (height b);
     Z.to_nat (width b); Z.to_nat (n_channels b)] /\
  stored st dones [Z.to_nat (n_steps b)] /\
  (exists rest, stored st actions rest) /\
  (exists rest, stored st rewards rest) /\
  (exists rest, stored st mus rest) /\
  (exists rest, stored st masks rest).

(** What [decode] is to compute with four stacked frames, entry by entry:
    the keep mask between the frames [u] and [u + 1] of environment [e]
    (1 for the three lookback frames, [1 - done] inside the window), and
    the product of the [count] masks from frame [u] on. *)
Definition keep_mask (dones' : ndarray) (e u : nat) : Z :=
  if (u <? 3)%nat then 1 else 1 - at_index dones' [e; (u - 3)%nat].

Fixpoint keep_product (dones' : ndarray) (e u count : nat) : Z :=
  match count with
  | O => 1
  | S c => keep_mask dones' e u * keep_product dones' e (S u) c
  end.

(** The legal outcomes of [np.random.randint(low, high, n)]. *)
Definition randint_outcome (low high n : Z) (draw : list Z) : Prop :=
  Z.of_nat (length draw) = n /\ Forall (fun x => low <= x < high) draw.

End ReplayBuffer.

(** ** Tensors of rationals *)

Module Tensor.

Local Open Scope Qc_scope.

(** [tf.minimum] and [tf.maximum] on scalars. *)
Definition Qcmin (x y : Qc) : Qc :=
  match x ?= y with
  | Gt => y
  | _ => x
  end.

Definition Qcmax (x y : Qc) : Qc :=
  match x ?= y with
  | Lt => y
  | _ => x
  end.

(** Elementwise operation on two tensors of the same shape. *)
Fixpoint map2 {A B C} (f : A -> B -> C) (a : list A) (b : list B) : list C :=
  match a, b with
  | x :: a', y :: b' => f x y :: map2 f a' b'
  | _, _ => []
  end.

Definition vadd (a b : list Qc) : list Qc := map2 Qcplus a b.
Definition vsub (a b : list Qc) : list Qc := map2 Qcminus a b.
Definition vmul (a b : list Qc) : list Qc := map2 Qcmult a b.

(** A Python scalar times a tensor, and [1.0 - t]. *)
Definition vscale (c : Qc) (a : list Qc) : list Qc := map (Qcmult c) a.
Definition vone_minus (a : list Qc) : list Qc := map (fun d => 1 - d) a.

Definition sum (a : list Qc) : Qc := fold_right Qcplus 0 a.

End Tensor.

(** ** The Retrace targets of [acer_simple.py] *)

Module Retrace.

Import Tensor.
Local Open Scope Qc_scope.

(** Modelled from the spec: [batch_to_seq], [seq_to_batch] and
    [check_shape] of [baselines/a2c/utils.py] are not among the sources.
    A batch is flat, environment by environment ("per-parallel-environment,
    per-timestep arrays"); [batch_to_seq] with [flat=True] turns it into
    the list, over the steps, of the vectors over the environments
    ("list of len steps, shape [n_envs]" in [q_retrace]), and
    [seq_to_batch] with [flat=True] is the way back.  [check_shape]
    asserts the static shapes of a list of tensors. *)
Definition batch_to_seq (h : list Qc) (n_batch n_steps : nat)
  : result (list (list Qc)) :=
  if (n_steps =? 0)%nat then Raise ValueError
  else if (length h =? n_batch * n_steps)%nat then
    Ok (map (fun t => map (fun e => nth (e * n_steps + t) h 0) (seq 0 n_batch))
            (seq 0 n_steps))
  else Raise ValueError.

Definition seq_to_batch (h : list (list Qc)) : result (list Qc) :=
  match h with
  | [] => Raise IndexError
  | h0 :: _ =>
      if forallb (fun v => (length v =? length h0)%nat) h then
        Ok (flat_map (fun e => map (fun v => nth e v 0) h) (seq 0 (length h0)))
      else Raise ValueError
  end.

Definition check_shape (ts : list (list Qc)) (n : nat) : result unit :=
  if forallb (fun t => (length t =? n)%nat) ts then Ok tt
  else Raise AssertionError.

(** The body of the loop of [q_retrace] at step [i]; its state is
    [(qret, qrets)]. *)
Definition q_retrace_step (n_envs : nat) (gamma : Qc)
  (reward_seq done_seq rho_bar q_is value_sequence : list (list Qc))
  (i : nat) (s : list Qc * list (list Qc))
  : result (list Qc * list (list Qc)) :=
  let '(qret, qrets) := s in
  (_ <- check_shape [qret; nth i done_seq []; nth i reward_seq [];
                     nth i rho_bar []; nth i q_is [];
                     nth i value_sequence []] n_envs ;;
   let qret := vadd (nth i reward_seq [])
                    (vmul (vscale gamma qret) (vone_minus (nth i done_seq []))) in
   let qrets := qrets ++ [qret] in
   let qret := vadd (vmul (nth i rho_bar []) (vsub qret (nth i q_is [])))
                    (nth i value_sequence []) in
   Ok (qret, qrets))%res.

(** [for i in l: s = body(i, s)]. *)
Fixpoint for_each {S} (l : list nat) (body : nat -> S -> result S) (s : S)
  : result S :=
  match l with
  | [] => Ok s
  | i :: l' => (s' <- body i s ;; for_each l' body s')%res
  end.

(** [range(n - 1, -1, -1)]. *)
Definition range_down (n : nat) : list nat := rev (seq 0 n).

(** [q_retrace(rewards, dones, q_i, values, rho_i, n_envs, n_steps, gamma)]. *)
Definition q_retrace (rewards dones q_i values rho_i : list Qc)
  (n_envs n_steps : nat) (gamma : Qc) : result (list Qc) :=
  (rho_bar <- batch_to_seq (map (Qcmin 1) rho_i) n_envs n_steps ;;
   reward_seq <- batch_to_seq rewards n_envs n_steps ;;
   done_seq <- batch_to_seq dones n_envs n_steps ;;
   q_is <- batch_to_seq q_i n_envs n_steps ;;
   value_sequence <- batch_to_seq values n_envs (n_steps + 1) ;;
   let final_value := last value_sequence [] in
   let qret := final_value in
   let qrets := [] in
   s <- for_each (range_down n_steps)
          (q_retrace_step n_envs gamma reward_seq done_seq rho_bar q_is
                          value_sequence)
          (qret, qrets) ;;
   let qrets := rev (snd s) in
   seq_to_batch qrets)%res.

(** The recursion as the specification words it, for one environment:
    the per-step lists are in forward time order, [carry] is the value
    past the end of the window.  [retrace_spec] returns the raw targets
    in forward time order and the carry before the first step. *)
Fixpoint retrace_spec (gamma : Qc)
  (rewards dones rho q_taken values : list Qc) (bootstrap : Qc)
  : list Qc * Qc :=
  match rewards, dones, rho, q_taken, values with
  | r :: rewards', d :: dones', p :: rho', q :: q_taken', v :: values' =>
      let '(targets, carry) :=
        retrace_spec gamma rewards' dones' rho' q_taken' values' bootstrap in
      let raw_target := r + gamma * (1 - d) * carry in
      (raw_target :: targets, v + Qcmin 1 p * (raw_target - q))
  | _, _, _, _, _ => ([], bootstrap)
  end.

(** The steps of environment [e] in a flat batch of [n_steps] steps. *)
Definition env_steps (h : list Qc) (n_steps e : nat) : list Qc :=
  firstn n_steps (skipn (e * n_steps) h).

(** Component [e] of every vector of a sequence. *)
Definition column (e : nat) (sq : list (list Qc)) : list Qc :=
  map (fun v => nth e v 0) sq.

(** The recursion of the specification from step [m] on, for per-step
    values given by index, and the state of the loop of [q_retrace] once
    the steps [N - 1] down to [m] are done: [qret] holds the carry of every
    environment and [qrets] the raw targets, last step first. *)
Definition spec_from (gamma : Qc) (N : nat) (r d rho q v : nat -> Qc)
  (m : nat) : list Qc * Qc :=
  retrace_spec gamma (map r (seq m (N - m))) (map d (seq m (N - m)))
    (map rho (seq m (N - m))) (map q (seq m (N - m)))
    (map v (seq m (N - m))) (v N).

Definition loop_inv (E N : nat) (gamma : Qc)
  (r d rho q v : nat -> nat -> Qc) (m : nat)
  (s : list Qc * list (list Qc)) : Prop :=
  length (fst s) = E /\
  Forall (fun x => length x = E) (snd s) /\
  length (snd s) = (N - m)%nat /\
  forall e, (e < E)%nat ->
    nth e (fst s) 0 = snd (spec_from gamma N (r e) (d e) (rho e) (q e) (v e) m) /\
    column e (rev (snd s))
    = fst (spec_from gamma N (r e) (d e) (rho e) (q e) (v e) m).

(** A sequence of [N] vectors over [E] environments whose entries are
    given by [f]. *)
Definition tabulated (E N : nat) (f : nat -> nat -> Qc)
  (sq : list (list Qc)) : Prop :=
  forall t, (t < N)%nat ->
    length (nth t sq []) = E /\
    forall e, (e < E)%nat -> nth e (nth t sq []) 0 = f e t.

(** The n-step bootstrapped return: the discounted sum of the rewards
    plus the discounted bootstrap value. *)
Fixpoint n_step_return (gamma : Qc) (rewards : list Qc) (bootstrap : Qc) : Qc :=
  match rewards with
  | [] => bootstrap
  | r :: rewards' => r + gamma * n_step_return gamma rewards' bootstrap
  end.

(** The same as a sum: [sum_i gamma^i r_i + gamma^n V]. *)
Definition discounted_sum (gamma : Qc) (rewards : list Qc) : Qc :=
  sum (map (fun ir => gamma ^ fst ir * snd ir)
           (combine (seq 0 (length rewards)) rewards)).

End Retrace.

(** ** The trust-region adjustment of [Model.__init__] *)

Module TrustRegion.

Import Tensor.
Local Open Scope Qc_scope.

Definition eps : Qc := Q2Qc (1 # 1000000).

(** Tensors of shape [[n_envs * n_steps, n_act]] are lists of rows. *)
Definition tensor := list (list Qc).

Definition same_shape (a b : tensor) : bool :=
  ((length a =? length b)%nat
   && forallb (fun ab => (length (fst ab) =? length (snd ab))%nat)
              (combine a b))%bool.

(** [a * b], [tf.square(a)], [a - b] and [tf.reduce_sum(a, axis=-1)]. *)
Definition tmul (a b : tensor) : tensor := map2 vmul a b.
Definition tsquare (a : tensor) : tensor := map (map (fun x => x * x)) a.
Definition tsub (a b : tensor) : tensor := map2 vsub a b.
Definition reduce_sum (a : tensor) : list Qc := map sum a.

(** [tf.reshape(adj, [n_envs * n_steps, 1]) * kl_grad]: the column is
    broadcast along the actions. *)
Definition col_mul (adj : list Qc) (a : tensor) : tensor :=
  map2 (fun c row => vscale c row) adj a.

(** [kl_grad = - f_polyak / (distribution_f + eps)]. *)
Definition kl_gradient (f_polyak distribution_f : tensor) : tensor :=
  map2 (map2 (fun p f => - p / (f + eps))) f_polyak distribution_f.

(** The branch [if trust_region:] of [Model.__init__], from [kl_grad] and
    the gradient [grad] of the policy objective to the adjusted [grad]. *)
Definition adjustment (kl_grad grad : tensor) (delta : Qc) : list Qc :=
  map2 (fun d s => Qcmax 0 ((d - delta) / (s + eps)))
       (reduce_sum (tmul kl_grad grad))
       (reduce_sum (tsquare kl_grad)).

Definition adjusted_grad (kl_grad grad : tensor) (delta : Qc) : result tensor :=
  if same_shape kl_grad grad then
    let adj := adjustment kl_grad grad delta in
    Ok (tsub grad (col_mul adj kl_grad))
  else Raise ValueError.

(** The projection of one sample as the specification words it. *)
Definition dot (k g : list Qc) : Qc := sum (vmul k g).

Definition project_sample (k g : list Qc) (delta : Qc) : list Qc :=
  let adj := Qcmax 0 ((dot k g - delta) / (dot k k + eps)) in
  vsub g (vscale adj k).

End TrustRegion.

(** ** Fixtures *)

Module Fixtures.

Import Np ReplayBuffer.

(** A pool of one environment with 1x1x1 observations. *)
Definition env1 : Env := mk_Env 1 (1, 1, 1).

(** The array of shape [sh] filled with [x], and the one whose cells are
    numbered from 1 in row-major order. *)
Definition full (sh : list nat) (x : Z) : ndarray :=
  mk_ndarray sh (repeat x (numel sh)).

Definition numbered (sh : list nat) : ndarray :=
  mk_ndarray sh (map Z.of_nat (seq 1 (numel sh))).

(** A rollout batch of [env1]: frames, actions, rewards and two action
    probabilities all equal to [x], no termination. *)
Definition batch1 (n_steps n_stack : nat) (x : Z) : Batch :=
  mk_Batch (full [1; n_steps + n_stack; 1; 1; 1]%nat x)
           (full [1; n_steps]%nat x)
           (full [1; n_steps]%nat x)
           (full [1; n_steps; 2]%nat x)
           (full [1; n_steps]%nat 0)
           (full [1; n_steps + 1]%nat 0).

(** A new buffer of 3 slots for rollouts of 2 steps and 4 stacked
    frames, and the batches put into it. *)
Definition buffer3 : state :=
  mk_state (mk_Buffer 1 2 1 1 1 4 2 3 None None None None None None 0 0) [].

Definition batches4 : list Batch :=
  [batch1 2 4 1; batch1 2 4 2; batch1 2 4 3; batch1 2 4 4].

(** The buffer after one batch. *)
Definition buffer3_one : state := snd (put_batch 0 (batch1 2 4 1) buffer3).

(** The episode of three steps with rewards 1, 0 and 2, discounted by
    0.9: a critic whose Q estimates are its values, full importance
    weights, and a value of 1 past the end of the window. *)
Definition ex_rewards : list Qc := [Q2Qc 1; Q2Qc 0; Q2Qc 2].
Definition ex_dones : list Qc := [Q2Qc 0; Q2Qc 0; Q2Qc 0].
Definition ex_q : list Qc := [Q2Qc 5; Q2Qc 6; Q2Qc 7].
Definition ex_values : list Qc := [Q2Qc 5; Q2Qc 6; Q2Qc 7; Q2Qc 1].
Definition ex_rho : list Qc := [Q2Qc 1; Q2Qc 2; Q2Qc 3].
Definition ex_gamma : Qc := Q2Qc (9 # 10).

(** Two samples over two actions: the first gradient is within the
    trust region of radius 1, the second is not. *)
Definition ex_kl_grad : list (list Qc) :=
  [[Q2Qc (-1); Q2Qc (-1)]; [Q2Qc (-1); Q2Qc (-1)]].
Definition ex_grad : list (list Qc) :=
  [[Q2Qc 2; Q2Qc 3]; [Q2Qc (-2); Q2Qc (-3)]].

End Fixtures.

(** ** The rollout runner of [acer_simple.py] *)

Module Rollout.

Import Np.

Definition AxisError : exn := "AxisError"%string.

(** [a[:, None, None, None]]. *)
Definition expand3 (a : ndarray) : result ndarray :=
  match shape a with
  | n :: rest => Ok (mk_ndarray (n :: 1 :: 1 :: 1 :: rest)%nat (data a))
  | [] => Raise IndexError
  end.

(** [a *= m]: the product is written into [a], so [m] is broadcast to the
    shape of [a]. *)
Definition imul (a m : ndarray) : result ndarray :=
  (m' <- broadcast_to m (shape a) ;;
   Ok (mk_ndarray (shape a)
         (map (fun xy => fst xy * snd xy) (combine (data a) (data m')))))%res.

(** The position on axis 3 of a multi-index, and the multi-index with
    another position there. *)
Definition axis3 (idx : list nat) : nat := nth 3 idx 0%nat.

Definition set_axis3 (idx : list nat) (j : nat) : list nat :=
  firstn 3 idx ++ j :: skipn 4 idx.

(** [np.roll(a, shift, axis=3)]: a new array. *)
Definition roll3 (a : ndarray) (shift : Z) : result ndarray :=
  if (4 <=? length (shape a))%nat then
    Ok (tabulate (shape a)
          (fun idx =>
             at_index a
               (set_axis3 idx
                  (Z.to_nat ((Z.of_nat (axis3 idx) - shift)
                             mod Z.of_nat (axis3 (shape a)))))))
  else Raise AxisError.

(** [v[:, :, :, :]]. *)
Definition full_slice4 (v : ndarray) : result ndarray :=
  if (4 <=? length (shape v))%nat then Ok v else Raise IndexError.

(** [a[:, :, :, start:] = v]. *)
Definition set_axis3_from (a : ndarray) (start : Z) (v : ndarray)
  : result ndarray :=
  if (4 <=? length (shape a))%nat then
    let k := axis3 (shape a) in
    let lo := norm_bound k start in
    (v' <- assign_value v (set_axis3 (shape a) (k - lo)) ;;
     Ok (tabulate (shape a)
           (fun idx =>
              if (axis3 idx <? lo)%nat then at_index a idx
              else at_index v' (set_axis3 idx (axis3 idx - lo)))))%res
  else Raise IndexError.

(** A view [a[:, :, :, lo:hi]] on the array at [base], as [np.split]
    returns them: it reads the array as it is when the view is read. *)
Record view : Type := mk_view { base : ReplayBuffer.loc; lo : nat; hi : nat }.

(** [np.split(a, n, axis=3)] for the array [a] at [l]. *)
Definition split3 (l : ReplayBuffer.loc) (a : ndarray) (n : Z)
  : result (list view) :=
  if (length (shape a) <? 4)%nat then Raise IndexError
  else if n =? 0 then Raise ZeroDivisionError
  else if (n <? 0) || negb (Z.of_nat (axis3 (shape a)) mod n =? 0)
  then Raise ValueError
  else
    let each := (axis3 (shape a) / Z.to_nat n)%nat in
    Ok (map (fun i => mk_view l (i * each) (S i * each))
            (seq 0 (Z.to_nat n))).

Definition view_value (a : ndarray) (lo hi : nat) : ndarray :=
  tabulate (set_axis3 (shape a) (hi - lo))
           (fun idx => at_index a (set_axis3 idx (axis3 idx + lo))).

(** An entry of the list [enc_obs] of [run]: a view on the stack, or an
    array the environment returned. *)
Inductive item : Type :=
| Item_view (v : view)
| Item_array (a : ndarray).

(** [np.asarray(l)] on a list of arrays. *)
Definition same_shape (a b : ndarray) : bool :=
  if list_eq_dec Nat.eq_dec (shape a) (shape b) then true else false.

Definition asarray (l : list ndarray) : result ndarray :=
  match l with
  | [] => Ok (mk_ndarray [0%nat] [])
  | a :: _ =>
      if forallb (same_shape a) l then
        Ok (mk_ndarray (length l :: shape a) (flat_map data l))
      else Raise ValueError
  end.

Section WithWorld.

(** What the runner does not own: the environments, the session of the
    model and the random state, with [model.step(obs, state, mask)] and
    [env.step(actions)] as transitions that return new arrays. *)
Variable World : Type.
Variable States : Type.
Variable model_step :
  World -> ndarray -> States -> ndarray -> ndarray * ndarray * States * World.
Variable env_step :
  World -> ndarray -> ndarray * ndarray * ndarray * World.

(** The attributes of a [Runner] that [update_obs] and [run] use. *)
Record Runner : Type := mk_Runner {
  obs : ReplayBuffer.loc;
  states : States;
  dones : ndarray;
  n_steps : Z;
  n_stack : Z;
  num_channels : Z
}.

Record state : Type := mk_state {
  self : Runner;
  world : World;
  heap : list ndarray
}.

Definition M (A : Type) : Type := state -> result A * state.

Definition ret {A} (a : A) : M A := fun s => (Ok a, s).

Definition bind {A B} (m : M A) (k : A -> M B) : M B :=
  fun s =>
    match m s with
    | (Ok a, s') => k a s'
    | (Raise e, s') => (Raise e, s')
    end.

Definition lift {A} (r : result A) : M A := fun s => (r, s).

Definition get_self : M Runner := fun s => (Ok (self s), s).

Definition set_self (r : Runner) : M unit :=
  fun s => (Ok tt, mk_state r (world s) (heap s)).

Definition alloc (a : ndarray) : M ReplayBuffer.loc :=
  fun s => (Ok (length (heap s)),
            mk_state (self s) (world s) (heap s ++ [a])).

Definition load (l : ReplayBuffer.loc) : M ndarray :=
  fun s =>
    match nth_error (heap s) l with
    | Some a => (Ok a, s)
    | None => (Raise TypeError, s)
    end.

Definition store (l : ReplayBuffer.loc) (a : ndarray) : M unit :=
  fun s => (Ok tt,
            mk_state (self s) (world s) (ReplayBuffer.update (heap s) l a)).

Definition with_obs (r : Runner) (l : ReplayBuffer.loc) : Runner :=
  mk_Runner l (states r) (dones r) (n_steps r) (n_stack r) (num_channels r).

Definition with_states (r : Runner) (s : States) : Runner :=
  mk_Runner (obs r) s (dones r) (n_steps r) (n_stack r) (num_channels r).

Definition with_dones (r : Runner) (d : ndarray) : Runner :=
  mk_Runner (obs r) (states r) d (n_steps r) (n_stack r) (num_channels r).

Definition call_model (o : ndarray) : M (ndarray * ndarray * States) :=
  fun s =>
    let '(actions, mus, states', w) :=
      model_step (world s) o (states (self s)) (dones (self s)) in
    (Ok (actions, mus, states'), mk_state (self s) w (heap s)).

Definition call_env (actions : ndarray) : M (ndarray * ndarray * ndarray) :=
  fun s =>
    let '(obs', rewards, dones', w) := env_step (world s) actions in
    (Ok (obs', rewards, dones'), mk_state (self s) w (heap s)).

Local Notation "x <- c ;; k" := (bind c (fun x => k))
  (at level 61, c at next level, right associativity).
Local Notation "c ;;; k" := (bind c (fun _ => k))
  (at level 61, right associativity).

(** [Runner.update_obs(self, obs, dones)]; [dones] is [None] or an
    array. *)
Definition update_obs (obs' : ndarray) (dones' : option ndarray) : M unit :=
  match dones' with
  | Some d =>
      r <- get_self ;;
      a <- load (obs r) ;;
      m <- lift (expand3 (one_minus d)) ;;
      a' <- lift (imul a m) ;;
      store (obs r) a'
  | None => ret tt
  end ;;;
  r <- get_self ;;
  a <- load (obs r) ;;
  rolled <- lift (roll3 a (- num_channels r)) ;;
  l <- alloc rolled ;;
  r <- get_self ;;
  set_self (with_obs r l) ;;;
  r <- get_self ;;
  a <- load (obs r) ;;
  v <- lift (full_slice4 obs') ;;
  a' <- lift (set_axis3_from a (- num_channels r) v) ;;
  store (obs r) a'.

(** The lists [run] appends to. *)
Record Lists : Type := mk_Lists {
  enc_obs : list item;
  mb_obs : list ndarray;
  mb_actions : list ndarray;
  mb_mus : list ndarray;
  mb_dones : list ndarray;
  mb_rewards : list ndarray
}.

(** One round of the loop of [run]. *)
Definition run_body (acc : Lists) : M Lists :=
  r <- get_self ;;
  o <- load (obs r) ;;
  p <- call_model o ;;
  let '(actions, mus, states') := p in
  r <- get_self ;;
  let mb_obs := mb_obs acc ++ [o] in
  let mb_actions := mb_actions acc ++ [actions] in
  let mb_mus := mb_mus acc ++ [mus] in
  let mb_dones := mb_dones acc ++ [dones r] in
  q <- call_env actions ;;
  let '(obs', rewards, dones') := q in
  r <- get_self ;;
  set_self (with_states r states') ;;;
  r <- get_self ;;
  set_self (with_dones r dones') ;;;
  update_obs obs' (Some dones') ;;;
  let mb_rewards := mb_rewards acc ++ [rewards] in
  let enc_obs := enc_obs acc ++ [Item_array obs'] in
  ret (mk_Lists enc_obs mb_obs mb_actions mb_mus mb_dones mb_rewards).

Fixpoint repeat_m (n : nat) (body : Lists -> M Lists) (acc : Lists)
  : M Lists :=
  match n with
  | O => ret acc
  | S n' => acc' <- body acc ;; repeat_m n' body acc'
  end.

(** The array an entry of [enc_obs] stands for when the list is turned
    into an array. *)
Definition read_item (it : item) : M ndarray :=
  match it with
  | Item_array a => ret a
  | Item_view v => a <- load (base v) ;; ret (view_value a (lo v) (hi v))
  end.

Fixpoint read_items (l : list item) : M (list ndarray) :=
  match l with
  | [] => ret []
  | it :: l' => a <- read_item it ;; r <- read_items l' ;; ret (a :: r)
  end.

(** [np.asarray(l).swapaxes(1, 0)]. *)
Definition batch_major (l : list ndarray) : result ndarray :=
  (a <- asarray l ;; swapaxes10 a)%res.

(** [Runner.run(self)]: the encoded observations, the stacked
    observations, the actions, rewards, action probabilities, termination
    flags and masks. *)
Definition run
  : M (ndarray * ndarray * ndarray * ndarray * ndarray * ndarray * ndarray) :=
  r <- get_self ;;
  a <- load (obs r) ;;
  views <- lift (split3 (obs r) a (n_stack r)) ;;
  acc <- repeat_m (Z.to_nat (n_steps r)) run_body
           (mk_Lists (map Item_view views) [] [] [] [] []) ;;
  r <- get_self ;;
  o <- load (obs r) ;;
  let mb_obs := mb_obs acc ++ [o] in
  let mb_dones := mb_dones acc ++ [dones r] in
  frames <- read_items (enc_obs acc) ;;
  enc_obs <- lift (batch_major frames) ;;
  mb_obs <- lift (batch_major mb_obs) ;;
  mb_actions <- lift (batch_major (mb_actions acc)) ;;
  mb_rewards <- lift (batch_major (mb_rewards acc)) ;;
  mb_mus <- lift (batch_major (mb_mus acc)) ;;
  mb_dones <- lift (batch_major mb_dones) ;;
  let mb_masks := mb_dones in
  mb_dones <- lift (slice1_from mb_dones 1) ;;
  ret (enc_obs, mb_obs, mb_actions, mb_rewards, mb_mus, mb_dones, mb_masks).

End WithWorld.

Arguments mk_Runner {States}.
Arguments obs {States}.
Arguments states {States}.
Arguments dones {States}.
Arguments n_steps {States}.
Arguments n_stack {States}.
Arguments num_channels {States}.
Arguments mk_state {World States}.
Arguments self {World States}.
Arguments world {World States}.
Arguments heap {World States}.

(** What the environments and the model are to return, for [E]
    environments, frames of shape [[H; W; C]] and [A] actions: new arrays
    of these shapes, the termination flags being 0 or 1. *)
Definition env_returns {World : Type}
  (env_step : World -> ndarray -> ndarray * ndarray * ndarray * World)
  (E H W C : nat) : Prop :=
  forall w a,
    let '(o, r, d, _) := env_step w a in
    shape o = [E; H; W; C] /\ well_formed o /\
    shape r = [E] /\
    shape d = [E] /\ well_formed d /\
    forall e, (e < E)%nat -> at_index d [e] = 0 \/ at_index d [e] = 1.

Definition model_returns {World States : Type}
  (model_step :
     World -> ndarray -> States -> ndarray ->
     ndarray * ndarray * States * World)
  (E A : nat) : Prop :=
  forall w o s d,
    let '(a, m, _, _) := model_step w o s d in
    shape a = [E] /\ shape m = [E; A].

(** The stack [s'] that follows the stack [s] of [K] channels when a
    frame [f] of [C] channels arrives with the flags [d]: the channels of
    [s] move down by [C] and are blanked where the episode ended, and [f]
    takes the last [C] channels. *)
Definition shifted (E H W K C : nat) (s f d s' : ndarray) : Prop :=
  forall e h w j,
    (e < E)%nat -> (h < H)%nat -> (w < W)%nat -> (j < K)%nat ->
    at_index s' [e; h; w; j]
    = if (j <? K - C)%nat
      then at_index s [e; h; w; (j + C)%nat] * (1 - at_index d [e])
      else at_index f [e; h; w; (j - (K - C))%nat].

(** The state of [run] after [k] rounds of its loop, started with the
    stack [S0] at [l0]: the lists hold the [k] stacks, flags, actions,
    probabilities, rewards and frames of these rounds, consecutive stacks
    are [shifted], and from the first round on the array at [l0], which
    the views of [enc_obs] read, is [S0] blanked by the flags of the
    first step. *)
Definition rollout_inv {World States : Type} (E H W K C A : nat)
  (views : list view) (l0 : ReplayBuffer.loc) (S0 : ndarray)
  (r0 : Runner States) (k : nat) (acc : Lists) (st : state World States)
  : Prop :=
  exists cur fs,
    let stacks := mb_obs acc ++ [cur] in
    let flags := mb_dones acc ++ [dones (self st)] in
    nth_error (heap st) (obs (self st)) = Some cur /\
    enc_obs acc = map Item_view views ++ map Item_array fs /\
    length fs = k /\ length (mb_obs acc) = k /\
    length (mb_dones acc) = k /\ length (mb_actions acc) = k /\
    length (mb_mus acc) = k /\ length (mb_rewards acc) = k /\
    Forall (fun a => shape a = [E; H; W; K] /\ well_formed a) stacks /\
    Forall (fun a => shape a = [E; H; W; C] /\ well_formed a) fs /\
    Forall (fun a => shape a = [E] /\ well_formed a) flags /\
    Forall (fun a => shape a = [E]) (mb_actions acc) /\
    Forall (fun a => shape a = [E; A]) (mb_mus acc) /\
    Forall (fun a => shape a = [E]) (mb_rewards acc) /\
    n_steps (self st) = n_steps r0 /\
    n_stack (self st) = n_stack r0 /\
    num_channels (self st) = num_channels r0 /\
    nth 0 stacks (scalar 0) = S0 /\
    nth 0 flags (scalar 0) = dones r0 /\
    (forall s, (s < k)%nat ->
       shifted E H W K C (nth s stacks (scalar 0)) (nth s fs (scalar 0))
               (nth (S s) flags (scalar 0)) (nth (S s) stacks (scalar 0))) /\
    (forall s e, (1 <= s <= k)%nat -> (e < E)%nat ->
       at_index (nth s flags (scalar 0)) [e] = 0 \/
       at_index (nth s flags (scalar 0)) [e] = 1) /\
    (l0 < length (heap st))%nat /\
    (k = 0%nat -> obs (self st) = l0) /\
    ((1 <= k)%nat ->
     (l0 < obs (self st))%nat /\
     exists z0,
       nth_error (heap st) l0 = Some z0 /\ shape z0 = [E; H; W; K] /\
       forall e h w j,
         (e < E)%nat -> (h < H)%nat -> (w < W)%nat -> (j < K)%nat ->
         at_index z0 [e; h; w; j]
         = at_index S0 [e; h; w; j]
           * (1 - at_index (nth 1 flags (scalar 0)) [e])).

End Rollout.

(** ** A runner for the examples *)

Module RunnerFixtures.

Import Np.

(** One environment with 1x1 frames of one channel: at its step [w] it
    returns the frame [w + 5] and the reward 1, and it ends the episode at
    every second step, the first one included.  The model returns action 0
    and the weights 1 and 1. *)
Definition env_step1 (w : nat) (actions : ndarray)
  : ndarray * ndarray * ndarray * nat :=
  (Fixtures.full [1; 1; 1; 1]%nat (Z.of_nat w + 5),
   Fixtures.full [1]%nat 1,
   Fixtures.full [1]%nat (if Nat.even w then 1 else 0),
   S w).

Definition model_step1 (w : nat) (o : ndarray) (s : unit) (mask : ndarray)
  : ndarray * ndarray * unit * nat :=
  (Fixtures.full [1]%nat 0, Fixtures.full [1; 2]%nat 1, tt, w).

(** A runner of 2 steps and 4 stacked frames, whose stack holds the
    frames 1 to 4. *)
Definition runner1 : Rollout.state nat unit :=
  Rollout.mk_state
    (Rollout.mk_Runner 0%nat tt (Fixtures.full [1]%nat 0) 2 4 1)
    0%nat [Fixtures.numbered [1; 1; 1; 4]%nat].

End RunnerFixtures.

(** * Properties *)

Import Np ReplayBuffer.

(** Symbolic execution of the store computations. *)
Ltac run_m :=
  cbv beta iota zeta delta
    [put_batch put put_write put_allocate np_empty setitem_at bind get_self
     set_self alloc load store lift ret raise self heap nth_error update
     with_enc_obs with_actions with_rewards with_mus with_dones with_masks
     with_next_idx with_num_in_buffer
     n_env n_steps height width n_channels n_stack n_batch size
     enc_obs actions rewards mus dones masks next_idx num_in_buffer
     batch_enc_obs batch_actions batch_rewards batch_mus batch_dones
     batch_masks fst snd app length].

Ltac run_slot :=
  cbv beta iota zeta delta
    [slot slot_of self heap nth_error enc_obs actions rewards mus dones masks
     rbind].


(** ** Arrays *)

Section NpFacts.

Import Np.

Lemma as_shape_of_nat (sh : list nat) :
  as_shape (map Z.of_nat sh) = Ok sh.
Proof.
  unfold as_shape.
  replace (forallb (fun n => 0 <=? n) (map Z.of_nat sh)) with true.
  - f_equal. induction sh as [|n sh IH]; simpl; [reflexivity|].
    rewrite Nat2Z.id. f_equal. exact IH.
  - symmetry. apply forallb_forall. intros x Hx.
    apply in_map_iff in Hx. destruct Hx as [n [<- _]].
    apply Z.leb_le. lia.
Qed.

Lemma as_shape_cons (n : Z) (sh : list nat) :
  0 <= n -> as_shape (n :: map Z.of_nat sh) = Ok (Z.to_nat n :: sh).
Proof.
  intros Hn. pose proof (as_shape_of_nat sh) as H.
  unfold as_shape in *. simpl.
  destruct (forallb (fun n0 => 0 <=? n0) (map Z.of_nat sh)); [|discriminate].
  replace (0 <=? n) with true by (symmetry; apply Z.leb_le; exact Hn).
  simpl. inversion H as [H']. rewrite H'. rewrite H'. reflexivity.
Qed.

Lemma can_broadcast_refl (sh : list nat) : can_broadcast sh sh = true.
Proof.
  induction sh as [|n sh IH]; simpl; [reflexivity|].
  rewrite Nat.eqb_refl. simpl. exact IH.
Qed.

Lemma ravel_clip_unravel (sh : list nat) (k : nat) :
  (k < numel sh)%nat -> ravel sh (clip_index sh (unravel sh k)) = k.
Proof.
  revert k. induction sh as [|n sh IH]; intros k Hk.
  - simpl in *. lia.
  - change (numel (n :: sh)) with (n * numel sh)%nat in Hk.
    assert (Hm : (0 < numel sh)%nat) by (destruct (numel sh); lia).
    change (unravel (n :: sh) k)
      with ((k / numel sh)%nat :: unravel sh (k mod numel sh)%nat).
    change (clip_index (n :: sh)
              ((k / numel sh)%nat :: unravel sh (k mod numel sh)%nat))
      with ((if (n =? 1)%nat then 0%nat else (k / numel sh)%nat)
            :: clip_index sh (unravel sh (k mod numel sh)%nat)).
    cbn [ravel].
    rewrite IH by (apply Nat.mod_upper_bound; lia).
    pose proof (Nat.div_mod_eq k (numel sh)) as Hdm.
    destruct (n =? 1)%nat eqn:En.
    + apply Nat.eqb_eq in En. subst n.
      rewrite (Nat.mod_small k) by lia. lia.
    + lia.
Qed.

Lemma map_nth_seq (l : list Z) :
  map (fun k => nth k l 0) (seq 0 (length l)) = l.
Proof.
  apply nth_ext with (d := 0) (d' := 0).
  - rewrite length_map, length_seq. reflexivity.
  - intros n Hn. rewrite length_map, length_seq in Hn.
    rewrite nth_indep with (d' := nth 0 l 0)
      by (rewrite length_map, length_seq; exact Hn).
    rewrite map_nth with (f := fun k => nth k l 0) (d := 0%nat).
    rewrite seq_nth by exact Hn. reflexivity.
Qed.

Lemma broadcast_to_same (a : ndarray) :
  well_formed a -> broadcast_to a (shape a) = Ok a.
Proof.
  intros Hwf. unfold broadcast_to.
  rewrite Nat.sub_diag. simpl pad_ones. rewrite can_broadcast_refl.
  destruct a as [sh d]. unfold well_formed in Hwf. simpl in *.
  unfold tabulate. f_equal. f_equal.
  rewrite <- Hwf.
  rewrite <- (map_nth_seq d) at 2.
  apply map_ext_in. intros k Hk. apply in_seq in Hk.
  rewrite ravel_clip_unravel by lia. reflexivity.
Qed.

Lemma assign_value_same (v : ndarray) :
  well_formed v -> assign_value v (shape v) = Ok v.
Proof.
  intros Hwf. unfold assign_value. rewrite Nat.sub_diag.
  assert (E : drop_ones 0 (shape v) = shape v) by (destruct (shape v); reflexivity).
  rewrite E.
  replace (mk_ndarray (shape v) (data v)) with v by (destruct v; reflexivity).
  apply broadcast_to_same. exact Hwf.
Qed.

End NpFacts.

(** ** The replay buffer: construction and thresholds *)

Section BufferBasics.

Import Np ReplayBuffer.

Lemma init_ok (env : Env) (n_steps n_stack size : Z) :
  n_steps <> 0 ->
  init env n_steps n_stack size =
  Ok (mk_Buffer (num_envs env) n_steps
        (fst (fst (observation_space_shape env)))
        (snd (fst (observation_space_shape env)))
        (snd (observation_space_shape env))
        n_stack (num_envs env * n_steps) (size / n_steps)
        None None None None None None 0 0).
Proof.
  intros Hn. unfold init.
  destruct (observation_space_shape env) as [[h w] c]. simpl.
  destruct (n_steps =? 0) eqn:E; [apply Z.eqb_eq in E; contradiction|].
  reflexivity.
Qed.

(** What [has_atleast] computes: the threshold is rounded down to whole
    rollout batches. *)
Lemma has_atleast_spec (b : Buffer) (frames : Z) :
  0 < n_steps b ->
  has_atleast b frames = Ok true <->
  frames < (num_in_buffer b + 1) * n_steps b.
Proof.
  intros Hn. unfold has_atleast.
  destruct (n_steps b =? 0) eqn:E; [apply Z.eqb_eq in E; lia|].
  pose proof (Z.div_mod frames (n_steps b) ltac:(lia)) as Hdm.
  pose proof (Z.mod_pos_bound frames (n_steps b) Hn) as Hmod.
  split.
  - intros H. inversion H as [H']. apply Z.geb_le in H'.
    assert (n_steps b * (frames / n_steps b) <= n_steps b * num_in_buffer b)
      by (apply Z.mul_le_mono_nonneg_l; lia).
    lia.
  - intros H. f_equal. apply Z.geb_le.
    apply Z.lt_succ_r. apply Z.div_lt_upper_bound; lia.
Qed.

Lemma has_atleast_enough (b : Buffer) (frames : Z) :
  0 < n_steps b ->
  frames <= num_in_buffer b * n_steps b ->
  has_atleast b frames = Ok true.
Proof.
  intros Hn H. apply has_atleast_spec; [exact Hn|]. nia.
Qed.

End BufferBasics.

(** ** Slots of an array: [a[j] = v] and [a[j]] *)

Section Slots.

Import Np.

Lemma segment_length (lo hi : nat) (l : list Z) :
  (lo <= hi)%nat -> (hi <= length l)%nat ->
  length (segment lo hi l) = (hi - lo)%nat.
Proof.
  intros H1 H2. unfold segment. rewrite length_firstn, length_skipn. lia.
Qed.

Lemma segment_nth (lo hi i : nat) (l : list Z) :
  nth i (segment lo hi l) 0 =
  if (i <? hi - lo)%nat then nth (lo + i) l 0 else 0.
Proof.
  unfold segment. rewrite nth_firstn, nth_skipn. reflexivity.
Qed.

Lemma splice_length (d v : list Z) (lo : nat) :
  (lo + length v <= length d)%nat ->
  length (firstn lo d ++ v ++ skipn (lo + length v) d) = length d.
Proof.
  intros H. rewrite !length_app, length_firstn, length_skipn. lia.
Qed.

Lemma splice_nth (d v : list Z) (lo i : nat) :
  (lo + length v <= length d)%nat ->
  nth i (firstn lo d ++ v ++ skipn (lo + length v) d) 0 =
  if ((lo <=? i)%nat && (i <? lo + length v)%nat)%bool
  then nth (i - lo) v 0 else nth i d 0.
Proof.
  intros H.
  assert (Hl : length (firstn lo d) = lo) by (rewrite length_firstn; lia).
  destruct (lo <=? i)%nat eqn:E1; simpl.
  - apply Nat.leb_le in E1.
    rewrite app_nth2 by lia. rewrite Hl.
    destruct (i <? lo + length v)%nat eqn:E2.
    + apply Nat.ltb_lt in E2. rewrite app_nth1 by lia. reflexivity.
    + apply Nat.ltb_ge in E2. rewrite app_nth2 by lia.
      rewrite nth_skipn. f_equal. lia.
  - apply Nat.leb_gt in E1.
    rewrite app_nth1 by lia. rewrite nth_firstn.
    replace (i <? lo)%nat with true by (symmetry; apply Nat.ltb_lt; lia).
    reflexivity.
Qed.

Lemma norm_index_ok (n : nat) (j : Z) :
  0 <= j < Z.of_nat n -> norm_index n j = Ok (Z.to_nat j).
Proof.
  intros H. unfold norm_index.
  replace (0 <=? j) with true by (symmetry; apply Z.leb_le; lia).
  replace (j <? Z.of_nat n) with true by (symmetry; apply Z.ltb_lt; lia).
  reflexivity.
Qed.

Lemma getitem_ok (a : ndarray) (n : nat) (sh : list nat) (j : Z) :
  shape a = n :: sh -> 0 <= j < Z.of_nat n ->
  getitem a j =
  Ok (mk_ndarray sh (segment (Z.to_nat j * numel sh)
                             (S (Z.to_nat j) * numel sh) (data a))).
Proof.
  intros Hs Hj. unfold getitem. rewrite Hs.
  rewrite norm_index_ok by exact Hj. reflexivity.
Qed.

Lemma getitem_well_formed (a r : ndarray) (n : nat) (sh : list nat) (j : Z) :
  shape a = n :: sh -> well_formed a -> 0 <= j < Z.of_nat n ->
  getitem a j = Ok r -> shape r = sh /\ well_formed r.
Proof.
  intros Hs Hwf Hj H. rewrite (getitem_ok a n sh j Hs Hj) in H.
  inversion H. subst r. split; [reflexivity|].
  unfold well_formed in *. cbn [data shape]. rewrite Hs in Hwf.
  change (numel (n :: sh)) with (n * numel sh)%nat in Hwf.
  assert (Hk : (S (Z.to_nat j) * numel sh <= n * numel sh)%nat)
    by (apply Nat.mul_le_mono_r; lia).
  rewrite segment_length; lia.
Qed.

(** The effect of [a[j] = v] when [v] has the shape of a slot. *)
Lemma setitem_spec (a v : ndarray) (n : nat) (sh : list nat) (j : Z) :
  shape a = n :: sh -> well_formed a ->
  shape v = sh -> well_formed v ->
  0 <= j < Z.of_nat n ->
  exists a',
    setitem a j v = Ok a' /\
    shape a' = n :: sh /\ well_formed a' /\
    getitem a' j = Ok v /\
    forall j', 0 <= j' < Z.of_nat n -> j' <> j -> getitem a' j' = getitem a j'.
Proof.
  intros Hs Hwf Hv Hwv Hj.
  unfold setitem. rewrite Hs. rewrite norm_index_ok by exact Hj.
  rewrite <- Hv. rewrite assign_value_same by exact Hwv.
  cbn [rbind]. eexists. split; [reflexivity|].
  unfold well_formed in *. rewrite Hs in Hwf. rewrite Hv in *.
  change (numel (n :: sh)) with (n * numel sh)%nat in Hwf.
  set (k := Z.to_nat j) in *. set (m := numel sh) in *.
  assert (Hk : (k < n)%nat) by (unfold k; lia).
  assert (Hkm : (S k * m <= n * m)%nat) by (apply Nat.mul_le_mono_r; lia).
  assert (Hsk : (S k * m = k * m + length (data v))%nat) by lia.
  rewrite Hsk.
  assert (Hlen : (k * m + length (data v) <= length (data a))%nat) by lia.
  split; [reflexivity|]. split.
  { cbn [data shape]. rewrite splice_length by exact Hlen.
    rewrite Hwf. reflexivity. }
  split.
  - rewrite getitem_ok with (n := n) (sh := sh) by (try reflexivity; exact Hj).
    cbn [data]. fold k. fold m. rewrite Hsk.
    destruct v as [shv dv]. simpl in *. subst shv. f_equal. f_equal.
    apply nth_ext with (d := 0) (d' := 0).
    + rewrite segment_length; [lia|lia|].
      rewrite splice_length by exact Hlen. lia.
    + intros i Hi. rewrite segment_length in Hi;
        [|lia|rewrite splice_length by exact Hlen; lia].
      rewrite segment_nth.
      replace (i <? k * m + length dv - k * m)%nat with true
        by (symmetry; apply Nat.ltb_lt; lia).
      rewrite splice_nth by exact Hlen.
      replace ((k * m <=? k * m + i)%nat && (k * m + i <? k * m + length dv)%nat)%bool
        with true
        by (symmetry; apply andb_true_iff; split;
            [apply Nat.leb_le|apply Nat.ltb_lt]; lia).
      f_equal. lia.
  - intros j' Hj' Hne.
    rewrite getitem_ok with (n := n) (sh := sh) by (try reflexivity; exact Hj').
    rewrite getitem_ok with (n := n) (sh := sh) by (try exact Hs; exact Hj').
    cbn [data]. fold m. f_equal. f_equal.
    set (k' := Z.to_nat j').
    assert (Hk' : (k' < n)%nat) by (unfold k'; lia).
    assert (Hkk : k' <> k) by (unfold k', k; lia).
    assert (Hk'm : (S k' * m <= n * m)%nat) by (apply Nat.mul_le_mono_r; lia).
    apply nth_ext with (d := 0) (d' := 0).
    + rewrite !segment_length; try lia.
      rewrite splice_length by exact Hlen. lia.
    + intros i Hi. rewrite segment_length in Hi;
        [|lia|rewrite splice_length by exact Hlen; lia].
      rewrite !segment_nth.
      replace (i <? S k' * m - k' * m)%nat with true
        by (symmetry; apply Nat.ltb_lt; lia).
      rewrite splice_nth by exact Hlen.
      replace ((k * m <=? k' * m + i)%nat
               && (k' * m + i <? k * m + length (data v))%nat)%bool
        with false; [reflexivity|].
      symmetry. apply andb_false_iff.
      destruct (Nat.lt_ge_cases k' k) as [Hlt|Hge].
      * left. apply Nat.leb_gt.
        assert ((S k' * m <= k * m)%nat) by (apply Nat.mul_le_mono_r; lia).
        lia.
      * right. apply Nat.ltb_ge.
        assert ((S k * m <= k' * m)%nat) by (apply Nat.mul_le_mono_r; lia).
        lia.
Qed.

End Slots.

(** ** [put] on the store *)

Section PutFacts.

Import Np ReplayBuffer.

Variable junk : Z.

Lemma empty_cons (n : Z) (a : ndarray) :
  0 <= n ->
  empty junk (n :: shape_list a) =
  Ok (mk_ndarray (Z.to_nat n :: shape a)
        (repeat junk (numel (Z.to_nat n :: shape a)))).
Proof.
  intros Hn. unfold empty, shape_list. rewrite as_shape_cons by exact Hn.
  reflexivity.
Qed.

Lemma put_write_owned (st : state) (bt : Batch) :
  owns st (batch_shapes bt) ->
  batch_well_formed bt ->
  0 <= next_idx (self st) < size (self st) ->
  exists st',
    put_write (batch_enc_obs bt) (batch_actions bt) (batch_rewards bt)
      (batch_mus bt) (batch_dones bt) (batch_masks bt) st = (Ok tt, st') /\
    owns st' (batch_shapes bt) /\
    self st' =
      with_num_in_buffer
        (with_next_idx (self st)
           ((next_idx (self st) + 1) mod size (self st)))
        (Z.min (size (self st)) (num_in_buffer (self st) + 1)) /\
    slot st' (next_idx (self st)) = Ok bt /\
    forall j, 0 <= j < size (self st) -> j <> next_idx (self st) ->
              slot st' j = slot st j.
Proof.
  intros (a0 & a1 & a2 & a3 & a4 & a5 & Hh & H0 & H1 & H2 & H3 & H4 & H5
          & Hsh & Hwf) (W0 & W1 & W2 & W3 & W4 & W5) Hidx.
  destruct st as [b h]. destruct b. destruct bt as [v0 v1 v2 v3 v4 v5].
  cbn [self heap enc_obs actions rewards mus dones masks size next_idx
       num_in_buffer batch_enc_obs batch_actions batch_rewards batch_mus
       batch_dones batch_masks batch_shapes map] in *.
  subst. injection Hsh as S0 S1 S2 S3 S4 S5.
  inversion Hwf as [|? ? F0 Hwf1]; subst. inversion Hwf1 as [|? ? F1 Hwf2]; subst.
  inversion Hwf2 as [|? ? F2 Hwf3]; subst. inversion Hwf3 as [|? ? F3 Hwf4]; subst.
  inversion Hwf4 as [|? ? F4 Hwf5]; subst. inversion Hwf5 as [|? ? F5 _]; subst.
  assert (Hj : 0 <= next_idx0 < Z.of_nat (Z.to_nat size0)) by lia.
  destruct (setitem_spec a0 v0 _ _ next_idx0 S0 F0 eq_refl W0 Hj)
    as (b0 & E0 & T0 & G0 & R0 & O0).
  destruct (setitem_spec a1 v1 _ _ next_idx0 S1 F1 eq_refl W1 Hj)
    as (b1 & E1 & T1 & G1 & R1 & O1).
  destruct (setitem_spec a2 v2 _ _ next_idx0 S2 F2 eq_refl W2 Hj)
    as (b2 & E2 & T2 & G2 & R2 & O2).
  destruct (setitem_spec a3 v3 _ _ next_idx0 S3 F3 eq_refl W3 Hj)
    as (b3 & E3 & T3 & G3 & R3 & O3).
  destruct (setitem_spec a4 v4 _ _ next_idx0 S4 F4 eq_refl W4 Hj)
    as (b4 & E4 & T4 & G4 & R4 & O4).
  destruct (setitem_spec a5 v5 _ _ next_idx0 S5 F5 eq_refl W5 Hj)
    as (b5 & E5 & T5 & G5 & R5 & O5).
  assert (Hz : (size0 =? 0) = false) by (apply Z.eqb_neq; lia).
  run_m. rewrite E0, E1, E2, E3, E4, E5, Hz. run_m.
  eexists. split; [reflexivity|]. split; [|split; [reflexivity|split]].
  - exists b0, b1, b2, b3, b4, b5.
    cbn [self heap enc_obs actions rewards mus dones masks size map].
    rewrite T0, T1, T2, T3, T4, T5.
    repeat split; try reflexivity.
    repeat constructor; assumption.
  - run_slot. rewrite R0, R1, R2, R3, R4, R5. reflexivity.
  - intros j Hjr Hne. run_slot.
    rewrite O0, O1, O2, O3, O4, O5 by (try lia; exact Hne). reflexivity.
Qed.

(** The first call allocates six arrays of [size] slots in the empty
    store. *)
Lemma put_allocate_fresh (b : Buffer) (bt : Batch) :
  enc_obs b = None -> 0 <= size b ->
  exists st',
    put_allocate junk (batch_enc_obs bt) (batch_actions bt) (batch_rewards bt)
      (batch_mus bt) (batch_dones bt) (batch_masks bt) (mk_state b [])
    = (Ok tt, st') /\
    owns st' (batch_shapes bt) /\
    self st' =
      with_masks (with_dones (with_mus (with_rewards (with_actions
        (with_enc_obs b (Some 0%nat)) (Some 1%nat)) (Some 2%nat))
        (Some 3%nat)) (Some 4%nat)) (Some 5%nat).
Proof.
  intros Hn Hs. destruct b. destruct bt as [v0 v1 v2 v3 v4 v5].
  cbn [enc_obs size] in Hn, Hs. subst.
  run_m. rewrite !empty_cons by exact Hs. run_m.
  eexists. split; [reflexivity|]. split; [|reflexivity].
  do 6 eexists.
  cbn [self heap enc_obs actions rewards mus dones masks size map
       batch_shapes batch_enc_obs batch_actions batch_rewards batch_mus
       batch_dones batch_masks shape].
  repeat split; try reflexivity.
  repeat constructor; unfold well_formed; cbn [data shape];
    apply repeat_length.
Qed.

End PutFacts.

(** ** The ring of slots *)

Section Ring.

Import Np ReplayBuffer.

Variable junk : Z.

Lemma mod_distinct (m n s : Z) :
  0 < s -> 0 < n - m < s -> m mod s <> n mod s.
Proof.
  intros Hs Hd E.
  assert (H : (n - m) mod s = 0).
  { rewrite Zminus_mod, E, Z.sub_diag. apply Z.mod_0_l. lia. }
  rewrite Z.mod_small in H by lia. lia.
Qed.

(** On a buffer that has its storage, [put] is [put_write]. *)
Lemma put_allocated (st : state) (bt : Batch) (l : loc) :
  enc_obs (self st) = Some l ->
  put_batch junk bt st =
  put_write (batch_enc_obs bt) (batch_actions bt) (batch_rewards bt)
    (batch_mus bt) (batch_dones bt) (batch_masks bt) st.
Proof.
  intros H. unfold put_batch, put, bind, get_self. rewrite H. reflexivity.
Qed.

Lemma put_ring (st : state) (n : Z) (bts : list Batch) (bt : Batch) :
  1 <= n ->
  ring_inv st n (batch_shapes bt) bts ->
  batch_well_formed bt ->
  exists st',
    put_batch junk bt st = (Ok tt, st') /\
    ring_inv st' n (batch_shapes bt) (bts ++ [bt]) /\
    slot st' (next_idx (self st)) = Ok bt /\
    forall j, 0 <= j < n -> j <> next_idx (self st) -> slot st' j = slot st j.
Proof.
  intros Hn (Hown & Hsz & Hidx & Hnum & Hslots) Hwf.
  assert (Hr : 0 <= next_idx (self st) < size (self st)).
  { rewrite Hidx, Hsz. apply Z.mod_pos_bound. lia. }
  destruct (put_write_owned st bt Hown Hwf Hr)
    as (st' & Hrun & Hown' & Hself & Hnew & Hold).
  assert (Hl : exists l, enc_obs (self st) = Some l).
  { destruct Hown as (? & ? & ? & ? & ? & ? & _ & H0 & _). eauto. }
  destruct Hl as [l Hl].
  exists st'. rewrite (put_allocated st bt l Hl).
  split; [exact Hrun|]. split; [|split].
  - split; [exact Hown'|]. rewrite Hself.
    cbn [size next_idx num_in_buffer with_next_idx with_num_in_buffer].
    rewrite length_app. cbn [length]. rewrite Hsz, Hidx, Hnum.
    split; [reflexivity|]. split.
    { rewrite Zplus_mod_idemp_l. f_equal. lia. }
    split; [lia|].
    intros m b Hm Hle.
    destruct (Nat.eq_dec m (length bts)) as [->|Hne].
    + rewrite nth_error_app2 in Hm by lia.
      rewrite Nat.sub_diag in Hm. simpl in Hm. inversion Hm. subst b.
      rewrite <- Hidx. exact Hnew.
    + assert (Hlt : (m < length bts)%nat).
      { assert (H : nth_error (bts ++ [bt]) m <> None) by congruence.
        apply nth_error_Some in H. rewrite length_app in H. simpl in H. lia. }
      rewrite nth_error_app1 in Hm by exact Hlt.
      rewrite <- (Hslots m b Hm) by lia.
      rewrite <- Hsz. apply Hold.
      * rewrite Hsz. apply Z.mod_pos_bound. lia.
      * rewrite Hidx, Hsz. apply mod_distinct; lia.
  - exact Hnew.
  - intros j Hj Hne. apply Hold; [rewrite Hsz; exact Hj|exact Hne].
Qed.

Lemma put_all_ring (rest bts : list Batch) (st : state) (n : Z)
  (shs : list (list nat)) :
  1 <= n ->
  ring_inv st n shs bts ->
  uniform shs rest ->
  exists st',
    put_all junk rest st = (Ok tt, st') /\ ring_inv st' n shs (bts ++ rest).
Proof.
  intros Hn. revert bts st.
  induction rest as [|bt rest IH]; intros bts st Hinv Hu.
  - exists st. rewrite app_nil_r. split; [reflexivity|exact Hinv].
  - inversion Hu as [|? ? [Hwf Hsh] Hu']; subst.
    destruct (put_ring st n bts bt Hn Hinv Hwf) as (st1 & H1 & Hinv1 & _).
    destruct (IH (bts ++ [bt]) st1 Hinv1 Hu') as (st2 & H2 & Hinv2).
    exists st2. split.
    + cbn [put_all]. unfold bind. rewrite H1. exact H2.
    + rewrite <- app_assoc in Hinv2. exact Hinv2.
Qed.

(** The first call on a new buffer. *)
Lemma put_first (env : Env) (n_steps n_stack size_arg : Z) (st0 : state)
  (bt : Batch) :
  new_buffer env n_steps n_stack size_arg = Ok st0 ->
  1 <= size (self st0) ->
  batch_well_formed bt ->
  exists st',
    put_batch junk bt st0 = (Ok tt, st') /\
    ring_inv st' (size (self st0)) (batch_shapes bt) [bt] /\
    slot st' (next_idx (self st0)) = Ok bt.
Proof.
  intros Hnew Hn Hwf. unfold new_buffer, init in Hnew.
  destruct (observation_space_shape env) as [[h w] c].
  destruct (n_steps =? 0); [discriminate|].
  cbn [rbind] in Hnew. inversion Hnew. subst st0. clear Hnew.
  cbn [self size next_idx] in *.
  match goal with
  | |- context [mk_state ?b0 []] => set (b := b0) in *
  end.
  destruct (put_allocate_fresh junk b bt eq_refl ltac:(cbn [size b]; lia))
    as (st1 & Hrun1 & Hown1 & Hself1).
  assert (Hr : 0 <= next_idx (self st1) < size (self st1)).
  { rewrite Hself1. cbn. lia. }
  destruct (put_write_owned st1 bt Hown1 Hwf Hr)
    as (st' & Hrun & Hown' & Hself & Hnew & _).
  exists st'.
  assert (Hidx1 : next_idx (self st1) = 0) by (rewrite Hself1; reflexivity).
  assert (Hsz1 : size (self st1) = size_arg / n_steps)
    by (rewrite Hself1; reflexivity).
  assert (Hnum1 : num_in_buffer (self st1) = 0)
    by (rewrite Hself1; reflexivity).
  split; [|split].
  - unfold put_batch, put, bind at 1. cbn [get_self self enc_obs b].
    unfold bind. rewrite Hrun1. exact Hrun.
  - split; [exact Hown'|]. rewrite Hself.
    cbn [size next_idx num_in_buffer with_next_idx with_num_in_buffer length].
    rewrite Hidx1, Hsz1, Hnum1.
    split; [reflexivity|]. split; [reflexivity|]. split; [lia|].
    intros m b' Hm _. destruct m as [|m]; [|destruct m; discriminate].
    simpl in Hm. inversion Hm. subst b'.
    rewrite Z.mod_0_l by lia. rewrite <- Hidx1. exact Hnew.
  - rewrite <- Hidx1. exact Hnew.
Qed.

End Ring.

(** ** Circularity of the buffer *)

Section Circularity.

Import Np ReplayBuffer.

Lemma Forall_firstn {A} (P : A -> Prop) (n : nat) (l : list A) :
  Forall P l -> Forall P (firstn n l).
Proof.
  intros H. rewrite <- (firstn_skipn n l) in H.
  apply Forall_app in H. exact (proj1 H).
Qed.

Lemma map_seq_nth_error {A B} (f : nat -> B) (g : A -> B) (l : list A) :
  (forall i x, nth_error l i = Some x -> f i = g x) ->
  map f (seq 0 (length l)) = map g l.
Proof.
  revert f. induction l as [|a l IH]; intros f H; [reflexivity|].
  cbn [length seq map]. f_equal.
  - apply (H 0%nat a). reflexivity.
  - rewrite <- seq_shift, map_map. apply IH.
    intros i x Hi. apply (H (S i) x). exact Hi.
Qed.

Lemma new_buffer_fields (env : Env) (n_steps n_stack size_arg : Z)
  (st0 : state) :
  new_buffer env n_steps n_stack size_arg = Ok st0 ->
  heap st0 = [] /\ next_idx (self st0) = 0 /\ num_in_buffer (self st0) = 0 /\
  size (self st0) = size_arg / n_steps /\ enc_obs (self st0) = None /\
  n_steps <> 0.
Proof.
  unfold new_buffer, init. destruct (observation_space_shape env) as [[h w] c].
  destruct (n_steps =? 0) eqn:E; [discriminate|].
  cbn [rbind]. intros H. inversion H. subst st0. cbn.
  apply Z.eqb_neq in E. repeat split; try reflexivity. exact E.
Qed.

(** The state after the first [p] batches of [bts], [p >= 1]. *)
Lemma put_prefix (junk : Z) (env : Env) (n_steps n_stack size_arg : Z)
  (st0 : state) (shs : list (list nat)) (bts : list Batch) (p : nat) :
  new_buffer env n_steps n_stack size_arg = Ok st0 ->
  1 <= size (self st0) ->
  uniform shs bts ->
  (1 <= p <= length bts)%nat ->
  exists stp,
    put_all junk (firstn p bts) st0 = (Ok tt, stp) /\
    ring_inv stp (size (self st0)) shs (firstn p bts).
Proof.
  intros Hnew Hn Hu Hp.
  destruct bts as [|bt0 rest]; [simpl in Hp; lia|].
  destruct p as [|p]; [lia|].
  inversion Hu as [|? ? [Hwf Hsh] Hu']; subst.
  destruct (put_first junk env n_steps n_stack size_arg st0 bt0 Hnew Hn Hwf)
    as (st1 & H1 & Hinv1 & _).
  destruct (put_all_ring junk (firstn p rest) [bt0] st1 _ _ Hn Hinv1
              (Forall_firstn _ p rest Hu')) as (stp & H2 & Hinv2).
  exists stp. split; [|exact Hinv2].
  cbn [firstn put_all]. unfold bind. rewrite H1. exact H2.
Qed.

(** C7. Buffer circularity.  For a new buffer of [size >= 1] slots and
    [size + k] calls of [put] with batches of the documented shapes:
    every call succeeds; afterwards [num_in_buffer] is [size] and the
    batches held, oldest first, are exactly the last [size] batches put.
    Throughout, [num_in_buffer <= size], [next_idx] is a valid slot, and
    the next call writes its batch into slot [next_idx] and leaves every
    other slot as it was. *)
Theorem buffer_circularity (junk : Z) (env : Env)
  (n_steps n_stack size_arg : Z) (st0 : state) (k : nat)
  (shs : list (list nat)) (bts : list Batch) :
  new_buffer env n_steps n_stack size_arg = Ok st0 ->
  1 <= size (self st0) ->
  length bts = (Z.to_nat (size (self st0)) + k)%nat ->
  uniform shs bts ->
  (exists st,
     put_all junk bts st0 = (Ok tt, st) /\
     size (self st) = size (self st0) /\
     num_in_buffer (self st) = size (self st0) /\
     logical_content st = map Ok (skipn k bts)) /\
  (forall p bt, nth_error bts p = Some bt ->
     exists stp stq,
       put_all junk (firstn p bts) st0 = (Ok tt, stp) /\
       0 <= num_in_buffer (self stp) <= size (self st0) /\
       0 <= next_idx (self stp) < size (self st0) /\
       put_batch junk bt stp = (Ok tt, stq) /\
       num_in_buffer (self stq) <= size (self st0) /\
       slot stq (next_idx (self stp)) = Ok bt /\
       ((1 <= p)%nat ->
        forall j, 0 <= j < size (self st0) -> j <> next_idx (self stp) ->
                  slot stq j = slot stp j)).
Proof.
  intros Hnew Hn Hlen Hu.
  split.
  - destruct (put_prefix junk env n_steps n_stack size_arg st0 shs bts
                (length bts) Hnew Hn Hu ltac:(lia))
      as (st & Hrun & Hown & Hsz & Hidx & Hnum & Hslots).
    rewrite firstn_all in *.
    exists st. split; [exact Hrun|]. split; [exact Hsz|].
    split; [rewrite Hnum; lia|].
    unfold logical_content, arange. rewrite map_map.
    rewrite Hsz, Hidx, Hnum.
    replace (Z.min (size (self st0)) (Z.of_nat (length bts)))
      with (size (self st0)) by lia.
    replace (Z.to_nat (size (self st0))) with (length (skipn k bts))
      by (rewrite length_skipn; lia).
    apply map_seq_nth_error. intros i x Hi.
    rewrite nth_error_skipn in Hi.
    assert (Hlt : (k + i < length bts)%nat).
    { assert (H : nth_error bts (k + i) <> None) by congruence.
      apply nth_error_Some in H. exact H. }
    replace ((Z.of_nat (length bts) mod size (self st0) - size (self st0)
              + Z.of_nat i) mod size (self st0))
      with (Z.of_nat (k + i) mod size (self st0)).
    + apply Hslots; [exact Hi|lia].
    + replace (Z.of_nat (length bts) mod size (self st0) - size (self st0)
               + Z.of_nat i)
        with (Z.of_nat (length bts) mod size (self st0)
              + (Z.of_nat i - size (self st0))) by lia.
      rewrite Zplus_mod_idemp_l. f_equal. lia.
  - intros p bt Hp.
    assert (Hlt : (p < length bts)%nat).
    { assert (H : nth_error bts p <> None) by congruence.
      apply nth_error_Some in H. exact H. }
    assert (Hbt : batch_well_formed bt /\ batch_shapes bt = shs).
    { unfold uniform in Hu. rewrite Forall_forall in Hu.
      apply Hu. eapply nth_error_In. exact Hp. }
    destruct Hbt as [Hwf Hsh].
    destruct p as [|p].
    + destruct (new_buffer_fields _ _ _ _ _ Hnew) as (_ & Hi0 & Hn0 & _).
      destruct (put_first junk env n_steps n_stack size_arg st0 bt Hnew Hn Hwf)
        as (stq & Hq & (_ & _ & _ & Hnumq & _) & Hslot).
     
      exists st0, stq. cbn [firstn put_all].
      split; [reflexivity|]. rewrite Hi0, Hn0.
      split; [lia|]. split; [lia|]. split; [exact Hq|].
      split; [lia|].
      split; [rewrite Hi0 in Hslot; exact Hslot|]. intros H. lia.
    + destruct (put_prefix junk env n_steps n_stack size_arg st0 shs bts
                  (S p) Hnew Hn Hu ltac:(lia))
        as (stp & Hrun & Hinv).
      pose proof Hinv as (_ & Hsz & Hidx & Hnum & _).
      rewrite <- Hsh in Hinv.
      destruct (put_ring junk stp _ (firstn (S p) bts) bt Hn Hinv Hwf)
        as (stq & Hq & (_ & _ & _ & Hnumq & _) & Hslot & Hothers).
     
      exists stp, stq. split; [exact Hrun|].
      split; [rewrite Hnum; lia|].
      split; [rewrite Hidx; apply Z.mod_pos_bound; lia|].
      split; [exact Hq|]. split; [lia|].
      split; [exact Hslot|]. intros _. exact Hothers.
Qed.

End Circularity.

(** ** Construction with fewer steps than a batch *)

Section SmallSize.

Import Fixtures.

Lemma get_cannot_sample (junk : Z) (draw : list Z) (st : state) :
  can_sample (self st) = false ->
  get junk draw st = (Raise AssertionError, st).
Proof.
  intros H. unfold get, bind, get_self. rewrite H. reflexivity.
Qed.

Lemma put_write_no_slot (st : state) (bt : Batch) :
  owns st (batch_shapes bt) ->
  size (self st) = 0 -> next_idx (self st) = 0 ->
  fst (put_write (batch_enc_obs bt) (batch_actions bt) (batch_rewards bt)
         (batch_mus bt) (batch_dones bt) (batch_masks bt) st)
  = Raise IndexError.
Proof.
  intros (a0 & a1 & a2 & a3 & a4 & a5 & Hh & H0 & _ & _ & _ & _ & _
          & Hsh & _) Hs Hi.
  destruct st as [b h]. destruct b. destruct bt as [v0 v1 v2 v3 v4 v5].
  cbn [self heap enc_obs size next_idx batch_enc_obs batch_shapes map] in *.
  subst. injection Hsh as S0 _ _ _ _ _.
  assert (E0 : setitem a0 0 v0 = Raise IndexError).
  { unfold setitem. rewrite S0. reflexivity. }
  run_m. rewrite E0. reflexivity.
Qed.

(** C2, counterexample.  A requested size of 3 steps with rollouts of 5
    steps is accepted by the constructor: the buffer it returns has no
    slot. *)
Lemma init_accepts_size_below_n_steps :
  exists b, init env1 5 4 3 = Ok b /\ size b = 0.
Proof.
  eexists. split; reflexivity.
Qed.

(** C2, as amended.  The constructor does not compare the requested size
    with [n_steps]: for [0 <= size < n_steps] it succeeds and returns a
    buffer without slots.  The failure comes with the first call: [put]
    raises [IndexError] and [get] fails its assertion. *)
Theorem small_size_fails_at_first_use (junk : Z) (env : Env)
  (n_steps n_stack size_arg : Z) :
  0 < n_steps -> 0 <= size_arg < n_steps ->
  exists st0,
    new_buffer env n_steps n_stack size_arg = Ok st0 /\
    size (self st0) = 0 /\
    (forall bt, fst (put_batch junk bt st0) = Raise IndexError) /\
    (forall draw, fst (get junk draw st0) = Raise AssertionError).
Proof.
  intros Hn Hs.
  unfold new_buffer. rewrite init_ok by lia. cbn [rbind].
  eexists. split; [reflexivity|].
  cbn [self size]. rewrite Z.div_small by lia.
  split; [reflexivity|]. split.
  - intros bt.
    match goal with
    | |- context [mk_state ?b0 []] => set (b := b0)
    end.
    destruct (put_allocate_fresh junk b bt eq_refl ltac:(cbn [size b]; lia))
      as (st1 & Hrun1 & Hown1 & Hself1).
    unfold put_batch, put, bind at 1. cbn [get_self self enc_obs b].
    unfold bind. rewrite Hrun1.
    apply put_write_no_slot; [exact Hown1| |]; rewrite Hself1; reflexivity.
  - intros draw. rewrite get_cannot_sample; reflexivity.
Qed.

(** C9.  After one rollout batch of 5 steps the buffer holds 5 steps for
    its environment, and [has_atleast(7)] answers [True]. *)
Theorem has_atleast_rounds_down :
  exists st0 st,
    new_buffer env1 5 4 50 = Ok st0 /\
    put_batch 0 (batch1 5 4 1) st0 = (Ok tt, st) /\
    num_in_buffer (self st) * n_steps (self st) = 5 /\
    has_atleast (self st) 7 = Ok true.
Proof.
  eexists. eexists.
  split; [reflexivity|]. split; [vm_compute; reflexivity|].
  split; reflexivity.
Qed.

End SmallSize.

(** ** [get] leaves the buffer as it is *)

Section Frame.

Lemma update_length {A} (l : list A) (i : nat) (x : A) :
  length (update l i x) = length l.
Proof.
  revert i. induction l as [|y l IH]; intros [|i]; simpl; auto.
Qed.

Lemma update_firstn {A} (m : nat) (l : list A) (i : nat) (x : A) :
  (m <= i)%nat -> firstn m (update l i x) = firstn m l.
Proof.
  revert l i. induction m as [|k IH]; intros l i Hi; [reflexivity|].
  destruct l as [|y l]; [reflexivity|].
  destruct i as [|i]; [lia|].
  simpl. f_equal. apply IH. lia.
Qed.

Variable junk : Z.
Variable n : nat.

Lemma triple_bind {A B} (P : state -> Prop) (m : M A) (k : A -> M B)
  (Q1 : A -> state -> Prop) (Q : B -> state -> Prop) :
  triple n P m Q1 -> (forall a, triple n (Q1 a) (k a) Q) ->
  triple n P (bind m k) Q.
Proof.
  intros Hm Hk s r s' HP Hn Hrun. unfold bind in Hrun.
  destruct (m s) as [[a|e] s1] eqn:E.
  - destruct (Hm s (Ok a) s1 HP Hn E) as (H1 & H2 & H3 & H4).
    destruct (Hk a s1 r s' (H4 a eq_refl) ltac:(lia) Hrun)
      as (K1 & K2 & K3 & K4).
    repeat split; try congruence; try lia. exact K4.
  - inversion Hrun; subst.
    destruct (Hm s (Raise e) s' HP Hn E) as (H1 & H2 & H3 & H4).
    repeat split; try assumption. intros a Ha. discriminate.
Qed.

Lemma triple_reads {A B} (P : state -> Prop) (m : M A) (k : A -> M B)
  (Q : B -> state -> Prop) :
  reads_only m -> (forall a, triple n P (k a) Q) ->
  triple n P (bind m k) Q.
Proof.
  intros Hm Hk s r s' HP Hn Hrun. unfold bind in Hrun.
  destruct (m s) as [[a|e] s1] eqn:E; pose proof (Hm _ _ _ E); subst s1.
  - exact (Hk a s r s' HP Hn Hrun).
  - inversion Hrun; subst. repeat split; try lia. intros a Ha. discriminate.
Qed.

Lemma triple_ret {A} (P : state -> Prop) (a : A) (Q : A -> state -> Prop) :
  (forall s, P s -> Q a s) -> triple n P (ret a) Q.
Proof.
  intros H s r s' HP Hn Hrun. inversion Hrun; subst.
  repeat split; try lia. intros a' Ha. inversion Ha; subst. auto.
Qed.

Lemma triple_raise {A} (P : state -> Prop) (e : exn)
  (Q : A -> state -> Prop) :
  triple n P (raise e) Q.
Proof.
  intros s r s' HP Hn Hrun. inversion Hrun; subst.
  repeat split; try lia. intros a Ha. discriminate.
Qed.

Lemma triple_alloc {B} (P : state -> Prop) (a : ndarray) (k : loc -> M B)
  (Q : B -> state -> Prop) :
  stable P ->
  (forall l, triple n (fun s => P s /\ (n <= l < length (heap s))%nat)
                    (k l) Q) ->
  triple n P (bind (alloc a) k) Q.
Proof.
  intros HS Hk s r s' HP Hn Hrun. unfold bind, alloc in Hrun.
  assert (Hlen : length (heap s ++ [a]) = S (length (heap s)))
    by (rewrite length_app; simpl; lia).
  destruct (Hk (length (heap s)) (mk_state (self s) (heap s ++ [a])) r s')
    as (K1 & K2 & K3 & K4).
  - split.
    + apply (HS s); [exact HP|]. cbn [heap]. lia.
    + cbn [heap]. lia.
  - cbn [heap]. lia.
  - exact Hrun.
  - cbn [self heap] in *. repeat split; try assumption; try lia.
    rewrite K2. rewrite firstn_app.
    replace (n - length (heap s))%nat with 0%nat by lia.
    simpl. apply app_nil_r.
Qed.

Lemma triple_np_empty {B} (P : state -> Prop) (sh : list Z) (k : loc -> M B)
  (Q : B -> state -> Prop) :
  stable P ->
  (forall l, triple n (fun s => P s /\ (n <= l < length (heap s))%nat)
                    (k l) Q) ->
  triple n P (bind (np_empty junk sh) k) Q.
Proof.
  intros HS Hk. unfold np_empty.
  intros s r s' HP Hn Hrun.
  unfold bind at 1 2 in Hrun. unfold lift in Hrun.
  destruct (empty junk sh) as [a|e].
  - apply (triple_alloc P a k Q HS Hk s r s' HP Hn). exact Hrun.
  - inversion Hrun; subst. repeat split; try lia. intros a Ha. discriminate.
Qed.

Lemma triple_store {B} (P : state -> Prop) (l : loc) (a : ndarray)
  (k : unit -> M B) (Q : B -> state -> Prop) :
  stable P -> (n <= l)%nat ->
  triple n P (k tt) Q ->
  triple n P (bind (store l a) k) Q.
Proof.
  intros HS Hl Hk s r s' HP Hn Hrun. unfold bind, store in Hrun.
  destruct (Hk (mk_state (self s) (update (heap s) l a)) r s')
    as (K1 & K2 & K3 & K4).
  - apply (HS s); [exact HP|]. cbn [heap]. rewrite update_length. lia.
  - cbn [heap]. rewrite update_length. exact Hn.
  - exact Hrun.
  - cbn [self heap] in *. rewrite update_length in K3.
    rewrite update_firstn in K2 by exact Hl.
    repeat split; assumption.
Qed.

Lemma triple_for (I : state -> Prop) (body : Z -> M unit) (c : nat) (i : Z) :
  (forall j, triple n I (body j) (fun _ => I)) ->
  triple n I (for_from_m i c body) (fun _ => I).
Proof.
  intros Hb. revert i. induction c as [|c IH]; intros i.
  - apply triple_ret. auto.
  - cbn [for_from_m]. eapply triple_bind; [apply Hb|].
    intros u. apply IH.
Qed.

Lemma reads_get_self : reads_only get_self.
Proof. intros s r s' H. inversion H. reflexivity. Qed.

Lemma reads_lift {A} (r : result A) : reads_only (lift r).
Proof. intros s r' s' H. inversion H. reflexivity. Qed.

Lemma reads_load (l : loc) : reads_only (load l).
Proof.
  intros s r s' H. unfold load in H.
  destruct (nth_error (heap s) l); inversion H; reflexivity.
Qed.

Lemma reads_ret {A} (a : A) : reads_only (ret a).
Proof. intros s r s' H. inversion H. reflexivity. Qed.

Lemma reads_raise {A} (e : exn) : reads_only (@raise A e).
Proof. intros s r s' H. inversion H. reflexivity. Qed.

Lemma stable_valid (P : state -> Prop) (l : loc) :
  stable P -> stable (fun s => P s /\ (n <= l < length (heap s))%nat).
Proof.
  intros HS s s' [HP Hl] Hle. split; [exact (HS s s' HP Hle)|lia].
Qed.

Lemma stable_true : stable (fun _ => True).
Proof. intros s s' _ _. exact I. Qed.

(** [take] returns a new array and writes to no other. *)
Lemma take_triple (P : state -> Prop) (arr : option loc) (idx envx : list Z) :
  stable P ->
  triple n P (take junk arr idx envx)
         (fun out s => P s /\ (n <= out < length (heap s))%nat).
Proof.
  intros HS. unfold take.
  apply triple_reads; [apply reads_get_self|]. intros b.
  apply triple_reads.
  { destruct arr; [apply reads_ret|apply reads_raise]. }
  intros l.
  apply triple_reads; [apply reads_load|]. intros a.
  apply triple_np_empty; [exact HS|]. intros out.
  eapply triple_bind.
  - unfold for_range_m. apply triple_for. intros j. unfold take_body.
    apply triple_reads; [apply reads_lift|]. intros ii.
    apply triple_reads; [apply reads_lift|]. intros ee.
    apply triple_reads; [apply reads_load|]. intros a'.
    apply triple_reads; [apply reads_lift|]. intros v.
    apply triple_reads; [apply reads_load|]. intros o.
    apply triple_reads; [apply reads_lift|]. intros o'.
    intros s r s' [HP Ho] Hn Hrun. unfold store in Hrun.
    inversion Hrun; subst. cbn [self heap].
    rewrite update_length. rewrite update_firstn by lia.
    repeat split; try lia.
    apply (HS s); [exact HP|]. cbn [heap]. rewrite update_length. lia.
  - intros u. apply triple_ret. auto.
Qed.

Lemma decode_m_triple (P : state -> Prop) (e d : loc) :
  stable P ->
  triple n P (decode_m junk e d)
         (fun out s => P s /\ (n <= out < length (heap s))%nat).
Proof.
  intros HS. unfold decode_m.
  apply triple_reads; [apply reads_get_self|]. intros b.
  apply triple_reads; [apply reads_load|]. intros ea.
  apply triple_reads; [apply reads_load|]. intros da.
  apply triple_reads; [apply reads_lift|]. intros r.
  intros s r' s' HP Hn Hrun.
  assert (H : bind (alloc r) ret s = (r', s')).
  { unfold bind, alloc, ret in *. exact Hrun. }
  refine (triple_alloc P r ret
            (fun out s => P s /\ (n <= out < length (heap s))%nat)
            HS _ s r' s' HP Hn H).
  intros l. apply triple_ret. auto.
Qed.

Lemma get_triple (draw : list Z) :
  triple n (fun _ => True) (get junk draw)
    (fun r s =>
       let '(obs, a, rw, m, d, k) := r in
       Forall (fun l => (n <= l < length (heap s))%nat) [obs; a; rw; m; d; k]).
Proof.
  unfold get.
  apply triple_reads; [apply reads_get_self|]. intros b.
  apply triple_reads.
  { destruct (can_sample b); [apply reads_ret|apply reads_raise]. }
  intros _.
  eapply triple_bind; [apply take_triple; apply stable_true|]. intros d.
  eapply triple_bind; [apply take_triple; apply stable_valid, stable_true|].
  intros e.
  eapply triple_bind;
    [apply decode_m_triple; do 2 apply stable_valid; apply stable_true|].
  intros obs.
  eapply triple_bind;
    [apply take_triple; do 3 apply stable_valid; apply stable_true|].
  intros a.
  eapply triple_bind;
    [apply take_triple; do 4 apply stable_valid; apply stable_true|].
  intros rw.
  eapply triple_bind;
    [apply take_triple; do 5 apply stable_valid; apply stable_true|].
  intros m.
  eapply triple_bind;
    [apply take_triple; do 6 apply stable_valid; apply stable_true|].
  intros k.
  apply triple_ret.
  intros s (((((((_ & Hd) & He) & Ho) & Ha) & Hr) & Hm) & Hk).
  repeat constructor; lia.
Qed.

End Frame.

(** C10.  [get] only reads the buffer.  Whatever the draw and whether the
    call returns or raises, the attributes of the buffer ([next_idx],
    [num_in_buffer], the locations of its arrays) are as before, every
    array of the store is as before, and the six arrays of a returned
    batch are arrays that did not exist before the call. *)
Theorem get_is_read_only (junk : Z) (draw : list Z) (st : state) :
  let '(r, st') := get junk draw st in
  self st' = self st /\
  (exists new, heap st' = heap st ++ new) /\
  (forall l a, nth_error (heap st) l = Some a ->
               nth_error (heap st') l = Some a) /\
  (forall obs a rw m d k, r = Ok (obs, a, rw, m, d, k) ->
     Forall (fun l => (length (heap st) <= l < length (heap st'))%nat)
            [obs; a; rw; m; d; k]).
Proof.
  destruct (get junk draw st) as [r st'] eqn:E.
  destruct (get_triple junk (length (heap st)) draw st r st' I (le_n _) E)
    as (H1 & H2 & H3 & H4).
  rewrite firstn_all in H2.
  assert (Hh : heap st' = heap st ++ skipn (length (heap st)) (heap st')).
  { rewrite <- H2 at 1. symmetry. apply firstn_skipn. }
  split; [exact H1|]. split; [eauto|]. split.
  - intros l a Hl. rewrite Hh. rewrite nth_error_app1; [exact Hl|].
    apply nth_error_Some. congruence.
  - intros obs a rw m d k ->. exact (H4 _ eq_refl).
Qed.

(** ** [get] and [decode] return *)

Section Shapes.

Lemma assign_value_shape (v : ndarray) (sh : list nat) :
  shape v = sh ->
  exists v', assign_value v sh = Ok v' /\ shape v' = sh.
Proof.
  intros <-. unfold assign_value, broadcast_to. cbn [shape data].
  rewrite Nat.sub_diag.
  assert (E : drop_ones 0 (shape v) = shape v) by (destruct (shape v); reflexivity).
  rewrite E. rewrite Nat.sub_diag. cbn [pad_ones].
  rewrite can_broadcast_refl. eexists. split; reflexivity.
Qed.

Lemma setitem_shape (a v : ndarray) (m : nat) (sh : list nat) (j : Z) :
  shape a = m :: sh -> shape v = sh -> 0 <= j < Z.of_nat m ->
  exists a', setitem a j v = Ok a' /\ shape a' = m :: sh.
Proof.
  intros Ha Hv Hj. unfold setitem. rewrite Ha.
  rewrite norm_index_ok by exact Hj.
  destruct (assign_value_shape v sh Hv) as (v' & E & _).
  rewrite E. cbn [rbind]. eexists. split; reflexivity.
Qed.

Lemma getitem2_shape (a : ndarray) (m e : nat) (sh : list nat) (i j : Z) :
  shape a = m :: e :: sh -> 0 <= i < Z.of_nat m -> 0 <= j < Z.of_nat e ->
  exists v, getitem2 a i j = Ok v /\ shape v = sh.
Proof.
  intros Ha Hi Hj. unfold getitem2.
  rewrite (getitem_ok a m (e :: sh) i Ha Hi). cbn [rbind].
  rewrite getitem_ok with (n := e) (sh := sh) by (try reflexivity; exact Hj).
  eexists. split; reflexivity.
Qed.

Lemma empty_of_nat (junk : Z) (sh : list nat) :
  empty junk (map Z.of_nat sh) = Ok (mk_ndarray sh (repeat junk (numel sh))).
Proof.
  unfold empty. rewrite as_shape_of_nat. reflexivity.
Qed.

Lemma zeros_of_nat (sh : list nat) :
  zeros (map Z.of_nat sh) = Ok (mk_ndarray sh (repeat 0 (numel sh))).
Proof.
  unfold zeros. rewrite as_shape_of_nat. reflexivity.
Qed.

Lemma reshape_of_nat (a : ndarray) (sh : list nat) :
  numel sh = numel (shape a) ->
  reshape a (map Z.of_nat sh) = Ok (mk_ndarray sh (data a)).
Proof.
  intros H. unfold reshape. rewrite as_shape_of_nat. cbn [rbind].
  rewrite H, Nat.eqb_refl. reflexivity.
Qed.

Lemma index_ok (l : list Z) (k : nat) :
  (k < length l)%nat -> index l (Z.of_nat k) = Ok (nth k l 0).
Proof.
  intros H. unfold index. rewrite norm_index_ok by lia.
  rewrite Nat2Z.id. reflexivity.
Qed.

Lemma arange_of_nat (e : nat) : arange (Z.of_nat e) = map Z.of_nat (seq 0 e).
Proof. unfold arange. rewrite Nat2Z.id. reflexivity. Qed.

Lemma nth_arange (e k : nat) :
  (k < e)%nat -> nth k (map Z.of_nat (seq 0 e)) 0 = Z.of_nat k.
Proof.
  intros H. change 0 with (Z.of_nat 0). rewrite map_nth.
  rewrite seq_nth by exact H. reflexivity.
Qed.

Lemma update_last {A} (h : list A) (x y : A) :
  update (h ++ [x]) (length h) y = h ++ [y].
Proof.
  induction h as [|z h IH]; simpl; [reflexivity|]. f_equal. exact IH.
Qed.

End Shapes.

Section TakeReturns.

Variable junk : Z.

Lemma take_loop (b : Buffer) (h : list ndarray) (l : loc) (a : ndarray)
  (m e : nat) (rest : list nat) (draw : list Z) (c k : nat) (o : ndarray) :
  nth_error h l = Some a ->
  shape a = m :: e :: rest ->
  length draw = e ->
  Forall (fun x => 0 <= x < Z.of_nat m) draw ->
  (k + c = e)%nat ->
  shape o = e :: rest ->
  exists o',
    for_from_m (Z.of_nat k) c
      (take_body draw (map Z.of_nat (seq 0 e)) l (length h))
      (mk_state b (h ++ [o]))
    = (Ok tt, mk_state b (h ++ [o'])) /\
    shape o' = e :: rest.
Proof.
  intros Hl Ha Hd Hr. revert k o.
  induction c as [|c IH]; intros k o Hk Ho.
  - exists o. split; [reflexivity|exact Ho].
  - assert (Hke : (k < e)%nat) by lia.
    assert (Hx : 0 <= nth k draw 0 < Z.of_nat m).
    { rewrite Forall_forall in Hr. apply Hr. apply nth_In. lia. }
    destruct (getitem2_shape a m e rest (nth k draw 0) (Z.of_nat k) Ha Hx
                ltac:(lia)) as (v & Ev & Hv).
    destruct (setitem_shape o v e rest (Z.of_nat k) Ho Hv ltac:(lia))
      as (o1 & Eo & Ho1).
    destruct (IH (S k) o1 ltac:(lia) Ho1) as (o' & Erun & Ho').
    exists o'. split; [|exact Ho'].
    cbn [for_from_m]. unfold bind at 1. unfold take_body at 1.
    unfold bind, lift, load, store. cbn [heap self].
    rewrite index_ok by lia.
    rewrite index_ok by (rewrite length_map, length_seq; lia).
    rewrite nth_arange by lia.
    rewrite nth_error_app1 by (apply nth_error_Some; congruence).
    rewrite Hl, Ev. cbn [heap self].
    rewrite nth_error_app2 by lia. rewrite Nat.sub_diag. cbn [nth_error].
    rewrite Eo. cbn [heap self]. rewrite update_last.
    replace (Z.of_nat k + 1) with (Z.of_nat (S k)) by lia.
    exact Erun.
Qed.

(** [take] on an array of the store of shape [[m; e; ...]], for [e]
    environments and indices below [m]: the result is a new array of
    shape [[e; ...]], and nothing else changes. *)
Lemma take_ok (st : state) (l : loc) (a : ndarray) (m e : nat)
  (rest : list nat) (draw : list Z) :
  nth_error (heap st) l = Some a ->
  shape a = m :: e :: rest ->
  n_env (self st) = Z.of_nat e ->
  length draw = e ->
  Forall (fun x => 0 <= x < Z.of_nat m) draw ->
  exists o,
    take junk (Some l) draw (arange (n_env (self st))) st
    = (Ok (length (heap st)), mk_state (self st) (heap st ++ [o])) /\
    shape o = e :: rest.
Proof.
  intros Hl Ha He Hd Hr. destruct st as [b h]. cbn [self heap] in *.
  set (o0 := mk_ndarray (e :: rest) (repeat junk (numel (e :: rest)))).
  destruct (take_loop b h l a m e rest draw e 0 o0 Hl Ha Hd Hr
              ltac:(lia) eq_refl) as (o' & Erun & Ho').
  exists o'. split; [|exact Ho'].
  unfold take. unfold bind at 1. cbn [get_self self].
  unfold bind at 1. cbn [ret].
  unfold bind at 1. unfold load. cbn [heap]. rewrite Hl.
  unfold bind at 1. unfold np_empty, bind at 1, lift.
  unfold shape_list. rewrite Ha. cbn [map skipn]. rewrite He.
  change (Z.of_nat e :: map Z.of_nat rest) with (map Z.of_nat (e :: rest)).
  rewrite empty_of_nat. unfold alloc. cbn [heap self].
  unfold bind at 1. unfold for_range_m. rewrite Nat2Z.id.
  rewrite arange_of_nat.
  change (Z.of_nat 0) with 0 in Erun. unfold o0 in Erun.
  rewrite Erun. reflexivity.
Qed.

End TakeReturns.

Section DecodeReturns.

Lemma norm_index_neg (m : nat) (i : Z) :
  - Z.of_nat m <= i < 0 -> norm_index m i = Ok (Z.to_nat (Z.of_nat m + i)).
Proof.
  intros H. unfold norm_index.
  replace (0 <=? i) with false by (symmetry; apply Z.leb_gt; lia).
  replace (- Z.of_nat m <=? i) with true by (symmetry; apply Z.leb_le; lia).
  replace (i <? 0) with true by (symmetry; apply Z.ltb_lt; lia).
  reflexivity.
Qed.

Lemma swapaxes10_shape (a : ndarray) (n0 n1 h w c : nat) :
  shape a = [n0; n1; h; w; c] ->
  exists r, swapaxes10 a = Ok r /\ shape r = [n1; n0; h; w; c].
Proof.
  intros Ha. unfold swapaxes10, transpose. rewrite Ha.
  eexists. split; reflexivity.
Qed.

Lemma transpose_stack_shape (a : ndarray) (s t e h w c : nat) :
  shape a = [s; t; e; h; w; c] ->
  exists r, transpose a [2; 1; 3; 4; 0; 5]%nat = Ok r /\
            shape r = [e; t; h; w; s; c].
Proof.
  intros Ha. unfold transpose. rewrite Ha.
  eexists. split; reflexivity.
Qed.

Lemma can_broadcast_ones (t e h w c : nat) :
  can_broadcast [t; e; 1; 1; 1]%nat [t; e; h; w; c] = true.
Proof.
  cbn [can_broadcast]. rewrite !Nat.eqb_refl. cbn [orb andb].
  rewrite !orb_true_r. reflexivity.
Qed.

Lemma broadcast_shapes_ones (t e h w c : nat) :
  broadcast_shapes [t; e; h; w; c] [t; e; 1; 1; 1]%nat = Some [t; e; h; w; c].
Proof.
  cbn [broadcast_shapes]. rewrite !Nat.eqb_refl.
  destruct (c =? 1)%nat, (w =? 1)%nat, (h =? 1)%nat; reflexivity.
Qed.

Lemma multiply_shape (a b : ndarray) (t e h w c : nat) :
  shape a = [t; e; h; w; c] -> shape b = [t; e; 1; 1; 1]%nat ->
  exists r, multiply a b = Ok r /\ shape r = [t; e; h; w; c].
Proof.
  intros Ha Hb. unfold multiply. rewrite Ha, Hb.
  cbn [length Nat.max Nat.sub pad_ones].
  rewrite broadcast_shapes_ones.
  unfold broadcast_to. rewrite Ha, Hb.
  cbn [length Nat.sub pad_ones].
  rewrite can_broadcast_refl, can_broadcast_ones.
  cbn [rbind]. eexists. split; reflexivity.
Qed.

Lemma slice_to_last_shape (a : ndarray) (t : nat) (rest : list nat) :
  shape a = S t :: rest ->
  exists r, slice_to a (-1) = Ok r /\ shape r = t :: rest.
Proof.
  intros Ha. unfold slice_to, slice0. rewrite Ha.
  eexists. split; [reflexivity|]. cbn [shape]. f_equal.
  unfold norm_bound. cbn [Z.ltb Z.compare]. lia.
Qed.

Lemma slice_from_one_shape (a : ndarray) (t : nat) (rest : list nat) :
  shape a = t :: rest ->
  exists r, slice_from a 1 = Ok r /\ shape r = (t - 1)%nat :: rest.
Proof.
  intros Ha. unfold slice_from, slice0. rewrite Ha.
  eexists. split; [reflexivity|]. cbn [shape]. f_equal.
  unfold norm_bound. cbn [Z.ltb Z.compare]. lia.
Qed.

Lemma set_slice0_shape (a v : ndarray) (m lo hi : nat) (rest : list nat) :
  shape a = m :: rest -> shape v = (hi - lo)%nat :: rest ->
  exists r, set_slice0 a lo hi v = Ok r /\ shape r = m :: rest.
Proof.
  intros Ha Hv. unfold set_slice0. rewrite Ha.
  destruct (assign_value_shape v _ Hv) as (v' & E & _).
  rewrite E. cbn [rbind]. eexists. split; reflexivity.
Qed.

Lemma setitem_shape_at (a v : ndarray) (m q : nat) (sh : list nat) (j : Z) :
  shape a = m :: sh -> shape v = sh -> norm_index m j = Ok q ->
  exists a', setitem a j v = Ok a' /\ shape a' = m :: sh.
Proof.
  intros Ha Hv Hj. unfold setitem. rewrite Ha, Hj.
  destruct (assign_value_shape v sh Hv) as (v' & E & _).
  rewrite E. cbn [rbind]. eexists. split; reflexivity.
Qed.

(** [obs[-(k + 1), k:] = x_var]. *)
Lemma set_row_from_shape (obs x : ndarray) (s m k : nat) (rest : list nat) :
  shape obs = s :: m :: rest -> shape x = (m - k)%nat :: rest ->
  (k < s)%nat -> (k <= m)%nat ->
  exists r, set_row_from obs (- (Z.of_nat k + 1)) (Z.of_nat k) x = Ok r /\
            shape r = s :: m :: rest.
Proof.
  intros Ho Hx Hks Hkm. unfold set_row_from.
  assert (Hi : norm_index s (- (Z.of_nat k + 1))
               = Ok (Z.to_nat (Z.of_nat s + - (Z.of_nat k + 1))))
    by (apply norm_index_neg; lia).
  unfold getitem at 1. rewrite Ho, Hi. cbn [rbind].
  match goal with
  | |- context [set_slice_from ?row _ _] => set (row0 := row)
  end.
  assert (Hrow : shape row0 = m :: rest) by reflexivity.
  assert (Hb : norm_bound m (Z.of_nat k) = k).
  { unfold norm_bound.
    replace (Z.of_nat k <? 0) with false by (symmetry; apply Z.ltb_ge; lia).
    rewrite Nat2Z.id. lia. }
  destruct (set_slice0_shape row0 x m k m rest Hrow Hx) as (row1 & E1 & H1).
  unfold set_slice_from. rewrite Hrow, Hb, E1. cbn [rbind].
  exact (setitem_shape_at obs row1 s _ (m :: rest) _ Ho H1 Hi).
Qed.

Lemma slice1_from_shape (a : ndarray) (s m : nat) (rest : list nat) :
  shape a = s :: m :: rest -> (3 <= m)%nat ->
  exists r, slice1_from a 3 = Ok r /\ shape r = s :: (m - 3)%nat :: rest.
Proof.
  intros Ha Hm. unfold slice1_from. rewrite Ha.
  eexists. split; [reflexivity|]. cbn [shape]. do 2 f_equal.
  unfold norm_bound. cbn [Z.ltb Z.compare]. lia.
Qed.

(** One round of the loop of [decode]: [x_var] and [y_var] lose their
    last, respectively first, entry. *)
Lemma decode_step_shape (obs x y : ndarray) (m t k e h w c : nat) :
  shape obs = [4; m; e; h; w; c]%nat ->
  shape x = [S t; e; h; w; c] ->
  shape y = [t; e; 1; 1; 1]%nat ->
  (k < 4)%nat -> (S t + k = m)%nat ->
  exists obs' x' y',
    decode_step (Z.of_nat k) (obs, x, y) = Ok (obs', x', y') /\
    shape obs' = [4; m; e; h; w; c]%nat /\
    shape x' = [t; e; h; w; c] /\
    shape y' = [(t - 1)%nat; e; 1; 1; 1]%nat.
Proof.
  intros Ho Hx Hy Hk Hm. unfold decode_step.
  assert (Hx' : shape x = (m - k)%nat :: [e; h; w; c])
    by (rewrite Hx; f_equal; lia).
  destruct (set_row_from_shape obs x 4 m k _ Ho Hx' Hk ltac:(lia))
    as (obs' & E1 & H1).
  rewrite E1. cbn [rbind].
  destruct (slice_to_last_shape x t _ Hx) as (x1 & E2 & H2).
  rewrite E2. cbn [rbind].
  destruct (multiply_shape x1 y t e h w c H2 Hy) as (x' & E3 & H3).
  rewrite E3. cbn [rbind].
  destruct (slice_from_one_shape y t _ Hy) as (y' & E4 & H4).
  rewrite E4. cbn [rbind].
  exists obs', x', y'. repeat split; assumption.
Qed.

End DecodeReturns.

Section DecodeShape.
Variable junk : Z.

Lemma norm_bound_three (m : nat) : (3 <= m)%nat -> norm_bound m 3 = 3%nat.
Proof.
  intros H. unfold norm_bound. cbn [Z.ltb Z.compare].
  change (Z.to_nat 3) with 3%nat. lia.
Qed.

(** [y_var[3:] = keep] and [y_var[:3] = 1.0]. *)
Lemma set_keep_shape (y keep : ndarray) (t : nat) (rest : list nat) :
  shape y = (t + 3)%nat :: rest -> shape keep = t :: rest ->
  exists r, set_slice_from y 3 keep = Ok r /\ shape r = (t + 3)%nat :: rest.
Proof.
  intros Hy Hk. unfold set_slice_from. rewrite Hy.
  rewrite norm_bound_three by lia.
  apply set_slice0_shape; [exact Hy|]. rewrite Hk. f_equal. lia.
Qed.

Lemma set_ones_shape (y : ndarray) (t e : nat) :
  shape y = [(t + 3)%nat; e; 1; 1; 1]%nat ->
  exists r, set_slice_to y 3 (scalar 1) = Ok r /\
            shape r = [(t + 3)%nat; e; 1; 1; 1]%nat.
Proof.
  intros Hy. unfold set_slice_to. rewrite Hy.
  rewrite norm_bound_three by lia.
  unfold set_slice0. rewrite Hy.
  unfold assign_value, broadcast_to, scalar.
  cbn [shape data length Nat.sub drop_ones pad_ones can_broadcast].
  cbn [Nat.eqb orb andb]. rewrite orb_true_r.
  cbn [andb rbind]. eexists. split; reflexivity.
Qed.

Lemma decode_shape (b : Buffer) (e d : ndarray) (N E H W C : nat) :
  n_stack b = 4 -> n_steps b = Z.of_nat N -> n_env b = Z.of_nat E ->
  height b = Z.of_nat H -> width b = Z.of_nat W ->
  n_channels b = Z.of_nat C ->
  shape e = [E; (N + 4)%nat; H; W; C] -> shape d = [E; N] ->
  exists r, decode junk b e d = Ok r /\
            shape r = [E; (N + 1)%nat; H; W; (4 * C)%nat].
Proof.
  intros Hst Hn He Hh Hw Hc Se Sd. unfold decode.
  rewrite Hst, Hn, He, Hh, Hw, Hc.
  replace [Z.of_nat N + 4 - 1; Z.of_nat E; 1; 1; 1]
    with (map Z.of_nat [N + 3; E; 1; 1; 1]%nat)
    by (cbn [map]; repeat f_equal; lia).
  replace [4; Z.of_nat N + 4; Z.of_nat E; Z.of_nat H; Z.of_nat W; Z.of_nat C]
    with (map Z.of_nat [4; N + 4; E; H; W; C]%nat)
    by (cbn [map]; repeat f_equal; lia).
  replace [Z.of_nat E; Z.of_nat N + 4; Z.of_nat H; Z.of_nat W; Z.of_nat C]
    with (map Z.of_nat [E; N + 4; H; W; C]%nat)
    by (cbn [map]; repeat f_equal; lia).
  replace [Z.of_nat E; Z.of_nat N; 1; 1; 1]
    with (map Z.of_nat [E; N; 1; 1; 1]%nat)
    by (cbn [map]; repeat f_equal; lia).
  replace [Z.of_nat E; Z.of_nat N + 1; Z.of_nat H; Z.of_nat W; 4 * Z.of_nat C]
    with (map Z.of_nat [E; N + 1; H; W; 4 * C]%nat)
    by (cbn [map]; repeat f_equal; lia).
  rewrite empty_of_nat, zeros_of_nat. cbn [rbind].
  rewrite reshape_of_nat by (rewrite Se; reflexivity). cbn [rbind].
  destruct (swapaxes10_shape (mk_ndarray [E; (N + 4)%nat; H; W; C] (data e))
              E (N + 4) H W C eq_refl) as (x0 & Ex0 & Sx0).
  rewrite Ex0. cbn [rbind].
  rewrite reshape_of_nat
    by (unfold one_minus; cbn [shape]; rewrite Sd; cbn [numel fold_right]; lia).
  cbn [rbind].
  destruct (swapaxes10_shape
              (mk_ndarray [E; N; 1; 1; 1]%nat (data (one_minus d)))
              E N 1 1 1 eq_refl) as (keep & Ek & Sk).
  rewrite Ek. cbn [rbind].
  match goal with
  | |- context [set_slice_from ?y 3 keep] => set (y0 := y)
  end.
  destruct (set_keep_shape y0 keep N [E; 1; 1; 1]%nat eq_refl Sk)
    as (y1 & Ey1 & Sy1).
  rewrite Ey1. cbn [rbind].
  destruct (set_ones_shape y1 N E Sy1) as (y2 & Ey2 & Sy2).
  rewrite Ey2. cbn [rbind].
  match goal with
  | |- context [for_range 4 decode_step (?o, _, _)] => set (obs0 := o)
  end.
  assert (So0 : shape obs0 = [4; N + 4; E; H; W; C]%nat) by reflexivity.
  unfold for_range. change (Z.to_nat 4) with 4%nat. cbn [for_from].
  assert (Sx0' : shape x0 = [S (N + 3); E; H; W; C])
    by (rewrite Sx0; f_equal; lia).
  destruct (decode_step_shape obs0 x0 y2 (N + 4) (N + 3) 0 E H W C
              So0 Sx0' Sy2 ltac:(lia) ltac:(lia))
    as (obs1 & x1 & y3 & E1 & So1 & Sx1 & Sy3).
  change (Z.of_nat 0) with 0 in E1. rewrite E1. cbn [rbind].
  replace (N + 3)%nat with (S (N + 2)) in Sx1 by lia.
  replace (N + 3 - 1)%nat with (N + 2)%nat in Sy3 by lia.
  destruct (decode_step_shape obs1 x1 y3 (N + 4) (N + 2) 1 E H W C
              So1 Sx1 Sy3 ltac:(lia) ltac:(lia))
    as (obs2 & x2 & y4 & E2 & So2 & Sx2 & Sy4).
  change (Z.of_nat 1) with (0 + 1) in E2. rewrite E2. cbn [rbind].
  replace (N + 2)%nat with (S (N + 1)) in Sx2 by lia.
  replace (N + 2 - 1)%nat with (N + 1)%nat in Sy4 by lia.
  destruct (decode_step_shape obs2 x2 y4 (N + 4) (N + 1) 2 E H W C
              So2 Sx2 Sy4 ltac:(lia) ltac:(lia))
    as (obs3 & x3 & y5 & E3 & So3 & Sx3 & Sy5).
  change (Z.of_nat 2) with (0 + 1 + 1) in E3. rewrite E3. cbn [rbind].
  replace (N + 1)%nat with (S N) in Sx3 by lia.
  replace (N + 1 - 1)%nat with N in Sy5 by lia.
  destruct (decode_step_shape obs3 x3 y5 (N + 4) N 3 E H W C
              So3 Sx3 Sy5 ltac:(lia) ltac:(lia))
    as (obs4 & x4 & y6 & E4 & So4 & Sx4 & Sy6).
  change (Z.of_nat 3) with (0 + 1 + 1 + 1) in E4. rewrite E4. cbn [rbind].
  destruct (slice1_from_shape obs4 4 (N + 4) _ So4 ltac:(lia))
    as (o & Eo & So).
  rewrite Eo. cbn [rbind].
  replace (N + 4 - 3)%nat with (N + 1)%nat in So by lia.
  destruct (transpose_stack_shape o 4 (N + 1) E H W C So) as (t & Et & St).
  rewrite Et. cbn [rbind].
  rewrite reshape_of_nat
    by (rewrite St; cbn [numel fold_right]; lia).
  eexists. split; reflexivity.
Qed.
End DecodeShape.
Section GetReturns.
Variable junk : Z.

Lemma bind_ok {A B} (m : M A) (k : A -> M B) (s s' : state) (a : A) :
  m s = (Ok a, s') -> bind m k s = k a s'.
Proof. intros H. unfold bind. rewrite H. reflexivity. Qed.

(** [take] on an attribute that holds slots for the environments. *)
Lemma take_stored (st : state) (b : Buffer) (h : list ndarray)
  (field : Buffer -> option loc) (rest : list nat) (draw : list Z) :
  stored st field rest ->
  self st = b -> 
  0 <= n_env b -> 0 <= num_in_buffer b <= size b ->
  randint_outcome 0 (num_in_buffer b) (n_env b) draw ->
  exists o,
    take junk (field b) draw (arange (n_env b)) (mk_state b (heap st ++ h))
    = (Ok (length (heap st ++ h)), mk_state b ((heap st ++ h) ++ [o])) /\
    shape o = Z.to_nat (n_env b) :: rest.
Proof.
  intros (l & a & Hf & Hl & Ha) Hb He Hnum [Hlen Hr]. subst b.
  rewrite Hf.
  apply (take_ok junk (mk_state (self st) (heap st ++ h)) l a
           (Z.to_nat (size (self st))) (Z.to_nat (n_env (self st))) rest draw).
  - cbn [heap]. rewrite nth_error_app1; [exact Hl|].
    apply nth_error_Some. congruence.
  - exact Ha.
  - cbn [self]. lia.
  - lia.
  - eapply Forall_impl; [|exact Hr]. intros x Hx. cbn beta in Hx. lia.
Qed.

Lemma decode_m_ok (b : Buffer) (h : list ndarray) (e d : loc)
  (ea da r : ndarray) :
  nth_error h e = Some ea -> nth_error h d = Some da ->
  decode junk b ea da = Ok r ->
  decode_m junk e d (mk_state b h)
  = (Ok (length h), mk_state b (h ++ [r])).
Proof.
  intros He Hd Hr. unfold decode_m.
  rewrite (bind_ok get_self _ (mk_state b h) (mk_state b h) b eq_refl).
  rewrite (bind_ok (load e) _ (mk_state b h) (mk_state b h) ea)
    by (unfold load; cbn [heap]; rewrite He; reflexivity).
  rewrite (bind_ok (load d) _ (mk_state b h) (mk_state b h) da)
    by (unfold load; cbn [heap]; rewrite Hd; reflexivity).
  rewrite Hr. reflexivity.
Qed.

Lemma get_ok (st : state) (draw : list Z) :
  can_sample (self st) = true ->
  n_stack (self st) = 4 ->
  holds_rollouts st ->
  randint_outcome 0 (num_in_buffer (self st)) (n_env (self st)) draw ->
  exists r st', get junk draw st = (Ok r, st').
Proof.
  intros Hcs Hst (He & Hn & Hh & Hw & Hc & Hnum & Sobs & Sdones & [ra Sa]
                  & [rr Sr] & [rm Sm] & [rk Sk]) Hdraw.
  destruct st as [b h]. cbn [self] in Hcs, Hst, He, Hn, Hh, Hw, Hc, Hnum, Hdraw.
  set (st := mk_state b h) in *.
  destruct (take_stored st b [] dones _ draw Sdones eq_refl He Hnum Hdraw)
    as (od & Ed & Hod).
  destruct (take_stored st b [od] enc_obs _ draw Sobs eq_refl He Hnum Hdraw)
    as (oe & Ee & Hoe).
  assert (Hoe' : shape oe = [Z.to_nat (n_env b); (Z.to_nat (n_steps b) + 4)%nat;
                             Z.to_nat (height b); Z.to_nat (width b);
                             Z.to_nat (n_channels b)]).
  { rewrite Hoe. cbn [self st]. rewrite Hst. repeat f_equal. lia. }
  destruct (decode_shape junk b oe od (Z.to_nat (n_steps b))
              (Z.to_nat (n_env b)) (Z.to_nat (height b)) (Z.to_nat (width b))
              (Z.to_nat (n_channels b)) Hst ltac:(lia) ltac:(lia) ltac:(lia)
              ltac:(lia) ltac:(lia) Hoe' Hod) as (obs & Eobs & _).
  destruct (take_stored st b [od; oe; obs] actions _ draw Sa eq_refl He Hnum
              Hdraw) as (oa & Ea & _).
  destruct (take_stored st b [od; oe; obs; oa] rewards _ draw Sr eq_refl He
              Hnum Hdraw) as (orw & Er & _).
  destruct (take_stored st b [od; oe; obs; oa; orw] mus _ draw Sm eq_refl He
              Hnum Hdraw) as (om & Em & _).
  destruct (take_stored st b [od; oe; obs; oa; orw; om] masks _ draw Sk
              eq_refl He Hnum Hdraw) as (ok & Ek & _).
  cbn [heap st] in Ed, Ee, Ea, Er, Em, Ek.
  rewrite <- !app_assoc in Ed, Ee, Ea, Er, Em, Ek.
  cbn [app] in Ed, Ee, Ea, Er, Em, Ek.
  unfold get.
  rewrite (bind_ok get_self _ st st b eq_refl).
  rewrite Hcs. rewrite (bind_ok (ret tt) _ st st tt eq_refl).
  unfold st. rewrite app_nil_r in Ed.
  rewrite (bind_ok _ _ _ _ _ Ed). cbv beta.
  rewrite (bind_ok _ _ _ _ _ Ee). cbv beta.
  assert (Edec : decode_m junk (length (h ++ [od])) (length h)
                   (mk_state b (h ++ [od; oe]))
                 = (Ok (length (h ++ [od; oe])),
                    mk_state b (h ++ [od; oe; obs]))).
  { replace (h ++ [od; oe; obs]) with ((h ++ [od; oe]) ++ [obs])
      by (rewrite <- app_assoc; reflexivity).
    apply decode_m_ok with (ea := oe) (da := od); [| |exact Eobs].
    - replace (h ++ [od; oe]) with ((h ++ [od]) ++ [oe])
        by (rewrite <- app_assoc; reflexivity).
      rewrite nth_error_app2 by lia. rewrite Nat.sub_diag. reflexivity.
    - rewrite nth_error_app2 by lia. rewrite Nat.sub_diag. reflexivity. }
  rewrite (bind_ok _ _ _ _ _ Edec). cbv beta.
  rewrite (bind_ok _ _ _ _ _ Ea). cbv beta.
  rewrite (bind_ok _ _ _ _ _ Er). cbv beta.
  rewrite (bind_ok _ _ _ _ _ Em). cbv beta.
  rewrite (bind_ok _ _ _ _ _ Ek). cbv beta.
  eexists. eexists. reflexivity.
Qed.
End GetReturns.

(** ** Sampling and the frame stack *)

Section Sampling.

Import Fixtures.

(** C8, counterexample.  On a buffer that never received a batch [get]
    raises [AssertionError], the failure of its [assert]; it does not
    raise an [EmptyBufferError]. *)
Lemma get_on_empty_buffer_raises_assertion_error :
  exists st0,
    new_buffer env1 5 4 50 = Ok st0 /\
    can_sample (self st0) = false /\
    fst (get 0 [0] st0) = Raise "AssertionError"%string /\
    fst (get 0 [0] st0) <> Raise "EmptyBufferError"%string.
Proof.
  eexists. split; [reflexivity|]. split; [reflexivity|].
  split; [reflexivity|]. discriminate.
Qed.

(** C8, as amended.  When [can_sample()] is false, [get] fails its
    assertion ([AssertionError]) and leaves the store as it is.  When
    [can_sample()] is true, on a buffer of stack depth 4 that holds rollout
    batches of the documented shapes, [get] returns a batch for every
    outcome of the random draw. *)
Theorem get_asserts_can_sample (junk : Z) (st : state) (draw : list Z) :
  (can_sample (self st) = false ->
   get junk draw st = (Raise AssertionError, st)) /\
  (can_sample (self st) = true ->
   n_stack (self st) = 4 ->
   holds_rollouts st ->
   randint_outcome 0 (num_in_buffer (self st)) (n_env (self st)) draw ->
   exists r st', get junk draw st = (Ok r, st')).
Proof.
  split.
  - apply get_cannot_sample.
  - apply get_ok.
Qed.

(** With a stack depth of 2 or of 1, [decode] raises [ValueError] on a
    trace of one environment without any termination: of 2 steps (the
    assignment [y_var[3:] = ...] cannot broadcast), and of 1 step (the
    final [np.reshape] has the wrong number of elements). *)
Theorem decode_raises_unless_four_frames :
  (exists b, init env1 2 2 50 = Ok b /\
     decode 0 b (numbered [1; 4; 1; 1; 1]%nat) (full [1; 2]%nat 0)
     = Raise ValueError) /\
  (exists b, init env1 2 1 50 = Ok b /\
     decode 0 b (numbered [1; 3; 1; 1; 1]%nat) (full [1; 2]%nat 0)
     = Raise ValueError) /\
  (exists b, init env1 1 2 50 = Ok b /\
     decode 0 b (numbered [1; 3; 1; 1; 1]%nat) (full [1; 1]%nat 0)
     = Raise ValueError) /\
  (exists b, init env1 1 1 50 = Ok b /\
     decode 0 b (numbered [1; 2; 1; 1; 1]%nat) (full [1; 1]%nat 0)
     = Raise ValueError).
Proof.
  repeat split; eexists; (split; [reflexivity|vm_compute; reflexivity]).
Qed.

(** With a stack depth of 4 the frames numbered 1 to 7 and a termination
    at step 1 give the stacks computed by hand: nothing of the first
    episode is left in the stacks of steps 2 and 3. *)
Example decode_four_frames :
  exists b, init env1 3 4 50 = Ok b /\
    decode 0 b (numbered [1; 7; 1; 1; 1]%nat)
           (mk_ndarray [1; 3]%nat [0; 1; 0])
    = Ok (mk_ndarray [1; 4; 1; 1; 4]%nat
            [1; 2; 3; 4;  2; 3; 4; 5;  0; 0; 0; 6;  0; 0; 6; 7]).
Proof.
  eexists. split; [reflexivity|vm_compute; reflexivity].
Qed.

End Sampling.

(** ** The Retrace recursion *)

Section RetraceFacts.

Import Tensor Retrace.
Local Open Scope Qc_scope.

Lemma nth_map_seq {A} (f : nat -> A) (n i : nat) (d : A) :
  (i < n)%nat -> nth i (map f (seq 0 n)) d = f i.
Proof.
  intros H. rewrite nth_indep with (d' := f 0%nat)
    by (rewrite length_map, length_seq; exact H).
  rewrite map_nth. rewrite seq_nth by exact H. reflexivity.
Qed.

Lemma map2_length {A B C} (f : A -> B -> C) (a : list A) (b : list B) :
  length a = length b -> length (map2 f a b) = length a.
Proof.
  revert b. induction a as [|x a IH]; intros [|y b] H; simpl in *;
    try reflexivity; try discriminate.
  f_equal. apply IH. lia.
Qed.

Lemma nth_map2 (f : Qc -> Qc -> Qc) (a b : list Qc) (e : nat) :
  length a = length b -> (e < length a)%nat ->
  nth e (map2 f a b) 0 = f (nth e a 0) (nth e b 0).
Proof.
  revert b e. induction a as [|x a IH]; intros [|y b] e H He; simpl in *;
    try lia; try discriminate.
  destruct e as [|e]; [reflexivity|]. apply IH; lia.
Qed.

Lemma nth_map_Qc (f : Qc -> Qc) (a : list Qc) (e : nat) :
  (e < length a)%nat -> nth e (map f a) 0 = f (nth e a 0).
Proof.
  intros H. rewrite nth_indep with (d' := f 0)
    by (rewrite length_map; exact H).
  apply map_nth.
Qed.

(** The sequence [batch_to_seq] returns, entry by entry. *)
Lemma batch_to_seq_ok (h : list Qc) (E N : nat) :
  N <> 0%nat -> length h = (E * N)%nat ->
  exists sq,
    batch_to_seq h E N = Ok sq /\ length sq = N /\
    forall t, (t < N)%nat ->
      length (nth t sq []) = E /\
      forall e, (e < E)%nat -> nth e (nth t sq []) 0 = nth (e * N + t) h 0.
Proof.
  intros HN Hlen. unfold batch_to_seq.
  destruct (N =? 0)%nat eqn:E0; [apply Nat.eqb_eq in E0; contradiction|].
  rewrite Hlen, Nat.eqb_refl. eexists. split; [reflexivity|].
  split; [rewrite length_map, length_seq; reflexivity|].
  intros t Ht. rewrite nth_map_seq by exact Ht.
  split; [rewrite length_map, length_seq; reflexivity|].
  intros e He. rewrite nth_map_seq by exact He. reflexivity.
Qed.

(** The steps of one environment, by index. *)
Lemma env_steps_index (h : list Qc) (E N e : nat) :
  length h = (E * N)%nat -> (e < E)%nat ->
  env_steps h N e = map (fun t => nth (e * N + t) h 0) (seq 0 N).
Proof.
  intros Hlen He. unfold env_steps.
  assert (Hb : (e * N + N <= E * N)%nat).
  { replace (e * N + N)%nat with (S e * N)%nat by lia.
    apply Nat.mul_le_mono_r. lia. }
  apply nth_ext with (d := 0) (d' := 0).
  - rewrite length_firstn, length_skipn, length_map, length_seq. lia.
  - intros t Ht. rewrite length_firstn, length_skipn in Ht.
    rewrite nth_firstn, nth_skipn.
    replace (t <? N)%nat with true by (symmetry; apply Nat.ltb_lt; lia).
    rewrite nth_map_seq by lia. reflexivity.
Qed.

Lemma env_steps_length (h : list Qc) (E N e : nat) :
  length h = (E * N)%nat -> (e < E)%nat -> length (env_steps h N e) = N.
Proof.
  intros Hlen He. rewrite (env_steps_index h E N e Hlen He).
  rewrite length_map, length_seq. reflexivity.
Qed.

Lemma nth_env_steps (h : list Qc) (N e t : nat) :
  (t < N)%nat -> nth t (env_steps h N e) 0 = nth (e * N + t) h 0.
Proof.
  intros Ht. unfold env_steps. rewrite nth_firstn, nth_skipn.
  replace (t <? N)%nat with true by (symmetry; apply Nat.ltb_lt; lia).
  reflexivity.
Qed.

(** Two flat batches with the same steps for every environment. *)
Lemma env_steps_ext (a b : list Qc) (E N : nat) :
  length a = (E * N)%nat -> length b = (E * N)%nat ->
  (forall e, (e < E)%nat -> env_steps a N e = env_steps b N e) ->
  a = b.
Proof.
  intros Ha Hb H. apply nth_ext with (d := 0) (d' := 0); [congruence|].
  intros i Hi. rewrite Ha in Hi.
  assert (HN : (0 < N)%nat) by (destruct N; lia).
  pose proof (Nat.div_mod_eq i N) as Hdm.
  pose proof (Nat.mod_upper_bound i N ltac:(lia)) as Hm.
  assert (He : (i / N < E)%nat) by (apply Nat.Div0.div_lt_upper_bound; lia).
  replace i with (i / N * N + i mod N)%nat by lia.
  rewrite <- !nth_env_steps by exact Hm.
  rewrite (H _ He). reflexivity.
Qed.

End RetraceFacts.

Section RetraceLoop.

Import Tensor Retrace.
Local Open Scope Qc_scope.

Variables (E N : nat) (gamma : Qc).
Variables r d rho q v : nat -> nat -> Qc.
Variables reward_seq done_seq rho_bar q_is value_sequence : list (list Qc).

Hypothesis reward_seq_ok : tabulated E N r reward_seq.
Hypothesis done_seq_ok : tabulated E N d done_seq.
Hypothesis rho_bar_ok :
  tabulated E N (fun e t => Qcmin 1 (rho e t)) rho_bar.
Hypothesis q_is_ok : tabulated E N q q_is.
Hypothesis value_sequence_ok : tabulated E (N + 1) v value_sequence.

Lemma spec_from_end (e : nat) :
  spec_from gamma N (r e) (d e) (rho e) (q e) (v e) N = ([], v e N).
Proof.
  unfold spec_from. rewrite Nat.sub_diag. reflexivity.
Qed.

Lemma spec_from_step (e m : nat) :
  (m < N)%nat ->
  spec_from gamma N (r e) (d e) (rho e) (q e) (v e) m =
  let '(targets, carry) :=
    spec_from gamma N (r e) (d e) (rho e) (q e) (v e) (S m) in
  let raw_target := r e m + gamma * (1 - d e m) * carry in
  (raw_target :: targets,
   v e m + Qcmin 1 (rho e m) * (raw_target - q e m)).
Proof.
  intros Hm. unfold spec_from.
  replace (N - m)%nat with (S (N - S m)) by lia.
  cbn [seq map retrace_spec]. reflexivity.
Qed.

Lemma q_retrace_step_inv (m : nat) (s : list Qc * list (list Qc)) :
  (m < N)%nat ->
  loop_inv E N gamma r d rho q v (S m) s ->
  exists s',
    q_retrace_step E gamma reward_seq done_seq rho_bar q_is value_sequence m s
    = Ok s' /\
    loop_inv E N gamma r d rho q v m s'.
Proof.
  intros Hm (Hlen & Hall & Hcount & Hcomp).
  destruct s as [qret qrets]. cbn [fst snd] in *.
  destruct (reward_seq_ok m Hm) as [LR HR].
  destruct (done_seq_ok m Hm) as [LD HD].
  destruct (rho_bar_ok m Hm) as [LP HP].
  destruct (q_is_ok m Hm) as [LQ HQ].
  destruct (value_sequence_ok m ltac:(lia)) as [LV HV].
  unfold q_retrace_step, check_shape. cbn [forallb].
  rewrite Hlen, LR, LD, LP, LQ, LV, !Nat.eqb_refl. cbn [andb rbind].
  set (raw := vadd (nth m reward_seq [])
                (vmul (vscale gamma qret) (vone_minus (nth m done_seq [])))).
  assert (Lraw : length raw = E).
  { unfold raw, vadd, vmul, vscale, vone_minus.
    repeat (rewrite map2_length || rewrite length_map); lia. }
  eexists. split; [reflexivity|].
  split; [|split; [|split]]; cbn [fst snd].
  - unfold vadd, vmul, vsub.
    repeat (rewrite map2_length || rewrite length_map); lia.
  - apply Forall_app. split; [exact Hall|]. constructor; [exact Lraw|constructor].
  - rewrite length_app. cbn [length]. lia.
  - intros e He. destruct (Hcomp e He) as [Hc Hcol].
    rewrite (spec_from_step e m Hm).
    destruct (spec_from gamma N (r e) (d e) (rho e) (q e) (v e) (S m))
      as [targets carry].
    cbn [fst snd] in *.
    assert (Hraw : nth e raw 0 = r e m + gamma * (1 - d e m) * carry).
    { unfold raw, vadd, vmul, vscale, vone_minus.
      rewrite nth_map2;
        [|repeat (rewrite map2_length || rewrite length_map); lia|lia].
      rewrite nth_map2; [|rewrite !length_map; lia|rewrite length_map; lia].
      rewrite !nth_map_Qc by lia.
      rewrite HR, HD, Hc by exact He. ring. }
    split.
    + unfold vadd, vmul, vsub.
      rewrite nth_map2;
        [|repeat (rewrite map2_length || rewrite length_map); lia
         |repeat (rewrite map2_length || rewrite length_map); lia].
      rewrite nth_map2;
        [|repeat (rewrite map2_length || rewrite length_map); lia|lia].
      rewrite nth_map2 by lia.
      fold raw. rewrite Hraw, HP, HQ, HV by exact He. ring.
    + unfold column in *. rewrite rev_app_distr. cbn [rev app map].
      rewrite Hraw, Hcol. reflexivity.
Qed.

Lemma q_retrace_loop (m : nat) (s : list Qc * list (list Qc)) :
  (m <= N)%nat ->
  loop_inv E N gamma r d rho q v m s ->
  exists s',
    for_each (range_down m)
      (q_retrace_step E gamma reward_seq done_seq rho_bar q_is value_sequence)
      s = Ok s' /\
    loop_inv E N gamma r d rho q v 0 s'.
Proof.
  revert s. induction m as [|m IH]; intros s Hm Hinv.
  - exists s. split; [reflexivity|exact Hinv].
  - destruct (q_retrace_step_inv m s ltac:(lia) Hinv) as (s1 & E1 & Hinv1).
    destruct (IH s1 ltac:(lia) Hinv1) as (s' & E' & Hinv').
    exists s'. split; [|exact Hinv'].
    unfold range_down in *. rewrite seq_S, rev_app_distr.
    cbn [rev app for_each Nat.add]. rewrite E1. cbn [rbind]. exact E'.
Qed.

End RetraceLoop.

Section RetraceCore.

Import Tensor Retrace.
Local Open Scope Qc_scope.

Lemma last_nth {A} (l : list A) (d : A) :
  last l d = nth (length l - 1) l d.
Proof.
  induction l as [|x l IH]; [reflexivity|].
  destruct l as [|y l]; [reflexivity|].
  change (last (x :: y :: l) d) with (last (y :: l) d). rewrite IH.
  cbn [length]. rewrite !Nat.sub_succ, !Nat.sub_0_r. reflexivity.
Qed.

Lemma chunk_flat_map (N : nat) (f : nat -> list Qc) (l : list nat) (i : nat) :
  (forall x, In x l -> length (f x) = N) ->
  (i < length l)%nat ->
  firstn N (skipn (i * N) (flat_map f l)) = f (nth i l 0%nat).
Proof.
  revert i. induction l as [|x l IH]; intros i Hall Hi; [simpl in Hi; lia|].
  assert (Hx : length (f x) = N) by (apply Hall; left; reflexivity).
  cbn [flat_map]. destruct i as [|i].
  - cbn [Nat.mul skipn nth]. rewrite firstn_app, Hx, Nat.sub_diag.
    cbn [firstn]. rewrite app_nil_r. apply firstn_all2. lia.
  - cbn [nth]. rewrite skipn_app, Hx.
    rewrite skipn_all2 by lia. cbn [app].
    replace (S i * N - N)%nat with (i * N)%nat by lia.
    apply IH; [|simpl in Hi; lia].
    intros y Hy. apply Hall. right. exact Hy.
Qed.

Lemma length_flat_map_const (N : nat) (f : nat -> list Qc) (l : list nat) :
  (forall x, In x l -> length (f x) = N) ->
  length (flat_map f l) = (length l * N)%nat.
Proof.
  induction l as [|x l IH]; intros Hall; [reflexivity|].
  cbn [flat_map length]. rewrite length_app, IH.
  - rewrite (Hall x) by (left; reflexivity). lia.
  - intros y Hy. apply Hall. right. exact Hy.
Qed.

(** The batch [seq_to_batch] returns, environment by environment. *)
Lemma seq_to_batch_ok (E N : nat) (sq : list (list Qc)) :
  N <> 0%nat -> length sq = N -> Forall (fun x => length x = E) sq ->
  exists out,
    seq_to_batch sq = Ok out /\ length out = (E * N)%nat /\
    forall e, (e < E)%nat -> env_steps out N e = column e sq.
Proof.
  intros HN Hlen Hall. unfold seq_to_batch.
  destruct sq as [|h0 sq']; [simpl in Hlen; lia|].
  assert (Hh0 : length h0 = E) by (inversion Hall; assumption).
  replace (forallb (fun v => (length v =? length h0)%nat) (h0 :: sq'))
    with true.
  - rewrite Hh0. eexists. split; [reflexivity|].
    assert (Hc : forall x, In x (seq 0 E) ->
                 length (map (fun v => nth x v 0) (h0 :: sq')) = N)
      by (intros x _; rewrite length_map; exact Hlen).
    split.
    + rewrite length_flat_map_const with (N := N) by exact Hc.
      rewrite length_seq. reflexivity.
    + intros e He. unfold env_steps, column.
      rewrite chunk_flat_map by (try exact Hc; rewrite length_seq; exact He).
      rewrite seq_nth by exact He. reflexivity.
  - symmetry. apply forallb_forall. intros x Hx.
    rewrite Forall_forall in Hall. rewrite (Hall x Hx), Hh0.
    apply Nat.eqb_refl.
Qed.

(** [q_retrace] returns, for every environment, the raw targets of the
    recursion of the specification. *)
Lemma q_retrace_core (E N : nat) (gamma : Qc)
  (rewards dones q_i values rho_i : list Qc) :
  N <> 0%nat ->
  length rewards = (E * N)%nat -> length dones = (E * N)%nat ->
  length q_i = (E * N)%nat -> length rho_i = (E * N)%nat ->
  length values = (E * (N + 1))%nat ->
  exists out,
    q_retrace rewards dones q_i values rho_i E N gamma = Ok out /\
    length out = (E * N)%nat /\
    forall e, (e < E)%nat ->
      env_steps out N e =
      fst (spec_from gamma N
             (fun t => nth (e * N + t) rewards 0)
             (fun t => nth (e * N + t) dones 0)
             (fun t => nth (e * N + t) rho_i 0)
             (fun t => nth (e * N + t) q_i 0)
             (fun t => nth (e * (N + 1) + t) values 0) 0).
Proof.
  intros HN Lr Ld Lq Lp Lv.
  destruct (batch_to_seq_ok (map (Qcmin 1) rho_i) E N HN
              ltac:(rewrite length_map; exact Lp)) as (PB & EP & LP & HP).
  destruct (batch_to_seq_ok rewards E N HN Lr) as (RS & ER & LR & HR).
  destruct (batch_to_seq_ok dones E N HN Ld) as (DS & ED & LD & HD).
  destruct (batch_to_seq_ok q_i E N HN Lq) as (QS & EQ & LQ & HQ).
  destruct (batch_to_seq_ok values E (N + 1) ltac:(lia) Lv)
    as (VS & EV & LV & HV).
  unfold q_retrace. rewrite EP, ER, ED, EQ, EV. cbn [rbind].
  set (r := fun e t => nth (e * N + t) rewards 0).
  set (d := fun e t => nth (e * N + t) dones 0).
  set (rho := fun e t => nth (e * N + t) rho_i 0).
  set (q := fun e t => nth (e * N + t) q_i 0).
  set (v := fun e t => nth (e * (N + 1) + t) values 0).
  assert (TP : tabulated E N (fun e t => Qcmin 1 (rho e t)) PB).
  { intros t Ht. destruct (HP t Ht) as [H1 H2]. split; [exact H1|].
    intros e He. rewrite (H2 e He). unfold rho.
    assert (Hi : (e * N + t < length rho_i)%nat).
    { rewrite Lp. assert (S e * N <= E * N)%nat
        by (apply Nat.mul_le_mono_r; lia). lia. }
    apply nth_map_Qc. exact Hi. }
  assert (Hinit : loop_inv E N gamma r d rho q v N (last VS [], [])).
  { rewrite last_nth, LV. replace (N + 1 - 1)%nat with N by lia.
    destruct (HV N ltac:(lia)) as [H1 H2].
    split; [exact H1|]. split; [constructor|].
    split; [cbn [snd length]; lia|].
    intros e He. unfold spec_from. rewrite Nat.sub_diag.
    cbn [seq map retrace_spec fst snd rev column].
    split; [apply (H2 e He)|reflexivity]. }
  destruct (q_retrace_loop E N gamma r d rho q v RS DS PB QS VS
              HR HD TP HQ HV N (last VS [], []) (le_n N) Hinit)
    as ([qret qrets] & Eloop & (_ & Hall & Hcount & Hcomp)).
  rewrite Eloop. cbn [rbind snd] in *.
  destruct (seq_to_batch_ok E N (rev qrets) HN
              ltac:(rewrite length_rev; lia) (Forall_rev Hall))
    as (out & Eout & Lout & Hout).
  exists out. split; [exact Eout|]. split; [exact Lout|].
  intros e He. rewrite (Hout e He). exact (proj2 (Hcomp e He)).
Qed.

End RetraceCore.

Section RetraceClaims.

Import Tensor Retrace.
Local Open Scope Qc_scope.

Lemma firstn_map_seq {A} (f : nat -> A) (n m : nat) :
  (n <= m)%nat -> firstn n (map f (seq 0 m)) = map f (seq 0 n).
Proof.
  intros H. rewrite firstn_map. f_equal.
  replace m with (n + (m - n))%nat by lia.
  rewrite seq_app, firstn_app, length_seq, Nat.sub_diag.
  cbn [firstn]. rewrite app_nil_r. apply firstn_all2.
  rewrite length_seq. lia.
Qed.

(** C3.  [q_retrace] runs the recursion of the specification: for
    well-shaped flat batches it returns a flat batch whose steps, for every
    environment, are the raw targets [reward_t + gamma (1 - done_t) carry]
    in forward time order, where [carry] starts as the value past the end
    of the window and becomes
    [value_t + min(1, rho_t) (raw_target_t - Q_taken_t)] after step [t]. *)
Theorem q_retrace_refines_spec (E N : nat) (gamma : Qc)
  (rewards dones q_i values rho_i : list Qc) :
  N <> 0%nat ->
  length rewards = (E * N)%nat -> length dones = (E * N)%nat ->
  length q_i = (E * N)%nat -> length rho_i = (E * N)%nat ->
  length values = (E * (N + 1))%nat ->
  exists out,
    q_retrace rewards dones q_i values rho_i E N gamma = Ok out /\
    length out = (E * N)%nat /\
    forall e, (e < E)%nat ->
      env_steps out N e =
      fst (retrace_spec gamma
             (env_steps rewards N e) (env_steps dones N e)
             (env_steps rho_i N e) (env_steps q_i N e)
             (firstn N (env_steps values (N + 1) e))
             (nth N (env_steps values (N + 1) e) 0)).
Proof.
  intros HN Lr Ld Lq Lp Lv.
  destruct (q_retrace_core E N gamma rewards dones q_i values rho_i
              HN Lr Ld Lq Lp Lv) as (out & Eout & Lout & Hout).
  exists out. split; [exact Eout|]. split; [exact Lout|].
  intros e He. rewrite (Hout e He). unfold spec_from.
  rewrite Nat.sub_0_r.
  rewrite (env_steps_index rewards E N e Lr He).
  rewrite (env_steps_index dones E N e Ld He).
  rewrite (env_steps_index rho_i E N e Lp He).
  rewrite (env_steps_index q_i E N e Lq He).
  rewrite (env_steps_index values E (N + 1) e Lv He).
  rewrite firstn_map_seq by lia.
  rewrite nth_map_seq by lia. reflexivity.
Qed.

Lemma spec_from_gamma_zero (N : nat) (r d rho q v : nat -> Qc) (k m : nat) :
  (m + k = N)%nat ->
  fst (spec_from 0 N r d rho q v m) = map r (seq m k).
Proof.
  revert m. induction k as [|k IH]; intros m Hm.
  - replace m with N by lia.
    unfold spec_from. rewrite Nat.sub_diag. reflexivity.
  - rewrite (spec_from_step N 0 (fun _ => r) (fun _ => d) (fun _ => rho)
               (fun _ => q) (fun _ => v) 0%nat m) by lia.
    specialize (IH (S m) ltac:(lia)).
    destruct (spec_from 0 N r d rho q v (S m)) as [targets carry].
    cbn [fst] in *. cbn [seq map]. rewrite IH. f_equal. ring.
Qed.

(** C5.  With [gamma = 0] the targets are the rewards, whatever the
    importance weights, the values, the Q estimates and the termination
    flags. *)
Theorem q_retrace_gamma_zero (E N : nat)
  (rewards dones q_i values rho_i : list Qc) :
  N <> 0%nat ->
  length rewards = (E * N)%nat -> length dones = (E * N)%nat ->
  length q_i = (E * N)%nat -> length rho_i = (E * N)%nat ->
  length values = (E * (N + 1))%nat ->
  q_retrace rewards dones q_i values rho_i E N 0 = Ok rewards.
Proof.
  intros HN Lr Ld Lq Lp Lv.
  destruct (q_retrace_core E N 0 rewards dones q_i values rho_i
              HN Lr Ld Lq Lp Lv) as (out & Eout & Lout & Hout).
  rewrite Eout. f_equal.
  apply (env_steps_ext out rewards E N Lout Lr).
  intros e He. rewrite (Hout e He).
  rewrite (spec_from_gamma_zero N _ _ _ _ _ N 0) by lia.
  symmetry. apply (env_steps_index rewards E N e Lr He).
Qed.

(** The recursion under a calibrated critic: the carry is the raw target,
    and the raw target is the n-step return. *)
Lemma spec_from_calibrated (gamma : Qc) (N : nat) (r d rho q v : nat -> Qc)
  (k m : nat) :
  (forall t, (t < N)%nat -> Qcmin 1 (rho t) = 1) ->
  (forall t, (t < N)%nat -> q t = v t) ->
  (forall t, (t < N)%nat -> d t = 0) ->
  (m + k = N)%nat ->
  snd (spec_from gamma N r d rho q v m)
  = n_step_return gamma (map r (seq m k)) (v N) /\
  forall j, (j < k)%nat ->
    nth j (fst (spec_from gamma N r d rho q v m)) 0
    = n_step_return gamma (map r (seq (m + j) (k - j))) (v N).
Proof.
  intros Hrho Hq Hd. revert m. induction k as [|k IH]; intros m Hm.
  - replace m with N by lia. unfold spec_from. rewrite Nat.sub_diag.
    split; [reflexivity|]. intros j Hj. lia.
  - rewrite (spec_from_step N gamma (fun _ => r) (fun _ => d) (fun _ => rho)
               (fun _ => q) (fun _ => v) 0%nat m) by lia.
    destruct (IH (S m) ltac:(lia)) as [IHc IHt].
    destruct (spec_from gamma N r d rho q v (S m)) as [targets carry].
    cbn [fst snd] in *.
    assert (Hraw : r m + gamma * (1 - d m) * carry
                   = n_step_return gamma (map r (seq m (S k))) (v N)).
    { cbn [seq map n_step_return]. rewrite <- IHc.
      rewrite (Hd m) by lia. ring. }
    split.
    + rewrite (Hrho m), (Hq m) by lia. rewrite Hraw. ring.
    + intros j Hj. destruct j as [|j].
      * cbn [nth]. rewrite Nat.add_0_r, Nat.sub_0_r. exact Hraw.
      * cbn [nth]. rewrite IHt by lia.
        replace (m + S j)%nat with (S m + j)%nat by lia.
        reflexivity.
Qed.

Lemma discounted_shift (gamma : Qc) (l : list Qc) (a : nat) :
  sum (map (fun ir => gamma ^ fst ir * snd ir)
           (combine (seq (S a) (length l)) l))
  = gamma * sum (map (fun ir => gamma ^ fst ir * snd ir)
                     (combine (seq a (length l)) l)).
Proof.
  revert a. induction l as [|x l IH]; intros a.
  - cbn. ring.
  - cbn [length seq combine map sum fold_right fst snd].
    change (fold_right Qcplus 0) with sum.
    rewrite IH. cbn [Qcpower]. ring.
Qed.

Lemma n_step_return_sum (gamma : Qc) (l : list Qc) (bootstrap : Qc) :
  n_step_return gamma l bootstrap
  = discounted_sum gamma l + gamma ^ length l * bootstrap.
Proof.
  induction l as [|x l IH].
  - unfold discounted_sum. cbn. ring.
  - cbn [n_step_return]. rewrite IH. unfold discounted_sum.
    cbn [length seq combine map sum fold_right fst snd].
    change (fold_right Qcplus 0) with sum.
    rewrite discounted_shift. cbn [Qcpower]. ring.
Qed.

(** C4.  With truncated importance weights all equal to 1, Q estimates
    equal to the values and no termination in the window, the target of
    step [t] is the n-step bootstrapped return: the discounted sum of the
    rewards from [t] on plus [gamma] to the number of remaining steps
    times the value past the end of the window. *)
Theorem q_retrace_calibrated_critic (E N : nat) (gamma : Qc)
  (rewards dones q_i values rho_i : list Qc) :
  N <> 0%nat ->
  length rewards = (E * N)%nat -> length dones = (E * N)%nat ->
  length q_i = (E * N)%nat -> length rho_i = (E * N)%nat ->
  length values = (E * (N + 1))%nat ->
  (forall i, (i < E * N)%nat -> Qcmin 1 (nth i rho_i 0) = 1) ->
  (forall i, (i < E * N)%nat -> nth i dones 0 = 0) ->
  (forall e t, (e < E)%nat -> (t < N)%nat ->
     nth (e * N + t) q_i 0 = nth (e * (N + 1) + t) values 0) ->
  exists out,
    q_retrace rewards dones q_i values rho_i E N gamma = Ok out /\
    forall e t, (e < E)%nat -> (t < N)%nat ->
      nth (e * N + t) out 0
      = discounted_sum gamma (skipn t (env_steps rewards N e))
        + gamma ^ (N - t) * nth (e * (N + 1) + N) values 0.
Proof.
  intros HN Lr Ld Lq Lp Lv Hrho Hd Hq.
  destruct (q_retrace_core E N gamma rewards dones q_i values rho_i
              HN Lr Ld Lq Lp Lv) as (out & Eout & Lout & Hout).
  exists out. split; [exact Eout|].
  intros e t He Ht.
  assert (Hb : forall t', (t' < N)%nat -> (e * N + t' < E * N)%nat).
  { intros t' Ht'. assert (S e * N <= E * N)%nat
      by (apply Nat.mul_le_mono_r; lia). lia. }
  rewrite <- nth_env_steps by exact Ht.
  rewrite (Hout e He).
  destruct (spec_from_calibrated gamma N
              (fun t => nth (e * N + t) rewards 0)
              (fun t => nth (e * N + t) dones 0)
              (fun t => nth (e * N + t) rho_i 0)
              (fun t => nth (e * N + t) q_i 0)
              (fun t => nth (e * (N + 1) + t) values 0) N 0) as [_ Hn].
  - intros t' Ht'. apply Hrho. apply Hb. exact Ht'.
  - intros t' Ht'. apply Hq; assumption.
  - intros t' Ht'. apply Hd. apply Hb. exact Ht'.
  - lia.
  - rewrite (Hn t Ht). rewrite n_step_return_sum.
    rewrite length_map, length_seq.
    rewrite (env_steps_index rewards E N e Lr He).
    rewrite skipn_map, skipn_seq. reflexivity.
Qed.

End RetraceClaims.

(** ** The trust-region adjustment *)

Section TrustRegionFacts.

Import Tensor TrustRegion.
Local Open Scope Qc_scope.

Lemma nth_map2_gen {A B C} (f : A -> B -> C) (a : list A) (b : list B)
  (i : nat) (da : A) (db : B) (dc : C) :
  length a = length b -> (i < length a)%nat ->
  nth i (map2 f a b) dc = f (nth i a da) (nth i b db).
Proof.
  revert b i. induction a as [|x a IH]; intros [|y b] i H Hi; simpl in *;
    try lia; try discriminate.
  destruct i as [|i]; [reflexivity|]. apply IH; lia.
Qed.

Lemma nth_map_gen {A C} (f : A -> C) (a : list A) (i : nat) (da : A)
  (dc : C) :
  (i < length a)%nat -> nth i (map f a) dc = f (nth i a da).
Proof.
  intros H. rewrite nth_indep with (d' := f da)
    by (rewrite length_map; exact H).
  apply map_nth.
Qed.

Lemma map2_diag {A C} (f : A -> A -> C) (a : list A) :
  map2 f a a = map (fun x => f x x) a.
Proof.
  induction a as [|x a IH]; simpl; [reflexivity|]. f_equal. exact IH.
Qed.

Lemma square_nonneg (x : Qc) : 0 <= x * x.
Proof.
  destruct (Qc_dec 0 x) as [[H|H]|H].
  - apply Qclt_le_weak.
    replace 0 with (0 * x) by ring. apply Qcmult_lt_compat_r; assumption.
  - assert (Hx : 0 < - x).
    { apply Qclt_minus_iff in H. replace (- x) with (0 + - x) by ring.
      exact H. }
    apply Qclt_le_weak.
    replace (x * x) with (- x * - x) by ring.
    replace 0 with (0 * - x) by ring. apply Qcmult_lt_compat_r; assumption.
  - subst x. replace (0 * 0) with 0 by ring. apply Qcle_refl.
Qed.

Lemma sum_squares_nonneg (k : list Qc) : 0 <= sum (map (fun x => x * x) k).
Proof.
  induction k as [|x k IH]; [apply Qcle_refl|].
  cbn [map sum fold_right]. change (fold_right Qcplus 0) with sum.
  replace 0 with (0 + 0) by ring.
  apply Qcplus_le_compat; [apply square_nonneg|exact IH].
Qed.

Lemma eps_pos : 0 < eps.
Proof. reflexivity. Qed.

(** No adjustment when the gradient already satisfies the constraint. *)
Lemma adjustment_zero (d s delta : Qc) :
  d <= delta -> 0 <= s -> Qcmax 0 ((d - delta) / (s + eps)) = 0.
Proof.
  intros Hd Hs. unfold Qcmax.
  destruct (0 ?= (d - delta) / (s + eps)) eqn:Ec; try reflexivity.
  exfalso. apply Qclt_alt in Ec.
  assert (Hpos : 0 < s + eps).
  { apply Qclt_le_trans with (y := 0 + eps).
    - replace (0 + eps) with eps by ring. exact eps_pos.
    - apply Qcplus_le_compat; [exact Hs|apply Qcle_refl]. }
  assert (Hne : s + eps <> 0).
  { intros H. rewrite H in Hpos. exact (Qclt_not_eq _ _ Hpos eq_refl). }
  pose proof (Qcmult_lt_compat_r _ _ _ Hpos Ec) as H.
  replace (0 * (s + eps)) with 0 in H by ring.
  replace ((d - delta) / (s + eps) * (s + eps)) with (d - delta) in H
    by (field; exact Hne).
  apply Qcle_minus_iff in Hd.
  assert (H' : 0 <= - (d - delta))
    by (replace (- (d - delta)) with (delta + - d) by ring; exact Hd).
  apply Qcopp_le_compat in H'.
  replace (- - (d - delta)) with (d - delta) in H' by ring.
  replace (- 0) with 0 in H' by ring.
  exact (Qcle_not_lt _ _ H' H).
Qed.

Lemma sub_scale_zero (g k : list Qc) :
  length k = length g -> vsub g (vscale 0 k) = g.
Proof.
  revert k. induction g as [|x g IH]; intros [|y k] H; simpl in *;
    try reflexivity; try discriminate.
  unfold vsub, vscale in *. cbn [map map2]. f_equal; [ring|].
  apply IH. lia.
Qed.

Lemma same_shape_rows (a b : tensor) :
  same_shape a b = true ->
  length a = length b /\
  forall i, (i < length a)%nat -> length (nth i a []) = length (nth i b []).
Proof.
  unfold same_shape. intros H. apply andb_true_iff in H.
  destruct H as [H1 H2]. apply Nat.eqb_eq in H1. split; [exact H1|].
  rewrite forallb_forall in H2. intros i Hi.
  specialize (H2 (nth i a [], nth i b [])).
  cbn [fst snd] in H2. apply Nat.eqb_eq. apply H2.
  rewrite <- combine_nth by exact H1. apply nth_In.
  rewrite length_combine. lia.
Qed.

(** C6.  With the trust region enabled, the gradient of every sample is
    projected on its own: it becomes
    [g - max(0, (sum(k g) - delta) / (sum(k^2) + eps)) k], which is [g]
    itself whenever [sum(k g) <= delta]. *)
Theorem trust_region_projection (kl_grad grad : tensor) (delta : Qc) :
  same_shape kl_grad grad = true ->
  exists g',
    adjusted_grad kl_grad grad delta = Ok g' /\
    length g' = length grad /\
    forall i, (i < length grad)%nat ->
      nth i g' [] = project_sample (nth i kl_grad []) (nth i grad []) delta /\
      (dot (nth i kl_grad []) (nth i grad []) <= delta ->
       nth i g' [] = nth i grad []).
Proof.
  intros Hs. destruct (same_shape_rows _ _ Hs) as [Hlen Hrows].
  unfold adjusted_grad. rewrite Hs. eexists. split; [reflexivity|].
  assert (Ladj : length (adjustment kl_grad grad delta) = length grad).
  { unfold adjustment, reduce_sum, tmul, tsquare.
    repeat (rewrite map2_length || rewrite length_map); lia. }
  assert (Lcol : length (col_mul (adjustment kl_grad grad delta) kl_grad)
                 = length grad).
  { unfold col_mul. rewrite map2_length; lia. }
  split; [unfold tsub; rewrite map2_length; lia|].
  intros i Hi.
  assert (Hproj : nth i (tsub grad
                           (col_mul (adjustment kl_grad grad delta) kl_grad)) []
                  = project_sample (nth i kl_grad []) (nth i grad []) delta).
  { unfold tsub.
    rewrite nth_map2_gen with (da := []) (db := []) by lia.
    unfold col_mul.
    rewrite nth_map2_gen with (da := 0) (db := []) by lia.
    unfold adjustment.
    rewrite nth_map2_gen with (da := 0) (db := 0)
      by (unfold reduce_sum, tmul, tsquare;
          repeat (rewrite map2_length || rewrite length_map); lia).
    unfold reduce_sum, tmul, tsquare.
    rewrite nth_map_gen with (da := [])
      by (rewrite map2_length; lia).
    rewrite nth_map2_gen with (da := []) (db := []) by lia.
    rewrite nth_map_gen with (da := []) by (rewrite length_map; lia).
    rewrite nth_map_gen with (da := []) by lia.
    unfold project_sample, dot, vmul. rewrite map2_diag. reflexivity. }
  split; [exact Hproj|].
  intros Hd. rewrite Hproj. unfold project_sample.
  rewrite adjustment_zero.
  - apply sub_scale_zero. apply Hrows. lia.
  - exact Hd.
  - unfold dot, vmul. rewrite map2_diag. apply sum_squares_nonneg.
Qed.

End TrustRegionFacts.

(** * The theorems at work on the fixtures *)

Section Witnesses.

Import Fixtures Tensor Retrace TrustRegion.

Lemma small_size_fails_at_first_use_witness :
  exists st0,
    new_buffer env1 5 4 3 = Ok st0 /\
    size (self st0) = 0 /\
    (forall bt, fst (put_batch 0 bt st0) = Raise IndexError) /\
    (forall draw, fst (get 0 draw st0) = Raise AssertionError).
Proof.
  apply (small_size_fails_at_first_use 0 env1 5 4 3); lia.
Defined.

Lemma uniform_batches4 : uniform (batch_shapes (batch1 2 4 1)) batches4.
Proof.
  unfold batches4. repeat constructor.
Qed.

Lemma buffer_circularity_witness :
  exists st,
    put_all 0 batches4 buffer3 = (Ok tt, st) /\
    size (self st) = 3 /\
    num_in_buffer (self st) = 3 /\
    logical_content st
    = [Ok (batch1 2 4 2); Ok (batch1 2 4 3); Ok (batch1 2 4 4)].
Proof.
  apply (proj1 (buffer_circularity 0 env1 2 4 6 buffer3 1
                  (batch_shapes (batch1 2 4 1)) batches4
                  eq_refl ltac:(simpl; lia) eq_refl uniform_batches4)).
Defined.

Lemma holds_rollouts_buffer3_one : holds_rollouts buffer3_one.
Proof.
  unfold holds_rollouts, stored.
  repeat split; try (vm_compute; discriminate);
    try (eexists; eexists; eexists; split; [vm_compute; reflexivity|];
         split; vm_compute; reflexivity);
    try (eexists; eexists; split; [vm_compute; reflexivity|];
         split; vm_compute; reflexivity).
Qed.

Lemma get_asserts_can_sample_witness :
  exists r st', get 0 [0] buffer3_one = (Ok r, st').
Proof.
  apply (proj2 (get_asserts_can_sample 0 buffer3_one [0]));
    [reflexivity|reflexivity|exact holds_rollouts_buffer3_one|].
  split; [reflexivity|]. repeat constructor; vm_compute; congruence.
Defined.

Lemma get_is_read_only_witness :
  let '(r, st') := get 0 [0] buffer3_one in
  self st' = self buffer3_one /\
  (exists new, heap st' = heap buffer3_one ++ new) /\
  (forall l a, nth_error (heap buffer3_one) l = Some a ->
               nth_error (heap st') l = Some a) /\
  (forall obs a rw m d k, r = Ok (obs, a, rw, m, d, k) ->
     Forall (fun l => (length (heap buffer3_one) <= l < length (heap st'))%nat)
            [obs; a; rw; m; d; k]).
Proof.
  exact (get_is_read_only 0 [0] buffer3_one).
Defined.

Lemma q_retrace_refines_spec_witness :
  exists out,
    q_retrace ex_rewards ex_dones ex_q ex_values ex_rho 1 3 ex_gamma = Ok out /\
    length out = 3%nat /\
    forall e, (e < 1)%nat ->
      env_steps out 3 e =
      fst (retrace_spec ex_gamma
             (env_steps ex_rewards 3 e) (env_steps ex_dones 3 e)
             (env_steps ex_rho 3 e) (env_steps ex_q 3 e)
             (firstn 3 (env_steps ex_values (3 + 1) e))
             (nth 3 (env_steps ex_values (3 + 1) e) (Q2Qc 0))).
Proof.
  apply (q_retrace_refines_spec 1 3 ex_gamma ex_rewards ex_dones ex_q
           ex_values ex_rho); (discriminate || reflexivity).
Defined.

Lemma q_retrace_gamma_zero_witness :
  q_retrace ex_rewards ex_dones ex_q ex_values ex_rho 1 3 (Q2Qc 0)
  = Ok ex_rewards.
Proof.
  apply (q_retrace_gamma_zero 1 3 ex_rewards ex_dones ex_q ex_values ex_rho);
    (discriminate || reflexivity).
Defined.

Lemma q_retrace_calibrated_critic_witness :
  exists out,
    q_retrace ex_rewards ex_dones ex_q ex_values ex_rho 1 3 ex_gamma = Ok out /\
    forall e t, (e < 1)%nat -> (t < 3)%nat ->
      nth (e * 3 + t) out (Q2Qc 0)
      = (discounted_sum ex_gamma (skipn t (env_steps ex_rewards 3 e))
         + ex_gamma ^ (3 - t) * nth (e * (3 + 1) + 3) ex_values (Q2Qc 0))%Qc.
Proof.
  apply (q_retrace_calibrated_critic 1 3 ex_gamma ex_rewards ex_dones ex_q
           ex_values ex_rho); try (discriminate || reflexivity).
  - intros i Hi. destruct i as [|[|[|i]]]; try reflexivity. simpl in Hi. lia.
  - intros i Hi. destruct i as [|[|[|i]]]; try reflexivity. simpl in Hi. lia.
  - intros e t He Ht. destruct e as [|e]; [|lia].
    destruct t as [|[|[|t]]]; try reflexivity. lia.
Defined.

(** The targets of the episode, by hand: [2 + 0.9], [0 + 0.9 * 2.9] and
    [1 + 0.9 * 2.61]. *)
Example q_retrace_three_steps :
  exists out,
    q_retrace ex_rewards ex_dones ex_q ex_values ex_rho 1 3 ex_gamma = Ok out /\
    map this out = [3349 # 1000; 261 # 100; 29 # 10]%Q.
Proof.
  eexists. split; vm_compute; reflexivity.
Qed.

Lemma trust_region_projection_witness :
  exists g',
    adjusted_grad ex_kl_grad ex_grad (Q2Qc 1) = Ok g' /\
    length g' = length ex_grad /\
    forall i, (i < length ex_grad)%nat ->
      nth i g' [] = project_sample (nth i ex_kl_grad []) (nth i ex_grad [])
                      (Q2Qc 1) /\
      ((dot (nth i ex_kl_grad []) (nth i ex_grad []) <= Q2Qc 1)%Qc ->
       nth i g' [] = nth i ex_grad []).
Proof.
  apply (trust_region_projection ex_kl_grad ex_grad (Q2Qc 1)). reflexivity.
Defined.

End Witnesses.

Section AtIndex.

(** Multi-indices within a shape. *)
Lemma ravel_bound (sh idx : list nat) :
  Forall2 lt idx sh -> (ravel sh idx < numel sh)%nat.
Proof.
  intros H. induction H as [|i n idx sh Hi H IH].
  - simpl. lia.
  - change (ravel (n :: sh) (i :: idx)) with (i * numel sh + ravel sh idx)%nat.
    change (numel (n :: sh)) with (n * numel sh)%nat.
    assert (S i * numel sh <= n * numel sh)%nat
      by (apply Nat.mul_le_mono_r; lia).
    lia.
Qed.

Lemma unravel_ravel (sh idx : list nat) :
  Forall2 lt idx sh -> unravel sh (ravel sh idx) = idx.
Proof.
  intros H. induction H as [|i n idx sh Hi H IH]; [reflexivity|].
  pose proof (ravel_bound sh idx H) as Hb.
  change (ravel (n :: sh) (i :: idx)) with (i * numel sh + ravel sh idx)%nat.
  cbn [unravel].
  assert (Hd : ((i * numel sh + ravel sh idx) / numel sh = i)%nat).
  { symmetry. apply Nat.div_unique with (r := ravel sh idx); lia. }
  assert (Hm : ((i * numel sh + ravel sh idx) mod numel sh
                = ravel sh idx)%nat).
  { symmetry. apply Nat.mod_unique with (q := i); lia. }
  rewrite Hd, Hm, IH. reflexivity.
Qed.

Lemma tabulate_at (sh : list nat) (f : list nat -> Z) (idx : list nat) :
  Forall2 lt idx sh -> at_index (tabulate sh f) idx = f idx.
Proof.
  intros H. unfold at_index, tabulate. cbn [shape data].
  pose proof (ravel_bound sh idx H) as Hb.
  rewrite nth_indep with (d' := f (unravel sh 0%nat))
    by (rewrite length_map, length_seq; exact Hb).
  rewrite map_nth with (f := fun k => f (unravel sh k)).
  rewrite seq_nth by exact Hb. cbn [Nat.add].
  rewrite unravel_ravel by exact H. reflexivity.
Qed.

Lemma tabulate_well_formed (sh : list nat) (f : list nat -> Z) :
  well_formed (tabulate sh f).
Proof.
  unfold well_formed, tabulate. cbn [shape data].
  rewrite length_map, length_seq. reflexivity.
Qed.

Lemma clip_in_bounds (sh idx : list nat) :
  Forall2 lt idx sh -> clip_index sh idx = idx.
Proof.
  intros H. induction H as [|i n idx sh Hi H IH]; [reflexivity|].
  unfold clip_index in *. cbn [combine map fst snd]. rewrite IH.
  destruct (n =? 1)%nat eqn:E; [|reflexivity].
  apply Nat.eqb_eq in E. f_equal. lia.
Qed.

(** Position of an entry along the leading axis. *)
Lemma at_index_cons (a : ndarray) (n : nat) (rest : list nat) (j : nat)
  (idx : list nat) :
  shape a = n :: rest ->
  at_index a (j :: idx) = nth (j * numel rest + ravel rest idx) (data a) 0.
Proof.
  intros H. unfold at_index. rewrite H. reflexivity.
Qed.

End AtIndex.
Section OpsData.

Lemma nth_combine_mul (la lb : list Z) (p : nat) :
  length la = length lb -> (p < length la)%nat ->
  nth p (map (fun xy => fst xy * snd xy) (combine la lb)) 0
  = nth p la 0 * nth p lb 0.
Proof.
  intros Hl Hp.
  rewrite nth_map_gen with (da := (0, 0)) by (rewrite length_combine; lia).
  rewrite combine_nth by exact Hl. reflexivity.
Qed.

Lemma swapaxes10_spec (a : ndarray) (n0 n1 h w c : nat) :
  shape a = [n0; n1; h; w; c] ->
  exists r, swapaxes10 a = Ok r /\ shape r = [n1; n0; h; w; c] /\
    forall t e p1 p2 p3,
      (t < n1)%nat -> (e < n0)%nat -> (p1 < h)%nat -> (p2 < w)%nat ->
      (p3 < c)%nat ->
      at_index r [t; e; p1; p2; p3] = at_index a [e; t; p1; p2; p3].
Proof.
  intros Ha. unfold swapaxes10, transpose. rewrite Ha.
  eexists. split; [reflexivity|]. split; [reflexivity|].
  intros t e p1 p2 p3 Ht He H1 H2 H3.
  rewrite tabulate_at by (repeat constructor; assumption).
  reflexivity.
Qed.

Lemma transpose_stack_spec (a : ndarray) (s t e h w c : nat) :
  shape a = [s; t; e; h; w; c] ->
  exists r, transpose a [2; 1; 3; 4; 0; 5]%nat = Ok r /\
    shape r = [e; t; h; w; s; c] /\
    forall ie it ih iw il ic,
      (ie < e)%nat -> (it < t)%nat -> (ih < h)%nat -> (iw < w)%nat ->
      (il < s)%nat -> (ic < c)%nat ->
      at_index r [ie; it; ih; iw; il; ic] = at_index a [il; it; ie; ih; iw; ic].
Proof.
  intros Ha. unfold transpose. rewrite Ha.
  eexists. split; [reflexivity|]. split; [reflexivity|].
  intros ie it ih iw il ic He Ht Hh Hw Hl Hc.
  rewrite tabulate_at by (repeat constructor; assumption).
  reflexivity.
Qed.

Lemma multiply_spec (a b : ndarray) (t e h w c : nat) :
  shape a = [t; e; h; w; c] -> shape b = [t; e; 1; 1; 1]%nat ->
  exists r, multiply a b = Ok r /\ shape r = [t; e; h; w; c] /\
    forall it ie ih iw ic,
      (it < t)%nat -> (ie < e)%nat -> (ih < h)%nat -> (iw < w)%nat ->
      (ic < c)%nat ->
      at_index r [it; ie; ih; iw; ic]
      = at_index a [it; ie; ih; iw; ic] * at_index b [it; ie; 0; 0; 0]%nat.
Proof.
  intros Ha Hb. unfold multiply. rewrite Ha, Hb.
  cbn [length Nat.max Nat.sub pad_ones].
  rewrite broadcast_shapes_ones.
  unfold broadcast_to. rewrite Ha, Hb.
  cbn [length Nat.sub pad_ones].
  rewrite can_broadcast_refl, can_broadcast_ones.
  cbn [rbind]. eexists. split; [reflexivity|]. split; [reflexivity|].
  intros it ie ih iw ic Ht He Hh Hw Hc.
  assert (Hin : Forall2 lt [it; ie; ih; iw; ic] [t; e; h; w; c])
    by (repeat constructor; assumption).
  pose proof (ravel_bound _ _ Hin) as Hp.
  unfold at_index at 1. cbn [shape data].
  rewrite nth_combine_mul;
    [|cbn [tabulate data]; rewrite !length_map, !length_seq; reflexivity
     |cbn [tabulate data]; rewrite length_map, length_seq; exact Hp].
  f_equal.
  - change (nth (ravel [t; e; h; w; c] [it; ie; ih; iw; ic])
              (data (tabulate [t; e; h; w; c]
                 (fun j => nth (ravel [t; e; h; w; c]
                                  (clip_index [t; e; h; w; c] j))
                               (data a) 0))) 0)
      with (at_index (tabulate [t; e; h; w; c]
                 (fun j => nth (ravel [t; e; h; w; c]
                                  (clip_index [t; e; h; w; c] j))
                               (data a) 0)) [it; ie; ih; iw; ic]).
    rewrite tabulate_at by exact Hin.
    rewrite clip_in_bounds by exact Hin.
    unfold at_index. rewrite Ha. reflexivity.
  - change (nth (ravel [t; e; h; w; c] [it; ie; ih; iw; ic])
              (data (tabulate [t; e; h; w; c]
                 (fun j => nth (ravel [t; e; 1; 1; 1]%nat
                                  (clip_index [t; e; 1; 1; 1]%nat j))
                               (data b) 0))) 0)
      with (at_index (tabulate [t; e; h; w; c]
                 (fun j => nth (ravel [t; e; 1; 1; 1]%nat
                                  (clip_index [t; e; 1; 1; 1]%nat j))
                               (data b) 0)) [it; ie; ih; iw; ic]).
    rewrite tabulate_at by exact Hin.
    unfold at_index. rewrite Hb. f_equal. f_equal.
    unfold clip_index. cbn [combine map fst snd Nat.eqb].
    destruct (t =? 1)%nat eqn:Et; destruct (e =? 1)%nat eqn:Ee;
      try apply Nat.eqb_eq in Et; try apply Nat.eqb_eq in Ee;
      repeat f_equal; lia.
Qed.

End OpsData.
Section SliceData.

Lemma slice0_at (a : ndarray) (n lo hi : nat) (rest : list nat) :
  shape a = n :: rest -> (lo <= hi)%nat ->
  forall j idx, (j < hi - lo)%nat -> Forall2 lt idx rest ->
    at_index (mk_ndarray ((hi - lo)%nat :: rest)
                (segment (lo * numel rest) (hi * numel rest) (data a)))
             (j :: idx)
    = at_index a ((lo + j)%nat :: idx).
Proof.
  intros Ha Hle j idx Hj Hin.
  pose proof (ravel_bound _ _ Hin) as Hp.
  rewrite at_index_cons with (n := (hi - lo)%nat) (rest := rest)
    by reflexivity.
  rewrite at_index_cons with (n := n) (rest := rest) by exact Ha.
  cbn [data]. rewrite segment_nth.
  assert (Hb : (S j * numel rest <= (hi - lo) * numel rest)%nat)
    by (apply Nat.mul_le_mono_r; lia).
  rewrite <- Nat.mul_sub_distr_r.
  replace (j * numel rest + ravel rest idx <? (hi - lo) * numel rest)%nat
    with true by (symmetry; apply Nat.ltb_lt; lia).
  f_equal. lia.
Qed.

Lemma slice_to_last_spec (a : ndarray) (t : nat) (rest : list nat) :
  shape a = S t :: rest ->
  exists r, slice_to a (-1) = Ok r /\ shape r = t :: rest /\
    forall j idx, (j < t)%nat -> Forall2 lt idx rest ->
      at_index r (j :: idx) = at_index a (j :: idx).
Proof.
  intros Ha. unfold slice_to, slice0. rewrite Ha.
  assert (Hb : norm_bound (S t) (-1) = t)
    by (unfold norm_bound; cbn [Z.ltb Z.compare]; lia).
  rewrite Hb. eexists. split; [reflexivity|].
  split; [cbn [shape]; f_equal; lia|].
  intros j idx Hj Hin.
  rewrite (slice0_at a (S t) 0 t rest Ha) by (try lia; exact Hin).
  reflexivity.
Qed.

Lemma slice_from_one_spec (a : ndarray) (t : nat) (rest : list nat) :
  shape a = t :: rest ->
  exists r, slice_from a 1 = Ok r /\ shape r = (t - 1)%nat :: rest /\
    forall j idx, (j < t - 1)%nat -> Forall2 lt idx rest ->
      at_index r (j :: idx) = at_index a (S j :: idx).
Proof.
  intros Ha. unfold slice_from, slice0. rewrite Ha.
  destruct t as [|t].
  - eexists. split; [reflexivity|]. split; [reflexivity|].
    intros j idx Hj. lia.
  - assert (Hb : norm_bound (S t) 1 = 1%nat)
      by (unfold norm_bound; cbn [Z.ltb Z.compare];
          change (Z.to_nat 1) with 1%nat; lia).
    rewrite Hb. eexists. split; [reflexivity|]. split; [reflexivity|].
    intros j idx Hj Hin.
    rewrite (slice0_at a (S t) 1 (S t) rest Ha) by (try lia; exact Hin).
    reflexivity.
Qed.

(** Replacing the entries [lo <= j < hi] of the leading axis. *)
Lemma splice_at (a : ndarray) (n lo hi : nat) (rest : list nat)
  (dv : list Z) :
  shape a = n :: rest -> well_formed a ->
  (lo <= hi)%nat -> (hi <= n)%nat ->
  length dv = ((hi - lo) * numel rest)%nat ->
  well_formed
    (mk_ndarray (n :: rest)
       (firstn (lo * numel rest) (data a) ++ dv
        ++ skipn (hi * numel rest) (data a))) /\
  forall j idx, (j < n)%nat -> Forall2 lt idx rest ->
    at_index
      (mk_ndarray (n :: rest)
         (firstn (lo * numel rest) (data a) ++ dv
          ++ skipn (hi * numel rest) (data a)))
      (j :: idx)
    = if ((lo <=? j)%nat && (j <? hi)%nat)%bool
      then nth ((j - lo) * numel rest + ravel rest idx) dv 0
      else at_index a (j :: idx).
Proof.
  intros Ha Hwf Hlo Hhi Hdv.
  unfold well_formed in *. rewrite Ha in Hwf.
  change (numel (n :: rest)) with (n * numel rest)%nat in *.
  set (st := numel rest) in *.
  assert (Hhs : (hi * st = lo * st + length dv)%nat)
    by (rewrite Hdv, <- Nat.mul_add_distr_r; f_equal; lia).
  assert (Hhn : (hi * st <= n * st)%nat) by (apply Nat.mul_le_mono_r; lia).
  rewrite Hhs.
  assert (Hlen : (lo * st + length dv <= length (data a))%nat) by lia.
  split.
  - cbn [shape data]. rewrite splice_length by exact Hlen. exact Hwf.
  - intros j idx Hj Hin.
    pose proof (ravel_bound _ _ Hin) as Hp. fold st in Hp.
    rewrite at_index_cons with (n := n) (rest := rest) by reflexivity.
    rewrite at_index_cons with (n := n) (rest := rest) by exact Ha.
    cbn [data]. fold st. rewrite splice_nth by exact Hlen.
    destruct (Nat.leb_spec lo j) as [E1|E1];
      destruct (Nat.ltb_spec j hi) as [E2|E2]; cbn [andb].
    + assert (S j * st <= hi * st)%nat by (apply Nat.mul_le_mono_r; lia).
      assert (lo * st <= j * st)%nat by (apply Nat.mul_le_mono_r; lia).
      replace ((lo * st <=? j * st + ravel rest idx)%nat
               && (j * st + ravel rest idx <? lo * st + length dv)%nat)%bool
        with true
        by (symmetry; apply andb_true_iff; split;
            [apply Nat.leb_le|apply Nat.ltb_lt]; lia).
      f_equal.
      replace j with (lo + (j - lo))%nat at 1 by lia.
      rewrite Nat.mul_add_distr_r. lia.
    + assert (hi * st <= j * st)%nat by (apply Nat.mul_le_mono_r; lia).
      replace (j * st + ravel rest idx <? lo * st + length dv)%nat
        with false by (symmetry; apply Nat.ltb_ge; lia).
      rewrite andb_false_r. reflexivity.
    + assert (S j * st <= lo * st)%nat by (apply Nat.mul_le_mono_r; lia).
      replace (lo * st <=? j * st + ravel rest idx)%nat
        with false by (symmetry; apply Nat.leb_gt; lia).
      reflexivity.
    + assert (S j * st <= lo * st)%nat by (apply Nat.mul_le_mono_r; lia).
      replace (lo * st <=? j * st + ravel rest idx)%nat
        with false by (symmetry; apply Nat.leb_gt; lia).
      reflexivity.
Qed.

(** The value an assignment stores when the shapes agree. *)
Lemma assign_value_spec (v : ndarray) (sh : list nat) :
  shape v = sh ->
  exists v', assign_value v sh = Ok v' /\ shape v' = sh /\
    well_formed v' /\
    forall idx, Forall2 lt idx sh -> at_index v' idx = at_index v idx.
Proof.
  intros <-. unfold assign_value, broadcast_to. cbn [shape data].
  rewrite Nat.sub_diag.
  assert (E : drop_ones 0 (shape v) = shape v) by (destruct (shape v); reflexivity).
  rewrite E. rewrite Nat.sub_diag. cbn [pad_ones].
  rewrite can_broadcast_refl. eexists. split; [reflexivity|].
  split; [reflexivity|]. split; [apply tabulate_well_formed|].
  intros idx Hin. rewrite tabulate_at by exact Hin.
  rewrite clip_in_bounds by exact Hin. reflexivity.
Qed.

Lemma set_slice0_spec (a v : ndarray) (n lo hi : nat) (rest : list nat) :
  shape a = n :: rest -> well_formed a ->
  shape v = (hi - lo)%nat :: rest -> (lo <= hi)%nat -> (hi <= n)%nat ->
  exists r, set_slice0 a lo hi v = Ok r /\ shape r = n :: rest /\
    well_formed r /\
    forall j idx, (j < n)%nat -> Forall2 lt idx rest ->
      at_index r (j :: idx)
      = if ((lo <=? j)%nat && (j <? hi)%nat)%bool
        then at_index v ((j - lo)%nat :: idx)
        else at_index a (j :: idx).
Proof.
  intros Ha Hwf Hv Hlo Hhi. unfold set_slice0. rewrite Ha.
  destruct (assign_value_spec v _ Hv) as (v' & E & Sv' & Wv' & Av').
  rewrite E. cbn [rbind].
  replace (Nat.max lo hi) with hi by lia.
  assert (Hdv : length (data v') = ((hi - lo) * numel rest)%nat).
  { unfold well_formed in Wv'. rewrite Wv', Sv'. reflexivity. }
  destruct (splice_at a n lo hi rest (data v') Ha Hwf Hlo Hhi Hdv)
    as [Wr Ar].
  eexists. split; [reflexivity|]. split; [reflexivity|].
  split; [exact Wr|].
  intros j idx Hj Hin. rewrite (Ar j idx Hj Hin).
  destruct ((lo <=? j)%nat && (j <? hi)%nat)%bool eqn:Ec; [|reflexivity].
  apply andb_true_iff in Ec. destruct Ec as [E1 E2].
  apply Nat.leb_le in E1. apply Nat.ltb_lt in E2.
  rewrite <- Av' by (constructor; [lia|exact Hin]).
  rewrite at_index_cons with (n := (hi - lo)%nat) (rest := rest)
    by exact Sv'.
  reflexivity.
Qed.

End SliceData.
Section RowData.

Lemma nth_flat_map_const (L : nat) (f : nat -> list Z) (n i p : nat) :
  (forall x, (x < n)%nat -> length (f x) = L) ->
  (i < n)%nat -> (p < L)%nat ->
  nth (i * L + p) (flat_map f (seq 0 n)) 0 = nth p (f i) 0.
Proof.
  revert i. induction n as [|n IH]; intros i Hall Hi Hp; [lia|].
  rewrite seq_S, flat_map_app. cbn [Nat.add flat_map]. rewrite app_nil_r.
  assert (Hlen : length (flat_map f (seq 0 n)) = (n * L)%nat).
  { clear IH Hi. induction n as [|k IHk]; [reflexivity|].
    rewrite seq_S, flat_map_app, length_app. cbn [Nat.add flat_map].
    rewrite app_nil_r, IHk, (Hall k) by (intros; try apply Hall; lia). lia. }
  destruct (Nat.eq_dec i n) as [->|Hne].
  - rewrite app_nth2 by lia. f_equal. lia.
  - assert (S i * L <= n * L)%nat by (apply Nat.mul_le_mono_r; lia).
    rewrite app_nth1 by lia. apply IH; [|lia|exact Hp].
    intros x Hx. apply Hall. lia.
Qed.

Lemma getitem_neg_at (a : ndarray) (s k : nat) (rest : list nat) :
  shape a = s :: rest -> well_formed a -> (k < s)%nat ->
  exists row,
    getitem a (- (Z.of_nat k + 1)) = Ok row /\
    norm_index s (- (Z.of_nat k + 1)) = Ok (s - 1 - k)%nat /\
    shape row = rest /\ well_formed row /\
    forall idx, Forall2 lt idx rest ->
      at_index row idx = at_index a ((s - 1 - k)%nat :: idx).
Proof.
  intros Ha Hwf Hk.
  assert (Hi : norm_index s (- (Z.of_nat k + 1)) = Ok (s - 1 - k)%nat).
  { rewrite norm_index_neg by lia. f_equal. lia. }
  unfold getitem. rewrite Ha, Hi. cbn [rbind].
  eexists. split; [reflexivity|]. split; [reflexivity|].
  split; [reflexivity|].
  unfold well_formed in *. rewrite Ha in Hwf.
  change (numel (s :: rest)) with (s * numel rest)%nat in Hwf.
  assert (Hb : (S (s - 1 - k) * numel rest <= s * numel rest)%nat)
    by (apply Nat.mul_le_mono_r; lia).
  split.
  - cbn [data shape]. rewrite segment_length; lia.
  - intros idx Hin. pose proof (ravel_bound _ _ Hin) as Hp.
    rewrite at_index_cons with (n := s) (rest := rest) by exact Ha.
    unfold at_index at 1. cbn [shape data]. rewrite segment_nth.
    replace (ravel rest idx
             <? S (s - 1 - k) * numel rest - (s - 1 - k) * numel rest)%nat
      with true by (symmetry; apply Nat.ltb_lt; lia).
    reflexivity.
Qed.

(** [obs[-(k + 1), k:] = x_var], entry by entry. *)
Lemma set_row_from_spec (obs x : ndarray) (s m k : nat) (rest : list nat) :
  shape obs = s :: m :: rest -> well_formed obs ->
  shape x = (m - k)%nat :: rest ->
  (k < s)%nat -> (k <= m)%nat ->
  exists r, set_row_from obs (- (Z.of_nat k + 1)) (Z.of_nat k) x = Ok r /\
    shape r = s :: m :: rest /\ well_formed r /\
    forall row j idx, (row < s)%nat -> (j < m)%nat -> Forall2 lt idx rest ->
      at_index r (row :: j :: idx)
      = if ((row =? s - 1 - k)%nat && (k <=? j)%nat)%bool
        then at_index x ((j - k)%nat :: idx)
        else at_index obs (row :: j :: idx).
Proof.
  intros Ho Hwf Hx Hks Hkm. unfold set_row_from.
  destruct (getitem_neg_at obs s k (m :: rest) Ho Hwf Hks)
    as (row0 & E0 & Hi & S0 & W0 & A0).
  rewrite E0. cbn [rbind].
  assert (Hb : norm_bound m (Z.of_nat k) = k).
  { unfold norm_bound.
    replace (Z.of_nat k <? 0) with false by (symmetry; apply Z.ltb_ge; lia).
    rewrite Nat2Z.id. lia. }
  destruct (set_slice0_spec row0 x m k m rest S0 W0 Hx Hkm (le_n m))
    as (row1 & E1 & S1 & W1 & A1).
  unfold set_slice_from. rewrite S0, Hb, E1. cbn [rbind].
  unfold setitem. rewrite Ho, Hi. cbn [rbind].
  destruct (assign_value_spec row1 (m :: rest) S1) as (v' & Ev & Sv & Wv & Av).
  rewrite Ev. cbn [rbind].
  set (q := (s - 1 - k)%nat) in *.
  assert (Hdv : length (data v') = ((S q - q) * numel (m :: rest))%nat).
  { unfold well_formed in Wv. rewrite Wv, Sv.
    replace (S q - q)%nat with 1%nat by lia. lia. }
  destruct (splice_at obs s q (S q) (m :: rest) (data v') Ho Hwf
              ltac:(lia) ltac:(unfold q; lia) Hdv) as [Wr Ar].
  eexists. split; [reflexivity|]. split; [reflexivity|].
  split; [exact Wr|].
  intros row j idx Hrow Hj Hin.
  assert (Hin' : Forall2 lt (j :: idx) (m :: rest))
    by (constructor; assumption).
  rewrite (Ar row (j :: idx) Hrow Hin').
  destruct (Nat.eqb_spec row q) as [->|Hne].
  - replace ((q <=? q)%nat && (q <? S q)%nat)%bool with true
      by (symmetry; apply andb_true_iff; split;
          [apply Nat.leb_le|apply Nat.ltb_lt]; lia).
    rewrite Nat.sub_diag. cbn [Nat.mul Nat.add andb].
    change (nth (ravel (m :: rest) (j :: idx)) (data v') 0)
      with (nth (ravel (shape (mk_ndarray (m :: rest) (data v'))) (j :: idx))
                (data (mk_ndarray (m :: rest) (data v'))) 0).
    replace (mk_ndarray (m :: rest) (data v')) with v'
      by (destruct v'; cbn in *; subst; reflexivity).
    fold (at_index v' (j :: idx)).
    rewrite (Av _ Hin'), (A1 j idx Hj Hin).
    replace (j <? m)%nat with true by (symmetry; apply Nat.ltb_lt; lia).
    rewrite andb_true_r.
    destruct (k <=? j)%nat; [reflexivity|].
    apply (A0 (j :: idx) Hin').
  - replace ((q <=? row)%nat && (row <? S q)%nat)%bool with false;
      [reflexivity|].
    symmetry. apply andb_false_iff.
    destruct (Nat.lt_ge_cases row q);
      [left; apply Nat.leb_gt|right; apply Nat.ltb_ge]; lia.
Qed.

Lemma slice1_from_spec (a : ndarray) (s m : nat) (rest : list nat) :
  shape a = s :: m :: rest -> well_formed a -> (3 <= m)%nat ->
  exists r, slice1_from a 3 = Ok r /\
    shape r = s :: (m - 3)%nat :: rest /\
    forall row j idx, (row < s)%nat -> (j < m - 3)%nat ->
      Forall2 lt idx rest ->
      at_index r (row :: j :: idx) = at_index a (row :: (j + 3)%nat :: idx).
Proof.
  intros Ha Hwf Hm. unfold slice1_from. rewrite Ha.
  rewrite norm_bound_three by exact Hm.
  eexists. split; [reflexivity|]. split; [reflexivity|].
  intros row j idx Hrow Hj Hin.
  pose proof (ravel_bound _ _ Hin) as Hp.
  unfold well_formed in Hwf. rewrite Ha in Hwf.
  change (numel (s :: m :: rest)) with (s * (m * numel rest))%nat in Hwf.
  set (st := numel rest) in *.
  rewrite at_index_cons with (n := s) (rest := (m - 3)%nat :: rest)
    by reflexivity.
  rewrite at_index_cons with (n := s) (rest := m :: rest) by exact Ha.
  cbn [data ravel]. change (numel ((m - 3)%nat :: rest)) with ((m - 3) * st)%nat.
  change (numel (m :: rest)) with (m * st)%nat. fold st.
  assert (Hjb : (S j * st <= (m - 3) * st)%nat)
    by (apply Nat.mul_le_mono_r; lia).
  rewrite nth_flat_map_const with (L := ((m - 3) * st)%nat);
    [|intros x Hx; rewrite segment_length|exact Hrow|lia].
  - rewrite segment_nth.
    replace (j * st + ravel rest idx <? (row * m + m) * st - (row * m + 3) * st)%nat
      with true by (symmetry; apply Nat.ltb_lt; nia).
    f_equal. nia.
  - nia.
  - apply Nat.mul_le_mono_r. lia.
  - rewrite Hwf.
    replace (s * (m * st))%nat with (s * m * st)%nat by lia.
    apply Nat.mul_le_mono_r.
    replace (x * m + m)%nat with (S x * m)%nat by lia.
    apply Nat.mul_le_mono_r. lia.
Qed.

End RowData.
Ltac bounds :=
  repeat first [apply Forall2_nil | apply Forall2_cons; [lia|]].

Section MaskData.

Variable junk : Z.

(** The keep masks [decode] builds from the termination flags. *)
Lemma keep_masks_spec (d : ndarray) (N E : nat) :
  shape d = [E; N] -> well_formed d ->
  exists k keep y1 y2,
    reshape (one_minus d) (map Z.of_nat [E; N; 1; 1; 1]%nat) = Ok k /\
    swapaxes10 k = Ok keep /\
    set_slice_from
      (mk_ndarray [N + 3; E; 1; 1; 1]%nat
         (repeat junk (numel [N + 3; E; 1; 1; 1]%nat))) 3 keep = Ok y1 /\
    set_slice_to y1 3 (scalar 1) = Ok y2 /\
    shape y2 = [(N + 3)%nat; E; 1; 1; 1]%nat /\
    forall j e, (j < N + 3)%nat -> (e < E)%nat ->
      at_index y2 [j; e; 0; 0; 0]%nat = keep_mask d e j.
Proof.
  intros Sd Wd.
  rewrite reshape_of_nat
    by (unfold one_minus; cbn [shape]; rewrite Sd; cbn [numel fold_right]; lia).
  set (k := mk_ndarray [E; N; 1; 1; 1]%nat (data (one_minus d))).
  assert (Ak : forall e t, (e < E)%nat -> (t < N)%nat ->
            at_index k [e; t; 0; 0; 0]%nat = 1 - at_index d [e; t]).
  { intros e t He Ht. unfold at_index, k, one_minus. rewrite Sd.
    cbn [shape data ravel numel fold_right].
    unfold well_formed in Wd. rewrite Sd in Wd.
    cbn [numel fold_right] in Wd.
    assert (S e * N <= E * N)%nat by (apply Nat.mul_le_mono_r; lia).
    rewrite nth_map_gen with (da := 0) by lia.
    do 2 f_equal; lia. }
  destruct (swapaxes10_spec k E N 1 1 1 eq_refl) as (keep & Ek & Sk & Akeep).
  set (y0 := mk_ndarray [N + 3; E; 1; 1; 1]%nat
               (repeat junk (numel [N + 3; E; 1; 1; 1]%nat))).
  assert (W0 : well_formed y0) by (unfold well_formed, y0; apply repeat_length).
  assert (Sk' : shape keep = (N + 3 - 3)%nat :: [E; 1; 1; 1]%nat)
    by (rewrite Sk; f_equal; lia).
  destruct (set_slice0_spec y0 keep (N + 3) 3 (N + 3) [E; 1; 1; 1]%nat
              eq_refl W0 Sk' ltac:(lia) (le_n _))
    as (y1 & E1 & S1 & W1 & A1).
  assert (E1' : set_slice_from y0 3 keep = Ok y1).
  { unfold set_slice_from. cbn [shape y0].
    rewrite norm_bound_three by lia. exact E1. }
  set (ones := tabulate [3; E; 1; 1; 1]%nat
                 (fun j => nth (ravel [1; 1; 1; 1; 1]%nat
                                  (clip_index [1; 1; 1; 1; 1]%nat j))
                               [1] 0)).
  assert (Hdv : length (data ones)
                = ((3 - 0) * numel [E; 1; 1; 1]%nat)%nat).
  { unfold ones, tabulate. cbn [data]. rewrite length_map, length_seq.
    reflexivity. }
  destruct (splice_at y1 (N + 3) 0 3 [E; 1; 1; 1]%nat (data ones) S1 W1
              ltac:(lia) ltac:(lia) Hdv) as [W2 A2].
  exists k, keep, y1. eexists.
  split; [reflexivity|]. split; [exact Ek|]. split; [exact E1'|].
  split.
  { unfold set_slice_to. rewrite S1. rewrite norm_bound_three by lia.
    unfold set_slice0. rewrite S1.
    unfold assign_value, broadcast_to, scalar.
    cbn [shape data length Nat.sub drop_ones pad_ones can_broadcast].
    cbn [Nat.eqb orb andb]. rewrite orb_true_r.
    cbn [andb rbind]. reflexivity. }
  split; [reflexivity|].
  intros j e Hj He.
  assert (Hin : Forall2 lt [e; 0; 0; 0]%nat [E; 1; 1; 1]%nat) by bounds.
  cbn [Nat.max]. fold ones.
  rewrite (A2 j [e; 0; 0; 0]%nat Hj Hin).
  unfold keep_mask. cbn [Nat.leb andb].
  destruct (Nat.ltb_spec j 3) as [Hlt|Hge].
  - rewrite Nat.sub_0_r.
    change (nth (j * numel [E; 1; 1; 1]%nat
                 + ravel [E; 1; 1; 1]%nat [e; 0; 0; 0]%nat) (data ones) 0)
      with (at_index ones [j; e; 0; 0; 0]%nat).
    unfold ones. rewrite tabulate_at by bounds.
    reflexivity.
  - rewrite (A1 j [e; 0; 0; 0]%nat Hj Hin).
    replace ((3 <=? j)%nat && (j <? N + 3)%nat)%bool with true
      by (symmetry; apply andb_true_iff; split;
          [apply Nat.leb_le|apply Nat.ltb_lt]; lia).
    rewrite Akeep by lia. apply Ak; lia.
Qed.

Lemma keep_product_zero (d : ndarray) (e : nat) (count u u0 : nat) :
  (u <= u0 < u + count)%nat -> keep_mask d e u0 = 0 ->
  keep_product d e u count = 0.
Proof.
  revert u. induction count as [|c IH]; intros u Hu H0; [lia|].
  cbn [keep_product]. destruct (Nat.eq_dec u u0) as [->|Hne].
  - rewrite H0. apply Z.mul_0_l.
  - rewrite (IH (S u)) by (try lia; exact H0). apply Z.mul_0_r.
Qed.

(** One round of the loop of [decode], entry by entry. *)
Lemma decode_step_spec (obs x y : ndarray) (m t k e h w c : nat) :
  shape obs = [4; m; e; h; w; c]%nat -> well_formed obs ->
  shape x = [S t; e; h; w; c] ->
  shape y = [t; e; 1; 1; 1]%nat ->
  (k < 4)%nat -> (S t + k = m)%nat ->
  exists obs' x' y',
    decode_step (Z.of_nat k) (obs, x, y) = Ok (obs', x', y') /\
    shape obs' = [4; m; e; h; w; c]%nat /\ well_formed obs' /\
    shape x' = [t; e; h; w; c] /\
    shape y' = [(t - 1)%nat; e; 1; 1; 1]%nat /\
    (forall row j ie ih iw ic,
       (row + k = 3)%nat -> (k <= j)%nat -> (j < m)%nat -> (ie < e)%nat ->
       (ih < h)%nat -> (iw < w)%nat -> (ic < c)%nat ->
       at_index obs' [row; j; ie; ih; iw; ic]
       = at_index x [(j - k)%nat; ie; ih; iw; ic]) /\
    (forall row j ie ih iw ic,
       (row < 4)%nat -> (row + k <> 3)%nat -> (j < m)%nat -> (ie < e)%nat ->
       (ih < h)%nat -> (iw < w)%nat -> (ic < c)%nat ->
       at_index obs' [row; j; ie; ih; iw; ic]
       = at_index obs [row; j; ie; ih; iw; ic]) /\
    (forall j ie ih iw ic,
       (j < t)%nat -> (ie < e)%nat -> (ih < h)%nat -> (iw < w)%nat ->
       (ic < c)%nat ->
       at_index x' [j; ie; ih; iw; ic]
       = at_index x [j; ie; ih; iw; ic] * at_index y [j; ie; 0; 0; 0]%nat) /\
    (forall j ie, (j < t - 1)%nat -> (ie < e)%nat ->
       at_index y' [j; ie; 0; 0; 0]%nat = at_index y [S j; ie; 0; 0; 0]%nat).
Proof.
  intros Ho Wo Hx Hy Hk Hm. unfold decode_step.
  assert (Hx' : shape x = (m - k)%nat :: [e; h; w; c])
    by (rewrite Hx; f_equal; lia).
  destruct (set_row_from_spec obs x 4 m k _ Ho Wo Hx' Hk ltac:(lia))
    as (obs' & E1 & H1 & W1 & A1).
  rewrite E1. cbn [rbind].
  destruct (slice_to_last_spec x t _ Hx) as (x1 & E2 & H2 & A2).
  rewrite E2. cbn [rbind].
  destruct (multiply_spec x1 y t e h w c H2 Hy) as (x' & E3 & H3 & A3).
  rewrite E3. cbn [rbind].
  destruct (slice_from_one_spec y t _ Hy) as (y' & E4 & H4 & A4).
  rewrite E4. cbn [rbind].
  exists obs', x', y'. split; [reflexivity|].
  split; [exact H1|]. split; [exact W1|]. split; [exact H3|].
  split; [exact H4|]. split; [|split; [|split]].
  - intros row j ie ih iw ic Hrow Hkj Hj Hie Hih Hiw Hic.
    rewrite (A1 row j [ie; ih; iw; ic] ltac:(lia) Hj) by bounds.
    replace ((row =? 4 - 1 - k)%nat && (k <=? j)%nat)%bool with true;
      [reflexivity|].
    symmetry. apply andb_true_iff. split;
      [apply Nat.eqb_eq|apply Nat.leb_le]; lia.
  - intros row j ie ih iw ic Hrow Hne Hj Hie Hih Hiw Hic.
    rewrite (A1 row j [ie; ih; iw; ic] Hrow Hj) by bounds.
    replace (row =? 4 - 1 - k)%nat with false; [reflexivity|].
    symmetry. apply Nat.eqb_neq. lia.
  - intros j ie ih iw ic Hj Hie Hih Hiw Hic.
    rewrite (A3 j ie ih iw ic Hj Hie Hih Hiw Hic).
    rewrite (A2 j [ie; ih; iw; ic] Hj) by bounds.
    reflexivity.
  - intros j ie Hj Hie.
    apply (A4 j [ie; 0; 0; 0]%nat Hj). bounds.
Qed.

End MaskData.
Section DecodeData.

Variable junk : Z.

(** [decode] with four stacked frames, entry by entry: channel block [l]
    of the stack of step [s] is frame [s + l] of the encoded observations,
    times the keep masks between that frame and the newest frame of the
    stack. *)
Lemma decode_four_frames_spec (b : Buffer) (e d : ndarray) (N E H W C : nat) :
  n_stack b = 4 -> n_steps b = Z.of_nat N -> n_env b = Z.of_nat E ->
  height b = Z.of_nat H -> width b = Z.of_nat W ->
  n_channels b = Z.of_nat C ->
  shape e = [E; (N + 4)%nat; H; W; C] -> shape d = [E; N] ->
  well_formed d ->
  exists r, decode junk b e d = Ok r /\
    shape r = [E; (N + 1)%nat; H; W; (4 * C)%nat] /\
    forall ie s ih iw l ic,
      (ie < E)%nat -> (s <= N)%nat -> (ih < H)%nat -> (iw < W)%nat ->
      (l < 4)%nat -> (ic < C)%nat ->
      at_index r [ie; s; ih; iw; (l * C + ic)%nat]
      = at_index e [ie; (s + l)%nat; ih; iw; ic]
        * keep_product d ie (s + l) (3 - l).
Proof.
  intros Hst Hn He Hh Hw Hc Se Sd Wd. unfold decode.
  rewrite Hst, Hn, He, Hh, Hw, Hc.
  replace [Z.of_nat N + 4 - 1; Z.of_nat E; 1; 1; 1]
    with (map Z.of_nat [N + 3; E; 1; 1; 1]%nat)
    by (cbn [map]; repeat f_equal; lia).
  replace [4; Z.of_nat N + 4; Z.of_nat E; Z.of_nat H; Z.of_nat W; Z.of_nat C]
    with (map Z.of_nat [4; N + 4; E; H; W; C]%nat)
    by (cbn [map]; repeat f_equal; lia).
  replace [Z.of_nat E; Z.of_nat N + 4; Z.of_nat H; Z.of_nat W; Z.of_nat C]
    with (map Z.of_nat [E; N + 4; H; W; C]%nat)
    by (cbn [map]; repeat f_equal; lia).
  replace [Z.of_nat E; Z.of_nat N; 1; 1; 1]
    with (map Z.of_nat [E; N; 1; 1; 1]%nat)
    by (cbn [map]; repeat f_equal; lia).
  replace [Z.of_nat E; Z.of_nat N + 1; Z.of_nat H; Z.of_nat W; 4 * Z.of_nat C]
    with (map Z.of_nat [E; N + 1; H; W; 4 * C]%nat)
    by (cbn [map]; repeat f_equal; lia).
  rewrite empty_of_nat, zeros_of_nat. cbn [rbind].
  rewrite reshape_of_nat by (rewrite Se; reflexivity). cbn [rbind].
  destruct (swapaxes10_spec (mk_ndarray [E; (N + 4)%nat; H; W; C] (data e))
              E (N + 4) H W C eq_refl) as (x0 & Ex0 & Sx0 & Ax0).
  rewrite Ex0. cbn [rbind].
  assert (Ax : forall j ie ih iw ic,
            (j < N + 4)%nat -> (ie < E)%nat -> (ih < H)%nat -> (iw < W)%nat ->
            (ic < C)%nat ->
            at_index x0 [j; ie; ih; iw; ic] = at_index e [ie; j; ih; iw; ic]).
  { intros j ie ih iw ic Hj Hie Hih Hiw Hic.
    rewrite Ax0 by assumption. unfold at_index. cbn [shape data].
    rewrite Se. reflexivity. }
  destruct (keep_masks_spec junk d N E Sd Wd)
    as (k & keep & y1 & y2 & Ek & Ekeep & Ey1 & Ey2 & Sy2 & Ay2).
  rewrite Ek. cbn [rbind]. rewrite Ekeep. cbn [rbind].
  rewrite Ey1. cbn [rbind]. rewrite Ey2. cbn [rbind].
  match goal with
  | |- context [for_range 4 decode_step (?o, _, _)] => set (obs0 := o)
  end.
  assert (So0 : shape obs0 = [4; N + 4; E; H; W; C]%nat) by reflexivity.
  assert (Wo0 : well_formed obs0)
    by (unfold well_formed, obs0; apply repeat_length).
  unfold for_range. change (Z.to_nat 4) with 4%nat. cbn [for_from].
  assert (Sx0' : shape x0 = [S (N + 3); E; H; W; C])
    by (rewrite Sx0; f_equal; lia).
  destruct (decode_step_spec obs0 x0 y2 (N + 4) (N + 3) 0 E H W C
              So0 Wo0 Sx0' Sy2 ltac:(lia) ltac:(lia))
    as (obs1 & x1 & y3 & E1 & So1 & Wo1 & Sx1 & Sy3 & O1s & O1o & X1 & Y1).
  change (Z.of_nat 0) with 0 in E1. rewrite E1. cbn [rbind].
  replace (N + 3)%nat with (S (N + 2)) in Sx1 by lia.
  replace (N + 3 - 1)%nat with (N + 2)%nat in Sy3 by lia.
  destruct (decode_step_spec obs1 x1 y3 (N + 4) (N + 2) 1 E H W C
              So1 Wo1 Sx1 Sy3 ltac:(lia) ltac:(lia))
    as (obs2 & x2 & y4 & E2 & So2 & Wo2 & Sx2 & Sy4 & O2s & O2o & X2 & Y2).
  change (Z.of_nat 1) with (0 + 1) in E2. rewrite E2. cbn [rbind].
  replace (N + 2)%nat with (S (N + 1)) in Sx2 by lia.
  replace (N + 2 - 1)%nat with (N + 1)%nat in Sy4 by lia.
  destruct (decode_step_spec obs2 x2 y4 (N + 4) (N + 1) 2 E H W C
              So2 Wo2 Sx2 Sy4 ltac:(lia) ltac:(lia))
    as (obs3 & x3 & y5 & E3 & So3 & Wo3 & Sx3 & Sy5 & O3s & O3o & X3 & _).
  change (Z.of_nat 2) with (0 + 1 + 1) in E3. rewrite E3. cbn [rbind].
  replace (N + 1)%nat with (S N) in Sx3 by lia.
  replace (N + 1 - 1)%nat with N in Sy5 by lia.
  destruct (decode_step_spec obs3 x3 y5 (N + 4) N 3 E H W C
              So3 Wo3 Sx3 Sy5 ltac:(lia) ltac:(lia))
    as (obs4 & x4 & y6 & E4 & So4 & Wo4 & Sx4 & Sy6 & O4s & O4o & _ & _).
  change (Z.of_nat 3) with (0 + 1 + 1 + 1) in E4. rewrite E4. cbn [rbind].
  destruct (slice1_from_spec obs4 4 (N + 4) _ So4 Wo4 ltac:(lia))
    as (o & Eo & So & Ao).
  rewrite Eo. cbn [rbind].
  replace (N + 4 - 3)%nat with (N + 1)%nat in So by lia.
  destruct (transpose_stack_spec o 4 (N + 1) E H W C So)
    as (t & Et & St & At).
  rewrite Et. cbn [rbind].
  rewrite reshape_of_nat
    by (rewrite St; cbn [numel fold_right]; lia).
  eexists. split; [reflexivity|]. split; [reflexivity|].
  intros ie s ih iw l ic Hie Hs Hih Hiw Hl Hic.
  assert (Hr : at_index (mk_ndarray [E; (N + 1)%nat; H; W; (4 * C)%nat]
                           (data t))
                        [ie; s; ih; iw; (l * C + ic)%nat]
               = at_index t [ie; s; ih; iw; l; ic]).
  { unfold at_index. rewrite St. cbn [shape data ravel numel fold_right].
    f_equal. ring. }
  rewrite Hr. rewrite At by lia.
  rewrite (Ao l s [ie; ih; iw; ic]) by (try lia; bounds).
  destruct l as [|[|[|[|l]]]]; [| | | |lia]; cbn [Nat.sub keep_product].
  - rewrite (O4s 0%nat) by lia.
    replace (s + 3 - 3)%nat with s by lia.
    rewrite X3, X2, X1 by lia.
    rewrite (Y2 s), (Y1 (S s)), (Y1 s) by lia.
    rewrite Ax by lia. rewrite !Ay2 by lia.
    replace (s + 0)%nat with s by lia. ring.
  - rewrite (O4o 1%nat) by lia. rewrite (O3s 1%nat) by lia.
    replace (s + 3 - 2)%nat with (S s) by lia.
    rewrite X2, X1 by lia.
    rewrite (Y1 (S s)) by lia.
    rewrite Ax by lia. rewrite !Ay2 by lia.
    replace (s + 1)%nat with (S s) by lia. ring.
  - rewrite (O4o 2%nat), (O3o 2%nat) by lia. rewrite (O2s 2%nat) by lia.
    replace (s + 3 - 1)%nat with (S (S s)) by lia.
    rewrite X1 by lia.
    rewrite Ax by lia. rewrite !Ay2 by lia.
    replace (s + 2)%nat with (S (S s)) by lia. ring.
  - rewrite (O4o 3%nat), (O3o 3%nat), (O2o 3%nat) by lia.
    rewrite (O1s 3%nat) by lia.
    rewrite Nat.sub_0_r. rewrite Ax by lia. ring.
Qed.


End DecodeData.

(** ** [decode] across the end of an episode, for every stack depth *)

Section DecodeLeaks.

Variable junk : Z.












End DecodeLeaks.

Section DecodeLeaksWitness.

Import Fixtures.


End DecodeLeaksWitness.

(** * Further properties of the buffer, the targets and the projection *)

Section PutParameters.

Variable junk : Z.

Ltac run_put :=
  cbv beta iota zeta delta
    [put_batch put put_write put_allocate np_empty setitem_at bind get_self
     set_self alloc load store lift ret raise self heap
     with_enc_obs with_actions with_rewards with_mus with_dones with_masks
     with_next_idx with_num_in_buffer
     n_env n_steps height width n_channels n_stack n_batch size
     enc_obs actions rewards mus dones masks next_idx num_in_buffer
     batch_enc_obs batch_actions batch_rewards batch_mus batch_dones
     batch_masks fst snd].

Ltac split_put :=
  repeat (run_put;
          match goal with
          | |- context [match empty ?j ?sh with _ => _ end] =>
              destruct (empty j sh)
          | |- context [match setitem ?a ?i ?v with _ => _ end] =>
              destruct (setitem a i v)
          | |- context [match nth_error ?h ?l with _ => _ end] =>
              destruct (nth_error h l)
          | |- context [if ?s =? 0 then _ else _] => destruct (s =? 0)
          | |- context [match ?x with Some _ => _ | None => _ end] =>
              is_var x; destruct x
          end).

(** [put] assigns to the six array attributes, [next_idx] and
    [num_in_buffer] only, whether it returns or raises. *)
Lemma put_keeps_parameters (bt : Batch) (st : state) :
  let st' := snd (put_batch junk bt st) in
  n_env (self st') = n_env (self st) /\
  n_steps (self st') = n_steps (self st) /\
  height (self st') = height (self st) /\
  width (self st') = width (self st) /\
  n_channels (self st') = n_channels (self st) /\
  n_stack (self st') = n_stack (self st) /\
  n_batch (self st') = n_batch (self st) /\
  size (self st') = size (self st).
Proof.
  destruct st as [b h]. destruct b. destruct bt.
  split_put; run_put; repeat split; reflexivity.
Qed.

End PutParameters.

Section PutCounts.

Variable junk : Z.

Lemma put_all_keeps_parameters (bts : list Batch) (st : state) :
  let st' := snd (put_all junk bts st) in
  n_env (self st') = n_env (self st) /\
  n_steps (self st') = n_steps (self st) /\
  height (self st') = height (self st) /\
  width (self st') = width (self st) /\
  n_channels (self st') = n_channels (self st) /\
  n_stack (self st') = n_stack (self st) /\
  n_batch (self st') = n_batch (self st) /\
  size (self st') = size (self st).
Proof.
  cbv zeta. revert st. induction bts as [|bt bts IH]; intros st.
  - repeat split; reflexivity.
  - cbn [put_all]. unfold bind.
    pose proof (put_keeps_parameters junk bt st) as P. cbv zeta in P.
    destruct (put_batch junk bt st) as [[u|e] st1]; cbn [snd] in *.
    + specialize (IH st1).
      destruct P as (P1 & P2 & P3 & P4 & P5 & P6 & P7 & P8).
      destruct IH as (I1 & I2 & I3 & I4 & I5 & I6 & I7 & I8).
      repeat split; congruence.
    + exact P.
Qed.

(** The counters of a new buffer of at least one slot after [put] was
    called on each of [bts]. *)
Lemma put_all_counts (env : Env) (n_steps0 n_stack0 size_arg : Z)
  (st0 : state) (shs : list (list nat)) (bts : list Batch) :
  new_buffer env n_steps0 n_stack0 size_arg = Ok st0 ->
  0 < n_steps0 -> n_steps0 <= size_arg ->
  uniform shs bts ->
  exists st,
    put_all junk bts st0 = (Ok tt, st) /\
    n_steps (self st) = n_steps0 /\
    size (self st) = size_arg / n_steps0 /\
    1 <= size_arg / n_steps0 /\
    num_in_buffer (self st)
    = Z.min (size_arg / n_steps0) (Z.of_nat (length bts)) /\
    next_idx (self st) = Z.of_nat (length bts) mod (size_arg / n_steps0).
Proof.
  intros Hnew Hn Hs Hu.
  destruct (new_buffer_fields env n_steps0 n_stack0 size_arg st0 Hnew)
    as (Hh & Hi & Hc & Hsz & He & _).
  assert (Hst : n_steps (self st0) = n_steps0).
  { unfold new_buffer, init in Hnew.
    destruct (observation_space_shape env) as [[h w] c].
    destruct (n_steps0 =? 0); [discriminate|].
    cbn [rbind] in Hnew. inversion Hnew. reflexivity. }
  assert (H1 : 1 <= size_arg / n_steps0).
  { apply Z.div_le_lower_bound; lia. }
  destruct bts as [|bt bts].
  - exists st0. cbn [put_all length]. rewrite Z.mod_0_l by lia.
    repeat split; try assumption; try reflexivity. lia.
  - destruct (put_prefix junk env n_steps0 n_stack0 size_arg st0 shs
                (bt :: bts) (length (bt :: bts)) Hnew ltac:(lia) Hu
                ltac:(cbn [length]; lia))
      as (st & Hrun & (_ & Hsize & Hidx & Hnum & _)).
    rewrite firstn_all in Hrun, Hidx, Hnum.
    exists st. split; [exact Hrun|].
    pose proof (put_all_keeps_parameters (bt :: bts) st0) as K.
    cbv zeta in K. rewrite Hrun in K. cbn [snd] in K.
    destruct K as (_ & K1 & _ & _ & _ & _ & _ & K2).
    rewrite Hsz in *.
    repeat split; try congruence; assumption.
Qed.

End PutCounts.

(** X1: a new buffer of at least one slot that received [k] rollout
    batches holds [min(size // n_steps, k)] of them, writes next into slot
    [k mod (size // n_steps)], can be sampled as soon as [k >= 1], and
    [has_atleast(frames)] compares [frames // n_steps] with the number of
    batches held. *)
Theorem put_counts_batches (junk : Z) (env : Env)
  (n_steps0 n_stack0 size_arg : Z) (st0 : state) (shs : list (list nat))
  (bts : list Batch) :
  new_buffer env n_steps0 n_stack0 size_arg = Ok st0 ->
  0 < n_steps0 -> n_steps0 <= size_arg ->
  uniform shs bts ->
  exists st,
    put_all junk bts st0 = (Ok tt, st) /\
    num_in_buffer (self st)
    = Z.min (size_arg / n_steps0) (Z.of_nat (length bts)) /\
    next_idx (self st) = Z.of_nat (length bts) mod (size_arg / n_steps0) /\
    can_sample (self st) = negb (length bts =? 0)%nat /\
    forall frames,
      has_atleast (self st) frames
      = Ok (frames / n_steps0
            <=? Z.min (size_arg / n_steps0) (Z.of_nat (length bts))).
Proof.
  intros Hnew Hn Hs Hu.
  destruct (put_all_counts junk env n_steps0 n_stack0 size_arg st0 shs bts
              Hnew Hn Hs Hu) as (st & Hrun & Hst & Hsz & H1 & Hnum & Hidx).
  exists st. split; [exact Hrun|]. split; [exact Hnum|].
  split; [exact Hidx|]. split.
  - unfold can_sample. rewrite Hnum.
    destruct bts as [|bt bts]; cbn [length Nat.eqb negb].
    + rewrite Z.min_r by lia. reflexivity.
    + apply Z.gtb_lt. lia.
  - intros frames. unfold has_atleast. rewrite Hst, Hnum.
    replace (n_steps0 =? 0) with false by (symmetry; apply Z.eqb_neq; lia).
    f_equal. rewrite Z.geb_leb. reflexivity.
Qed.

(** X2: when [frames // n_steps] exceeds the number of slots
    [size // n_steps], [has_atleast(frames)] stays false however many
    batches are put. *)
Theorem has_atleast_beyond_capacity (junk : Z) (env : Env)
  (n_steps0 n_stack0 size_arg frames : Z) (st0 : state)
  (shs : list (list nat)) (bts : list Batch) :
  new_buffer env n_steps0 n_stack0 size_arg = Ok st0 ->
  0 < n_steps0 -> n_steps0 <= size_arg ->
  size_arg / n_steps0 < frames / n_steps0 ->
  uniform shs bts ->
  exists st,
    put_all junk bts st0 = (Ok tt, st) /\
    has_atleast (self st) frames = Ok false.
Proof.
  intros Hnew Hn Hs Hf Hu.
  destruct (put_all_counts junk env n_steps0 n_stack0 size_arg st0 shs bts
              Hnew Hn Hs Hu) as (st & Hrun & Hst & Hsz & H1 & Hnum & Hidx).
  exists st. split; [exact Hrun|].
  unfold has_atleast. rewrite Hst, Hnum.
  replace (n_steps0 =? 0) with false by (symmetry; apply Z.eqb_neq; lia).
  f_equal. rewrite Z.geb_leb. apply Z.leb_gt. lia.
Qed.

Section DecodeStack.

Variable junk : Z.

Lemma as_shape_cases (sh : list Z) :
  as_shape sh = Ok (map Z.to_nat sh) \/ as_shape sh = Raise ValueError.
Proof.
  unfold as_shape. destruct (forallb _ sh); [left|right]; reflexivity.
Qed.

Lemma can_broadcast_first (n m : nat) (s t : list nat) :
  n <> m -> n <> 1%nat -> can_broadcast (n :: s) (m :: t) = false.
Proof.
  intros H1 H2. cbn [can_broadcast].
  replace (n =? m)%nat with false by (symmetry; apply Nat.eqb_neq; exact H1).
  replace (n =? 1)%nat with false by (symmetry; apply Nat.eqb_neq; exact H2).
  reflexivity.
Qed.

(** X3: [decode] returns only for four stacked frames.  With any other
    [n_stack], and rollouts of two steps or more, it raises [ValueError]
    whatever the encoded observations are: the [n_steps] keep flags do not
    fit [y_var[3:]]. *)
Theorem decode_requires_four_frames (b : Buffer) (e d : ndarray) (N E : nat) :
  n_stack b <> 4 ->
  n_steps b = Z.of_nat N -> (2 <= N)%nat ->
  n_env b = Z.of_nat E ->
  shape d = [E; N] ->
  decode junk b e d = Raise ValueError.
Proof.
  intros Hst Hn HN He Sd. unfold decode. rewrite Hn, He.
  unfold empty at 1.
  destruct (as_shape_cases [Z.of_nat N + n_stack b - 1; Z.of_nat E; 1; 1; 1])
    as [-> | ->]; [|reflexivity].
  cbn [rbind map]. unfold zeros.
  destruct (as_shape_cases
              [n_stack b; Z.of_nat N + n_stack b; Z.of_nat E; height b;
               width b; n_channels b]) as [-> | ->]; [|reflexivity].
  cbn [rbind]. unfold reshape at 1.
  destruct (as_shape_cases
              [Z.of_nat E; Z.of_nat N + n_stack b; height b; width b;
               n_channels b]) as [-> | ->]; [|reflexivity].
  cbn [rbind map].
  match goal with
  | |- context [if ?c then Ok _ else Raise ValueError] =>
      destruct c; [cbn [rbind]|reflexivity]
  end.
  match goal with
  | |- context [swapaxes10 ?x] =>
      destruct (swapaxes10_shape x _ _ _ _ _ eq_refl) as (xv & -> & _)
  end.
  cbn [rbind].
  replace [Z.of_nat E; Z.of_nat N; 1; 1; 1]
    with (map Z.of_nat [E; N; 1; 1; 1]%nat)
    by (cbn [map]; repeat f_equal; lia).
  rewrite reshape_of_nat
    by (unfold one_minus; cbn [shape]; rewrite Sd; cbn [numel fold_right]; lia).
  cbn [rbind].
  destruct (swapaxes10_shape
              (mk_ndarray [E; N; 1; 1; 1]%nat (data (one_minus d)))
              E N 1 1 1 eq_refl) as (keep & -> & Sk).
  cbn [rbind].
  unfold set_slice_from, set_slice0. cbn [shape]. unfold assign_value.
  rewrite Sk. cbn [length Nat.sub drop_ones]. unfold broadcast_to.
  cbn [shape length Nat.sub pad_ones].
  rewrite can_broadcast_first; [reflexivity| |lia].
  unfold norm_bound. change (3 <? 0) with false. cbv iota.
  change (Z.to_nat 3) with 3%nat. lia.
Qed.

End DecodeStack.

Section TakeRows.

Variable junk : Z.

Lemma getitem2_well_formed (a : ndarray) (m e : nat) (sh : list nat)
  (i j : Z) :
  shape a = m :: e :: sh -> well_formed a ->
  0 <= i < Z.of_nat m -> 0 <= j < Z.of_nat e ->
  exists v, getitem2 a i j = Ok v /\ shape v = sh /\ well_formed v.
Proof.
  intros Ha Wa Hi Hj. unfold getitem2.
  destruct (getitem a i) as [r|x] eqn:Er.
  - destruct (getitem_well_formed a r m (e :: sh) i Ha Wa Hi Er) as [Sr Wr].
    cbn [rbind]. destruct (getitem r j) as [v|x] eqn:Ev.
    + exists v. split; [reflexivity|].
      exact (getitem_well_formed r v e sh j Sr Wr Hj Ev).
    + rewrite (getitem_ok r e sh j Sr Hj) in Ev. discriminate.
  - rewrite (getitem_ok a m (e :: sh) i Ha Hi) in Er. discriminate.
Qed.

Lemma take_loop_rows (b : Buffer) (h : list ndarray) (l : loc) (a : ndarray)
  (m e n : nat) (rest : list nat) (idx envx : list Z) (c k : nat)
  (o : ndarray) :
  nth_error h l = Some a ->
  shape a = m :: e :: rest -> well_formed a ->
  length idx = n -> length envx = n ->
  Forall (fun x => 0 <= x < Z.of_nat m) idx ->
  Forall (fun x => 0 <= x < Z.of_nat e) envx ->
  (k + c = n)%nat ->
  shape o = n :: rest -> well_formed o ->
  exists o',
    for_from_m (Z.of_nat k) c (take_body idx envx l (length h))
      (mk_state b (h ++ [o]))
    = (Ok tt, mk_state b (h ++ [o'])) /\
    shape o' = n :: rest /\ well_formed o' /\
    (forall i, (k <= i < n)%nat ->
       getitem o' (Z.of_nat i) = getitem2 a (nth i idx 0) (nth i envx 0)) /\
    (forall i, (i < k)%nat -> getitem o' (Z.of_nat i) = getitem o (Z.of_nat i)).
Proof.
  intros Hl Ha Wa Hi He Ri Re. revert k o.
  induction c as [|c IH]; intros k o Hk Ho Wo.
  - exists o. split; [reflexivity|]. split; [exact Ho|]. split; [exact Wo|].
    split; [intros i Hik; lia|reflexivity].
  - assert (Hkn : (k < n)%nat) by lia.
    assert (Hx : 0 <= nth k idx 0 < Z.of_nat m).
    { rewrite Forall_forall in Ri. apply Ri. apply nth_In. lia. }
    assert (Hy : 0 <= nth k envx 0 < Z.of_nat e).
    { rewrite Forall_forall in Re. apply Re. apply nth_In. lia. }
    destruct (getitem2_well_formed a m e rest _ _ Ha Wa Hx Hy)
      as (v & Ev & Sv & Wv).
    destruct (setitem_spec o v n rest (Z.of_nat k) Ho Wo Sv Wv ltac:(lia))
      as (o1 & Eo & So1 & Wo1 & Gk & Gother).
    destruct (IH (S k) o1 ltac:(lia) So1 Wo1)
      as (o' & Erun & So' & Wo' & Hnew & Hold).
    exists o'. split; [|split; [exact So'|split; [exact Wo'|split]]].
    + cbn [for_from_m]. unfold bind at 1. unfold take_body at 1.
      unfold bind, lift, load, store. cbn [heap self].
      rewrite !index_ok by lia.
      rewrite nth_error_app1 by (apply nth_error_Some; congruence).
      rewrite Hl, Ev. cbn [heap self].
      rewrite nth_error_app2 by lia. rewrite Nat.sub_diag. cbn [nth_error].
      rewrite Eo. cbn [heap self]. rewrite update_last.
      replace (Z.of_nat k + 1) with (Z.of_nat (S k)) by lia.
      exact Erun.
    + intros i Hik. destruct (Nat.eq_dec i k) as [->|Hne].
      * rewrite Hold by lia. rewrite Gk, Ev. reflexivity.
      * apply Hnew. lia.
    + intros i Hik. rewrite Hold by lia. apply Gother; lia.
Qed.

Lemma take_rows_general (st : state) (l : loc) (a : ndarray) (m e n : nat)
  (rest : list nat) (idx envx : list Z) :
  nth_error (heap st) l = Some a ->
  shape a = m :: e :: rest -> well_formed a ->
  n_env (self st) = Z.of_nat n ->
  length idx = n -> length envx = n ->
  Forall (fun x => 0 <= x < Z.of_nat m) idx ->
  Forall (fun x => 0 <= x < Z.of_nat e) envx ->
  exists o,
    take junk (Some l) idx envx st
    = (Ok (length (heap st)), mk_state (self st) (heap st ++ [o])) /\
    shape o = n :: rest /\ well_formed o /\
    forall i, (i < n)%nat ->
      getitem o (Z.of_nat i) = getitem2 a (nth i idx 0) (nth i envx 0).
Proof.
  intros Hl Ha Wa Hn Hi He Ri Re. destruct st as [b h]. cbn [self heap] in *.
  set (o0 := mk_ndarray (n :: rest) (repeat junk (numel (n :: rest)))).
  assert (W0 : well_formed o0) by (unfold well_formed, o0; apply repeat_length).
  destruct (take_loop_rows b h l a m e n rest idx envx n 0 o0 Hl Ha Wa Hi He
              Ri Re ltac:(lia) eq_refl W0)
    as (o' & Erun & So' & Wo' & Hnew & _).
  exists o'. split; [|split; [exact So'|split; [exact Wo'|]]].
  - unfold take. unfold bind at 1. cbn [get_self self].
    unfold bind at 1. cbn [ret].
    unfold bind at 1. unfold load. cbn [heap]. rewrite Hl.
    unfold bind at 1. unfold np_empty, bind at 1, lift.
    unfold shape_list. rewrite Ha. cbn [map skipn]. rewrite Hn.
    change (Z.of_nat n :: map Z.of_nat rest) with (map Z.of_nat (n :: rest)).
    rewrite empty_of_nat. unfold alloc. cbn [heap self].
    unfold bind at 1. unfold for_range_m. rewrite Nat2Z.id.
    change (Z.of_nat 0) with 0 in Erun. unfold o0 in Erun.
    rewrite Erun. reflexivity.
  - intros i Hin. apply Hnew. lia.
Qed.

End TakeRows.

(** X4: [take(arr, idx, envx)] on an array of shape [[m, e, ...]], for
    [n_env] indices within bounds, returns a new array of shape
    [[n_env, ...]] whose row [i] is [arr[idx[i], envx[i]]]; the buffer and
    the arrays that existed are unchanged. *)
Theorem take_gathers_rows (junk : Z) (st : state) (l : loc) (a : ndarray)
  (m e n : nat) (rest : list nat) (idx envx : list Z) :
  nth_error (heap st) l = Some a ->
  shape a = m :: e :: rest -> well_formed a ->
  n_env (self st) = Z.of_nat n ->
  length idx = n -> length envx = n ->
  Forall (fun x => 0 <= x < Z.of_nat m) idx ->
  Forall (fun x => 0 <= x < Z.of_nat e) envx ->
  exists o,
    take junk (Some l) idx envx st
    = (Ok (length (heap st)), mk_state (self st) (heap st ++ [o])) /\
    shape o = n :: rest /\
    forall i, (i < n)%nat ->
      getitem o (Z.of_nat i) = getitem2 a (nth i idx 0) (nth i envx 0).
Proof.
  intros Hl Ha Wa Hn Hi He Ri Re.
  destruct (take_rows_general junk st l a m e n rest idx envx Hl Ha Wa Hn Hi
              He Ri Re) as (o & Erun & So & _ & Hrows).
  exists o. split; [exact Erun|]. split; [exact So|exact Hrows].
Qed.

Section GetRows.

Variable junk : Z.

(** Row [i] of the slot [j] of an attribute. *)
Lemma take_stored_rows (st : state) (b : Buffer) (h : list ndarray)
  (field : Buffer -> option loc) (rest : list nat) (draw : list Z) :
  stored st field rest ->
  Forall well_formed (heap st) ->
  self st = b ->
  0 <= n_env b -> 0 <= num_in_buffer b <= size b ->
  randint_outcome 0 (num_in_buffer b) (n_env b) draw ->
  exists o,
    take junk (field b) draw (arange (n_env b)) (mk_state b (heap st ++ h))
    = (Ok (length (heap st ++ h)), mk_state b ((heap st ++ h) ++ [o])) /\
    shape o = Z.to_nat (n_env b) :: rest /\ well_formed o /\
    forall i, (i < Z.to_nat (n_env b))%nat ->
      getitem o (Z.of_nat i)
      = (r <- slot_of st field (nth i draw 0) ;; getitem r (Z.of_nat i))%res.
Proof.
  intros (l & a & Hf & Hl & Ha) Hwf Hb He Hnum [Hlen Hr]. subst b.
  rewrite Hf.
  assert (Wa : well_formed a).
  { rewrite Forall_forall in Hwf. apply Hwf. eapply nth_error_In. exact Hl. }
  destruct (take_rows_general junk (mk_state (self st) (heap st ++ h)) l a
              (Z.to_nat (size (self st))) (Z.to_nat (n_env (self st)))
              (Z.to_nat (n_env (self st))) rest draw
              (arange (n_env (self st))))
    as (o & Erun & So & Wo & Hrows).
  - cbn [heap]. rewrite nth_error_app1; [exact Hl|].
    apply nth_error_Some. congruence.
  - exact Ha.
  - exact Wa.
  - cbn [self]. lia.
  - lia.
  - unfold arange. rewrite length_map, length_seq. reflexivity.
  - eapply Forall_impl; [|exact Hr]. intros x Hx. cbn beta in Hx. lia.
  - unfold arange. apply Forall_forall. intros x Hx.
    apply in_map_iff in Hx. destruct Hx as (k & <- & Hk).
    apply in_seq in Hk. lia.
  - exists o. split; [exact Erun|]. split; [exact So|]. split; [exact Wo|].
    intros i Hi. rewrite (Hrows i Hi).
    unfold slot_of. rewrite Hf, Hl. unfold getitem2.
    unfold arange. rewrite nth_arange by exact Hi. reflexivity.
Qed.

(** [get] on a buffer that holds rollouts of four stacked frames: seven
    arrays are allocated, and the six that are returned hold, for each
    environment, the row of the slot drawn for it. *)
Lemma get_rows (st : state) (draw : list Z) :
  can_sample (self st) = true ->
  n_stack (self st) = 4 ->
  holds_rollouts st ->
  Forall well_formed (heap st) ->
  randint_outcome 0 (num_in_buffer (self st)) (n_env (self st)) draw ->
  exists od oe obs oa orw om ok,
    get junk draw st
    = (Ok (S (S (length (heap st))), S (S (S (length (heap st)))),
           S (S (S (S (length (heap st))))),
           S (S (S (S (S (length (heap st)))))),
           length (heap st),
           S (S (S (S (S (S (length (heap st)))))))),
       mk_state (self st) (heap st ++ [od; oe; obs; oa; orw; om; ok])) /\
    decode junk (self st) oe od = Ok obs /\
    shape oe = [Z.to_nat (n_env (self st));
                (Z.to_nat (n_steps (self st)) + 4)%nat;
                Z.to_nat (height (self st)); Z.to_nat (width (self st));
                Z.to_nat (n_channels (self st))] /\
    shape od = [Z.to_nat (n_env (self st)); Z.to_nat (n_steps (self st))] /\
    well_formed od /\
    forall i, (i < Z.to_nat (n_env (self st)))%nat ->
      let row (field : Buffer -> option loc) :=
        (r <- slot_of st field (nth i draw 0) ;; getitem r (Z.of_nat i))%res in
      getitem od (Z.of_nat i) = row dones /\
      getitem oe (Z.of_nat i) = row enc_obs /\
      getitem oa (Z.of_nat i) = row actions /\
      getitem orw (Z.of_nat i) = row rewards /\
      getitem om (Z.of_nat i) = row mus /\
      getitem ok (Z.of_nat i) = row masks.
Proof.
  intros Hcs Hst (He & Hn & Hh & Hw & Hc & Hnum & Sobs & Sdones & [ra Sa]
                  & [rr Sr] & [rm Sm] & [rk Sk]) Hwf Hdraw.
  destruct st as [b h]. cbn [self heap] in *.
  set (st := mk_state b h) in *.
  destruct (take_stored_rows st b [] dones _ draw Sdones Hwf eq_refl He Hnum
              Hdraw) as (od & Ed & Hod & Wod & Rd).
  destruct (take_stored_rows st b [od] enc_obs _ draw Sobs Hwf eq_refl He Hnum
              Hdraw) as (oe & Ee & Hoe & _ & Re).
  assert (Hoe' : shape oe = [Z.to_nat (n_env b); (Z.to_nat (n_steps b) + 4)%nat;
                             Z.to_nat (height b); Z.to_nat (width b);
                             Z.to_nat (n_channels b)]).
  { rewrite Hoe. cbn [self st]. rewrite Hst. repeat f_equal. lia. }
  destruct (decode_shape junk b oe od (Z.to_nat (n_steps b))
              (Z.to_nat (n_env b)) (Z.to_nat (height b)) (Z.to_nat (width b))
              (Z.to_nat (n_channels b)) Hst ltac:(lia) ltac:(lia) ltac:(lia)
              ltac:(lia) ltac:(lia) Hoe' Hod) as (obs & Eobs & _).
  destruct (take_stored_rows st b [od; oe; obs] actions _ draw Sa Hwf eq_refl
              He Hnum Hdraw) as (oa & Ea & _ & _ & Ra).
  destruct (take_stored_rows st b [od; oe; obs; oa] rewards _ draw Sr Hwf
              eq_refl He Hnum Hdraw) as (orw & Er & _ & _ & Rr).
  destruct (take_stored_rows st b [od; oe; obs; oa; orw] mus _ draw Sm Hwf
              eq_refl He Hnum Hdraw) as (om & Em & _ & _ & Rm).
  destruct (take_stored_rows st b [od; oe; obs; oa; orw; om] masks _ draw Sk
              Hwf eq_refl He Hnum Hdraw) as (ok & Ek & _ & _ & Rk).
  cbn [heap st] in Ed, Ee, Ea, Er, Em, Ek.
  rewrite <- !app_assoc in Ed, Ee, Ea, Er, Em, Ek.
  cbn [app] in Ed, Ee, Ea, Er, Em, Ek.
  exists od, oe, obs, oa, orw, om, ok.
  split; [|split; [exact Eobs|split; [exact Hoe'|split; [exact Hod|
            split; [exact Wod|]]]]].
  - unfold get.
    rewrite (bind_ok get_self _ st st b eq_refl).
    rewrite Hcs. rewrite (bind_ok (ret tt) _ st st tt eq_refl).
    unfold st. rewrite app_nil_r in Ed.
    rewrite (bind_ok _ _ _ _ _ Ed). cbv beta.
    rewrite (bind_ok _ _ _ _ _ Ee). cbv beta.
    assert (Edec : decode_m junk (length (h ++ [od])) (length h)
                     (mk_state b (h ++ [od; oe]))
                   = (Ok (length (h ++ [od; oe])),
                      mk_state b (h ++ [od; oe; obs]))).
    { replace (h ++ [od; oe; obs]) with ((h ++ [od; oe]) ++ [obs])
        by (rewrite <- app_assoc; reflexivity).
      apply decode_m_ok with (ea := oe) (da := od); [| |exact Eobs].
      - replace (h ++ [od; oe]) with ((h ++ [od]) ++ [oe])
          by (rewrite <- app_assoc; reflexivity).
        rewrite nth_error_app2 by lia. rewrite Nat.sub_diag. reflexivity.
      - rewrite nth_error_app2 by lia. rewrite Nat.sub_diag. reflexivity. }
    rewrite (bind_ok _ _ _ _ _ Edec). cbv beta.
    rewrite (bind_ok _ _ _ _ _ Ea). cbv beta.
    rewrite (bind_ok _ _ _ _ _ Er). cbv beta.
    rewrite (bind_ok _ _ _ _ _ Em). cbv beta.
    rewrite (bind_ok _ _ _ _ _ Ek). cbv beta.
    unfold ret. rewrite !length_app. cbn [length].
    repeat (f_equal; try lia).
  - intros i Hi. cbv zeta.
    repeat split; [apply Rd|apply Re|apply Ra|apply Rr|apply Rm|apply Rk];
      exact Hi.
Qed.

End GetRows.

Section Replay.

Variable junk : Z.

(** The batch a filled slot holds. *)
Lemma ring_slot_lookup (st : state) (n : Z) (shs : list (list nat))
  (bts : list Batch) (j : Z) :
  1 <= n -> ring_inv st n shs bts ->
  0 <= j < Z.min n (Z.of_nat (length bts)) ->
  exists p bt,
    nth_error bts p = Some bt /\
    Z.of_nat (length bts) <= Z.of_nat p + n /\
    Z.of_nat p mod n = j /\
    slot st j = Ok bt.
Proof.
  intros Hn (_ & _ & _ & _ & Hslots) Hj.
  set (len := Z.of_nat (length bts)) in *.
  assert (Hp : exists p, 0 <= p < len /\ len <= p + n /\ p mod n = j).
  { destruct (Z_le_gt_dec len n) as [Hle|Hgt].
    - exists j. split; [lia|]. split; [lia|]. apply Z.mod_small. lia.
    - exists (len - n + (j - (len - n)) mod n).
      pose proof (Z.mod_pos_bound (j - (len - n)) n ltac:(lia)) as Hb.
      split; [lia|]. split; [lia|].
      rewrite Zplus_mod_idemp_r.
      replace (len - n + (j - (len - n))) with j by lia.
      apply Z.mod_small. lia. }
  destruct Hp as (p & Hp & Hle & Hmod).
  destruct (nth_error bts (Z.to_nat p)) as [bt|] eqn:Ebt.
  - exists (Z.to_nat p), bt. rewrite Z2Nat.id by lia.
    split; [exact Ebt|]. split; [exact Hle|]. split; [exact Hmod|].
    rewrite <- Hmod.
    specialize (Hslots (Z.to_nat p) bt Ebt). rewrite Z2Nat.id in Hslots by lia.
    apply Hslots. exact Hle.
  - apply nth_error_None in Ebt. unfold len in Hp. lia.
Qed.

Lemma slot_fields (st : state) (j : Z) (bt : Batch) :
  slot st j = Ok bt ->
  slot_of st enc_obs j = Ok (batch_enc_obs bt) /\
  slot_of st actions j = Ok (batch_actions bt) /\
  slot_of st rewards j = Ok (batch_rewards bt) /\
  slot_of st mus j = Ok (batch_mus bt) /\
  slot_of st dones j = Ok (batch_dones bt) /\
  slot_of st masks j = Ok (batch_masks bt).
Proof.
  unfold slot.
  destruct (slot_of st enc_obs j); [|discriminate].
  destruct (slot_of st actions j); [|discriminate].
  destruct (slot_of st rewards j); [|discriminate].
  destruct (slot_of st mus j); [|discriminate].
  destruct (slot_of st dones j); [|discriminate].
  destruct (slot_of st masks j); [|discriminate].
  cbn [rbind]. intros H. inversion H. cbn. repeat split; reflexivity.
Qed.

(** Arrays with the same row [i] agree on the entries of that row. *)
Lemma rows_agree_at (a b : ndarray) (n i : nat) (rest idx : list nat) :
  shape a = n :: rest -> shape b = n :: rest -> (i < n)%nat ->
  getitem a (Z.of_nat i) = getitem b (Z.of_nat i) ->
  Forall2 lt idx rest ->
  at_index a (i :: idx) = at_index b (i :: idx).
Proof.
  intros Sa Sb Hi Hrow Hidx.
  rewrite (getitem_ok a n rest _ Sa) in Hrow by lia.
  rewrite (getitem_ok b n rest _ Sb) in Hrow by lia.
  rewrite Nat2Z.id in Hrow.
  assert (Hseg : segment (i * numel rest) (S i * numel rest) (data a)
                 = segment (i * numel rest) (S i * numel rest) (data b))
    by congruence.
  rewrite (at_index_cons a n rest i idx Sa).
  rewrite (at_index_cons b n rest i idx Sb).
  pose proof (ravel_bound rest idx Hidx) as Hb.
  pose proof (segment_nth (i * numel rest) (S i * numel rest)
                (ravel rest idx) (data a)) as Ea.
  pose proof (segment_nth (i * numel rest) (S i * numel rest)
                (ravel rest idx) (data b)) as Eb.
  replace (ravel rest idx <? S i * numel rest - i * numel rest)%nat with true
    in Ea, Eb by (symmetry; apply Nat.ltb_lt; cbn [Nat.mul]; lia).
  rewrite <- Ea, <- Eb, Hseg. reflexivity.
Qed.

Lemma keep_product_agree (d d' : ndarray) (e N : nat) (c u : nat) :
  (forall t, (t < N)%nat -> at_index d [e; t] = at_index d' [e; t]) ->
  (u + c <= N + 3)%nat ->
  keep_product d e u c = keep_product d' e u c.
Proof.
  intros H. revert u. induction c as [|c IH]; intros u Hu; [reflexivity|].
  cbn [keep_product]. rewrite IH by lia. f_equal.
  unfold keep_mask. destruct (u <? 3)%nat eqn:E3; [reflexivity|].
  apply Nat.ltb_ge in E3. rewrite H by lia. reflexivity.
Qed.

End Replay.

Section ReplayRoundTrip.

Variable junk : Z.

Lemma ring_holds_rollouts (st : state) (n : Z) (E N H W C : nat)
  (ra rr rm rk : list nat) (bts : list Batch) :
  ring_inv st n
    [[E; (N + 4)%nat; H; W; C]; E :: ra; E :: rr; E :: rm; [E; N]; E :: rk]
    bts ->
  1 <= n -> bts <> [] ->
  n_env (self st) = Z.of_nat E -> n_steps (self st) = Z.of_nat N ->
  height (self st) = Z.of_nat H -> width (self st) = Z.of_nat W ->
  n_channels (self st) = Z.of_nat C -> n_stack (self st) = 4 ->
  holds_rollouts st /\ Forall well_formed (heap st) /\
  can_sample (self st) = true.
Proof.
  intros (Hown & Hsz & Hidx & Hnum & _) Hn Hne He Hst Hh Hw Hc Hk.
  destruct Hown as (a0 & a1 & a2 & a3 & a4 & a5 & Hheap & F0 & F1 & F2 & F3
                    & F4 & F5 & Hsh & Hwf).
  cbn [map] in Hsh. injection Hsh as S0 S1 S2 S3 S4 S5.
  assert (Hlen : (1 <= length bts)%nat).
  { destruct bts; [congruence|cbn [length]; lia]. }
  split; [|split].
  - unfold holds_rollouts. cbv zeta.
    rewrite He, Hst, Hh, Hw, Hc, Hk, Hnum, Hsz.
    repeat split; try lia.
    + exists 0%nat, a0. rewrite F0, Hheap, S0, He, Hsz.
      split; [reflexivity|]. split; [reflexivity|].
      rewrite !Nat2Z.id. repeat f_equal. lia.
    + exists 4%nat, a4. rewrite F4, Hheap, S4, He, Hsz.
      split; [reflexivity|]. split; [reflexivity|].
      rewrite !Nat2Z.id. reflexivity.
    + exists ra, 1%nat, a1. rewrite F1, Hheap, S1, He, Hsz.
      rewrite !Nat2Z.id. repeat split; reflexivity.
    + exists rr, 2%nat, a2. rewrite F2, Hheap, S2, He, Hsz.
      rewrite !Nat2Z.id. repeat split; reflexivity.
    + exists rm, 3%nat, a3. rewrite F3, Hheap, S3, He, Hsz.
      rewrite !Nat2Z.id. repeat split; reflexivity.
    + exists rk, 5%nat, a5. rewrite F5, Hheap, S5, He, Hsz.
      rewrite !Nat2Z.id. repeat split; reflexivity.
  - rewrite Hheap. exact Hwf.
  - unfold can_sample. rewrite Hnum. apply Z.gtb_lt. lia.
Qed.

End ReplayRoundTrip.

(** X5: sampling replays what was stored.  On a buffer for four stacked
    frames that received the rollout batches [bts], [get] returns for every
    environment [i] the rows of one batch among the last [size // n_steps]
    that were put, the one in the slot drawn for [i]: its actions, rewards,
    action probabilities, termination flags and masks of environment [i],
    and as observations the frames of that batch stacked four by four, each
    frame multiplied by the keep masks up to the newest frame of its
    stack. *)
Theorem get_replays_stored_rollouts (junk : Z) (E N H W C : nat)
  (size_arg : Z) (st0 : state) (ra rr rm rk : list nat) (bts : list Batch)
  (draw : list Z) :
  new_buffer (mk_Env (Z.of_nat E) (Z.of_nat H, Z.of_nat W, Z.of_nat C))
             (Z.of_nat N) 4 size_arg = Ok st0 ->
  (1 <= N)%nat -> Z.of_nat N <= size_arg ->
  uniform [[E; (N + 4)%nat; H; W; C]; E :: ra; E :: rr; E :: rm; [E; N];
           E :: rk] bts ->
  bts <> [] ->
  randint_outcome 0 (Z.min (size_arg / Z.of_nat N) (Z.of_nat (length bts)))
                  (Z.of_nat E) draw ->
  exists st st' lo la lr lm ld lk obs a r m d k,
    put_all junk bts st0 = (Ok tt, st) /\
    get junk draw st = (Ok (lo, la, lr, lm, ld, lk), st') /\
    nth_error (heap st') lo = Some obs /\
    nth_error (heap st') la = Some a /\
    nth_error (heap st') lr = Some r /\
    nth_error (heap st') lm = Some m /\
    nth_error (heap st') ld = Some d /\
    nth_error (heap st') lk = Some k /\
    forall i, (i < E)%nat ->
      exists p bt,
        nth_error bts p = Some bt /\
        Z.of_nat (length bts) <= Z.of_nat p + size_arg / Z.of_nat N /\
        Z.of_nat p mod (size_arg / Z.of_nat N) = nth i draw 0 /\
        getitem a (Z.of_nat i) = getitem (batch_actions bt) (Z.of_nat i) /\
        getitem r (Z.of_nat i) = getitem (batch_rewards bt) (Z.of_nat i) /\
        getitem m (Z.of_nat i) = getitem (batch_mus bt) (Z.of_nat i) /\
        getitem d (Z.of_nat i) = getitem (batch_dones bt) (Z.of_nat i) /\
        getitem k (Z.of_nat i) = getitem (batch_masks bt) (Z.of_nat i) /\
        forall s ih iw l ic,
          (s <= N)%nat -> (ih < H)%nat -> (iw < W)%nat -> (l < 4)%nat ->
          (ic < C)%nat ->
          at_index obs [i; s; ih; iw; (l * C + ic)%nat]
          = at_index (batch_enc_obs bt) [i; (s + l)%nat; ih; iw; ic]
            * keep_product (batch_dones bt) i (s + l) (3 - l).
Proof.
  intros Hnew HN Hs Hu Hne [Hdlen Hdraw].
  set (shs := [[E; (N + 4)%nat; H; W; C]; E :: ra; E :: rr; E :: rm; [E; N];
               E :: rk]) in *.
  destruct (new_buffer_fields _ _ _ _ st0 Hnew)
    as (Hh0 & Hi0 & Hc0 & Hsz0 & He0 & _).
  assert (Hpar : n_env (self st0) = Z.of_nat E /\
                 n_steps (self st0) = Z.of_nat N /\
                 height (self st0) = Z.of_nat H /\
                 width (self st0) = Z.of_nat W /\
                 n_channels (self st0) = Z.of_nat C /\
                 n_stack (self st0) = 4).
  { unfold new_buffer, init in Hnew.
    cbn [observation_space_shape num_envs] in Hnew.
    destruct (Z.of_nat N =? 0); [discriminate|].
    cbn [rbind] in Hnew. inversion Hnew. cbn. repeat split; reflexivity. }
  assert (H1 : 1 <= size_arg / Z.of_nat N).
  { apply Z.div_le_lower_bound; lia. }
  assert (Hlen : (1 <= length bts)%nat).
  { destruct bts; [congruence|cbn [length]; lia]. }
  destruct (put_prefix junk _ _ _ size_arg st0 shs bts (length bts) Hnew
              ltac:(lia) Hu ltac:(lia)) as (st & Hrun & Hring).
  rewrite firstn_all in Hrun, Hring. rewrite Hsz0 in Hring.
  pose proof (put_all_keeps_parameters junk bts st0) as K.
  cbv zeta in K. rewrite Hrun in K. cbn [snd] in K.
  destruct K as (K1 & K2 & K3 & K4 & K5 & K6 & _ & _).
  destruct Hpar as (P1 & P2 & P3 & P4 & P5 & P6).
  rewrite P1 in K1. rewrite P2 in K2. rewrite P3 in K3. rewrite P4 in K4.
  rewrite P5 in K5. rewrite P6 in K6.
  destruct (ring_holds_rollouts st _ E N H W C ra rr rm rk bts Hring H1 Hne
              K1 K2 K3 K4 K5 K6) as (Hroll & Hwf & Hcs).
  assert (Hnum : num_in_buffer (self st)
                 = Z.min (size_arg / Z.of_nat N) (Z.of_nat (length bts))).
  { destruct Hring as (_ & _ & _ & Hnum & _). exact Hnum. }
  destruct (get_rows junk st draw Hcs K6 Hroll Hwf)
    as (od & oe & obs & oa & orw & om & ok & Hget & Hdec & Soe & Sod & Wod
        & Hrows).
  { rewrite Hnum, K1. split; assumption. }
  rewrite K1, K2, K3, K4, K5, !Nat2Z.id in Soe.
  rewrite K1, K2, !Nat2Z.id in Sod.
  rewrite K1, Nat2Z.id in Hrows.
  destruct (decode_four_frames_spec junk (self st) oe od N E H W C K6 K2 K1 K3
              K4 K5 Soe Sod Wod) as (obs' & Hdec' & _ & Hobs).
  rewrite Hdec in Hdec'. inversion Hdec'. subst obs'. clear Hdec'.
  eexists st, _, _, _, _, _, _, _, obs, oa, orw, om, od, ok.
  split; [exact Hrun|]. split; [exact Hget|]. cbn [heap].
  assert (Hat : forall c x, nth_error [od; oe; obs; oa; orw; om; ok] c = Some x ->
                 forall q, q = (c + length (heap st))%nat ->
                 nth_error (heap st ++ [od; oe; obs; oa; orw; om; ok]) q
                 = Some x).
  { intros c x Hc q ->. rewrite nth_error_app2 by lia.
    rewrite Nat.add_sub. exact Hc. }
  split; [apply (Hat 2%nat); reflexivity|].
  split; [apply (Hat 3%nat); reflexivity|].
  split; [apply (Hat 4%nat); reflexivity|].
  split; [apply (Hat 5%nat); reflexivity|].
  split; [apply (Hat 0%nat); reflexivity|].
  split; [apply (Hat 6%nat); reflexivity|].
  intros i Hi.
  assert (Hj : 0 <= nth i draw 0
               < Z.min (size_arg / Z.of_nat N) (Z.of_nat (length bts))).
  { rewrite Forall_forall in Hdraw. apply Hdraw. apply nth_In. lia. }
  destruct (ring_slot_lookup st _ shs bts (nth i draw 0) H1 Hring Hj)
    as (p & bt & Hp & Hle & Hmod & Hslot).
  destruct (slot_fields st _ bt Hslot) as (F0 & F1 & F2 & F3 & F4 & F5).
  specialize (Hrows i Hi). cbv beta zeta in Hrows.
  rewrite F0, F1, F2, F3, F4, F5 in Hrows. cbn [rbind] in Hrows.
  destruct Hrows as (Rd & Re & Ra & Rr & Rm & Rk).
  assert (Hbt : batch_shapes bt = shs).
  { unfold uniform in Hu. rewrite Forall_forall in Hu.
    apply Hu. eapply nth_error_In. exact Hp. }
  injection Hbt as B0 B1 B2 B3 B4 B5.
  exists p, bt. split; [exact Hp|]. split; [exact Hle|]. split; [exact Hmod|].
  split; [exact Ra|]. split; [exact Rr|]. split; [exact Rm|].
  split; [exact Rd|]. split; [exact Rk|].
  intros s ih iw l ic Hs' Hih Hiw Hl Hic.
  rewrite (Hobs i s ih iw l ic Hi Hs' Hih Hiw Hl Hic).
  rewrite (rows_agree_at oe (batch_enc_obs bt) E i _ [(s + l)%nat; ih; iw; ic]
             Soe B0 Hi Re) by bounds.
  rewrite (keep_product_agree od (batch_dones bt) i N); [reflexivity| |lia].
  intros t Ht.
  apply (rows_agree_at od (batch_dones bt) E i _ [t] Sod B4 Hi Rd).
  bounds.
Qed.

(** X6: [put] is not atomic.  When the frames of a batch fit the storage
    but its actions do not (another number of environments, so that the
    assignment cannot broadcast), [put] raises [ValueError] after it has
    overwritten the frames of the slot [next_idx]: the counters and the
    other five arrays are as before, so that the slot now pairs the new
    frames with the actions and rewards that were there. *)
Theorem put_is_not_atomic (junk : Z) (st : state) (bt : Batch)
  (s0 sa s2 s3 s4 s5 sa' : list nat) (e e' : nat) :
  owns st [s0; e :: sa; s2; s3; s4; s5] ->
  0 <= next_idx (self st) < size (self st) ->
  shape (batch_enc_obs bt) = s0 -> well_formed (batch_enc_obs bt) ->
  shape (batch_actions bt) = e' :: sa' -> length sa' = length sa ->
  e' <> e -> e' <> 1%nat ->
  exists st',
    put_batch junk bt st = (Raise ValueError, st') /\
    self st' = self st /\
    slot_of st' enc_obs (next_idx (self st)) = Ok (batch_enc_obs bt) /\
    forall j,
      slot_of st' actions j = slot_of st actions j /\
      slot_of st' rewards j = slot_of st rewards j /\
      slot_of st' mus j = slot_of st mus j /\
      slot_of st' dones j = slot_of st dones j /\
      slot_of st' masks j = slot_of st masks j.
Proof.
  intros (a0 & a1 & a2 & a3 & a4 & a5 & Hh & H0 & H1 & H2 & H3 & H4 & H5
          & Hsh & Hwf) Hidx Sv Wv Sa Hlen Hne Hne1.
  rewrite (put_allocated junk st bt 0%nat H0).
  destruct st as [b h]. destruct b. destruct bt as [v0 v1 v2 v3 v4 v5].
  cbn [self heap enc_obs actions rewards mus dones masks size next_idx
       num_in_buffer batch_enc_obs batch_actions batch_rewards batch_mus
       batch_dones batch_masks map] in *.
  subst. injection Hsh as S0 S1 S2 S3 S4 S5.
  inversion Hwf as [|? ? F0 _]; subst.
  assert (Hj : 0 <= next_idx0 < Z.of_nat (Z.to_nat size0)) by lia.
  destruct (setitem_spec a0 v0 _ _ next_idx0 S0 F0 eq_refl Wv Hj)
    as (b0 & E0 & T0 & G0 & R0 & O0).
  assert (E1 : setitem a1 next_idx0 v1 = Raise ValueError).
  { unfold setitem. rewrite S1. rewrite norm_index_ok by exact Hj.
    cbn [rbind]. unfold assign_value. rewrite Sa.
    cbn [length]. rewrite Hlen, Nat.sub_diag. cbn [drop_ones].
    unfold broadcast_to. cbn [shape length]. rewrite Hlen, Nat.sub_diag.
    cbn [pad_ones]. rewrite can_broadcast_first by assumption.
    reflexivity. }
  run_m. rewrite E0. run_m. rewrite E1. run_m.
  eexists. split; [reflexivity|]. split; [reflexivity|]. split.
  - run_slot. exact R0.
  - intros j. repeat split; reflexivity.
Qed.

Section Uninitialised.

Lemma y_var_initialised {A} (j1 j2 : Z) (s : list nat) (keep : ndarray)
  (K : ndarray -> result A) :
  (y <- set_slice_from (mk_ndarray s (repeat j1 (numel s))) 3 keep ;;
   y <- set_slice_to y 3 (scalar 1) ;; K y)%res
  = (y <- set_slice_from (mk_ndarray s (repeat j2 (numel s))) 3 keep ;;
     y <- set_slice_to y 3 (scalar 1) ;; K y)%res.
Proof.
  destruct s as [|n rest]; [reflexivity|].
  unfold set_slice_from, set_slice0. cbn [shape data].
  set (lo := norm_bound n 3).
  assert (Hlo : (lo <= n)%nat).
  { unfold lo, norm_bound. change (3 <? 0) with false. cbv iota. lia. }
  destruct (assign_value keep ((n - lo)%nat :: rest)) as [v|x];
    [|reflexivity].
  cbn [rbind]. unfold set_slice_to, set_slice0. cbn [shape data].
  fold lo.
  destruct (assign_value (scalar 1) ((lo - 0)%nat :: rest)) as [o|x];
    [|reflexivity].
  cbn [rbind]. f_equal. f_equal.
  assert (Hd : forall j,
             firstn (0 * numel rest)
               (firstn (lo * numel rest) (repeat j (numel (n :: rest)))
                ++ data v
                ++ skipn (Nat.max lo n * numel rest)
                     (repeat j (numel (n :: rest))))
             ++ data o
             ++ skipn (Nat.max 0 lo * numel rest)
                  (firstn (lo * numel rest) (repeat j (numel (n :: rest)))
                   ++ data v
                   ++ skipn (Nat.max lo n * numel rest)
                        (repeat j (numel (n :: rest))))
             = data o ++ data v).
  { intros j. cbn [Nat.mul firstn app Nat.max numel fold_right].
    fold (numel rest).
    rewrite Nat.max_r by exact Hlo.
    assert (Hle : (lo * numel rest <= n * numel rest)%nat)
      by (apply Nat.mul_le_mono_r; exact Hlo).
    rewrite skipn_app.
    rewrite (skipn_all2 (firstn _ _))
      by (rewrite length_firstn, repeat_length; lia).
    rewrite length_firstn, repeat_length.
    rewrite Nat.min_l by exact Hle. rewrite Nat.sub_diag.
    cbn [skipn app].
    rewrite (skipn_all2 (repeat _ _)) by (rewrite repeat_length; lia).
    rewrite app_nil_r. reflexivity. }
  rewrite (Hd j1), (Hd j2). reflexivity.
Qed.

(** X9: [decode] never exposes uninitialised memory.  Its result, or the
    exception it raises, does not depend on what [np.empty] left in
    [y_var]: every entry is assigned before it is read. *)
Theorem decode_ignores_uninitialised_memory (j1 j2 : Z) (b : Buffer)
  (e d : ndarray) :
  decode j1 b e d = decode j2 b e d.
Proof.
  unfold decode, empty.
  destruct (as_shape [n_steps b + n_stack b - 1; n_env b; 1; 1; 1])
    as [s|x]; [|reflexivity].
  cbn [rbind].
  destruct (zeros _) as [obs|x]; [|reflexivity]. cbn [rbind].
  destruct (reshape e _) as [x0|x]; [|reflexivity]. cbn [rbind].
  destruct (swapaxes10 x0) as [xv|x]; [|reflexivity]. cbn [rbind].
  destruct (reshape (one_minus d) _) as [k|x]; [|reflexivity]. cbn [rbind].
  destruct (swapaxes10 k) as [keep|x]; [|reflexivity]. cbn [rbind].
  apply y_var_initialised.
Qed.

End Uninitialised.

Section DecodeExtras.

Variable junk : Z.

(** X7: what [decode] computes for four stacked frames.  Channel block
    [l] of the stack of step [s] is frame [s + l] of the encoded
    observations of the same environment, times the keep masks
    ([1 - done]) of the steps between that frame and the newest frame of
    the stack. *)
Theorem decode_stacks_masked_frames (b : Buffer) (e d : ndarray)
  (N E H W C : nat) :
  n_stack b = 4 -> n_steps b = Z.of_nat N -> n_env b = Z.of_nat E ->
  height b = Z.of_nat H -> width b = Z.of_nat W ->
  n_channels b = Z.of_nat C ->
  shape e = [E; (N + 4)%nat; H; W; C] -> shape d = [E; N] ->
  well_formed d ->
  exists r, decode junk b e d = Ok r /\
    shape r = [E; (N + 1)%nat; H; W; (4 * C)%nat] /\
    forall ie s ih iw l ic,
      (ie < E)%nat -> (s <= N)%nat -> (ih < H)%nat -> (iw < W)%nat ->
      (l < 4)%nat -> (ic < C)%nat ->
      at_index r [ie; s; ih; iw; (l * C + ic)%nat]
      = at_index e [ie; (s + l)%nat; ih; iw; ic]
        * keep_product d ie (s + l) (3 - l).
Proof.
  intros Hst Hn He Hh Hw Hc Se Sd Wd.
  exact (decode_four_frames_spec junk b e d N E H W C Hst Hn He Hh Hw Hc
           Se Sd Wd).
Qed.

(** X8: with four stacked frames nothing leaks across the end of an
    episode.  When step [t] of an environment ended an episode, every
    frame recorded at or before [t] is zero in the stacks of the steps
    after [t]. *)
Theorem decode_blanks_finished_episodes (b : Buffer) (e d : ndarray)
  (N E H W C : nat) :
  n_stack b = 4 -> n_steps b = Z.of_nat N -> n_env b = Z.of_nat E ->
  height b = Z.of_nat H -> width b = Z.of_nat W ->
  n_channels b = Z.of_nat C ->
  shape e = [E; (N + 4)%nat; H; W; C] -> shape d = [E; N] ->
  well_formed d ->
  exists r, decode junk b e d = Ok r /\
    forall ie s t ih iw l ic,
      (ie < E)%nat -> (s <= N)%nat -> (ih < H)%nat -> (iw < W)%nat ->
      (l < 4)%nat -> (ic < C)%nat ->
      (t < s)%nat -> (s + l <= t + 3)%nat -> at_index d [ie; t] = 1 ->
      at_index r [ie; s; ih; iw; (l * C + ic)%nat] = 0.
Proof.
  intros Hst Hn He Hh Hw Hc Se Sd Wd.
  destruct (decode_four_frames_spec junk b e d N E H W C
              Hst Hn He Hh Hw Hc Se Sd Wd) as (r & Er & _ & Ar).
  exists r. split; [exact Er|].
  intros ie s t ih iw l ic Hie Hs Hih Hiw Hl Hic Hts Hsl Hd.
  rewrite Ar by assumption.
  rewrite (keep_product_zero d ie (3 - l) (s + l) (t + 3)); [ring|lia|].
  unfold keep_mask.
  replace (t + 3 <? 3)%nat with false by (symmetry; apply Nat.ltb_ge; lia).
  replace (t + 3 - 3)%nat with t by lia. rewrite Hd. reflexivity.
Qed.

End DecodeExtras.

Section RetraceEntries.

Import Tensor Retrace.
Local Open Scope Qc_scope.

Lemma spec_from_cons (gamma : Qc) (N : nat) (r d rho q v : nat -> Qc)
  (m : nat) :
  (m < N)%nat ->
  spec_from gamma N r d rho q v m
  = (r m + gamma * (1 - d m) * snd (spec_from gamma N r d rho q v (S m))
     :: fst (spec_from gamma N r d rho q v (S m)),
     v m + Qcmin 1 (rho m)
           * (r m + gamma * (1 - d m)
                    * snd (spec_from gamma N r d rho q v (S m)) - q m)).
Proof.
  intros Hm.
  rewrite (spec_from_step N gamma (fun _ => r) (fun _ => d) (fun _ => rho)
             (fun _ => q) (fun _ => v) 0%nat m Hm).
  destruct (spec_from gamma N r d rho q v (S m)) as [targets carry].
  reflexivity.
Qed.

Lemma spec_from_nth (gamma : Qc) (N : nat) (r d rho q v : nat -> Qc)
  (k m : nat) :
  (m + k < N)%nat ->
  nth k (fst (spec_from gamma N r d rho q v m)) 0
  = r (m + k)%nat
    + gamma * (1 - d (m + k)%nat)
      * snd (spec_from gamma N r d rho q v (S (m + k))).
Proof.
  revert m. induction k as [|k IH]; intros m Hk.
  - rewrite spec_from_cons by lia. cbn [fst nth]. rewrite Nat.add_0_r.
    reflexivity.
  - rewrite spec_from_cons by lia. cbn [fst nth].
    rewrite (IH (S m)) by lia.
    replace (S m + k)%nat with (m + S k)%nat by lia. reflexivity.
Qed.

Lemma spec_from_carry (gamma : Qc) (N : nat) (r d rho q v : nat -> Qc)
  (m : nat) :
  (m < N)%nat ->
  snd (spec_from gamma N r d rho q v m)
  = v m + Qcmin 1 (rho m)
          * (nth m (fst (spec_from gamma N r d rho q v 0)) 0 - q m).
Proof.
  intros Hm. rewrite (spec_from_nth gamma N r d rho q v m 0) by lia.
  rewrite spec_from_cons by lia. reflexivity.
Qed.

(** The targets of [q_retrace], entry by entry. *)
Lemma q_retrace_entries (E N : nat) (gamma : Qc)
  (rewards dones q_i values rho_i : list Qc) :
  N <> 0%nat ->
  length rewards = (E * N)%nat -> length dones = (E * N)%nat ->
  length q_i = (E * N)%nat -> length rho_i = (E * N)%nat ->
  length values = (E * (N + 1))%nat ->
  exists out,
    q_retrace rewards dones q_i values rho_i E N gamma = Ok out /\
    length out = (E * N)%nat /\
    forall e, (e < E)%nat ->
      nth (e * N + (N - 1)) out 0
      = nth (e * N + (N - 1)) rewards 0
        + gamma * (1 - nth (e * N + (N - 1)) dones 0)
          * nth (e * (N + 1) + N) values 0 /\
      forall t, (t + 1 < N)%nat ->
        nth (e * N + t) out 0
        = nth (e * N + t) rewards 0
          + gamma * (1 - nth (e * N + t) dones 0)
            * (nth (e * (N + 1) + (t + 1)) values 0
               + Qcmin 1 (nth (e * N + (t + 1)) rho_i 0)
                 * (nth (e * N + (t + 1)) out 0
                    - nth (e * N + (t + 1)) q_i 0)).
Proof.
  intros HN Lr Ld Lq Lp Lv.
  destruct (q_retrace_core E N gamma rewards dones q_i values rho_i
              HN Lr Ld Lq Lp Lv) as (out & Eout & Lout & Hout).
  exists out. split; [exact Eout|]. split; [exact Lout|].
  intros e He. specialize (Hout e He).
  assert (Hn : forall t, (t < N)%nat ->
            nth (e * N + t) out 0
            = nth t (fst (spec_from gamma N
                 (fun t => nth (e * N + t) rewards 0)
                 (fun t => nth (e * N + t) dones 0)
                 (fun t => nth (e * N + t) rho_i 0)
                 (fun t => nth (e * N + t) q_i 0)
                 (fun t => nth (e * (N + 1) + t) values 0) 0)) 0).
  { intros t Ht. rewrite <- Hout. symmetry. apply nth_env_steps. exact Ht. }
  split.
  - rewrite Hn by lia.
    rewrite (spec_from_nth gamma N _ _ _ _ _ (N - 1) 0) by lia.
    cbn [Nat.add]. replace (S (N - 1)) with N by lia.
    rewrite (spec_from_end N gamma (fun _ t => nth (e * N + t) rewards 0)
               (fun _ t => nth (e * N + t) dones 0)
               (fun _ t => nth (e * N + t) rho_i 0)
               (fun _ t => nth (e * N + t) q_i 0)
               (fun _ t => nth (e * (N + 1) + t) values 0) 0%nat).
    reflexivity.
  - intros t Ht. rewrite !Hn by lia.
    rewrite (spec_from_nth gamma N _ _ _ _ _ t 0) by lia.
    cbn [Nat.add]. rewrite (spec_from_carry gamma N _ _ _ _ _ (S t)) by lia.
    replace (t + 1)%nat with (S t) by lia. reflexivity.
Qed.

End RetraceEntries.

Section RetraceWindows.

Import Tensor Retrace.
Local Open Scope Qc_scope.

(** Two runs of [q_retrace] whose inputs agree for environment [e] up to
    step [t], where the targets at [t] agree, have the same targets for
    [e] up to [t]. *)
Lemma q_retrace_agree_upto (E N : nat) (gamma : Qc)
  (rewards dones q_i values rho_i : list Qc)
  (rewards' dones' q_i' values' rho_i' out out' : list Qc) (e t : nat) :
  (forall t, (t + 1 < N)%nat ->
     nth (e * N + t) out 0
     = nth (e * N + t) rewards 0
       + gamma * (1 - nth (e * N + t) dones 0)
         * (nth (e * (N + 1) + (t + 1)) values 0
            + Qcmin 1 (nth (e * N + (t + 1)) rho_i 0)
              * (nth (e * N + (t + 1)) out 0
                 - nth (e * N + (t + 1)) q_i 0))) ->
  (forall t, (t + 1 < N)%nat ->
     nth (e * N + t) out' 0
     = nth (e * N + t) rewards' 0
       + gamma * (1 - nth (e * N + t) dones' 0)
         * (nth (e * (N + 1) + (t + 1)) values' 0
            + Qcmin 1 (nth (e * N + (t + 1)) rho_i' 0)
              * (nth (e * N + (t + 1)) out' 0
                 - nth (e * N + (t + 1)) q_i' 0))) ->
  (t < N)%nat ->
  (forall s, (s <= t)%nat ->
     nth (e * N + s) rewards 0 = nth (e * N + s) rewards' 0 /\
     nth (e * N + s) dones 0 = nth (e * N + s) dones' 0 /\
     nth (e * N + s) q_i 0 = nth (e * N + s) q_i' 0 /\
     nth (e * N + s) rho_i 0 = nth (e * N + s) rho_i' 0 /\
     nth (e * (N + 1) + s) values 0 = nth (e * (N + 1) + s) values' 0) ->
  nth (e * N + t) out 0 = nth (e * N + t) out' 0 ->
  forall k s, (s + k = t)%nat ->
    nth (e * N + s) out 0 = nth (e * N + s) out' 0.
Proof.
  intros R R' Ht Hin Hlast k.
  induction k as [|k IH]; intros s Hs.
  - replace s with t by lia. exact Hlast.
  - rewrite R, R' by lia.
    rewrite (IH (s + 1)%nat) by lia.
    destruct (Hin s ltac:(lia)) as (-> & -> & _).
    destruct (Hin (s + 1)%nat ltac:(lia)) as (_ & _ & -> & -> & ->).
    reflexivity.
Qed.

End RetraceWindows.

Section RetraceExtras.

Import Tensor Retrace.
Local Open Scope Qc_scope.

(** X10: the targets of [q_retrace] obey the Retrace recurrence.  The
    target of the last step bootstraps from the value past the window,
    [r + gamma (1 - done) V_N]; the target of an earlier step is
    [r_t + gamma (1 - done_t) (V_{t+1} + min(1, rho_{t+1})
    (Qret_{t+1} - Q_{t+1}))]. *)
Theorem q_retrace_recurrence (E N : nat) (gamma : Qc)
  (rewards dones q_i values rho_i : list Qc) :
  N <> 0%nat ->
  length rewards = (E * N)%nat -> length dones = (E * N)%nat ->
  length q_i = (E * N)%nat -> length rho_i = (E * N)%nat ->
  length values = (E * (N + 1))%nat ->
  exists out,
    q_retrace rewards dones q_i values rho_i E N gamma = Ok out /\
    length out = (E * N)%nat /\
    forall e, (e < E)%nat ->
      nth (e * N + (N - 1)) out 0
      = nth (e * N + (N - 1)) rewards 0
        + gamma * (1 - nth (e * N + (N - 1)) dones 0)
          * nth (e * (N + 1) + N) values 0 /\
      forall t, (t + 1 < N)%nat ->
        nth (e * N + t) out 0
        = nth (e * N + t) rewards 0
          + gamma * (1 - nth (e * N + t) dones 0)
            * (nth (e * (N + 1) + (t + 1)) values 0
               + Qcmin 1 (nth (e * N + (t + 1)) rho_i 0)
                 * (nth (e * N + (t + 1)) out 0
                    - nth (e * N + (t + 1)) q_i 0)).
Proof.
  exact (q_retrace_entries E N gamma rewards dones q_i values rho_i).
Qed.

(** X11: at a step that ends an episode the target is the reward of the
    step: nothing of what follows enters it. *)
Theorem q_retrace_terminal_step (E N : nat) (gamma : Qc)
  (rewards dones q_i values rho_i : list Qc) :
  N <> 0%nat ->
  length rewards = (E * N)%nat -> length dones = (E * N)%nat ->
  length q_i = (E * N)%nat -> length rho_i = (E * N)%nat ->
  length values = (E * (N + 1))%nat ->
  exists out,
    q_retrace rewards dones q_i values rho_i E N gamma = Ok out /\
    forall e t, (e < E)%nat -> (t < N)%nat ->
      nth (e * N + t) dones 0 = 1 ->
      nth (e * N + t) out 0 = nth (e * N + t) rewards 0.
Proof.
  intros HN Lr Ld Lq Lp Lv.
  destruct (q_retrace_entries E N gamma rewards dones q_i values rho_i
              HN Lr Ld Lq Lp Lv) as (out & Eout & _ & Hout).
  exists out. split; [exact Eout|].
  intros e t He Ht Hd. destruct (Hout e He) as [Hlast Hstep].
  destruct (Nat.eq_dec (t + 1) N) as [Heq|Hneq].
  - replace t with (N - 1)%nat in * by lia. rewrite Hlast, Hd. ring.
  - rewrite Hstep by lia. rewrite Hd. ring.
Qed.

(** X12: the targets of one environment depend on the inputs of that
    environment only. *)
Theorem q_retrace_per_environment (E N : nat) (gamma : Qc)
  (rewards dones q_i values rho_i : list Qc)
  (rewards' dones' q_i' values' rho_i' : list Qc) (e : nat) :
  N <> 0%nat -> (e < E)%nat ->
  length rewards = (E * N)%nat -> length dones = (E * N)%nat ->
  length q_i = (E * N)%nat -> length rho_i = (E * N)%nat ->
  length values = (E * (N + 1))%nat ->
  length rewards' = (E * N)%nat -> length dones' = (E * N)%nat ->
  length q_i' = (E * N)%nat -> length rho_i' = (E * N)%nat ->
  length values' = (E * (N + 1))%nat ->
  (forall s, (s < N)%nat ->
     nth (e * N + s) rewards 0 = nth (e * N + s) rewards' 0 /\
     nth (e * N + s) dones 0 = nth (e * N + s) dones' 0 /\
     nth (e * N + s) q_i 0 = nth (e * N + s) q_i' 0 /\
     nth (e * N + s) rho_i 0 = nth (e * N + s) rho_i' 0) ->
  (forall s, (s <= N)%nat ->
     nth (e * (N + 1) + s) values 0 = nth (e * (N + 1) + s) values' 0) ->
  exists out out',
    q_retrace rewards dones q_i values rho_i E N gamma = Ok out /\
    q_retrace rewards' dones' q_i' values' rho_i' E N gamma = Ok out' /\
    forall s, (s < N)%nat ->
      nth (e * N + s) out 0 = nth (e * N + s) out' 0.
Proof.
  intros HN He Lr Ld Lq Lp Lv Lr' Ld' Lq' Lp' Lv' Hin Hv.
  destruct (q_retrace_entries E N gamma rewards dones q_i values rho_i
              HN Lr Ld Lq Lp Lv) as (out & Eout & _ & Hout).
  destruct (q_retrace_entries E N gamma rewards' dones' q_i' values' rho_i'
              HN Lr' Ld' Lq' Lp' Lv') as (out' & Eout' & _ & Hout').
  exists out, out'. split; [exact Eout|]. split; [exact Eout'|].
  destruct (Hout e He) as [Hlast Hstep].
  destruct (Hout' e He) as [Hlast' Hstep'].
  intros s Hs.
  apply (q_retrace_agree_upto E N gamma rewards dones q_i values rho_i
           rewards' dones' q_i' values' rho_i' out out' e (N - 1)
           Hstep Hstep' ltac:(lia)) with (k := (N - 1 - s)%nat); [| |lia].
  - intros u Hu. destruct (Hin u ltac:(lia)) as (A & B & C & D).
    repeat split; try assumption. apply Hv. lia.
  - rewrite Hlast, Hlast'.
    destruct (Hin (N - 1)%nat ltac:(lia)) as (-> & -> & _).
    rewrite (Hv N) by lia. reflexivity.
Qed.

(** X13: a step that ends an episode shields what precedes it.  When two
    batches agree for an environment up to a step [t] at which the episode
    ends, the targets of that environment up to [t] are the same, whatever
    the rewards, values, weights and flags after [t]. *)
Theorem q_retrace_episode_boundary (E N : nat) (gamma : Qc)
  (rewards dones q_i values rho_i : list Qc)
  (rewards' dones' q_i' values' rho_i' : list Qc) (e t : nat) :
  N <> 0%nat -> (e < E)%nat -> (t < N)%nat ->
  length rewards = (E * N)%nat -> length dones = (E * N)%nat ->
  length q_i = (E * N)%nat -> length rho_i = (E * N)%nat ->
  length values = (E * (N + 1))%nat ->
  length rewards' = (E * N)%nat -> length dones' = (E * N)%nat ->
  length q_i' = (E * N)%nat -> length rho_i' = (E * N)%nat ->
  length values' = (E * (N + 1))%nat ->
  (forall s, (s <= t)%nat ->
     nth (e * N + s) rewards 0 = nth (e * N + s) rewards' 0 /\
     nth (e * N + s) dones 0 = nth (e * N + s) dones' 0 /\
     nth (e * N + s) q_i 0 = nth (e * N + s) q_i' 0 /\
     nth (e * N + s) rho_i 0 = nth (e * N + s) rho_i' 0 /\
     nth (e * (N + 1) + s) values 0 = nth (e * (N + 1) + s) values' 0) ->
  nth (e * N + t) dones 0 = 1 ->
  exists out out',
    q_retrace rewards dones q_i values rho_i E N gamma = Ok out /\
    q_retrace rewards' dones' q_i' values' rho_i' E N gamma = Ok out' /\
    forall s, (s <= t)%nat ->
      nth (e * N + s) out 0 = nth (e * N + s) out' 0.
Proof.
  intros HN He Ht Lr Ld Lq Lp Lv Lr' Ld' Lq' Lp' Lv' Hin Hd.
  destruct (q_retrace_entries E N gamma rewards dones q_i values rho_i
              HN Lr Ld Lq Lp Lv) as (out & Eout & _ & Hout).
  destruct (q_retrace_entries E N gamma rewards' dones' q_i' values' rho_i'
              HN Lr' Ld' Lq' Lp' Lv') as (out' & Eout' & _ & Hout').
  exists out, out'. split; [exact Eout|]. split; [exact Eout'|].
  destruct (Hout e He) as [Hlast Hstep].
  destruct (Hout' e He) as [Hlast' Hstep'].
  intros s Hs.
  apply (q_retrace_agree_upto E N gamma rewards dones q_i values rho_i
           rewards' dones' q_i' values' rho_i' out out' e t
           Hstep Hstep' Ht Hin) with (k := (t - s)%nat); [|lia].
  assert (Hd' : nth (e * N + t) dones' 0 = 1).
  { destruct (Hin t (le_n _)) as (_ & <- & _). exact Hd. }
  destruct (Hin t (le_n _)) as (Hr & _).
  destruct (Nat.eq_dec (t + 1) N) as [Heq|Hneq].
  - replace t with (N - 1)%nat in * by lia.
    rewrite Hlast, Hlast', Hd, Hd', Hr. ring.
  - rewrite Hstep, Hstep' by lia. rewrite Hd, Hd', Hr. ring.
Qed.

End RetraceExtras.

Section TrustRegionResidual.

Import Tensor TrustRegion.
Local Open Scope Qc_scope.






End TrustRegionResidual.

Section TrustRegionExtras.

Import Tensor TrustRegion.
Local Open Scope Qc_scope.


End TrustRegionExtras.

(** * The further theorems at work on the fixtures *)

Section MoreWitnesses.

Import Fixtures Tensor Retrace TrustRegion.

Lemma put_counts_batches_witness :
  exists st,
    put_all 0 batches4 buffer3 = (Ok tt, st) /\
    num_in_buffer (self st) = Z.min (6 / 2) (Z.of_nat (length batches4)) /\
    next_idx (self st) = Z.of_nat (length batches4) mod (6 / 2) /\
    can_sample (self st) = negb (length batches4 =? 0)%nat /\
    forall frames,
      has_atleast (self st) frames
      = Ok (frames / 2 <=? Z.min (6 / 2) (Z.of_nat (length batches4))).
Proof.
  apply (put_counts_batches 0 env1 2 4 6 buffer3
           (batch_shapes (batch1 2 4 1)) batches4);
    [reflexivity|lia|lia|exact uniform_batches4].
Defined.

Lemma has_atleast_beyond_capacity_witness :
  exists st,
    put_all 0 batches4 buffer3 = (Ok tt, st) /\
    has_atleast (self st) 8 = Ok false.
Proof.
  apply (has_atleast_beyond_capacity 0 env1 2 4 6 8 buffer3
           (batch_shapes (batch1 2 4 1)) batches4);
    [reflexivity|lia|lia|reflexivity|exact uniform_batches4].
Defined.

Lemma decode_requires_four_frames_witness :
  decode 0 (mk_Buffer 1 2 1 1 1 2 2 25 None None None None None None 0 0)
         (numbered [1; 4; 1; 1; 1]%nat) (full [1; 2]%nat 0)
  = Raise ValueError.
Proof.
  apply (decode_requires_four_frames 0 _ _ _ 2 1);
    [discriminate|reflexivity|lia|reflexivity|reflexivity].
Defined.

Lemma take_gathers_rows_witness :
  exists o,
    take 0 (Some 1%nat) [0] [0] buffer3_one
    = (Ok (length (heap buffer3_one)),
       mk_state (self buffer3_one) (heap buffer3_one ++ [o])) /\
    shape o = [1; 2]%nat /\
    forall i, (i < 1)%nat ->
      getitem o (Z.of_nat i)
      = getitem2 (nth 1 (heap buffer3_one) (scalar 0))
                 (nth i [0] 0) (nth i [0] 0).
Proof.
  apply (take_gathers_rows 0 buffer3_one 1%nat _ 3 1 1 [2]%nat [0] [0]);
    try reflexivity; repeat constructor; lia.
Defined.

Lemma get_replays_stored_rollouts_witness :
  let E := 1%nat in
  let N := 2%nat in
  let H := 1%nat in
  let W := 1%nat in
  let C := 1%nat in
  let size_arg := 6 in
  let bts := batches4 in
  let draw := [0] in
  exists st st' lo la lr lm ld lk obs a r m d k,
    put_all 0 bts buffer3 = (Ok tt, st) /\
    get 0 draw st = (Ok (lo, la, lr, lm, ld, lk), st') /\
    nth_error (heap st') lo = Some obs /\
    nth_error (heap st') la = Some a /\
    nth_error (heap st') lr = Some r /\
    nth_error (heap st') lm = Some m /\
    nth_error (heap st') ld = Some d /\
    nth_error (heap st') lk = Some k /\
    forall i, (i < E)%nat ->
      exists p bt,
        nth_error bts p = Some bt /\
        Z.of_nat (length bts) <= Z.of_nat p + size_arg / Z.of_nat N /\
        Z.of_nat p mod (size_arg / Z.of_nat N) = nth i draw 0 /\
        getitem a (Z.of_nat i) = getitem (batch_actions bt) (Z.of_nat i) /\
        getitem r (Z.of_nat i) = getitem (batch_rewards bt) (Z.of_nat i) /\
        getitem m (Z.of_nat i) = getitem (batch_mus bt) (Z.of_nat i) /\
        getitem d (Z.of_nat i) = getitem (batch_dones bt) (Z.of_nat i) /\
        getitem k (Z.of_nat i) = getitem (batch_masks bt) (Z.of_nat i) /\
        forall s ih iw l ic,
          (s <= N)%nat -> (ih < H)%nat -> (iw < W)%nat -> (l < 4)%nat ->
          (ic < C)%nat ->
          at_index obs [i; s; ih; iw; (l * C + ic)%nat]
          = at_index (batch_enc_obs bt) [i; (s + l)%nat; ih; iw; ic]
            * keep_product (batch_dones bt) i (s + l) (3 - l).
Proof.
  cbv zeta.
  apply (get_replays_stored_rollouts 0 1 2 1 1 1 6 buffer3
           [2]%nat [2]%nat [2; 2]%nat [3]%nat batches4 [0]).
  - reflexivity.
  - lia.
  - lia.
  - exact uniform_batches4.
  - discriminate.
  - split; [reflexivity|]. repeat constructor; reflexivity.
Defined.

Lemma owns_buffer3_one :
  owns buffer3_one
    [[1; 6; 1; 1; 1]; [1; 2]; [1; 2]; [1; 2; 2]; [1; 2]; [1; 3]]%nat.
Proof.
  unfold owns.
  exists (nth 0 (heap buffer3_one) (scalar 0)),
         (nth 1 (heap buffer3_one) (scalar 0)),
         (nth 2 (heap buffer3_one) (scalar 0)),
         (nth 3 (heap buffer3_one) (scalar 0)),
         (nth 4 (heap buffer3_one) (scalar 0)),
         (nth 5 (heap buffer3_one) (scalar 0)).
  repeat split; try (vm_compute; reflexivity).
  repeat constructor; vm_compute; reflexivity.
Qed.

Lemma put_is_not_atomic_witness :
  let bt :=
    mk_Batch (full [1; 6; 1; 1; 1]%nat 9) (full [2; 2]%nat 9)
             (full [1; 2]%nat 9) (full [1; 2; 2]%nat 9)
             (full [1; 2]%nat 0) (full [1; 3]%nat 0) in
  exists st',
    put_batch 0 bt buffer3_one = (Raise ValueError, st') /\
    self st' = self buffer3_one /\
    slot_of st' enc_obs (next_idx (self buffer3_one))
    = Ok (batch_enc_obs bt) /\
    forall j,
      slot_of st' actions j = slot_of buffer3_one actions j /\
      slot_of st' rewards j = slot_of buffer3_one rewards j /\
      slot_of st' mus j = slot_of buffer3_one mus j /\
      slot_of st' dones j = slot_of buffer3_one dones j /\
      slot_of st' masks j = slot_of buffer3_one masks j.
Proof.
  cbv zeta.
  apply (put_is_not_atomic 0 buffer3_one _ [1; 6; 1; 1; 1]%nat [2]%nat
           [1; 2]%nat [1; 2; 2]%nat [1; 2]%nat [1; 3]%nat [2]%nat 1 2).
  - exact owns_buffer3_one.
  - vm_compute. split; [discriminate|reflexivity].
  - reflexivity.
  - reflexivity.
  - reflexivity.
  - reflexivity.
  - lia.
  - lia.
Defined.

Lemma decode_stacks_masked_frames_witness :
  exists r,
    decode 0 (mk_Buffer 1 3 1 1 1 4 3 16 None None None None None None 0 0)
           (numbered [1; 7; 1; 1; 1]%nat) (mk_ndarray [1; 3]%nat [0; 1; 0])
    = Ok r /\
    shape r = [1; (3 + 1); 1; 1; (4 * 1)]%nat /\
    forall ie s ih iw l ic,
      (ie < 1)%nat -> (s <= 3)%nat -> (ih < 1)%nat -> (iw < 1)%nat ->
      (l < 4)%nat -> (ic < 1)%nat ->
      at_index r [ie; s; ih; iw; (l * 1 + ic)%nat]
      = at_index (numbered [1; 7; 1; 1; 1]%nat) [ie; (s + l)%nat; ih; iw; ic]
        * keep_product (mk_ndarray [1; 3]%nat [0; 1; 0]) ie (s + l) (3 - l).
Proof.
  apply (decode_stacks_masked_frames 0 _ _ _ 3 1 1 1 1); reflexivity.
Defined.

Lemma decode_blanks_finished_episodes_witness :
  exists r,
    decode 0 (mk_Buffer 1 3 1 1 1 4 3 16 None None None None None None 0 0)
           (numbered [1; 7; 1; 1; 1]%nat) (mk_ndarray [1; 3]%nat [0; 1; 0])
    = Ok r /\
    forall ie s t ih iw l ic,
      (ie < 1)%nat -> (s <= 3)%nat -> (ih < 1)%nat -> (iw < 1)%nat ->
      (l < 4)%nat -> (ic < 1)%nat ->
      (t < s)%nat -> (s + l <= t + 3)%nat ->
      at_index (mk_ndarray [1; 3]%nat [0; 1; 0]) [ie; t] = 1 ->
      at_index r [ie; s; ih; iw; (l * 1 + ic)%nat] = 0.
Proof.
  apply (decode_blanks_finished_episodes 0 _ _ _ 3 1 1 1 1); reflexivity.
Defined.

Lemma q_retrace_recurrence_witness :
  exists out,
    q_retrace ex_rewards ex_dones ex_q ex_values ex_rho 1 3 ex_gamma = Ok out /\
    length out = (1 * 3)%nat /\
    forall e, (e < 1)%nat ->
      nth (e * 3 + (3 - 1)) out (Q2Qc 0)
      = (nth (e * 3 + (3 - 1)) ex_rewards (Q2Qc 0)
         + ex_gamma * (1 - nth (e * 3 + (3 - 1)) ex_dones (Q2Qc 0))
           * nth (e * (3 + 1) + 3) ex_values (Q2Qc 0))%Qc /\
      forall t, (t + 1 < 3)%nat ->
        nth (e * 3 + t) out (Q2Qc 0)
        = (nth (e * 3 + t) ex_rewards (Q2Qc 0)
           + ex_gamma * (1 - nth (e * 3 + t) ex_dones (Q2Qc 0))
             * (nth (e * (3 + 1) + (t + 1)) ex_values (Q2Qc 0)
                + Qcmin 1 (nth (e * 3 + (t + 1)) ex_rho (Q2Qc 0))
                  * (nth (e * 3 + (t + 1)) out (Q2Qc 0)
                     - nth (e * 3 + (t + 1)) ex_q (Q2Qc 0))))%Qc.
Proof.
  apply (q_retrace_recurrence 1 3 ex_gamma ex_rewards ex_dones ex_q ex_values
           ex_rho); try reflexivity. discriminate.
Defined.

Lemma q_retrace_terminal_step_witness :
  exists out,
    q_retrace ex_rewards [Q2Qc 0; Q2Qc 1; Q2Qc 0] ex_q ex_values ex_rho 1 3
              ex_gamma = Ok out /\
    forall e t, (e < 1)%nat -> (t < 3)%nat ->
      nth (e * 3 + t) [Q2Qc 0; Q2Qc 1; Q2Qc 0] (Q2Qc 0) = Q2Qc 1 ->
      nth (e * 3 + t) out (Q2Qc 0) = nth (e * 3 + t) ex_rewards (Q2Qc 0).
Proof.
  apply (q_retrace_terminal_step 1 3 ex_gamma ex_rewards
           [Q2Qc 0; Q2Qc 1; Q2Qc 0] ex_q ex_values ex_rho);
    try reflexivity. discriminate.
Defined.

Lemma q_retrace_per_environment_witness :
  let rewards := [Q2Qc 7; Q2Qc 8; Q2Qc 9; Q2Qc 1; Q2Qc 0; Q2Qc 2] in
  let dones := [Q2Qc 0; Q2Qc 1; Q2Qc 0; Q2Qc 0; Q2Qc 0; Q2Qc 0] in
  let q_i := [Q2Qc 1; Q2Qc 2; Q2Qc 3; Q2Qc 5; Q2Qc 6; Q2Qc 7] in
  let values :=
    [Q2Qc 9; Q2Qc 9; Q2Qc 9; Q2Qc 9; Q2Qc 5; Q2Qc 6; Q2Qc 7; Q2Qc 1] in
  let rho_i := [Q2Qc 3; Q2Qc 3; Q2Qc 3; Q2Qc 1; Q2Qc 2; Q2Qc 3] in
  let rewards' := [Q2Qc 0; Q2Qc 0; Q2Qc 0; Q2Qc 1; Q2Qc 0; Q2Qc 2] in
  let dones' := [Q2Qc 1; Q2Qc 0; Q2Qc 0; Q2Qc 0; Q2Qc 0; Q2Qc 0] in
  let q_i' := [Q2Qc 4; Q2Qc 4; Q2Qc 4; Q2Qc 5; Q2Qc 6; Q2Qc 7] in
  let values' :=
    [Q2Qc 0; Q2Qc 0; Q2Qc 0; Q2Qc 0; Q2Qc 5; Q2Qc 6; Q2Qc 7; Q2Qc 1] in
  let rho_i' := [Q2Qc 0; Q2Qc 1; Q2Qc 0; Q2Qc 1; Q2Qc 2; Q2Qc 3] in
  exists out out',
    q_retrace rewards dones q_i values rho_i 2 3 ex_gamma = Ok out /\
    q_retrace rewards' dones' q_i' values' rho_i' 2 3 ex_gamma = Ok out' /\
    forall s, (s < 3)%nat ->
      nth (1 * 3 + s) out (Q2Qc 0) = nth (1 * 3 + s) out' (Q2Qc 0).
Proof.
  cbv zeta.
  apply (q_retrace_per_environment 2 3 ex_gamma
           [Q2Qc 7; Q2Qc 8; Q2Qc 9; Q2Qc 1; Q2Qc 0; Q2Qc 2]
           [Q2Qc 0; Q2Qc 1; Q2Qc 0; Q2Qc 0; Q2Qc 0; Q2Qc 0]
           [Q2Qc 1; Q2Qc 2; Q2Qc 3; Q2Qc 5; Q2Qc 6; Q2Qc 7]
           [Q2Qc 9; Q2Qc 9; Q2Qc 9; Q2Qc 9; Q2Qc 5; Q2Qc 6; Q2Qc 7; Q2Qc 1]
           [Q2Qc 3; Q2Qc 3; Q2Qc 3; Q2Qc 1; Q2Qc 2; Q2Qc 3]
           [Q2Qc 0; Q2Qc 0; Q2Qc 0; Q2Qc 1; Q2Qc 0; Q2Qc 2]
           [Q2Qc 1; Q2Qc 0; Q2Qc 0; Q2Qc 0; Q2Qc 0; Q2Qc 0]
           [Q2Qc 4; Q2Qc 4; Q2Qc 4; Q2Qc 5; Q2Qc 6; Q2Qc 7]
           [Q2Qc 0; Q2Qc 0; Q2Qc 0; Q2Qc 0; Q2Qc 5; Q2Qc 6; Q2Qc 7; Q2Qc 1]
           [Q2Qc 0; Q2Qc 1; Q2Qc 0; Q2Qc 1; Q2Qc 2; Q2Qc 3] 1);
    [discriminate | lia | reflexivity | reflexivity | reflexivity
    | reflexivity | reflexivity | reflexivity | reflexivity | reflexivity
    | reflexivity | reflexivity
    | intros s Hs; repeat split; reflexivity
    | intros s Hs; reflexivity].
Defined.

Lemma q_retrace_episode_boundary_witness :
  exists out out',
    q_retrace ex_rewards [Q2Qc 0; Q2Qc 1; Q2Qc 0] ex_q ex_values ex_rho 1 3
              ex_gamma = Ok out /\
    q_retrace [Q2Qc 1; Q2Qc 0; Q2Qc 5] [Q2Qc 0; Q2Qc 1; Q2Qc 1] ex_q
              [Q2Qc 5; Q2Qc 6; Q2Qc 9; Q2Qc 4] ex_rho 1 3 ex_gamma
    = Ok out' /\
    forall s, (s <= 1)%nat ->
      nth (0 * 3 + s) out (Q2Qc 0) = nth (0 * 3 + s) out' (Q2Qc 0).
Proof.
  apply (q_retrace_episode_boundary 1 3 ex_gamma ex_rewards
           [Q2Qc 0; Q2Qc 1; Q2Qc 0] ex_q ex_values ex_rho
           [Q2Qc 1; Q2Qc 0; Q2Qc 5] [Q2Qc 0; Q2Qc 1; Q2Qc 1] ex_q
           [Q2Qc 5; Q2Qc 6; Q2Qc 9; Q2Qc 4] ex_rho 0 1);
    try reflexivity; try discriminate; try lia.
  intros s Hs. destruct s as [|[|s]]; [| |lia]; repeat split; reflexivity.
Defined.


End MoreWitnesses.

(** * The rollout runner *)

(** ** Arrays of the rollout runner *)

Section RunnerArrays.

Import Rollout.

Lemma expand3_flags (d : ndarray) (E : nat) :
  shape d = [E] -> well_formed d ->
  exists m, expand3 (one_minus d) = Ok m /\
    shape m = [E; 1; 1; 1]%nat /\ well_formed m /\
    forall e, (e < E)%nat ->
      at_index m [e; 0; 0; 0]%nat = 1 - at_index d [e].
Proof.
  intros Sd Wd. unfold expand3, one_minus. cbn [shape]. rewrite Sd.
  eexists. split; [reflexivity|]. split; [reflexivity|].
  unfold well_formed in *. rewrite Sd in Wd. cbn [numel fold_right] in Wd.
  split.
  - cbn [shape data numel fold_right]. rewrite length_map. lia.
  - intros e He. unfold at_index. cbn [shape data]. rewrite Sd.
    cbn [ravel numel fold_right].
    rewrite nth_map_gen with (da := 0) by lia.
    do 2 f_equal. 
Qed.

Lemma can_broadcast_column (e h w k : nat) :
  can_broadcast [e; 1; 1; 1]%nat [e; h; w; k] = true.
Proof.
  cbn [can_broadcast]. rewrite Nat.eqb_refl. cbn [Nat.eqb orb andb].
  rewrite !orb_true_r. reflexivity.
Qed.

(** [a *= m] for a column [m] of one factor for each environment. *)
Lemma imul_spec (a m : ndarray) (E H W K : nat) :
  shape a = [E; H; W; K] -> well_formed a ->
  shape m = [E; 1; 1; 1]%nat ->
  exists r, imul a m = Ok r /\ shape r = [E; H; W; K] /\ well_formed r /\
    forall e h w j, (e < E)%nat -> (h < H)%nat -> (w < W)%nat -> (j < K)%nat ->
      at_index r [e; h; w; j]
      = at_index a [e; h; w; j] * at_index m [e; 0; 0; 0]%nat.
Proof.
  intros Sa Wa Sm. unfold imul, broadcast_to. rewrite Sa, Sm.
  cbn [length Nat.sub pad_ones]. rewrite can_broadcast_column.
  cbn [rbind]. eexists. split; [reflexivity|]. split; [reflexivity|].
  unfold well_formed in Wa. rewrite Sa in Wa.
  split.
  - unfold well_formed. cbn [shape data tabulate].
    rewrite length_map, length_combine, length_map, length_seq, Wa.
    apply Nat.min_id.
  - intros e h w j He Hh Hw Hj.
    assert (Hin : Forall2 lt [e; h; w; j] [E; H; W; K]) by bounds.
    pose proof (ravel_bound _ _ Hin) as Hp.
    unfold at_index at 1. cbn [shape data].
    rewrite nth_combine_mul;
      [|cbn [tabulate data]; rewrite length_map, length_seq; exact Wa
       |rewrite Wa; exact Hp].
    f_equal.
    + unfold at_index. rewrite Sa. reflexivity.
    + match goal with
      | |- nth _ (data (tabulate ?sh ?f)) 0 = _ =>
          change (at_index (tabulate sh f) [e; h; w; j] = at_index m [e; 0; 0; 0]%nat)
      end.
      rewrite tabulate_at by exact Hin.
      unfold at_index. rewrite Sm. f_equal. f_equal.
      unfold clip_index. cbn [combine map fst snd Nat.eqb].
      destruct (E =? 1)%nat eqn:Ee; try apply Nat.eqb_eq in Ee;
        repeat f_equal; lia.
Qed.

(** [np.roll(a, -c, axis=3)] below the wrap. *)
Lemma roll3_spec (a : ndarray) (E H W K c : nat) :
  shape a = [E; H; W; K] ->
  exists r, roll3 a (- Z.of_nat c) = Ok r /\ shape r = [E; H; W; K] /\
    well_formed r /\
    forall e h w j, (e < E)%nat -> (h < H)%nat -> (w < W)%nat ->
      (j + c < K)%nat ->
      at_index r [e; h; w; j] = at_index a [e; h; w; (j + c)%nat].
Proof.
  intros Sa. unfold roll3. rewrite Sa. cbn [length Nat.leb].
  eexists. split; [reflexivity|]. split; [reflexivity|].
  split; [apply tabulate_well_formed|].
  intros e h w j He Hh Hw Hj.
  rewrite tabulate_at by bounds.
  unfold set_axis3, axis3. cbn [firstn skipn app nth].
  replace (Z.to_nat ((Z.of_nat j - - Z.of_nat c) mod Z.of_nat K))
    with (j + c)%nat; [reflexivity|].
  rewrite Z.mod_small by lia. lia.
Qed.

(** [a[:, :, :, -c:] = v]. *)
Lemma set_axis3_from_spec (a v : ndarray) (E H W K c : nat) :
  shape a = [E; H; W; K] -> shape v = [E; H; W; c] ->
  (1 <= c <= K)%nat ->
  exists r, set_axis3_from a (- Z.of_nat c) v = Ok r /\
    shape r = [E; H; W; K] /\ well_formed r /\
    forall e h w j, (e < E)%nat -> (h < H)%nat -> (w < W)%nat -> (j < K)%nat ->
      at_index r [e; h; w; j]
      = if (j <? K - c)%nat then at_index a [e; h; w; j]
        else at_index v [e; h; w; (j - (K - c))%nat].
Proof.
  intros Sa Sv Hc. unfold set_axis3_from. rewrite Sa.
  cbn [length Nat.leb]. unfold axis3 at 1 2. cbn [nth].
  assert (Hlo : norm_bound K (- Z.of_nat c) = (K - c)%nat).
  { unfold norm_bound.
    replace (- Z.of_nat c <? 0) with true by (symmetry; apply Z.ltb_lt; lia).
    lia. }
  rewrite Hlo. unfold set_axis3 at 1. cbn [firstn skipn app].
  replace (K - (K - c))%nat with c by lia.
  destruct (assign_value_spec v [E; H; W; c] Sv) as (v' & Ev & Sv' & _ & Av).
  rewrite Ev. cbn [rbind].
  eexists. split; [reflexivity|]. split; [reflexivity|].
  split; [apply tabulate_well_formed|].
  intros e h w j He Hh Hw Hj.
  rewrite tabulate_at by bounds.
  unfold set_axis3, axis3. cbn [firstn skipn app nth]. rewrite ?Hlo.
  destruct (Nat.ltb_spec j (K - c)) as [Hlt|Hge]; [reflexivity|].
  apply Av. bounds.
Qed.

(** The view [a[:, :, :, lo:hi]]. *)
Lemma view_value_spec (a : ndarray) (E H W K lo hi : nat) :
  shape a = [E; H; W; K] ->
  shape (view_value a lo hi) = [E; H; W; (hi - lo)%nat] /\
  well_formed (view_value a lo hi) /\
  forall e h w j, (e < E)%nat -> (h < H)%nat -> (w < W)%nat ->
    (j < hi - lo)%nat ->
    at_index (view_value a lo hi) [e; h; w; j]
    = at_index a [e; h; w; (j + lo)%nat].
Proof.
  intros Sa. unfold view_value. rewrite Sa.
  unfold set_axis3 at 1. cbn [firstn skipn app].
  split; [reflexivity|]. split; [apply tabulate_well_formed|].
  intros e h w j He Hh Hw Hj.
  rewrite tabulate_at by bounds. reflexivity.
Qed.

Lemma nth_flat_data (l : list ndarray) (L i p : nat) (dflt : ndarray) :
  Forall (fun a => length (data a) = L) l ->
  (i < length l)%nat -> (p < L)%nat ->
  nth (i * L + p) (flat_map data l) 0 = nth p (data (nth i l dflt)) 0.
Proof.
  intros Hall. revert i. induction Hall as [|a l Ha Hall IH]; intros i Hi Hp.
  - cbn [length] in Hi. lia.
  - cbn [flat_map]. destruct i as [|i].
    + cbn [Nat.mul Nat.add nth]. apply app_nth1. lia.
    + rewrite app_nth2 by (rewrite Ha; lia).
      cbn [nth]. rewrite <- (IH i) by (cbn [length] in Hi; lia || exact Hp).
      f_equal. rewrite Ha. lia.
Qed.

Lemma length_flat_data (l : list ndarray) (L : nat) :
  Forall (fun a => length (data a) = L) l ->
  length (flat_map data l) = (length l * L)%nat.
Proof.
  intros Hall. induction Hall as [|a l Ha Hall IH]; [reflexivity|].
  cbn [flat_map length]. rewrite length_app, IH, Ha. lia.
Qed.

(** [np.asarray(l)] on arrays of one shape. *)
Lemma asarray_spec (l : list ndarray) (sh : list nat) (dflt : ndarray) :
  l <> [] ->
  Forall (fun a => shape a = sh /\ well_formed a) l ->
  exists r, asarray l = Ok r /\ shape r = length l :: sh /\ well_formed r /\
    forall i idx, (i < length l)%nat -> Forall2 lt idx sh ->
      at_index r (i :: idx) = at_index (nth i l dflt) idx.
Proof.
  intros Hne Hall. destruct l as [|a l]; [congruence|].
  assert (Hs : forallb (same_shape a) (a :: l) = true).
  { apply forallb_forall. intros b Hb. rewrite Forall_forall in Hall.
    unfold same_shape.
    destruct (list_eq_dec Nat.eq_dec (shape a) (shape b)) as [|Hd];
      [reflexivity|exfalso].
    apply Hd. rewrite (proj1 (Hall a (or_introl eq_refl))).
    rewrite (proj1 (Hall b Hb)). reflexivity. }
  unfold asarray. rewrite Hs.
  assert (Sa : shape a = sh) by (inversion Hall as [|? ? [? ?]]; assumption).
  rewrite Sa.
  assert (Hdata : Forall (fun b => length (data b) = numel sh) (a :: l)).
  { eapply Forall_impl; [|exact Hall]. intros b [Sb Wb].
    unfold well_formed in Wb. rewrite Sb in Wb. exact Wb. }
  eexists. split; [reflexivity|]. split; [reflexivity|]. split.
  - unfold well_formed. cbn [shape data].
    rewrite (length_flat_data _ _ Hdata). reflexivity.
  - intros i idx Hi Hin.
    pose proof (ravel_bound _ _ Hin) as Hp.
    rewrite at_index_cons with (n := length (a :: l)) (rest := sh)
      by reflexivity.
    cbn [data].
    rewrite (nth_flat_data _ _ _ _ dflt Hdata Hi Hp).
    unfold at_index.
    assert (Si : shape (nth i (a :: l) dflt) = sh).
    { rewrite Forall_forall in Hall. apply Hall. apply nth_In. exact Hi. }
    rewrite Si. reflexivity.
Qed.

Lemma swapaxes10_flags (a : ndarray) (n0 n1 : nat) :
  shape a = [n0; n1] ->
  exists r, swapaxes10 a = Ok r /\ shape r = [n1; n0] /\ well_formed r /\
    forall t e, (t < n1)%nat -> (e < n0)%nat ->
      at_index r [t; e] = at_index a [e; t].
Proof.
  intros Ha. unfold swapaxes10, transpose. rewrite Ha.
  eexists. split; [reflexivity|]. split; [reflexivity|].
  split; [apply tabulate_well_formed|].
  intros t e Ht He.
  rewrite tabulate_at by (repeat constructor; assumption). reflexivity.
Qed.

Lemma swapaxes10_rows (a : ndarray) (n0 n1 n2 : nat) :
  shape a = [n0; n1; n2] ->
  exists r, swapaxes10 a = Ok r /\ shape r = [n1; n0; n2].
Proof.
  intros Ha. unfold swapaxes10, transpose. rewrite Ha.
  eexists. split; reflexivity.
Qed.

Lemma swapaxes10_frames (a : ndarray) (n0 n1 h w c : nat) :
  shape a = [n0; n1; h; w; c] ->
  exists r, swapaxes10 a = Ok r /\ shape r = [n1; n0; h; w; c] /\
    well_formed r /\
    forall t e p1 p2 p3,
      (t < n1)%nat -> (e < n0)%nat -> (p1 < h)%nat -> (p2 < w)%nat ->
      (p3 < c)%nat ->
      at_index r [t; e; p1; p2; p3] = at_index a [e; t; p1; p2; p3].
Proof.
  intros Ha. unfold swapaxes10, transpose. rewrite Ha.
  eexists. split; [reflexivity|]. split; [reflexivity|].
  split; [apply tabulate_well_formed|].
  intros t e p1 p2 p3 Ht He H1 H2 H3.
  rewrite tabulate_at by (repeat constructor; assumption). reflexivity.
Qed.

End RunnerArrays.

Section RunnerSteps.

Import Rollout.

Lemma length_flat_map_seq (L : nat) (f : nat -> list Z) (n : nat) :
  (forall x, (x < n)%nat -> length (f x) = L) ->
  length (flat_map f (seq 0 n)) = (n * L)%nat.
Proof.
  intros Hall. induction n as [|k IHk]; [reflexivity|].
  rewrite seq_S, flat_map_app, length_app. cbn [Nat.add flat_map].
  rewrite app_nil_r, IHk, (Hall k) by (intros; try apply Hall; lia). lia.
Qed.

(** [mb_dones[:, 1:]]. *)
Lemma slice1_from_one (a : ndarray) (E M : nat) :
  shape a = [E; M] -> well_formed a -> (1 <= M)%nat ->
  exists r, slice1_from a 1 = Ok r /\
    shape r = [E; (M - 1)%nat] /\ well_formed r /\
    forall e t, (e < E)%nat -> (t < M - 1)%nat ->
      at_index r [e; t] = at_index a [e; (t + 1)%nat].
Proof.
  intros Ha Hwf Hm. unfold slice1_from. rewrite Ha.
  assert (Hlo : norm_bound M 1 = 1%nat).
  { unfold norm_bound. cbn [Z.ltb Z.compare].
    change (Z.to_nat 1) with 1%nat. lia. }
  rewrite Hlo. cbn [numel fold_right].
  unfold well_formed in Hwf. rewrite Ha in Hwf.
  cbn [numel fold_right] in Hwf.
  assert (Hseg : forall x, (x < E)%nat ->
            length (segment ((x * M + 1) * 1) ((x * M + M) * 1) (data a))
            = (M - 1)%nat).
  { intros x Hx. rewrite segment_length; [lia|lia|].
    rewrite Hwf.
    assert (S x * M <= E * M)%nat by (apply Nat.mul_le_mono_r; lia). lia. }
  eexists. split; [reflexivity|]. split; [reflexivity|]. split.
  - unfold well_formed. cbn [shape data numel fold_right].
    rewrite (length_flat_map_seq (M - 1)) by exact Hseg. lia.
  - intros e t He Ht.
    unfold at_index. cbn [shape data ravel numel fold_right]. rewrite Ha.
    cbn [ravel numel fold_right].
    replace (e * ((M - 1) * 1) + (t * 1 + 0))%nat
      with (e * (M - 1) + t)%nat by lia.
    rewrite nth_flat_map_const with (L := (M - 1)%nat);
      [|exact Hseg|exact He|exact Ht].
    rewrite segment_nth.
    replace (t <? (e * M + M) * 1 - (e * M + 1) * 1)%nat with true
      by (symmetry; apply Nat.ltb_lt; lia).
    f_equal. lia.
Qed.

(** [np.split(self.obs, n_stack, axis=3)] on a stack of [n] frames. *)
Lemma split3_stack (l : loc) (a : ndarray) (E H W n C : nat) :
  shape a = [E; H; W; (n * C)%nat] -> (1 <= n)%nat ->
  split3 l a (Z.of_nat n)
  = Ok (map (fun i => mk_view l (i * C) (S i * C)) (seq 0 n)).
Proof.
  intros Sa Hn. unfold split3. rewrite Sa. cbn [length Nat.ltb Nat.leb].
  replace (Z.of_nat n =? 0) with false by (symmetry; apply Z.eqb_neq; lia).
  replace (Z.of_nat n <? 0) with false by (symmetry; apply Z.ltb_ge; lia).
  unfold axis3. cbn [nth orb].
  rewrite Nat2Z.inj_mul, Z.mul_comm, Z.mod_mul by lia.
  cbn [Z.eqb negb]. rewrite Nat2Z.id.
  rewrite Nat.mul_comm, Nat.div_mul by lia. reflexivity.
Qed.

Lemma nth_error_update_same {A} (h : list A) (l : nat) (x : A) :
  (l < length h)%nat -> nth_error (update h l x) l = Some x.
Proof.
  revert l. induction h as [|y h IH]; intros l Hl; [cbn in Hl; lia|].
  destruct l as [|l]; [reflexivity|]. cbn [update nth_error].
  apply IH. cbn [length] in Hl. lia.
Qed.

Lemma nth_error_update_other {A} (h : list A) (l l' : nat) (x : A) :
  l' <> l -> nth_error (update h l x) l' = nth_error h l'.
Proof.
  revert l l'. induction h as [|y h IH]; intros l l' Hne; [reflexivity|].
  destruct l as [|l], l' as [|l']; cbn [update nth_error];
    try reflexivity; try congruence.
  apply IH. congruence.
Qed.

Variables World States : Type.
Variable model_step :
  World -> ndarray -> States -> ndarray -> ndarray * ndarray * States * World.
Variable env_step :
  World -> ndarray -> ndarray * ndarray * ndarray * World.

Lemma rbind_ok {A B} (m : M World States A) (k : A -> M World States B)
  (s s' : state World States) (a : A) :
  m s = (Ok a, s') -> bind World States m k s = k a s'.
Proof. intros H. unfold bind. rewrite H. reflexivity. Qed.

(** [update_obs(obs, dones)] on a stack of shape [[E; H; W; K]], for
    frames of [c] channels. *)
Lemma update_obs_arrays (st : state World States) (a f d : ndarray)
  (E H W K c : nat) :
  nth_error (heap st) (obs (self st)) = Some a ->
  shape a = [E; H; W; K] -> well_formed a ->
  num_channels (self st) = Z.of_nat c -> (1 <= c <= K)%nat ->
  shape f = [E; H; W; c] ->
  shape d = [E] -> well_formed d ->
  exists a0 a1,
    update_obs World States f (Some d) st
    = (Ok tt,
       mk_state (with_obs States (self st) (length (heap st))) (world st)
                (update (heap st) (obs (self st)) a0 ++ [a1])) /\
    shape a0 = [E; H; W; K] /\ well_formed a0 /\
    (forall e h w j, (e < E)%nat -> (h < H)%nat -> (w < W)%nat ->
       (j < K)%nat ->
       at_index a0 [e; h; w; j]
       = at_index a [e; h; w; j] * (1 - at_index d [e])) /\
    shape a1 = [E; H; W; K] /\ well_formed a1 /\
    (forall e h w j, (e < E)%nat -> (h < H)%nat -> (w < W)%nat ->
       (j < K)%nat ->
       at_index a1 [e; h; w; j]
       = if (j <? K - c)%nat
         then at_index a [e; h; w; (j + c)%nat] * (1 - at_index d [e])
         else at_index f [e; h; w; (j - (K - c))%nat]).
Proof.
  intros Hl Sa Wa Hc Hck Sf Sd Wd.
  destruct st as [r w0 h]. cbn [self heap world] in *.
  assert (Hlt : (obs r < length h)%nat)
    by (apply nth_error_Some; congruence).
  destruct (expand3_flags d E Sd Wd) as (m & Em & Sm & Wm & Am).
  destruct (imul_spec a m E H W K Sa Wa Sm) as (a0 & E0 & S0 & W0 & A0).
  destruct (roll3_spec a0 E H W K c S0) as (rl & Er & Sr & Wr & Ar).
  destruct (set_axis3_from_spec rl f E H W K c Sr Sf Hck)
    as (a1 & E1 & S1 & W1 & A1).
  exists a0, a1. split; [|split; [exact S0|split; [exact W0|split;
    [|split; [exact S1|split; [exact W1|]]]]]].
  - unfold update_obs, bind, get_self, load, lift, store, alloc, set_self,
      full_slice4.
    cbn [self heap world obs num_channels with_obs].
    rewrite Hl, Em, E0. cbn [self heap world obs num_channels with_obs].
    rewrite nth_error_update_same by exact Hlt.
    rewrite Hc, Er. cbn [self heap world obs num_channels with_obs].
    rewrite update_length.
    rewrite nth_error_app2 by (rewrite update_length; lia).
    rewrite update_length, Nat.sub_diag. cbn [nth_error].
    rewrite Sf. cbn [length Nat.leb]. rewrite ?Hc, E1.
    cbn [self heap world obs num_channels with_obs].
    rewrite <- (update_length h (obs r) a0) at 2.
    rewrite update_last. reflexivity.
  - intros e hh w j He Hh Hw Hj. rewrite A0 by assumption.
    rewrite Am by exact He. reflexivity.
  - intros e hh w j He Hh Hw Hj. rewrite A1 by assumption.
    destruct (Nat.ltb_spec j (K - c)) as [Hlt'|Hge]; [|reflexivity].
    rewrite Ar by (try assumption; lia).
    rewrite A0 by (try assumption; lia).
    rewrite Am by exact He. reflexivity.
Qed.

End RunnerSteps.

Section RunnerLoop.

Import Rollout.

Variables World States : Type.
Variable model_step :
  World -> ndarray -> States -> ndarray -> ndarray * ndarray * States * World.
Variable env_step :
  World -> ndarray -> ndarray * ndarray * ndarray * World.
Variables E H W K C A : nat.

Hypothesis env_ok : env_returns env_step E H W C.
Hypothesis model_ok : model_returns model_step E A.
Hypothesis channels : (1 <= C <= K)%nat.

Lemma nth_last {X} (l : list X) (x d : X) : nth (length l) (l ++ [x]) d = x.
Proof. rewrite app_nth2 by lia. rewrite Nat.sub_diag. reflexivity. Qed.

Lemma nth_last_at {X} (l : list X) (x d : X) (k : nat) :
  length l = k -> nth k (l ++ [x]) d = x.
Proof. intros <-. apply nth_last. Qed.

Lemma nth_before {X} (l : list X) (x d : X) (s : nat) :
  (s < length l)%nat -> nth s (l ++ [x]) d = nth s l d.
Proof. intros Hs. apply app_nth1. exact Hs. Qed.

Lemma Forall_snoc {X} (P : X -> Prop) (l : list X) (x : X) :
  Forall P l -> P x -> Forall P (l ++ [x]).
Proof.
  intros Hl Hx. apply Forall_app. split; [exact Hl|].
  constructor; [exact Hx|constructor].
Qed.

Lemma Forall_last {X} (P : X -> Prop) (l : list X) (x : X) :
  Forall P (l ++ [x]) -> P x.
Proof.
  intros Hl. apply Forall_app in Hl. destruct Hl as [_ Hx].
  inversion Hx. assumption.
Qed.

(** One round of the loop of [run] keeps the invariant. *)
Lemma run_body_inv (views : list view) (l0 : loc) (S0 : ndarray)
  (r0 : Runner States) (k : nat) (acc : Lists) (st : state World States) :
  num_channels r0 = Z.of_nat C ->
  rollout_inv E H W K C A views l0 S0 r0 k acc st ->
  exists acc' st',
    run_body World States model_step env_step acc st = (Ok acc', st') /\
    rollout_inv E H W K C A views l0 S0 r0 (S k) acc' st'.
Proof.
  intros Hc (cur & fs & Hinv). cbv zeta in Hinv.
  destruct Hinv as (Hcur & Henc & Lfs & Lobs & Ldn & Lact & Lmus & Lrew
                    & Fst & Ffs & Ffl & Fact & Fmus & Frew
                    & Hns & Hnk & Hnc & H0s & H0f & Hsh & Hfl & Hl0
                    & Hk0 & Hk1).
  destruct st as [r w0 h]. cbn [self heap world] in *.
  pose proof (model_ok w0 cur (states r) (dones r)) as HM.
  destruct (model_step w0 cur (states r) (dones r))
    as [[[actions mus] ps] w1] eqn:Emod.
  destruct HM as [Sact Smus].
  pose proof (env_ok w1 actions) as HE.
  destruct (env_step w1 actions) as [[[f rew] dn] w2] eqn:Eenv.
  destruct HE as (Sf & Wf & Srew & Sdn & Wdn & Fdn).
  destruct (Forall_last _ _ _ Fst) as [Scur Wcur].
  set (r2 := with_dones States (with_states States r ps) dn).
  destruct (update_obs_arrays World States
              (mk_state r2 w2 h) cur f dn E H W K C
              Hcur Scur Wcur ltac:(cbn; congruence) channels Sf Sdn Wdn)
    as (a0 & a1 & Eup & Sa0 & Wa0 & Aa0 & Sa1 & Wa1 & Aa1).
  cbn [self heap world] in Eup.
  eexists. eexists. split.
  - unfold run_body.
    unfold bind at 1. cbn [get_self self].
    unfold bind at 1. unfold load at 1. cbn [heap]. rewrite Hcur.
    unfold bind at 1. unfold call_model at 1. cbn [self world heap].
    rewrite Emod.
    unfold bind at 1. cbn [get_self self].
    unfold bind at 1. unfold call_env at 1. cbn [self world heap].
    rewrite Eenv.
    unfold bind at 1. cbn [get_self self].
    unfold bind at 1. cbn [set_self self world heap].
    unfold bind at 1. cbn [get_self self].
    unfold bind at 1. cbn [set_self self world heap].
    unfold bind at 1. fold r2. rewrite Eup.
    unfold ret. reflexivity.
  - exists a1, (fs ++ [f]). cbv zeta.
    cbn [self heap world enc_obs mb_obs mb_dones mb_actions mb_mus
         mb_rewards].
    cbn [dones obs n_steps n_stack num_channels with_obs r2 with_dones
         with_states].
    assert (Lh : length (update h (obs r) a0) = length h)
      by apply update_length.
    assert (Lst : length (mb_obs acc ++ [cur]) = S k)
      by (rewrite length_app; cbn [length]; lia).
    assert (Lfl : length (mb_dones acc ++ [dones r]) = S k)
      by (rewrite length_app; cbn [length]; lia).
    split.
    { rewrite nth_error_app2 by lia. rewrite Lh, Nat.sub_diag.
      reflexivity. }
    split.
    { rewrite Henc, map_app, app_assoc. reflexivity. }
    split; [rewrite length_app; cbn [length]; lia|].
    split; [exact Lst|]. split; [exact Lfl|].
    split; [rewrite length_app; cbn [length]; lia|].
    split; [rewrite length_app; cbn [length]; lia|].
    split; [rewrite length_app; cbn [length]; lia|].
    split; [apply Forall_snoc; [exact Fst|split; assumption]|].
    split; [apply Forall_snoc; [exact Ffs|split; assumption]|].
    split; [apply Forall_snoc; [exact Ffl|split; assumption]|].
    split; [apply Forall_snoc; assumption|].
    split; [apply Forall_snoc; assumption|].
    split; [apply Forall_snoc; assumption|].
    split; [exact Hns|]. split; [exact Hnk|]. split; [exact Hnc|].
    split; [rewrite nth_before by lia; exact H0s|].
    split; [rewrite nth_before by lia; exact H0f|].
    split.
    { intros s Hs. destruct (Nat.eq_dec s k) as [->|Hne].
      - rewrite (nth_before (mb_obs acc ++ [cur])) by lia.
        rewrite (nth_last_at (mb_obs acc)) by exact Lobs.
        rewrite (nth_last_at fs) by exact Lfs.
        rewrite (nth_last_at (mb_dones acc ++ [dones r])) by exact Lfl.
        rewrite (nth_last_at (mb_obs acc ++ [cur])) by exact Lst.
        exact Aa1.
      - rewrite !(nth_before (mb_obs acc ++ [cur])) by lia.
        rewrite (nth_before fs) by lia.
        rewrite (nth_before (mb_dones acc ++ [dones r])) by lia.
        apply Hsh. lia. }
    split.
    { intros s e Hs He. destruct (Nat.eq_dec s (S k)) as [->|Hne].
      - rewrite (nth_last_at (mb_dones acc ++ [dones r])) by exact Lfl.
        apply Fdn. exact He.
      - rewrite (nth_before (mb_dones acc ++ [dones r])) by lia.
        apply Hfl; [lia|exact He]. }
    split; [rewrite length_app, Lh; cbn [length]; lia|].
    split; [intros Hk; discriminate|].
    intros _. split; [exact Hl0|].
    destruct (Nat.eq_dec k 0) as [Hz|Hnz].
    + specialize (Hk0 Hz).
      exists a0. rewrite nth_error_app1 by (rewrite Lh; exact Hl0).
      rewrite <- Hk0. rewrite nth_error_update_same by (rewrite Hk0; exact Hl0).
      split; [reflexivity|]. split; [exact Sa0|].
      intros e hh w j He Hh Hw Hj. rewrite Aa0 by assumption.
      rewrite (nth_last_at (mb_dones acc ++ [dones r]))
        by (rewrite Lfl, Hz; reflexivity).
      destruct (mb_obs acc) as [|x l]; [|cbn [length] in Lobs; lia].
      cbn [app nth] in H0s. rewrite H0s. reflexivity.
    + destruct (Hk1 ltac:(lia)) as (Hlt & z0 & Hz0 & Sz0 & Az0).
      exists z0. rewrite nth_error_app1 by (rewrite Lh; exact Hl0).
      rewrite nth_error_update_other by lia.
      split; [exact Hz0|]. split; [exact Sz0|].
      intros e hh w j He Hh Hw Hj.
      rewrite (nth_before (mb_dones acc ++ [dones r])) by lia.
      apply Az0; assumption.
Qed.

End RunnerLoop.

Section RunnerRun.

Import Rollout.

Variables World States : Type.
Variable model_step :
  World -> ndarray -> States -> ndarray -> ndarray * ndarray * States * World.
Variable env_step :
  World -> ndarray -> ndarray * ndarray * ndarray * World.
Variables E H W C A : nat.

Hypothesis env_ok : env_returns env_step E H W C.
Hypothesis model_ok : model_returns model_step E A.

Lemma repeat_m_inv (K : nat) (views : list view) (l0 : loc) (S0 : ndarray)
  (r0 : Runner States) (n k : nat) (acc : Lists) (st : state World States) :
  (1 <= C <= K)%nat ->
  num_channels r0 = Z.of_nat C ->
  rollout_inv E H W K C A views l0 S0 r0 k acc st ->
  exists acc' st',
    repeat_m World States n (run_body World States model_step env_step) acc st
    = (Ok acc', st') /\
    rollout_inv E H W K C A views l0 S0 r0 (k + n) acc' st'.
Proof.
  intros Hck Hc. revert k acc st.
  induction n as [|n IH]; intros k acc st Hinv.
  - exists acc, st. rewrite Nat.add_0_r. split; [reflexivity|exact Hinv].
  - destruct (run_body_inv World States model_step env_step E H W K C A
                env_ok model_ok Hck views l0 S0 r0 k acc st Hc Hinv)
      as (acc1 & st1 & E1 & Hinv1).
    destruct (IH (S k) acc1 st1 Hinv1) as (acc2 & st2 & E2 & Hinv2).
    exists acc2, st2. split.
    + cbn [repeat_m]. unfold bind. rewrite E1. exact E2.
    + replace (k + S n)%nat with (S k + n)%nat by lia. exact Hinv2.
Qed.

Lemma read_items_arrays (fs : list ndarray) (st : state World States) :
  read_items World States (map Item_array fs) st = (Ok fs, st).
Proof.
  induction fs as [|f fs IH]; [reflexivity|].
  cbn [map read_items]. unfold bind at 1. cbn [read_item ret].
  unfold bind at 1. rewrite IH. reflexivity.
Qed.

Lemma read_items_views (views : list view) (fs : list ndarray)
  (z : ndarray) (st : state World States) :
  Forall (fun v => nth_error (heap st) (base v) = Some z) views ->
  read_items World States (map Item_view views ++ map Item_array fs) st
  = (Ok (map (fun v => view_value z (lo v) (hi v)) views ++ fs), st).
Proof.
  intros Hall. induction Hall as [|v views Hv Hall IH].
  - apply read_items_arrays.
  - cbn [map app read_items]. unfold bind at 1. cbn [read_item].
    unfold bind at 1. unfold load. rewrite Hv. cbn [ret].
    unfold bind at 1. rewrite IH. reflexivity.
Qed.

Lemma asarray_shape (l : list ndarray) (sh : list nat) :
  l <> [] -> Forall (fun a => shape a = sh) l ->
  exists r, asarray l = Ok r /\ shape r = length l :: sh.
Proof.
  intros Hne Hall. destruct l as [|a l]; [congruence|].
  assert (Hs : forallb (same_shape a) (a :: l) = true).
  { apply forallb_forall. intros b Hb. rewrite Forall_forall in Hall.
    unfold same_shape.
    destruct (list_eq_dec Nat.eq_dec (shape a) (shape b)) as [|Hd];
      [reflexivity|exfalso].
    apply Hd. rewrite (Hall a (or_introl eq_refl)).
    rewrite (Hall b Hb). reflexivity. }
  unfold asarray. rewrite Hs.
  assert (Sa : shape a = sh) by (inversion Hall; assumption).
  rewrite Sa. eexists. split; reflexivity.
Qed.

Lemma batch_major_flags (l : list ndarray) (n : nat) :
  l <> [] -> length l = n -> Forall (fun a => shape a = [E]) l ->
  exists r, batch_major l = Ok r /\ shape r = [E; n].
Proof.
  intros Hne Hlen Hall.
  destruct (asarray_shape l [E] Hne Hall) as (r1 & E1 & S1).
  rewrite Hlen in S1.
  destruct (swapaxes10_flags r1 n E S1) as (r & Er & Sr & _).
  exists r. unfold batch_major. rewrite E1. cbn [rbind].
  split; [exact Er|exact Sr].
Qed.

End RunnerRun.

Section RunnerBatches.

Import Rollout.

Lemma batch_major_frames (l : list ndarray) (m E H W c : nat) :
  l <> [] -> length l = m ->
  Forall (fun a => shape a = [E; H; W; c] /\ well_formed a) l ->
  exists r, batch_major l = Ok r /\ shape r = [E; m; H; W; c] /\
    forall e j h w x,
      (e < E)%nat -> (j < m)%nat -> (h < H)%nat -> (w < W)%nat ->
      (x < c)%nat ->
      at_index r [e; j; h; w; x] = at_index (nth j l (scalar 0)) [e; h; w; x].
Proof.
  intros Hne Hlen Hall.
  destruct (asarray_spec l [E; H; W; c] (scalar 0) Hne Hall)
    as (r1 & E1 & S1 & _ & A1).
  rewrite Hlen in S1.
  destruct (swapaxes10_frames r1 m E H W c S1) as (r & Er & Sr & _ & Ar).
  exists r. unfold batch_major. rewrite E1. cbn [rbind].
  split; [exact Er|]. split; [exact Sr|].
  intros e j h w x He Hj Hh Hw Hx.
  rewrite Ar by assumption. apply A1; [lia|bounds].
Qed.

Lemma batch_major_flags_data (l : list ndarray) (m E : nat) :
  l <> [] -> length l = m ->
  Forall (fun a => shape a = [E] /\ well_formed a) l ->
  exists r, batch_major l = Ok r /\ shape r = [E; m] /\ well_formed r /\
    forall e j, (e < E)%nat -> (j < m)%nat ->
      at_index r [e; j] = at_index (nth j l (scalar 0)) [e].
Proof.
  intros Hne Hlen Hall.
  destruct (asarray_spec l [E] (scalar 0) Hne Hall)
    as (r1 & E1 & S1 & _ & A1).
  rewrite Hlen in S1.
  destruct (swapaxes10_flags r1 m E S1) as (r & Er & Sr & Wr & Ar).
  exists r. unfold batch_major. rewrite E1. cbn [rbind].
  split; [exact Er|]. split; [exact Sr|]. split; [exact Wr|].
  intros e j He Hj.
  rewrite Ar by assumption. apply A1; [lia|bounds].
Qed.

Lemma batch_major_rows (l : list ndarray) (m E A : nat) :
  l <> [] -> length l = m -> Forall (fun a => shape a = [E; A]) l ->
  exists r, batch_major l = Ok r /\ shape r = [E; m; A].
Proof.
  intros Hne Hlen Hall.
  destruct (asarray_shape l [E; A] Hne Hall) as (r1 & E1 & S1).
  rewrite Hlen in S1.
  destruct (swapaxes10_rows r1 m E A S1) as (r & Er & Sr).
  exists r. unfold batch_major. rewrite E1. cbn [rbind].
  split; [exact Er|exact Sr].
Qed.

Lemma nonempty_length {X} (l : list X) (n : nat) :
  length l = n -> (1 <= n)%nat -> l <> [].
Proof. intros Hl Hn ->. cbn in Hl. lia. Qed.

End RunnerBatches.

Section RunnerFacts.

Import Rollout.

Variables World States : Type.
Variable model_step :
  World -> ndarray -> States -> ndarray -> ndarray * ndarray * States * World.
Variable env_step :
  World -> ndarray -> ndarray * ndarray * ndarray * World.
Variables E H W C A : nat.

Hypothesis env_ok : env_returns env_step E H W C.
Hypothesis model_ok : model_returns model_step E A.

(** What [run] returns for [n] stacked frames and [N] steps. *)
Lemma run_facts (st : state World States) (S0 : ndarray) (n N : nat) :
  (1 <= n)%nat -> (1 <= N)%nat -> (1 <= C)%nat ->
  n_steps (self st) = Z.of_nat N ->
  n_stack (self st) = Z.of_nat n ->
  num_channels (self st) = Z.of_nat C ->
  nth_error (heap st) (obs (self st)) = Some S0 ->
  shape S0 = [E; H; W; (n * C)%nat] -> well_formed S0 ->
  shape (dones (self st)) = [E] -> well_formed (dones (self st)) ->
  exists enc mbo mba mbr mbm mbd mbk st',
    run World States model_step env_step st
    = (Ok (enc, mbo, mba, mbr, mbm, mbd, mbk), st') /\
    shape enc = [E; (n + N)%nat; H; W; C] /\
    shape mbo = [E; (N + 1)%nat; H; W; (n * C)%nat] /\
    shape mba = [E; N] /\ shape mbr = [E; N] /\ shape mbm = [E; N; A] /\
    shape mbd = [E; N] /\ well_formed mbd /\
    shape mbk = [E; (N + 1)%nat] /\
    (forall e h w j,
       (e < E)%nat -> (h < H)%nat -> (w < W)%nat -> (j < n * C)%nat ->
       at_index mbo [e; 0; h; w; j]%nat = at_index S0 [e; h; w; j]) /\
    (forall e, (e < E)%nat ->
       at_index mbk [e; 0]%nat = at_index (dones (self st)) [e]) /\
    (forall e t, (e < E)%nat -> (t < N)%nat ->
       at_index mbd [e; t] = at_index mbk [e; (t + 1)%nat] /\
       (at_index mbd [e; t] = 0 \/ at_index mbd [e; t] = 1)) /\
    (forall e s h w j,
       (e < E)%nat -> (s < N)%nat -> (h < H)%nat -> (w < W)%nat ->
       (j < n * C)%nat ->
       at_index mbo [e; (s + 1)%nat; h; w; j]
       = if (j <? n * C - C)%nat
         then at_index mbo [e; s; h; w; (j + C)%nat]
              * (1 - at_index mbd [e; s])
         else at_index enc [e; (n + s)%nat; h; w; (j - (n * C - C))%nat]) /\
    (forall e l h w c,
       (e < E)%nat -> (l < n)%nat -> (h < H)%nat -> (w < W)%nat ->
       (c < C)%nat ->
       at_index enc [e; l; h; w; c]
       = at_index S0 [e; h; w; (l * C + c)%nat]
         * (1 - at_index mbd [e; 0%nat])).
Proof.
  intros Hn HN HC Hns Hnk Hnc Hl0 SS0 WS0 Sd0 Wd0.
  destruct st as [r w0 h]. cbn [self heap world] in *.
  set (K := (n * C)%nat) in *.
  assert (Hck : (1 <= C <= K)%nat).
  { unfold K. split; [exact HC|].
    replace C with (1 * C)%nat at 1 by lia. apply Nat.mul_le_mono_r. lia. }
  set (views := map (fun i => mk_view (obs r) (i * C) (S i * C)) (seq 0 n)).
  assert (Hinit : rollout_inv E H W K C A views (obs r) S0 r 0
                    (mk_Lists (map Item_view views) [] [] [] [] [])
                    (mk_state r w0 h)).
  { exists S0, []. cbv zeta.
    cbn [self heap world enc_obs mb_obs mb_dones mb_actions mb_mus
         mb_rewards app length map nth].
    rewrite app_nil_r.
    repeat (split; [first [reflexivity | exact Hl0
                          | constructor; [split; assumption|constructor]
                          | constructor]|]).
    split; [intros s Hs; lia|].
    split; [intros s e Hs; lia|].
    split; [apply nth_error_Some; congruence|].
    split; [reflexivity|intros Hk; lia]. }
  destruct (repeat_m_inv World States model_step env_step E H W C A
              env_ok model_ok K views (obs r) S0 r N 0 _ _ Hck Hnc Hinit)
    as (acc & st1 & Eloop & Hinv).
  cbn [Nat.add] in Hinv.
  destruct Hinv as (cur & fs & Hinv). cbv zeta in Hinv.
  destruct Hinv as (Hcur & Henc & Lfs & Lobs & Ldn & Lact & Lmus & Lrew
                    & Fst & Ffs & Ffl & Fact & Fmus & Frew
                    & _ & _ & _ & H0s & H0f & Hsh & Hfl & Hlh
                    & _ & Hk1).
  destruct (Hk1 HN) as (Hlt & z0 & Hz0 & Sz0 & Az0). clear Hk1.
  destruct st1 as [r1 w1 h1]. cbn [self heap world] in *.
  set (stacks := mb_obs acc ++ [cur]) in *.
  set (flags := mb_dones acc ++ [dones r1]) in *.
  assert (Lst : length stacks = (N + 1)%nat)
    by (unfold stacks; rewrite length_app; cbn [length]; lia).
  assert (Lfl : length flags = (N + 1)%nat)
    by (unfold flags; rewrite length_app; cbn [length]; lia).
  set (frames := map (fun v => view_value z0 (lo v) (hi v)) views ++ fs).
  assert (Lviews : length views = n)
    by (unfold views; rewrite length_map, length_seq; reflexivity).
  assert (Lfr : length frames = (n + N)%nat).
  { unfold frames. rewrite length_app, length_map. lia. }
  assert (Hview : forall i, (i < n)%nat ->
            nth i frames (scalar 0) = view_value z0 (i * C) (S i * C)).
  { intros i Hi. unfold frames.
    rewrite app_nth1 by (rewrite length_map; lia).
    rewrite nth_map_gen with (da := mk_view 0%nat 0%nat 0%nat) by lia.
    unfold views.
    rewrite nth_map_gen with (da := 0%nat) by (rewrite length_seq; lia).
    rewrite seq_nth by lia. reflexivity. }
  assert (Hframe : forall t, (t < N)%nat ->
            nth (n + t) frames (scalar 0) = nth t fs (scalar 0)).
  { intros t Ht. unfold frames.
    rewrite app_nth2 by (rewrite length_map; lia).
    rewrite length_map, Lviews. f_equal. lia. }
  assert (Ffr : Forall (fun a => shape a = [E; H; W; C] /\ well_formed a)
                       frames).
  { unfold frames. apply Forall_app. split; [|exact Ffs].
    apply Forall_forall. intros a Ha. apply in_map_iff in Ha.
    destruct Ha as (v & <- & Hv). unfold views in Hv.
    apply in_map_iff in Hv. destruct Hv as (i & <- & Hi).
    cbn [lo hi].
    destruct (view_value_spec z0 E H W K (i * C) (S i * C) Sz0)
      as (Sv & Wv & _).
    split; [|exact Wv]. rewrite Sv. repeat f_equal.
    cbn [Nat.mul]. lia. }
  destruct (batch_major_frames frames (n + N) E H W C
              (nonempty_length _ _ Lfr ltac:(lia)) Lfr Ffr)
    as (enc & Eenc & Senc & Aenc).
  destruct (batch_major_frames stacks (N + 1) E H W K
              (nonempty_length _ _ Lst ltac:(lia)) Lst Fst)
    as (mbo & Embo & Smbo & Ambo).
  destruct (batch_major_flags E (mb_actions acc) N
              (nonempty_length _ _ Lact HN) Lact Fact)
    as (mba & Emba & Smba).
  destruct (batch_major_flags E (mb_rewards acc) N
              (nonempty_length _ _ Lrew HN) Lrew Frew)
    as (mbr & Embr & Smbr).
  destruct (batch_major_rows (mb_mus acc) N E A
              (nonempty_length _ _ Lmus HN) Lmus Fmus)
    as (mbm & Embm & Smbm).
  destruct (batch_major_flags_data flags (N + 1) E
              (nonempty_length _ _ Lfl ltac:(lia)) Lfl Ffl)
    as (mbk & Embk & Smbk & Wmbk & Ambk).
  destruct (slice1_from_one mbk E (N + 1) Smbk Wmbk ltac:(lia))
    as (mbd & Embd & Smbd & Wmbd & Ambd).
  replace (N + 1 - 1)%nat with N in Smbd, Ambd by lia.
  assert (Hmbd : forall e t, (e < E)%nat -> (t < N)%nat ->
            at_index mbd [e; t] = at_index (nth (S t) flags (scalar 0)) [e]).
  { intros e t He Ht. rewrite Ambd by assumption.
    rewrite Ambk by (try assumption; lia). f_equal. f_equal. lia. }
  exists enc, mbo, mba, mbr, mbm, mbd, mbk.
  eexists. split.
  - unfold run.
    unfold bind at 1. cbn [get_self self].
    unfold bind at 1. unfold load at 1. cbn [heap]. rewrite Hl0.
    unfold bind at 1. unfold lift at 1. rewrite Hnk.
    rewrite (split3_stack (obs r) S0 E H W n C SS0 Hn). fold views.
    unfold bind at 1. rewrite Hns, Nat2Z.id, Eloop.
    unfold bind at 1. cbn [get_self self].
    unfold bind at 1. unfold load at 1. cbn [heap]. rewrite Hcur.
    unfold bind at 1. rewrite Henc.
    rewrite (read_items_views World States views fs z0).
    2:{ apply Forall_forall. intros v Hv. unfold views in Hv.
        apply in_map_iff in Hv. destruct Hv as (i & <- & _).
        cbn [base heap]. exact Hz0. }
    fold frames. fold stacks. fold flags.
    unfold bind, lift. rewrite Eenc, Embo, Emba, Embr, Embm, Embk, Embd.
    unfold ret. reflexivity.
  - split; [exact Senc|]. split; [exact Smbo|]. split; [exact Smba|].
    split; [exact Smbr|]. split; [exact Smbm|]. split; [exact Smbd|].
    split; [exact Wmbd|]. split; [exact Smbk|].
    split.
    { intros e hh w j He Hh Hw Hj.
      rewrite Ambo by (try assumption; lia). rewrite H0s. reflexivity. }
    split.
    { intros e He. rewrite Ambk by (try assumption; lia).
      rewrite H0f. reflexivity. }
    split.
    { intros e t He Ht. split; [apply Ambd; assumption|].
      rewrite Hmbd by assumption. apply Hfl; [lia|exact He]. }
    split.
    { intros e s hh w j He Hs Hh Hw Hj.
      rewrite (Ambo e (s + 1)%nat hh w j) by (try assumption; lia).
      replace (s + 1)%nat with (S s) by lia.
      rewrite (Hsh s Hs e hh w j He Hh Hw Hj).
      destruct (Nat.ltb_spec j (K - C)) as [Hlt'|Hge].
      - rewrite Ambo by (try assumption; lia).
        rewrite Hmbd by assumption. reflexivity.
      - rewrite Aenc by (try assumption; lia).
        rewrite Hframe by exact Hs. reflexivity. }
    { intros e l hh w c He Hl Hh Hw Hc.
      rewrite Aenc by (try assumption; lia).
      rewrite Hview by exact Hl.
      destruct (view_value_spec z0 E H W K (l * C) (S l * C) Sz0)
        as (_ & _ & Av).
      rewrite Av by (try assumption; cbn [Nat.mul]; lia).
      assert (Hb : (S l * C <= n * C)%nat)
        by (apply Nat.mul_le_mono_r; lia).
      rewrite Az0 by (try assumption; unfold K; cbn [Nat.mul] in Hb; lia).
      rewrite Hmbd by (try assumption; lia).
      replace (c + l * C)%nat with (l * C + c)%nat by lia. reflexivity. }
Qed.

End RunnerFacts.

Section DecodeOfRun.

Lemma keep_product_snoc (d : ndarray) (e c u : nat) :
  keep_product d e u (S c)
  = keep_product d e u c * keep_mask d e (u + c).
Proof.
  revert u. induction c as [|c IH]; intros u.
  - cbn [keep_product]. rewrite Nat.add_0_r. ring.
  - change (keep_product d e u (S (S c)))
      with (keep_mask d e u * keep_product d e (S u) (S c)).
    rewrite IH. cbn [keep_product].
    replace (S u + c)%nat with (u + S c)%nat by lia. ring.
Qed.

Lemma keep_product_lookback (d : ndarray) (e c u : nat) :
  (u + c <= 3)%nat -> keep_product d e u c = 1.
Proof.
  revert u. induction c as [|c IH]; intros u Hu; [reflexivity|].
  cbn [keep_product]. rewrite IH by lia. unfold keep_mask.
  replace (u <? 3)%nat with true by (symmetry; apply Nat.ltb_lt; lia).
  reflexivity.
Qed.

Lemma keep_mask_window (d : ndarray) (e s : nat) :
  keep_mask d e (s + 3) = 1 - at_index d [e; s].
Proof.
  unfold keep_mask.
  replace (s + 3 <? 3)%nat with false by (symmetry; apply Nat.ltb_ge; lia).
  replace (s + 3 - 3)%nat with s by lia. reflexivity.
Qed.

(** The stacks [decode] rebuilds from the frames and the flags of a
    rollout, against the stacks of the rollout: arrays related as the
    results of [run] are, for four stacked frames. *)
Lemma decode_run_agree (enc mbo mbd S0 : ndarray) (E H W C N : nat)
  (e h w : nat) :
  (e < E)%nat -> (h < H)%nat -> (w < W)%nat ->
  (forall j, (j < 4 * C)%nat ->
     at_index mbo [e; 0; h; w; j]%nat = at_index S0 [e; h; w; j]) ->
  (forall t, (t < N)%nat ->
     at_index mbd [e; t] = 0 \/ at_index mbd [e; t] = 1) ->
  (forall s j, (s < N)%nat -> (j < 4 * C)%nat ->
     at_index mbo [e; (s + 1)%nat; h; w; j]
     = if (j <? 4 * C - C)%nat
       then at_index mbo [e; s; h; w; (j + C)%nat] * (1 - at_index mbd [e; s])
       else at_index enc [e; (4 + s)%nat; h; w; (j - (4 * C - C))%nat]) ->
  (forall l c, (l < 4)%nat -> (c < C)%nat ->
     at_index enc [e; l; h; w; c]
     = at_index S0 [e; h; w; (l * C + c)%nat]
       * (1 - at_index mbd [e; 0%nat])) ->
  forall s l c, (s < N)%nat -> (l < 4)%nat -> (c < C)%nat ->
    at_index enc [e; (S s + l)%nat; h; w; c]
    * keep_product mbd e (S s + l) (3 - l)
    = at_index mbo [e; S s; h; w; (l * C + c)%nat].
Proof.
  intros He Hh Hw Hfirst Hflag Hshift0 Hlook.
  assert (Hshift : forall s j, (s < N)%nat -> (j < 4 * C)%nat ->
            at_index mbo [e; S s; h; w; j]
            = if (j <? 4 * C - C)%nat
              then at_index mbo [e; s; h; w; (j + C)%nat]
                   * (1 - at_index mbd [e; s])
              else at_index enc [e; (4 + s)%nat; h; w;
                                 (j - (4 * C - C))%nat]).
  { intros s j Hs Hj. rewrite <- (Hshift0 s j Hs Hj).
    replace (s + 1)%nat with (S s) by lia. reflexivity. }
  induction s as [|s IH]; intros l c Hs Hl Hc.
  - assert (Hd : (1 - at_index mbd [e; 0%nat])
                 * (1 - at_index mbd [e; 0%nat])
                 = 1 - at_index mbd [e; 0%nat]).
    { destruct (Hflag 0%nat Hs) as [-> | ->]; reflexivity. }
    destruct l as [|[|[|[|l]]]]; [| | | |lia]; cbn [Nat.sub Nat.add];
      rewrite Hshift by (try exact Hs; cbn [Nat.mul]; lia).
    + replace (0 * C + c <? 4 * C - C)%nat with true
        by (symmetry; apply Nat.ltb_lt; cbn [Nat.mul]; lia).
      rewrite Hfirst by (cbn [Nat.mul]; lia).
      rewrite (Hlook 1%nat c) by lia.
      rewrite (keep_product_snoc mbd e 2 1).
      rewrite keep_product_lookback by lia.
      change (1 + 2)%nat with (0 + 3)%nat. rewrite keep_mask_window.
      replace (0 * C + c + C)%nat with (1 * C + c)%nat by lia.
      match goal with
      | |- ?x * ?m * (1 * ?m) = ?x * ?m =>
          transitivity (x * (m * m)); [ring|rewrite Hd; reflexivity]
      end.
    + replace (1 * C + c <? 4 * C - C)%nat with true
        by (symmetry; apply Nat.ltb_lt; cbn [Nat.mul]; lia).
      rewrite Hfirst by (cbn [Nat.mul]; lia).
      rewrite (Hlook 2%nat c) by lia.
      rewrite (keep_product_snoc mbd e 1 2).
      rewrite keep_product_lookback by lia.
      change (2 + 1)%nat with (0 + 3)%nat. rewrite keep_mask_window.
      replace (1 * C + c + C)%nat with (2 * C + c)%nat by lia.
      match goal with
      | |- ?x * ?m * (1 * ?m) = ?x * ?m =>
          transitivity (x * (m * m)); [ring|rewrite Hd; reflexivity]
      end.
    + replace (2 * C + c <? 4 * C - C)%nat with true
        by (symmetry; apply Nat.ltb_lt; cbn [Nat.mul]; lia).
      rewrite Hfirst by (cbn [Nat.mul]; lia).
      rewrite (Hlook 3%nat c) by lia.
      rewrite (keep_product_snoc mbd e 0 3).
      rewrite keep_product_lookback by lia.
      change (3 + 0)%nat with (0 + 3)%nat. rewrite keep_mask_window.
      replace (2 * C + c + C)%nat with (3 * C + c)%nat by lia.
      match goal with
      | |- ?x * ?m * (1 * ?m) = ?x * ?m =>
          transitivity (x * (m * m)); [ring|rewrite Hd; reflexivity]
      end.
    + replace (3 * C + c <? 4 * C - C)%nat with false
        by (symmetry; apply Nat.ltb_ge; cbn [Nat.mul]; lia).
      cbn [keep_product].
      replace (3 * C + c - (4 * C - C))%nat with c by lia.
      change (4 + 0)%nat with 4%nat. ring.
  - assert (Hs' : (s < N)%nat) by lia.
    destruct l as [|[|[|[|l]]]]; [| | | |lia]; cbn [Nat.sub];
      rewrite Hshift by (try lia; cbn [Nat.mul]; lia).
    + replace (0 * C + c <? 4 * C - C)%nat with true
        by (symmetry; apply Nat.ltb_lt; cbn [Nat.mul]; lia).
      replace (0 * C + c + C)%nat with (1 * C + c)%nat by lia.
      rewrite <- (IH 1%nat c Hs') by lia. cbn [Nat.sub].
      replace (S (S s) + 0)%nat with (S s + 1)%nat by lia.
      rewrite (keep_product_snoc mbd e 2 (S s + 1)).
      replace (S s + 1 + 2)%nat with (S s + 3)%nat by lia.
      rewrite keep_mask_window. ring.
    + replace (1 * C + c <? 4 * C - C)%nat with true
        by (symmetry; apply Nat.ltb_lt; cbn [Nat.mul]; lia).
      replace (1 * C + c + C)%nat with (2 * C + c)%nat by lia.
      rewrite <- (IH 2%nat c Hs') by lia. cbn [Nat.sub].
      replace (S (S s) + 1)%nat with (S s + 2)%nat by lia.
      rewrite (keep_product_snoc mbd e 1 (S s + 2)).
      replace (S s + 2 + 1)%nat with (S s + 3)%nat by lia.
      rewrite keep_mask_window. ring.
    + replace (2 * C + c <? 4 * C - C)%nat with true
        by (symmetry; apply Nat.ltb_lt; cbn [Nat.mul]; lia).
      replace (2 * C + c + C)%nat with (3 * C + c)%nat by lia.
      rewrite <- (IH 3%nat c Hs') by lia. cbn [Nat.sub].
      replace (S (S s) + 2)%nat with (S s + 3)%nat by lia.
      rewrite (keep_product_snoc mbd e 0 (S s + 3)).
      replace (S s + 3 + 0)%nat with (S s + 3)%nat by lia.
      rewrite keep_mask_window. ring.
    + replace (3 * C + c <? 4 * C - C)%nat with false
        by (symmetry; apply Nat.ltb_ge; cbn [Nat.mul]; lia).
      cbn [keep_product].
      replace (3 * C + c - (4 * C - C))%nat with c by lia.
      replace (S (S s) + 3)%nat with (4 + S s)%nat by lia. ring.
Qed.

End DecodeOfRun.

Section RunnerProperties.

Import Rollout.

Variables World States : Type.
Variable model_step :
  World -> ndarray -> States -> ndarray -> ndarray * ndarray * States * World.
Variable env_step :
  World -> ndarray -> ndarray * ndarray * ndarray * World.

(** X15: [update_obs] with termination flags, for a stack of [K] channels
    and a frame of [c] channels.  The array that held the stack is blanked
    in place for the environments whose episode ended; the stack becomes a
    new array, in which the blanked channels have moved down by [c] and the
    frame takes the last [c] channels; no other array of the store
    changes. *)
Theorem update_obs_shifts_stack (st : state World States) (a f d : ndarray)
  (E H W K c : nat) :
  nth_error (heap st) (obs (self st)) = Some a ->
  shape a = [E; H; W; K] -> well_formed a ->
  num_channels (self st) = Z.of_nat c -> (1 <= c <= K)%nat ->
  shape f = [E; H; W; c] ->
  shape d = [E] -> well_formed d ->
  (forall e, (e < E)%nat -> at_index d [e] = 0 \/ at_index d [e] = 1) ->
  exists a0 a1,
    update_obs World States f (Some d) st
    = (Ok tt,
       mk_state (with_obs States (self st) (length (heap st))) (world st)
                (update (heap st) (obs (self st)) a0 ++ [a1])) /\
    shape a0 = [E; H; W; K] /\ shape a1 = [E; H; W; K] /\
    forall e h w j, (e < E)%nat -> (h < H)%nat -> (w < W)%nat ->
      (j < K)%nat ->
      at_index a0 [e; h; w; j]
      = (if at_index d [e] =? 1 then 0 else at_index a [e; h; w; j]) /\
      at_index a1 [e; h; w; j]
      = if (j <? K - c)%nat
        then at_index a0 [e; h; w; (j + c)%nat]
        else at_index f [e; h; w; (j - (K - c))%nat].
Proof.
  intros Hl Sa Wa Hc Hck Sf Sd Wd Hd.
  destruct (update_obs_arrays World States st a f d E H W K c
              Hl Sa Wa Hc Hck Sf Sd Wd)
    as (a0 & a1 & Eu & S0 & W0 & A0 & S1 & W1 & A1).
  exists a0, a1.
  split; [exact Eu|split; [exact S0|split; [exact S1|]]].
  intros e h w j He Hh Hw Hj. split.
  - rewrite A0 by assumption.
    destruct (Hd e He) as [-> | ->]; cbn [Z.eqb Pos.eqb]; ring.
  - rewrite A1 by assumption.
    destruct (j <? K - c)%nat eqn:Ej; [|reflexivity].
    apply Nat.ltb_lt in Ej. rewrite A0 by (try assumption; lia).
    reflexivity.
Qed.

(** X16: [run] for [n] stacked frames of [C] channels and [N] steps, on
    environments and a model that return arrays of the expected shapes.
    It returns batch-major arrays of [n + N] frames, [N + 1] stacks, [N]
    actions, rewards, probabilities and flags and [N + 1] masks; the first
    stack is the stack at the call and the first mask the flags at the
    call; the flags are the masks one step later; and each stack is the
    one before, moved down by one frame and blanked where the episode
    ended at that step, followed by the frame of that step. *)
Theorem run_returns_rollout (st : state World States) (S0 : ndarray)
  (E H W C A n N : nat) :
  env_returns env_step E H W C -> model_returns model_step E A ->
  (1 <= n)%nat -> (1 <= N)%nat -> (1 <= C)%nat ->
  n_steps (self st) = Z.of_nat N ->
  n_stack (self st) = Z.of_nat n ->
  num_channels (self st) = Z.of_nat C ->
  nth_error (heap st) (obs (self st)) = Some S0 ->
  shape S0 = [E; H; W; (n * C)%nat] -> well_formed S0 ->
  shape (dones (self st)) = [E] -> well_formed (dones (self st)) ->
  exists enc mbo mba mbr mbm mbd mbk st',
    run World States model_step env_step st
    = (Ok (enc, mbo, mba, mbr, mbm, mbd, mbk), st') /\
    shape enc = [E; (n + N)%nat; H; W; C] /\
    shape mbo = [E; (N + 1)%nat; H; W; (n * C)%nat] /\
    shape mba = [E; N] /\ shape mbr = [E; N] /\ shape mbm = [E; N; A] /\
    shape mbd = [E; N] /\ shape mbk = [E; (N + 1)%nat] /\
    (forall e h w j,
       (e < E)%nat -> (h < H)%nat -> (w < W)%nat -> (j < n * C)%nat ->
       at_index mbo [e; 0; h; w; j]%nat = at_index S0 [e; h; w; j]) /\
    (forall e, (e < E)%nat ->
       at_index mbk [e; 0]%nat = at_index (dones (self st)) [e]) /\
    (forall e t, (e < E)%nat -> (t < N)%nat ->
       at_index mbd [e; t] = at_index mbk [e; (t + 1)%nat] /\
       (at_index mbd [e; t] = 0 \/ at_index mbd [e; t] = 1)) /\
    (forall e s h w j,
       (e < E)%nat -> (s < N)%nat -> (h < H)%nat -> (w < W)%nat ->
       (j < n * C)%nat ->
       at_index mbo [e; (s + 1)%nat; h; w; j]
       = if (j <? n * C - C)%nat
         then (if at_index mbd [e; s] =? 1 then 0
               else at_index mbo [e; s; h; w; (j + C)%nat])
         else at_index enc [e; (n + s)%nat; h; w; (j - (n * C - C))%nat]).
Proof.
  intros Henv Hmodel Hn HN HC Hns Hnk Hnc Hl0 SS0 WS0 Sd0 Wd0.
  destruct (run_facts World States model_step env_step E H W C A
              Henv Hmodel st S0 n N Hn HN HC Hns Hnk Hnc Hl0 SS0 WS0
              Sd0 Wd0)
    as (enc & mbo & mba & mbr & mbm & mbd & mbk & st' & Hrun & Senc & Smbo
        & Smba & Smbr & Smbm & Smbd & Wmbd & Smbk & Hfirst & Hk0 & Hflags
        & Hshift & Hlook).
  exists enc, mbo, mba, mbr, mbm, mbd, mbk, st'.
  repeat (split; [assumption|]).
  intros e s h w j He Hs Hh Hw Hj.
  rewrite Hshift by assumption.
  destruct (j <? n * C - C)%nat; [|reflexivity].
  destruct (Hflags e s He Hs) as [_ [-> | ->]]; cbn [Z.eqb Pos.eqb]; ring.
Qed.

(** X17: the first [n] frames that [run] returns in [enc_obs] are views
    on the array that holds the stack at the call, and the first
    [update_obs] blanks that array in place: they are the [n] frames of
    the stack at the call, blanked for the environments whose episode
    ended at the first step. *)
Theorem run_lookback_frames_are_blanked (st : state World States)
  (S0 : ndarray) (E H W C A n N : nat) :
  env_returns env_step E H W C -> model_returns model_step E A ->
  (1 <= n)%nat -> (1 <= N)%nat -> (1 <= C)%nat ->
  n_steps (self st) = Z.of_nat N ->
  n_stack (self st) = Z.of_nat n ->
  num_channels (self st) = Z.of_nat C ->
  nth_error (heap st) (obs (self st)) = Some S0 ->
  shape S0 = [E; H; W; (n * C)%nat] -> well_formed S0 ->
  shape (dones (self st)) = [E] -> well_formed (dones (self st)) ->
  exists enc mbo mba mbr mbm mbd mbk st',
    run World States model_step env_step st
    = (Ok (enc, mbo, mba, mbr, mbm, mbd, mbk), st') /\
    forall e l h w c,
      (e < E)%nat -> (l < n)%nat -> (h < H)%nat -> (w < W)%nat ->
      (c < C)%nat ->
      at_index enc [e; l; h; w; c]
      = if at_index mbd [e; 0%nat] =? 1 then 0
        else at_index mbo [e; 0%nat; h; w; (l * C + c)%nat].
Proof.
  intros Henv Hmodel Hn HN HC Hns Hnk Hnc Hl0 SS0 WS0 Sd0 Wd0.
  destruct (run_facts World States model_step env_step E H W C A
              Henv Hmodel st S0 n N Hn HN HC Hns Hnk Hnc Hl0 SS0 WS0
              Sd0 Wd0)
    as (enc & mbo & mba & mbr & mbm & mbd & mbk & st' & Hrun & Senc & Smbo
        & Smba & Smbr & Smbm & Smbd & Wmbd & Smbk & Hfirst & Hk0 & Hflags
        & Hshift & Hlook).
  exists enc, mbo, mba, mbr, mbm, mbd, mbk, st'.
  split; [exact Hrun|].
  intros e l h w c He Hl Hh Hw Hc.
  assert (Hj : (l * C + c < n * C)%nat).
  { apply Nat.lt_le_trans with (S l * C)%nat; [cbn [Nat.mul]; lia|].
    apply Nat.mul_le_mono_r. lia. }
  rewrite Hlook, Hfirst by assumption.
  destruct (Hflags e 0%nat He HN) as [_ [-> | ->]]; cbn [Z.eqb Pos.eqb]; ring.
Qed.

(** X18: [decode] on the frames and flags that [run] returns, for four
    stacked frames and a buffer with the parameters of the runner.  It
    returns the stacks of the rollout from the second one on; the first
    stack comes back blanked for the environments whose episode ended
    at the first step. *)
Theorem decode_reconstructs_rollout (junk : Z) (b : Buffer)
  (st : state World States) (S0 : ndarray) (E H W C A N : nat) :
  env_returns env_step E H W C -> model_returns model_step E A ->
  (1 <= N)%nat -> (1 <= C)%nat ->
  n_steps (self st) = Z.of_nat N ->
  n_stack (self st) = 4 ->
  num_channels (self st) = Z.of_nat C ->
  nth_error (heap st) (obs (self st)) = Some S0 ->
  shape S0 = [E; H; W; (4 * C)%nat] -> well_formed S0 ->
  shape (dones (self st)) = [E] -> well_formed (dones (self st)) ->
  ReplayBuffer.n_stack b = 4 -> ReplayBuffer.n_steps b = Z.of_nat N ->
  n_env b = Z.of_nat E -> height b = Z.of_nat H -> width b = Z.of_nat W ->
  n_channels b = Z.of_nat C ->
  exists enc mbo mba mbr mbm mbd mbk st' dec,
    run World States model_step env_step st
    = (Ok (enc, mbo, mba, mbr, mbm, mbd, mbk), st') /\
    decode junk b enc mbd = Ok dec /\
    shape dec = shape mbo /\
    forall e s h w j,
      (e < E)%nat -> (s <= N)%nat -> (h < H)%nat -> (w < W)%nat ->
      (j < 4 * C)%nat ->
      at_index dec [e; s; h; w; j]
      = if (s =? 0)%nat && (at_index mbd [e; 0%nat] =? 1) then 0
        else at_index mbo [e; s; h; w; j].
Proof.
  intros Henv Hmodel HN HC Hns Hnk Hnc Hl0 SS0 WS0 Sd0 Wd0
         Bst Bn Be Bh Bw Bc.
  destruct (run_facts World States model_step env_step E H W C A
              Henv Hmodel st S0 4 N ltac:(lia) HN HC Hns Hnk Hnc Hl0 SS0
              WS0 Sd0 Wd0)
    as (enc & mbo & mba & mbr & mbm & mbd & mbk & st' & Hrun & Senc & Smbo
        & Smba & Smbr & Smbm & Smbd & Wmbd & Smbk & Hfirst & Hk0 & Hflags
        & Hshift & Hlook).
  rewrite (Nat.add_comm 4 N) in Senc.
  destruct (decode_four_frames_spec junk b enc mbd N E H W C
              Bst Bn Be Bh Bw Bc Senc Smbd Wmbd)
    as (dec & Edec & Sdec & Adec).
  exists enc, mbo, mba, mbr, mbm, mbd, mbk, st', dec.
  split; [exact Hrun|split; [exact Edec|split; [congruence|]]].
  intros e s h w j He Hs Hh Hw Hj.
  assert (HC0 : C <> 0%nat) by lia.
  assert (Ej : j = ((j / C) * C + j mod C)%nat).
  { rewrite Nat.mul_comm. apply Nat.div_mod_eq. }
  assert (Hl : (j / C < 4)%nat).
  { apply Nat.Div0.div_lt_upper_bound. lia. }
  assert (Hc : (j mod C < C)%nat) by (apply Nat.mod_upper_bound; exact HC0).
  rewrite Ej. rewrite Adec by assumption.
  destruct s as [|s].
  - cbn [Nat.eqb Nat.add andb].
    rewrite keep_product_lookback by lia.
    rewrite Hlook, Hfirst by (try assumption; rewrite <- Ej; exact Hj).
    destruct (Hflags e 0%nat He HN) as [_ [-> | ->]]; cbn [Z.eqb Pos.eqb]; ring.
  - cbn [Nat.eqb andb].
    apply (decode_run_agree enc mbo mbd S0 E H W C N e h w He Hh Hw).
    + intros j' Hj'. apply Hfirst; assumption.
    + intros t Ht. apply (Hflags e t He Ht).
    + intros s' j' Hs' Hj'. apply Hshift; assumption.
    + intros l' c' Hl' Hc'. apply Hlook; assumption.
    + lia.
    + exact Hl.
    + exact Hc.
Qed.

(** X19: [update_obs] without termination flags, as the constructor of
    the runner calls it: nothing is blanked and no array of the store
    changes; the stack becomes a new array, in which the channels have
    moved down by [c] and the frame takes the last [c] channels. *)
Theorem update_obs_without_flags (st : state World States) (a f : ndarray)
  (E H W K c : nat) :
  nth_error (heap st) (obs (self st)) = Some a ->
  shape a = [E; H; W; K] ->
  num_channels (self st) = Z.of_nat c -> (1 <= c <= K)%nat ->
  shape f = [E; H; W; c] ->
  exists a1,
    update_obs World States f None st
    = (Ok tt,
       mk_state (with_obs States (self st) (length (heap st))) (world st)
                (heap st ++ [a1])) /\
    shape a1 = [E; H; W; K] /\
    forall e h w j, (e < E)%nat -> (h < H)%nat -> (w < W)%nat ->
      (j < K)%nat ->
      at_index a1 [e; h; w; j]
      = if (j <? K - c)%nat
        then at_index a [e; h; w; (j + c)%nat]
        else at_index f [e; h; w; (j - (K - c))%nat].
Proof.
  intros Hl Sa Hc Hck Sf.
  destruct st as [r w0 h]. cbn [self heap world] in *.
  destruct (roll3_spec a E H W K c Sa) as (rl & Er & Sr & Wr & Ar).
  destruct (set_axis3_from_spec rl f E H W K c Sr Sf Hck)
    as (a1 & E1 & S1 & W1 & A1).
  exists a1. split; [|split; [exact S1|]].
  - unfold update_obs, bind, ret, get_self, load, lift, store, alloc,
      set_self, full_slice4.
    cbn [self heap world obs num_channels with_obs].
    rewrite Hl, Hc, Er. cbn [self heap world obs num_channels with_obs].
    rewrite nth_error_app2 by lia.
    rewrite Nat.sub_diag. cbn [nth_error].
    rewrite Sf. cbn [length Nat.leb]. rewrite ?Hc, E1.
    cbn [self heap world obs num_channels with_obs].
    rewrite update_last. reflexivity.
  - intros e hh w j He Hh Hw Hj. rewrite A1 by assumption.
    destruct (Nat.ltb_spec j (K - c)) as [Hlt'|Hge]; [|reflexivity].
    rewrite Ar by (try assumption; lia). reflexivity.
Qed.

End RunnerProperties.

Section RunnerWitnesses.

Import Fixtures Rollout RunnerFixtures.

Lemma env_step1_returns : env_returns env_step1 1 1 1 1.
Proof.
  intros w a. unfold env_step1. cbv beta iota.
  repeat (split; [reflexivity|]).
  intros e He. destruct e as [|e]; [|lia].
  destruct (Nat.even w); [right|left]; reflexivity.
Qed.

Lemma model_step1_returns : model_returns model_step1 1 2.
Proof. intros w o s d. unfold model_step1. split; reflexivity. Qed.

Lemma full_flag (x : Z) (e : nat) :
  x = 0 \/ x = 1 -> (e < 1)%nat ->
  at_index (full [1]%nat x) [e] = 0 \/ at_index (full [1]%nat x) [e] = 1.
Proof.
  intros Hx He. destruct e as [|e]; [|lia].
  change (at_index (full [1]%nat x) [0%nat]) with x. exact Hx.
Qed.

Lemma update_obs_shifts_stack_witness :
  let st := runner1 in
  let a := numbered [1; 1; 1; 4]%nat in
  let f := full [1; 1; 1; 1]%nat 9 in
  let d := full [1]%nat 1 in
  let E := 1%nat in let H := 1%nat in let W := 1%nat in
  let K := 4%nat in let c := 1%nat in
  exists a0 a1,
    update_obs nat unit f (Some d) st
    = (Ok tt,
       mk_state (with_obs unit (self st) (length (heap st))) (world st)
                (update (heap st) (obs (self st)) a0 ++ [a1])) /\
    shape a0 = [E; H; W; K] /\ shape a1 = [E; H; W; K] /\
    forall e h w j, (e < E)%nat -> (h < H)%nat -> (w < W)%nat ->
      (j < K)%nat ->
      at_index a0 [e; h; w; j]
      = (if at_index d [e] =? 1 then 0 else at_index a [e; h; w; j]) /\
      at_index a1 [e; h; w; j]
      = if (j <? K - c)%nat
        then at_index a0 [e; h; w; (j + c)%nat]
        else at_index f [e; h; w; (j - (K - c))%nat].
Proof.
  cbv zeta.
  apply (update_obs_shifts_stack nat unit runner1
           (numbered [1; 1; 1; 4]%nat) (full [1; 1; 1; 1]%nat 9)
           (full [1]%nat 1) 1 1 1 4 1);
    try reflexivity; try lia.
  intros e He. apply full_flag; [right; reflexivity|exact He].
Defined.

Lemma update_obs_without_flags_witness :
  let st := runner1 in
  let a := numbered [1; 1; 1; 4]%nat in
  let f := full [1; 1; 1; 1]%nat 9 in
  let E := 1%nat in let H := 1%nat in let W := 1%nat in
  let K := 4%nat in let c := 1%nat in
  exists a1,
    update_obs nat unit f None st
    = (Ok tt,
       mk_state (with_obs unit (self st) (length (heap st))) (world st)
                (heap st ++ [a1])) /\
    shape a1 = [E; H; W; K] /\
    forall e h w j, (e < E)%nat -> (h < H)%nat -> (w < W)%nat ->
      (j < K)%nat ->
      at_index a1 [e; h; w; j]
      = if (j <? K - c)%nat
        then at_index a [e; h; w; (j + c)%nat]
        else at_index f [e; h; w; (j - (K - c))%nat].
Proof.
  cbv zeta.
  apply (update_obs_without_flags nat unit runner1
           (numbered [1; 1; 1; 4]%nat) (full [1; 1; 1; 1]%nat 9)
           1 1 1 4 1);
    try reflexivity; lia.
Defined.

Lemma run_returns_rollout_witness :
  let st := runner1 in
  let S0 := numbered [1; 1; 1; 4]%nat in
  let E := 1%nat in let H := 1%nat in let W := 1%nat in
  let C := 1%nat in let A := 2%nat in let n := 4%nat in let N := 2%nat in
  exists enc mbo mba mbr mbm mbd mbk st',
    run nat unit model_step1 env_step1 st
    = (Ok (enc, mbo, mba, mbr, mbm, mbd, mbk), st') /\
    shape enc = [E; (n + N)%nat; H; W; C] /\
    shape mbo = [E; (N + 1)%nat; H; W; (n * C)%nat] /\
    shape mba = [E; N] /\ shape mbr = [E; N] /\ shape mbm = [E; N; A] /\
    shape mbd = [E; N] /\ shape mbk = [E; (N + 1)%nat] /\
    (forall e h w j,
       (e < E)%nat -> (h < H)%nat -> (w < W)%nat -> (j < n * C)%nat ->
       at_index mbo [e; 0; h; w; j]%nat = at_index S0 [e; h; w; j]) /\
    (forall e, (e < E)%nat ->
       at_index mbk [e; 0]%nat = at_index (dones (self st)) [e]) /\
    (forall e t, (e < E)%nat -> (t < N)%nat ->
       at_index mbd [e; t] = at_index mbk [e; (t + 1)%nat] /\
       (at_index mbd [e; t] = 0 \/ at_index mbd [e; t] = 1)) /\
    (forall e s h w j,
       (e < E)%nat -> (s < N)%nat -> (h < H)%nat -> (w < W)%nat ->
       (j < n * C)%nat ->
       at_index mbo [e; (s + 1)%nat; h; w; j]
       = if (j <? n * C - C)%nat
         then (if at_index mbd [e; s] =? 1 then 0
               else at_index mbo [e; s; h; w; (j + C)%nat])
         else at_index enc [e; (n + s)%nat; h; w; (j - (n * C - C))%nat]).
Proof.
  cbv zeta.
  apply (run_returns_rollout nat unit model_step1 env_step1 runner1
           (numbered [1; 1; 1; 4]%nat) 1 1 1 1 2 4 2
           env_step1_returns model_step1_returns);
    try reflexivity; lia.
Defined.

Lemma run_lookback_frames_are_blanked_witness :
  let st := runner1 in
  let E := 1%nat in let H := 1%nat in let W := 1%nat in
  let C := 1%nat in let n := 4%nat in
  exists enc mbo mba mbr mbm mbd mbk st',
    run nat unit model_step1 env_step1 st
    = (Ok (enc, mbo, mba, mbr, mbm, mbd, mbk), st') /\
    forall e l h w c,
      (e < E)%nat -> (l < n)%nat -> (h < H)%nat -> (w < W)%nat ->
      (c < C)%nat ->
      at_index enc [e; l; h; w; c]
      = if at_index mbd [e; 0%nat] =? 1 then 0
        else at_index mbo [e; 0%nat; h; w; (l * C + c)%nat].
Proof.
  cbv zeta.
  apply (run_lookback_frames_are_blanked nat unit model_step1 env_step1
           runner1 (numbered [1; 1; 1; 4]%nat) 1 1 1 1 2 4 2
           env_step1_returns model_step1_returns);
    try reflexivity; lia.
Defined.

Lemma decode_reconstructs_rollout_witness :
  let st := runner1 in
  let b := mk_Buffer 1 2 1 1 1 4 2 3 None None None None None None 0 0 in
  let E := 1%nat in let H := 1%nat in let W := 1%nat in
  let C := 1%nat in let N := 2%nat in
  exists enc mbo mba mbr mbm mbd mbk st' dec,
    run nat unit model_step1 env_step1 st
    = (Ok (enc, mbo, mba, mbr, mbm, mbd, mbk), st') /\
    decode 0 b enc mbd = Ok dec /\
    shape dec = shape mbo /\
    forall e s h w j,
      (e < E)%nat -> (s <= N)%nat -> (h < H)%nat -> (w < W)%nat ->
      (j < 4 * C)%nat ->
      at_index dec [e; s; h; w; j]
      = if (s =? 0)%nat && (at_index mbd [e; 0%nat] =? 1) then 0
        else at_index mbo [e; s; h; w; j].
Proof.
  cbv zeta.
  apply (decode_reconstructs_rollout nat unit model_step1 env_step1 0
           (mk_Buffer 1 2 1 1 1 4 2 3 None None None None None None 0 0)
           runner1 (numbered [1; 1; 1; 4]%nat) 1 1 1 1 2 2
           env_step1_returns model_step1_returns);
    try reflexivity; lia.
Defined.

End RunnerWitnesses.
